(* ===== verification/_CoqProject ===== *)
-Q . S2P
Prelude.v
Host.v
HostFacts.v
Trace.v
Handles.v
Options.v
Zfs.v
Config.v
Resolv.v
Extract.v
Fetch.v
FetchTyped.v
FetchHandles.v
FetchInv.v
FetchCommute.v
FetchRun.v
FetchOrder.v
FetchRerun.v
FetchLive.v
FetchExtract.v
Pipeline.v
Events.v
Frame.v
Rerun.v
Outcome.v
