(* ===== verification/Prelude.v ===== *)
(** * jail-builder: a verification development

  The program (package [jailbuilder], files [src/build.go] and [src/zfs.go])
  provisions FreeBSD jails: it creates a ZFS dataset for a release, downloads
  the three base archives concurrently, unpacks them, patches the tree with
  [freebsd-update], writes the tree's resolver configuration, snapshots the
  dataset and clones the snapshot once per jail.

  ** Files, in dependency order

  - [Prelude] (this file): Go's [error] values as the inductive [error]; the
    monad [M S A := S -> Res A * S] in which every Go function returning
    [error] or [(T, error)] is written (the state survives a failure: the
    program never rolls anything back); its notation scope [go_scope], its
    pointwise equivalence with [Proper] instances, the inversion lemmas and
    tactics the components share ([solve_preserves], hint database [go]);
    the loop combinators [forM_] (a [for ... range] whose body may
    [return err]) and [iter_] (one whose body's errors are dropped);
    [defer] (a call that runs when the function returns, whatever it
    returns, and whose own result is dropped);
    strings ([dquote], associativity of append, [dirname], [no_slash],
    [has_prefix]); filters of lists.
  - [Host]: the machine the program runs on.  The state [World] (file system,
    ZFS pool, standard output, trace of external interactions, the
    descriptors the process holds open) and the oracles [Host] (HTTP replies to a [Client], archive decoder, process
    runner, failing disk).  The operations of Go's [os], [io], [net/http], [os/exec], [fmt],
    [archiver] and of [utils.Exists], each in a [Module] of the package's
    name, and the [Wrapper] interface with its implementation [Wrap]: code
    the sources call but do not contain, modelled from the specification
    and from the documented behaviour of those packages.
  - [HostFacts]: what the operations of [Host] compute on each branch, and
    that each keeps the invariant [fs_wf] (every file and directory lies in
    a directory, no path is both).
  - [Trace]: the commands a computation starts, read off the trace of the
    world: [runs m cs] and [quiet m], with the rule for sequences.
  - [Handles]: the discipline of descriptors.  [balanced m]: the
    computation returns with the descriptors it was called with, on every
    path; the rules that prove it for a computation built from the
    operations of [Host], with one rule for the idiom that opens a
    descriptor, checks the error and defers the [Close]
    ([balanced_bracket]), and the tactic [solve_balanced].
  - [Options]: [Opts], [Opts.Validate], [Builder], [New]
    ([src/build.go] lines 18-66).  Theorems: the validator reports the
    first missing field; [New] builds exactly for complete options.
  - [Zfs]: [CreateZFSDataset], [CreateZFSSnapshot], [CloneBaseToJail],
    [CreateBaseJailDataset] ([src/zfs.go]) over any [Wrapper]; a reference
    semantics of the [zfs] binary on the pool ([zfs_run]) with its
    invariant [pool_wf]; the class [ZfsHost] of the hosts whose [zfs]
    behaves like it.  Theorems: what each method does on such a host
    (idempotent dataset creation, the conditions of a snapshot, the clone
    that is always refused), preservation of [pool_wf].
  - [Config]: [BaseJailSysConf], [SetLocaltime], [SetResolvConf],
    [ConfigureJailHostname], [SetBaseJailConf]
    ([src/build.go] lines 144-213).  Theorems: every branch of each method
    ([SetResolvConf_Some_run], [copy_spec]), the content written, the
    errors dropped, the method that always fails, and that each method
    closes the files it opened on every path.
  - [Resolv]: the reader of the resolver file ([lines], [parse_resolv])
    and the round trip: what [SetResolvConf] prints reads back as the list
    it was given, unless an entry holds a line feed.
  - [Extract]: [ExtractBasePkgs] and [UpdateBaseJail]
    ([src/build.go] lines 113-142), and the command line of
    [freebsd-update] ([fu_parse]).  Theorems: order of extraction, the
    files it leaves ([extract_all]: a later entry replaces an earlier one)
    and first failure, the process the patcher starts, the refusal of its
    arguments.
  - [Fetch]: [DownloadBaseSystem] ([src/build.go] lines 68-111).  The
    method's own thread ([main_step]) and the goroutines started with
    [errgroup.Group.Go] ([task_step]) are threads of a small-step machine
    ([step]) driven by a schedule ([run_sched], then [run_fair]); the
    client [hc] the closure builds goes to the host with every request.
    Theorems: every step uses up the measure, so the method returns under
    every schedule, within fifteen steps; the address of a package.
  - [FetchTyped]: a decidable typing of configurations ([config_typed])
    kept by every step: the handle of a goroutine is the writable handle of
    its own cache file, the goroutines are never more than the packages
    walked.
  - [FetchHandles]: the descriptors of the fetcher.  [held] is what a
    goroutine holds at each point of the closure; the invariant
    [handles_inv] (the descriptors open are the caller's and those the
    goroutines hold) is kept by every step of every thread.
  - [FetchInv]: the invariant [inv] of the reachable configurations, by
    induction on [reachable], and what it gives for a configuration the
    method returns from.
  - [FetchCommute]: a step of a goroutine as a function of what the
    goroutine sees, its own cache file and the directories
    ([local_step]), with an effect on the world ([apply_effect]).
    Theorem: the steps of two goroutines commute, up to the order of the
    requests in the trace ([world_equiv]) and the error the group keeps.
  - [FetchRun]: the theorems on a whole run: the final file system and
    success as functions of the initial world alone ([fetch_outcome],
    [fetch_fs]), the requests sent (one for each package that comes to
    its request, up to order), equivalence with the fetcher without
    goroutines
    ([DownloadSeq]), isolation of the goroutines, the goroutines started,
    the warm cache, what a failed download leaves, the dependence of the
    error returned on the schedule, the descriptors open at every moment
    and their number (six at most, and six are reached).
  - [FetchOrder]: the order in which the goroutines return.  [full_sched]
    is the whole schedule of a run (the schedule given, then the threads
    [run_fair] picks), [returns] the goroutines that return along it, in
    the order of time, each with what it returned.  Theorem: the method
    returns the first error of that list, and the list holds each
    goroutine once, with what it is found to have returned in the end.
  - [FetchRerun]: the fetcher run again.  The closure creates its file
    before it sends the request, so after any run every package whose
    file could be created has one: the next run sends no request and
    leaves the world as it found it, and it succeeds wherever the cache
    directory is a directory, also after a run that failed.
  - [FetchLive]: unending schedules as functions from time to threads
    ([run_stream]), weak fairness ([fair]).  Theorems: some thread can
    always move until the method returns; under a fair schedule it
    returns, with the result of the finite prefix; under the schedule that
    never runs a goroutine it never does.
  - [FetchExtract]: fetcher and extractor together: the extractor decodes,
    for each package fetched, the very bytes the mirror served; after a
    download that failed, the next fetch succeeds and the extractor is
    handed the empty or partial file.
  - [Pipeline]: [Initialize] and [CreateJail] ([src/build.go] lines
    215-252); the specification's pipeline as a relation over a list of
    named steps ([pipeline_spec], [run_steps]) and the refinement theorem;
    the first failure in both directions; the commands started and their
    order; preservation of [fs_wf]; the descriptors closed at the return,
    whatever step the run stops at; what the pipeline comes to on a
    [ZfsHost]; the hostname line read back ([rc_hostname]); the tree of
    the release against the mount point of its dataset.
  - [Events]: the trace of a run.  [emits P m]: the computation adds to
    the trace only events that pass [P]; each step of [Initialize] has
    its own events ([step_event]), and the events of a run are those of
    the steps that ran, step after step: no request is sent once an
    extraction has begun.
  - [Frame]: where the program writes.  [kept q v]: the file [q] holds
    [v] and no descriptor open for writing is one of [q]; every operation
    of [Host] on another path keeps it so.  Theorem: [Initialize] writes
    only to the cache files, below the tree of the release and to the
    [rc.conf] of the jail, on a host whose programs leave the file in
    question alone ([Untouched]).
  - [Rerun]: a run of [Initialize] after one that took the snapshot: on a
    [ZfsHost] whose patcher leaves the pool alone ([EnvHost]) it stops
    before the jail; no step removes a dataset or a snapshot
    ([pool_le]), so what a run made before it failed stays.
  - [Outcome]: the steps of [Initialize] composed on a [ZfsHost]: a run
    that comes to the jail step ends with the error of the clone and
    leaves the snapshot of a tree whose resolver file is empty, no jail
    and no descriptor open.

  ** How the model corresponds to the code

  - A Go [string] is a [string]; a [[]string] that may be [nil] is an
    [option (list string)] ([None] is [nil], [Some []] is the empty non-nil
    slice: [SetResolvConf] tells them apart).
  - A method [func (b *Builder) F(...) error] is a definition
    [F (b : Builder) ... : M World unit]; the methods that call the host
    directly take the host [H] as well.  [if err := f(); err != nil
    { return err }] is the monad's bind; a call whose error is not bound
    is [ignore].
  - [x, err := open(...); if err != nil { return err }; defer x.Close();
    rest] is [x <- open ... ;; defer (Close x) rest]: the rest of the
    function is the body of the [defer], so the [Close] runs at every
    return of the function behind the [defer] statement and at none before
    it.  [os.Create], [os.Open] and [hc.Do] add the descriptor they return
    to [handles]; [Close] takes it out; a read or a write through a file
    that was closed fails with [os.ErrClosed], as does its second [Close].
    The theorems on what the methods write therefore also say that no
    method uses a file it has closed.
  - The interface value [Builder.wrapper] is a record of two operations
    ([Wrapper]); [New] installs [Wrap], which runs the host's process runner.
  - The goroutines of [DownloadBaseSystem] are interleaved at the
    granularity of the calls that touch the world: [os.Create], the
    request, [io.Copy].  A step after which the closure returns runs the
    deferred calls pending at that point in the same step: [out.Close()]
    when the request fails, [res.Body.Close()] and then [out.Close()]
    after the copy.  The closure's copies [pkg] and [pkgFile] of the
    loop variables are the fields of [task].
  - [time.Second * 300] is a number of nanoseconds in [N], within the 64
    bits of a [time.Duration] ([hc_config]); the structs [http.Client],
    [http.Transport] and [tls.Config] are records with the fields the
    source sets.
  - Paths are compared as strings: no normalisation of [..], doubled slashes
    or symbolic links.

  ** Bounds and fuel

  The only iteration that is not structural is the scheduler of [Fetch].
  It consumes a schedule (a list of thread choices, a choice that cannot
  move being skipped) and then lets every thread run to its end with
  [run_fair], whose fuel is [measure]: three steps per goroutine still to
  run, four per package still to walk.  [step_measure] shows that every
  step uses up some of it and [run_fair_finished] that it is enough; for
  the three packages of [basePackages] it is at most fifteen.  An unending
  schedule ([FetchLive]) is a function [nat -> tid] run for a number of
  steps; the theorems on it give the number of steps after which the
  method has returned and show that later steps change nothing.

  ** The reference models

  [zfs_run] (in [Zfs]), [fu_parse] (in [Extract]), [parse_resolv] (in
  [Resolv]) and [rc_hostname] (in [Pipeline]) describe programs and formats of the operating system, not
  code of the repository; theorems that depend on them say so, through
  the classes [ZfsHost] and [EnvHost] or in their statement.  The
  hosts of the examples ([zfs_only], [mirror_host], [archive_host],
  [ref_host], [yes_host], [bad_disk]) instantiate the oracles so that the
  theorems can be applied to concrete worlds and the methods evaluated.

  ** Not modelled

  The bytes of HTTP, TLS, tar and xz (the oracles of [Host] stand for them);
  time: the limit of the client is a value the oracle is given, and a
  download that runs into it is a reply that fails or a body that is cut;
  redirects and TLS handshakes, for the same reason; what
  [freebsd-update] does to the tree; the link between a ZFS dataset and
  the directory it is mounted on, beyond the name of that directory
  ([tree_is_mountpoint]): the one method that writes into a clone,
  [CreateJail], never gets past the clone on the reference [zfs]; permissions, quotas and other causes of
  [os] errors beyond a missing parent, an existing entry, a directory in
  place of a file, a read-only handle, a closed handle and a set of paths
  on which writes fail; the limit of the system on open descriptors (the
  program holds six of its own at most, [descriptors_bounded]) and an
  error of [Close] on a descriptor that is open; the descriptors
  [archiver] opens and closes inside the library, and those of the child
  processes. *)

From stdpp Require Import base gmap strings list.

Set Default Proof Using "Type".

(** ** Go errors *)

(** The error numbers of [*os.PathError] that the model can produce. *)
Inductive errno := ENOENT | EEXIST | EISDIR | ENOTDIR | EBADF | EIO | ECLOSED.

(** A Go [error] value, by the constructor of the package that made it. *)
Inductive error :=
| ErrNew (msg : string)                   (* errors.New(msg) *)
| ErrPath (op path : string) (no : errno) (* *os.PathError *)
| ErrURL (op url : string)                (* *url.Error of net/http *)
| ErrExec (name : string)                 (* *exec.Error: no such program *)
| ErrExit (code : nat)                    (* *exec.ExitError *)
| ErrArchive (src : string).              (* an error of archiver *)

#[export] Instance errno_eq_dec : EqDecision errno.
Proof. solve_decision. Defined.

#[export] Instance error_eq_dec : EqDecision error.
Proof. solve_decision. Defined.

(** ** Results and the state-and-error monad *)

Inductive Res (A : Type) := Ok (a : A) | Err (e : error).
Arguments Ok {A} a.
Arguments Err {A} e.

#[export] Instance Res_eq_dec `{EqDecision A} : EqDecision (Res A).
Proof. solve_decision. Defined.

Definition is_ok {A} (r : Res A) : bool :=
  match r with Ok _ => true | Err _ => false end.

(** What a Go caller sees of a function returning [error]. *)
Definition err_of {A} (r : Res A) : option error :=
  match r with Ok _ => None | Err e => Some e end.

Definition M (S A : Type) : Type := S -> Res A * S.

Definition ret {S A} (a : A) : M S A := fun s => (Ok a, s).

Definition fail {S A} (e : error) : M S A := fun s => (Err e, s).

Definition bind {S A B} (m : M S A) (k : A -> M S B) : M S B :=
  fun s => match m s with
           | (Ok a, s') => k a s'
           | (Err e, s') => (Err e, s')
           end.

Definition gets {S A} (f : S -> A) : M S A := fun s => (Ok (f s), s).

Definition modify {S} (f : S -> S) : M S unit := fun s => (Ok tt, f s).

(** [_, _ = f()]: run [m] and drop its error, as Go does for a call whose
    results are not bound. *)
Definition ignore {S A} (m : M S A) : M S unit :=
  fun s => (Ok tt, snd (m s)).

(** [defer cleanup] followed by the rest of the function, [body]: the
    cleanup runs when the function returns, with an error or without, its
    own result is dropped, and the function returns what [body] did. *)
Definition defer {S A} (cleanup : M S unit) (body : M S A) : M S A :=
  fun s => let '(r, s') := body s in (r, snd (cleanup s')).

(** A Go [error] result as a result of the monad: [nil] is success. *)
Definition res_of (o : option error) : Res unit :=
  match o with None => Ok tt | Some e => Err e end.

(** [return err] for an [err] that may be [nil]. *)
Definition of_err {S} (o : option error) : M S unit := fun s => (res_of o, s).

Declare Scope go_scope.
Delimit Scope go_scope with go.
Notation "x <- c ;; k" := (bind c (fun x => k))
  (at level 100, c at next level, k at level 200, right associativity) : go_scope.
Notation "c ;; k" := (bind c (fun _ => k))
  (at level 100, k at level 200, right associativity) : go_scope.
#[global] Open Scope go_scope.

(** [for _, x := range l { if err := f(x); err != nil { return err } }]. *)
Fixpoint forM_ {S A} (f : A -> M S unit) (l : list A) : M S unit :=
  match l with
  | [] => ret tt
  | x :: l' => f x ;; forM_ f l'
  end.

(** [for _, x := range l { f(x) }] with the results of [f] dropped. *)
Fixpoint iter_ {S A B} (f : A -> M S B) (l : list A) : M S unit :=
  match l with
  | [] => ret tt
  | x :: l' => ignore (f x) ;; iter_ f l'
  end.

(** ** Strings *)

(** The double quote, built from its code: 34. *)
Definition dquote : string :=
  String (Ascii.Ascii false true false false false true false false) EmptyString.

(** The line feed, code 10: Go's ["\n"]. *)
Definition newline : string :=
  String (Ascii.Ascii false true false true false false false false) EmptyString.

Definition slash : Ascii.ascii :=
  Ascii.Ascii true true true true false true false false.

Definition is_slash (c : Ascii.ascii) : bool := bool_decide (c = slash).

Fixpoint no_slash (s : string) : bool :=
  match s with
  | EmptyString => true
  | String c s' => negb (is_slash c) && no_slash s'
  end.

(** The directory part of a path: what precedes its last slash.  [None]
    for a path with no slash (a name in the working directory); [Some ""]
    for a name directly under the root. *)
Fixpoint dirname (s : string) : option string :=
  match s with
  | EmptyString => None
  | String c s' =>
      match dirname s' with
      | Some d => Some (String c d)
      | None => if is_slash c then Some EmptyString else None
      end
  end.

(** The prefixes of a path that end where a component ends, the shortest
    first and the path itself last: its ancestors and itself. *)
Fixpoint prefixes_go (pre s : string) : list string :=
  match s with
  | EmptyString => [pre]
  | String a s' =>
      if is_slash a then pre :: prefixes_go (pre +:+ "/") s'
      else prefixes_go (pre +:+ String a EmptyString) s'
  end.

Definition prefixes (s : string) : list string := prefixes_go "" s.

Fixpoint has_prefix (p s : string) : bool :=
  match p, s with
  | EmptyString, _ => true
  | String a p', String b s' => bool_decide (a = b) && has_prefix p' s'
  | String _ _, EmptyString => false
  end.

(** Pointwise equality of computations: what setoid rewriting under [bind]
    uses, in place of functional extensionality. *)
#[export] Instance M_equiv {S A} : Equiv (M S A) := fun m1 m2 => forall s, m1 s = m2 s.

(** [m] keeps the invariant [P] of the state, whether it succeeds or
    fails. *)
Definition preserves {S A} (P : S -> Prop) (m : M S A) : Prop :=
  forall s, P s -> P (m s).2.

(** ** Tactics *)

(** Split the hypotheses that say a run returned a given result. *)
Ltac invert H := inversion H; subst; clear H.

Ltac destruct_run m s :=
  let r := fresh "r" in
  let s' := fresh "s" in
  let E := fresh "E" in
  destruct (m s) as [r s'] eqn:E; destruct r.

Create HintDb go discriminated.
Create Rewrite HintDb go.

(** ** Lemmas on the monad *)

Section monad.
Context {S : Type}.

#[export] Instance M_equivalence {A} : Equivalence (≡@{M S A}).
Proof.
  split; [by intros m s | by intros m1 m2 H s | ].
  intros m1 m2 m3 H1 H2 s. by rewrite H1.
Qed.

#[export] Instance bind_proper {A B} :
  Proper ((≡) ==> pointwise_relation A (≡) ==> (≡)) (@bind S A B).
Proof.
  intros m1 m2 Hm k1 k2 Hk s. unfold bind. rewrite Hm.
  destruct (m2 s) as [[a|e] s']; [apply Hk | done].
Qed.

Lemma bind_ret_l {A B} (a : A) (k : A -> M S B) : (x <- ret a ;; k x) ≡ k a.
Proof. by intros s. Qed.

Lemma bind_ret_r {A} (m : M S A) : (x <- m ;; ret x) ≡ m.
Proof. intros s. unfold bind, ret. by destruct (m s) as [[a|e] s']. Qed.

Lemma bind_assoc {A B C} (m : M S A) (k : A -> M S B) (h : B -> M S C) :
  (y <- (x <- m ;; k x) ;; h y) ≡ (x <- m ;; y <- k x ;; h y).
Proof. intros s. unfold bind. by destruct (m s) as [[a|e] s']. Qed.

Lemma bind_fail {A B} (e : error) (k : A -> M S B) : (x <- fail e ;; k x) ≡ fail e.
Proof. by intros s. Qed.

Lemma bind_ext {A B} (m : M S A) (k1 k2 : A -> M S B) s :
  (forall a s', k1 a s' = k2 a s') -> bind m k1 s = bind m k2 s.
Proof. intros H. unfold bind. by destruct (m s) as [[a|e] s']. Qed.

Lemma bind_ok {A B} (m : M S A) (k : A -> M S B) s a s' :
  m s = (Ok a, s') -> bind m k s = k a s'.
Proof. unfold bind. by intros ->. Qed.

Lemma bind_err {A B} (m : M S A) (k : A -> M S B) s e s' :
  m s = (Err e, s') -> bind m k s = (Err e, s').
Proof. unfold bind. by intros ->. Qed.

(** A bind that succeeded ran both halves. *)
Lemma bind_inv_ok {A B} (m : M S A) (k : A -> M S B) s b s2 :
  bind m k s = (Ok b, s2) ->
  exists a s1, m s = (Ok a, s1) /\ k a s1 = (Ok b, s2).
Proof. unfold bind. destruct (m s) as [[a|e] s1]; [eauto | done]. Qed.

(** A bind that failed stopped in its first half, or ran it and failed in
    the second. *)
Lemma bind_inv_err {A B} (m : M S A) (k : A -> M S B) s e s2 :
  bind m k s = (Err e, s2) ->
  m s = (Err e, s2) \/ exists a s1, m s = (Ok a, s1) /\ k a s1 = (Err e, s2).
Proof. unfold bind. destruct (m s) as [[a|e'] s1]; naive_solver. Qed.

Lemma ignore_run {A} (m : M S A) s : ignore m s = (Ok tt, snd (m s)).
Proof. done. Qed.

Lemma defer_run {A} (c : M S unit) (m : M S A) s :
  defer c m s = ((m s).1, (c (m s).2).2).
Proof. unfold defer. by destruct (m s). Qed.

(** A deferred call changes no result: the function returns what its body
    does, and a failing cleanup is not reported. *)
Lemma defer_result {A} (c : M S unit) (m : M S A) s : (defer c m s).1 = (m s).1.
Proof. by rewrite defer_run. Qed.

Lemma defer_ok {A} (c : M S unit) (m : M S A) s a s' :
  m s = (Ok a, s') -> defer c m s = (Ok a, (c s').2).
Proof. rewrite defer_run. by intros ->. Qed.

Lemma defer_err {A} (c : M S unit) (m : M S A) s e s' :
  m s = (Err e, s') -> defer c m s = (Err e, (c s').2).
Proof. rewrite defer_run. by intros ->. Qed.

Lemma of_err_run (o : option error) (s : S) : of_err o s = (res_of o, s).
Proof. done. Qed.

Lemma res_of_ok (o : option error) : res_of o = Ok tt <-> o = None.
Proof. by destruct o. Qed.

Lemma res_of_err (o : option error) e : res_of o = Err e <-> o = Some e.
Proof. destruct o; naive_solver. Qed.

(** A sequence whose second half always fails fails. *)
Lemma bind_never_ok {A B} (m : M S A) (k : A -> M S B) s :
  (forall a s', is_ok (k a s').1 = false) -> is_ok (bind m k s).1 = false.
Proof. intros Hk. unfold bind. destruct (m s) as [[a|e] s']; [apply Hk | done]. Qed.

(** A run is known once its result is: the state is whatever it left. *)
Lemma run_eq {A} (r : Res A * S) (x : Res A) : r.1 = x -> r = (x, r.2).
Proof. destruct r. by intros <-. Qed.

(** *** Loops *)

Lemma forM_app {A} (f : A -> M S unit) l1 l2 :
  forM_ f (l1 ++ l2) ≡ (forM_ f l1 ;; forM_ f l2).
Proof.
  induction l1 as [|x l1 IH]; intros s; simpl; [done|].
  rewrite (bind_assoc _ _ _ s). apply bind_ext. intros _ s'. apply IH.
Qed.

(** The loop fails exactly when some element fails after all the elements
    before it succeeded; the elements behind it are never run. *)
Lemma forM_inv_err {A} (f : A -> M S unit) l s e s' :
  forM_ f l s = (Err e, s') ->
  exists l1 x l2 s1,
    l = l1 ++ x :: l2 /\ forM_ f l1 s = (Ok tt, s1) /\ f x s1 = (Err e, s').
Proof.
  revert s. induction l as [|x l IH]; intros s; simpl; [done|].
  intros [H|(a & s1 & Hx & H)]%bind_inv_err.
  - by exists [], x, l, s.
  - destruct (IH _ H) as (l1 & y & l2 & s2 & -> & H1 & H2).
    exists (x :: l1), y, l2, s2. split_and!; [done| |done].
    simpl. by rewrite (bind_ok _ _ _ _ _ Hx).
Qed.

Lemma forM_ok_cons {A} (f : A -> M S unit) x l s s1 :
  f x s = (Ok tt, s1) -> forM_ f (x :: l) s = forM_ f l s1.
Proof. intros H. simpl. by rewrite (bind_ok _ _ _ _ _ H). Qed.

Lemma forM_err_at {A} (f : A -> M S unit) l1 x l2 s s1 e s' :
  forM_ f l1 s = (Ok tt, s1) -> f x s1 = (Err e, s') ->
  forM_ f (l1 ++ x :: l2) s = (Err e, s').
Proof.
  intros H1 H2. rewrite forM_app. rewrite (bind_ok _ _ _ _ _ H1). simpl.
  by rewrite (bind_err _ _ _ _ _ H2).
Qed.

Lemma iter_run_ok {A B} (f : A -> M S B) l s : fst (iter_ f l s) = Ok tt.
Proof.
  revert s. induction l as [|x l IH]; intros s; simpl; [done|].
  unfold bind. rewrite ignore_run. apply IH.
Qed.

End monad.

(** *** Loops and logs

  A loop whose body appends one entry to a log of the state: a run that
  succeeds logged every element, a run that fails logged the elements up
  to the failing one, and nothing behind it. *)

Section trace.
Context {S E A : Type} (tr : S -> list E) (f : A -> M S unit) (ev : A -> E).
Context (Hf : forall x s, tr (f x s).2 = tr s ++ [ev x]).

Lemma forM_trace_ok l s s' : forM_ f l s = (Ok tt, s') -> tr s' = tr s ++ map ev l.
Proof using Hf.
  revert s. induction l as [|x l IH]; intros s; simpl.
  - intros [= <-]. by rewrite app_nil_r.
  - intros ([] & s1 & Hx & Hl)%bind_inv_ok. rewrite (IH _ Hl).
    pose proof (Hf x s) as Ht. rewrite Hx in Ht. simpl in Ht.
    by rewrite Ht, <- app_assoc.
Qed.

Lemma forM_trace_err l s e s' :
  forM_ f l s = (Err e, s') ->
  exists l1 x l2 s1,
    l = l1 ++ x :: l2 /\ forM_ f l1 s = (Ok tt, s1) /\ f x s1 = (Err e, s') /\
    tr s' = tr s ++ map ev (l1 ++ [x]).
Proof using Hf.
  intros (l1 & x & l2 & s1 & -> & H1 & Hx)%forM_inv_err.
  exists l1, x, l2, s1. split_and!; try done.
  pose proof (Hf x s1) as Ht. rewrite Hx in Ht. simpl in Ht.
  by rewrite Ht, (forM_trace_ok _ _ _ H1), map_app, app_assoc.
Qed.

End trace.

(** ** Preservation of invariants *)

Section preserves.
Context {S : Type} (P : S -> Prop).

Lemma preserves_ret {A} (a : A) : preserves P (ret a).
Proof. by intros s. Qed.

Lemma preserves_fail {A} e : preserves P (@fail S A e).
Proof. by intros s. Qed.

Lemma preserves_gets {A} (f : S -> A) : preserves P (gets f).
Proof. by intros s. Qed.

Lemma preserves_of_err o : preserves P (@of_err S o).
Proof. by intros s. Qed.

Lemma preserves_bind {A B} (m : M S A) (k : A -> M S B) :
  preserves P m -> (forall a, preserves P (k a)) -> preserves P (bind m k).
Proof.
  intros Hm Hk s Hs. unfold bind. specialize (Hm s Hs).
  destruct (m s) as [[a|e] s']; [by apply Hk | done].
Qed.

Lemma preserves_ignore {A} (m : M S A) : preserves P m -> preserves P (ignore m).
Proof. intros Hm s Hs. by apply Hm. Qed.

Lemma preserves_defer {A} (c : M S unit) (m : M S A) :
  preserves P c -> preserves P m -> preserves P (defer c m).
Proof. intros Hc Hm s Hs. rewrite defer_run. by apply Hc, Hm. Qed.

Lemma preserves_forM {A} (f : A -> M S unit) l :
  (forall x, preserves P (f x)) -> preserves P (forM_ f l).
Proof.
  intros Hf. induction l as [|x l IH]; simpl; [apply preserves_ret|].
  by apply preserves_bind.
Qed.

Lemma preserves_forM_in {A} (f : A -> M S unit) l :
  (forall x, x ∈ l -> preserves P (f x)) -> preserves P (forM_ f l).
Proof.
  intros Hf. induction l as [|x l IH]; simpl; [apply preserves_ret|].
  apply preserves_bind; [apply Hf; left|intros _; apply IH].
  intros y Hy. apply Hf. by right.
Qed.

Lemma preserves_iter {A B} (f : A -> M S B) l :
  (forall x, preserves P (f x)) -> preserves P (iter_ f l).
Proof.
  intros Hf. induction l as [|x l IH]; simpl; [apply preserves_ret|].
  apply preserves_bind; [by apply preserves_ignore | done].
Qed.

End preserves.

#[export] Hint Resolve preserves_ret preserves_fail preserves_gets preserves_of_err
  preserves_bind preserves_forM preserves_iter preserves_ignore preserves_defer : go.

(** Preservation by a composite computation: one rule per combinator,
    the hints of [go] for the operations. *)
Ltac solve_preserves :=
  repeat match goal with
  | |- preserves _ (ret _) => apply preserves_ret
  | |- preserves _ (fail _) => apply preserves_fail
  | |- preserves _ (gets _) => apply preserves_gets
  | |- preserves _ (of_err _) => apply preserves_of_err
  | |- preserves _ (bind _ _) => apply preserves_bind; [|intros ?]
  | |- preserves _ (forM_ _ _) => apply preserves_forM; intros ?
  | |- preserves _ (iter_ _ _) => apply preserves_iter; intros ?
  | |- preserves _ (ignore _) => apply preserves_ignore
  | |- preserves _ (defer _ _) => apply preserves_defer
  | |- preserves _ (match ?x with _ => _ end) => destruct x
  | |- _ => solve [eauto with go]
  end.

(** ** Lemmas on lists *)

(** Two filters that agree on the elements of a list keep the same ones. *)
Lemma list_filter_iff_in {A} (P Q : A -> Prop)
    `{!forall x, Decision (P x), !forall x, Decision (Q x)} (l : list A) :
  (forall x, x ∈ l -> P x <-> Q x) -> filter P l = filter Q l.
Proof.
  induction l as [|a l IH]; [done|]. intros Hl.
  rewrite !filter_cons, IH by (intros; apply Hl, elem_of_cons; auto).
  apply decide_ext, Hl, elem_of_cons. auto.
Qed.

(** A filter keeps nothing exactly when no element passes. *)
Lemma filter_nil_iff {A} (P : A -> Prop) `{!forall x, Decision (P x)} (l : list A) :
  filter P l = [] <-> Forall (fun x => ~ P x) l.
Proof.
  rewrite Forall_forall. split.
  - intros Hn x Hx HP. assert (x ∈ filter P l) as Hin by by apply list_elem_of_filter.
    rewrite Hn in Hin. by apply elem_of_nil in Hin.
  - intros Hl. rewrite (list_filter_iff_in P (fun _ => False) l) by naive_solver.
    clear Hl. induction l as [|a l IH]; [done|]. rewrite filter_cons. by destruct (decide _).
Qed.

(** ** Lemmas on strings *)

Lemma app_nil_l_s (s : string) : "" +:+ s = s.
Proof. done. Qed.

Lemma app_cons_s c (s t : string) : String c s +:+ t = String c (s +:+ t).
Proof. done. Qed.

Lemma app_nil_r_s (s : string) : s +:+ "" = s.
Proof. induction s as [|c s IH]; [done|]. by rewrite app_cons_s, IH. Qed.

Lemma app_length_s (s t : string) :
  String.length (s +:+ t) = String.length s + String.length t.
Proof. induction s as [|c s IH]; simpl; [done|]. by rewrite IH. Qed.

(** Append cancels on the right as well. *)
Lemma app_inj_r_s (s a b : string) : a +:+ s = b +:+ s -> a = b.
Proof.
  revert b. induction a as [|c a IH]; intros [|d b] Heq; [done| | |].
  - apply (f_equal String.length) in Heq. rewrite !app_length_s in Heq. simpl in Heq. lia.
  - apply (f_equal String.length) in Heq. rewrite !app_length_s in Heq. simpl in Heq. lia.
  - rewrite !app_cons_s in Heq. injection Heq as -> Heq. f_equal. by apply IH.
Qed.

Lemma app_assoc_s (s t u : string) : (s +:+ t) +:+ u = s +:+ t +:+ u.
Proof. induction s as [|c s IH]; [done|]. by rewrite !app_cons_s, IH. Qed.

Lemma length_app_s (s t : string) :
  String.length (s +:+ t) = String.length s + String.length t.
Proof. induction s as [|c s IH]; [done|]. rewrite app_cons_s. simpl. by rewrite IH. Qed.

Lemma app_eq_nil_s (s t : string) : s +:+ t = "" -> s = "" /\ t = "".
Proof. by destruct s. Qed.

(** A string is never its own proper extension on the left. *)
Lemma app_cons_ne_s c (s : string) : String c s <> s.
Proof. intros H. apply (f_equal String.length) in H. simpl in H. lia. Qed.

Lemma cons_app_ne_s (p s : string) : p <> "" -> p +:+ s <> s.
Proof.
  intros Hp H. apply (f_equal String.length) in H. rewrite length_app_s in H.
  destruct p; [done|]. simpl in H. lia.
Qed.

Lemma no_slash_dirname (s : string) : no_slash s = true -> dirname s = None.
Proof.
  induction s as [|c s IH]; [done|]. simpl.
  intros [Hc Hs]%andb_true_iff. rewrite (IH Hs).
  by destruct (is_slash c).
Qed.

(** The directory of [d/f] is [d] when [f] is a plain name. *)
Lemma dirname_app (d f : string) :
  no_slash f = true -> dirname (d +:+ "/" +:+ f) = Some d.
Proof.
  intros Hf. induction d as [|c d IH].
  - rewrite app_nil_l_s. change ("/" +:+ f) with (String slash f).
    simpl. by rewrite (no_slash_dirname _ Hf).
  - rewrite app_cons_s. simpl. by rewrite IH.
Qed.

Lemma dirname_Some (x d : string) :
  dirname x = Some d -> exists f, x = d +:+ "/" +:+ f /\ no_slash f = true.
Proof.
  revert d. induction x as [|c x IH]; intros d; [done|]. simpl.
  destruct (dirname x) as [d'|] eqn:E.
  - intros [= <-]. destruct (IH _ eq_refl) as (f & -> & Hf). by exists f.
  - destruct (is_slash c) eqn:Hc; [|done]. intros [= <-].
    apply bool_decide_eq_true in Hc as ->. exists x. split; [done|].
    clear IH. induction x as [|a x IH]; [done|]. simpl in *.
    destruct (dirname x); [done|]. destruct (is_slash a); [done|]. by rewrite IH.
Qed.

Lemma prefixes_go_last pre s : last (prefixes_go pre s) = Some (pre +:+ s).
Proof.
  revert pre. induction s as [|a s IH]; intros pre; simpl.
  - by rewrite app_nil_r_s.
  - destruct (is_slash a) eqn:Ha.
    + apply bool_decide_eq_true in Ha as ->.
      by rewrite last_cons, IH, app_assoc_s.
    + by rewrite IH, app_assoc_s.
Qed.

Lemma prefixes_go_elem pre s x :
  x ∈ prefixes_go pre s ->
  x = pre +:+ s \/ exists rest, pre +:+ s = x +:+ "/" +:+ rest.
Proof.
  revert pre. induction s as [|a s IH]; intros pre; simpl.
  - intros ->%list_elem_of_singleton. left. by rewrite app_nil_r_s.
  - destruct (is_slash a) eqn:Ha.
    + apply bool_decide_eq_true in Ha as ->.
      intros [->|Hx]%elem_of_cons; [right; by exists s|].
      apply IH in Hx. by rewrite app_assoc_s in Hx.
    + intros Hx. apply IH in Hx. by rewrite app_assoc_s in Hx.
Qed.

Lemma prefixes_go_intro pre y r : pre +:+ y ∈ prefixes_go pre (y +:+ "/" +:+ r).
Proof.
  revert pre. induction y as [|c y IH]; intros pre.
  - rewrite app_nil_r_s, app_nil_l_s. change ("/" +:+ r) with (String slash r).
    simpl. set_solver.
  - rewrite app_cons_s. simpl. destruct (is_slash c) eqn:Hc.
    + apply bool_decide_eq_true in Hc as ->. apply elem_of_cons. right.
      specialize (IH (pre +:+ "/")). by rewrite app_assoc_s in IH.
    + specialize (IH (pre +:+ String c "")). by rewrite app_assoc_s in IH.
Qed.

(** A prefix of [s] is [s] or is followed in [s] by a slash. *)
Lemma prefixes_elem s x :
  x ∈ prefixes s -> x = s \/ exists rest, s = x +:+ "/" +:+ rest.
Proof. intros H. by apply prefixes_go_elem in H. Qed.

Lemma prefixes_self s : s ∈ prefixes s.
Proof.
  unfold prefixes. pose proof (prefixes_go_last "" s) as H.
  apply last_Some in H as [l ->]. set_solver.
Qed.

Lemma prefixes_intro y r : y ∈ prefixes (y +:+ "/" +:+ r).
Proof. apply (prefixes_go_intro "" y r). Qed.

(** The directory of a prefix of [s] is a prefix of [s]. *)
Lemma prefixes_dirname s x d : x ∈ prefixes s -> dirname x = Some d -> d ∈ prefixes s.
Proof.
  intros Hx (f & -> & Hf)%dirname_Some.
  apply prefixes_elem in Hx as [<-|[rest ->]]; [apply prefixes_intro|].
  rewrite !app_assoc_s. apply prefixes_intro.
Qed.

Lemma has_prefix_app (p s : string) : has_prefix p (p +:+ s) = true.
Proof.
  induction p as [|c p IH]; [done|]. rewrite app_cons_s. simpl.
  by rewrite bool_decide_eq_true_2.
Qed.

Lemma has_prefix_spec (p s : string) :
  has_prefix p s = true <-> exists t, s = p +:+ t.
Proof.
  split.
  - revert s. induction p as [|c p IH]; intros s; [by exists s|].
    destruct s as [|b s]; [done|]. simpl.
    intros [->%bool_decide_eq_true Hp]%andb_true_iff.
    destruct (IH _ Hp) as [t ->]. by exists t.
  - intros [t ->]. apply has_prefix_app.
Qed.

#[export] Hint Rewrite app_nil_l_s app_nil_r_s app_assoc_s : go.
