(* ===== verification/Host.v ===== *)
(** * Host: the machine the program runs on

  The sources call Go's [os], [io], [fmt], [net/http] and [os/exec], the
  packages [utils] and [archiver], and the interface [Wrapper]; none of them
  is part of the repository's sources.  This file models what the program
  uses of each, from the specification and the packages' documented
  behaviour:

  - [FS]: regular files with their contents and the set of directories, with
    the operations [utils.Exists], [os.Mkdir], [os.Create], [os.Open],
    [File.Write] and [io.Copy] as computations on [FS], and the invariant
    [fs_wf];
  - [World]: the file system, the ZFS pool, what was printed on standard
    output, the trace of external interactions and the descriptors the
    process holds open ([handles]): [os.Create], [os.Open] and [hc.Do]
    open one, [Close] gives it back, and a read or a write on a closed
    file fails;
  - [Host]: the oracles that stand for the network, the archive decoder, the
    process runner and failing disks;
  - [Wrapper]: the command-executor interface, and its implementation
    [Wrap]. *)

From Stdlib Require Import Ascii.
From stdpp Require Import base gmap gmultiset strings list.
From S2P Require Import Prelude.

(** ** The file system *)

Record FS := mkFS {
  files : gmap string string;  (* regular files: path to contents *)
  dirs : gset string;          (* directories *)
}.

#[export] Instance FS_eq_dec : EqDecision FS.
Proof. solve_decision. Defined.

Definition fs_empty : FS := mkFS ∅ ∅.

(** An open file: [os.Create] opens for reading and writing, [os.Open] for
    reading only. *)
Record File := mkFile { f_path : string; f_writable : bool }.

#[export] Instance File_eq_dec : EqDecision File.
Proof. solve_decision. Defined.

#[export] Instance File_countable : Countable File.
Proof.
  refine (inj_countable' (fun f => (f_path f, f_writable f))
                         (fun x => mkFile x.1 x.2) _).
  by intros [].
Defined.

(** The directory an entry lies in exists: the root and the working
    directory always do. *)
Definition parent_ok (p : string) (ds : gset string) : bool :=
  match dirname p with
  | None => true
  | Some d => bool_decide (d = "") || bool_decide (d ∈ ds)
  end.

Definition is_file (p : string) (fs : FS) : bool := bool_decide (is_Some (files fs !! p)).

Definition is_dir (p : string) (fs : FS) : bool := bool_decide (p ∈ dirs fs).

(** Every file and every directory lies in a directory, and no path is
    both a file and a directory. *)
Definition fs_wf (fs : FS) : Prop :=
  (forall p, is_Some (files fs !! p) -> parent_ok p (dirs fs) = true) /\
  (forall p, p ∈ dirs fs -> parent_ok p (dirs fs) = true) /\
  (forall p, is_Some (files fs !! p) -> p ∉ dirs fs).

(** [utils.Exists]: [os.Stat] finds an entry. *)
Definition fs_exists (p : string) (fs : FS) : bool := is_file p fs || is_dir p fs.

(** [os.Mkdir(p, perm)]. *)
Definition fs_mkdir (p : string) : M FS unit := fun fs =>
  if fs_exists p fs then (Err (ErrPath "mkdir" p EEXIST), fs)
  else if parent_ok p (dirs fs) then (Ok tt, mkFS (files fs) ({[p]} ∪ dirs fs))
  else (Err (ErrPath "mkdir" p ENOENT), fs).

(** [os.Create(p)]: create or truncate, open for writing. *)
Definition fs_create (p : string) : M FS File := fun fs =>
  if is_dir p fs then (Err (ErrPath "open" p EISDIR), fs)
  else if parent_ok p (dirs fs) then (Ok (mkFile p true), mkFS (<[p := ""]> (files fs)) (dirs fs))
  else (Err (ErrPath "open" p ENOENT), fs).

(** [os.Open(p)]: open for reading; a directory can be opened. *)
Definition fs_open (p : string) : M FS File := fun fs =>
  if fs_exists p fs then (Ok (mkFile p false), fs)
  else (Err (ErrPath "open" p ENOENT), fs).

(** [f.Write(data)]: the handles of this program are written from offset 0
    of a file just truncated, so a write appends.  [bad] says whether the
    disk refuses the write. *)
Definition fs_write (bad : bool) (f : File) (data : string) : M FS nat := fun fs =>
  if negb (f_writable f) then (Err (ErrPath "write" (f_path f) EBADF), fs)
  else if bad then (Err (ErrPath "write" (f_path f) EIO), fs)
  else match files fs !! f_path f with
       | Some old => (Ok (String.length data),
                      mkFS (<[f_path f := old +:+ data]> (files fs)) (dirs fs))
       | None => (Err (ErrPath "write" (f_path f) EBADF), fs)
       end.

(** Reading a whole open file. *)
Definition fs_read (f : File) : M FS string := fun fs =>
  match files fs !! f_path f with
  | Some data => (Ok data, fs)
  | None => (Err (ErrPath "read" (f_path f) EISDIR), fs)
  end.

(** [os.MkdirAll(p, perm)]: the directory and the ancestors it lacks; it
    fails when one of them is a regular file. *)
Definition fs_mkdir_all (p : string) : M FS unit := fun fs =>
  let ps := filter (fun x => x <> "") (prefixes p) in
  match list_find (fun x => is_Some (files fs !! x)) ps with
  | Some (_, x) => (Err (ErrPath "mkdir" x ENOTDIR), fs)
  | None => (Ok tt, mkFS (files fs) (list_to_set ps ∪ dirs fs))
  end.

(** One entry of a decoded archive, with its path inside the archive. *)
Inductive entry :=
| EDir (rel : string)
| EFile (rel : string) (data : string).

(** Writing one entry of an archive below [dst]: a directory is made with
    its ancestors, a file is created in the directory the same way and
    written. *)
Definition fs_extract_entry (bad : string -> bool) (dst : string) (e : entry) : M FS unit :=
  match e with
  | EDir rel => fs_mkdir_all (dst +:+ "/" +:+ rel)
  | EFile rel data =>
      let p := dst +:+ "/" +:+ rel in
      match dirname p with
      | Some d => fs_mkdir_all d
      | None => ret tt
      end ;;
      f <- fs_create p ;;
      fs_write (bad p) f data ;;
      ret tt
  end.

(** The file system with [data] as the contents of [p]. *)
Definition with_file (p data : string) (f : FS) : FS :=
  mkFS (<[p := data]> (files f)) (dirs f).

(** [p] can be created: it is no directory and lies in one. *)
Definition creatable (p : string) (f : FS) : bool :=
  negb (is_dir p f) && parent_ok p (dirs f).

(** ** The ZFS pool *)

Record Pool := mkPool {
  datasets : gset string;       (* file systems and clones *)
  snapshots : gset string;      (* full names, dataset@tag *)
  origins : gmap string string; (* clone to the snapshot it was cloned from *)
}.

#[export] Instance Pool_eq_dec : EqDecision Pool.
Proof. solve_decision. Defined.

(** ** External interactions *)

(** What the outside world saw the program do, in order. *)
Inductive event :=
| EvExec (name : string) (args : list string) (exit : option nat)
| EvGet (url : string)
| EvExtract (src dst : string).

#[export] Instance event_eq_dec : EqDecision event.
Proof. solve_decision. Defined.

(** The server's answer to a GET: no answer at all, or a status line and
    the part of the body that arrives, followed by the error that cuts
    the stream when there is one.  *)
Inductive reply :=
| NoReply (e : error)
| Reply (status : nat) (body : string) (cut : option error).

(** The configuration of an HTTP client, as far as the sources set it:
    [http.Client.Timeout], a [time.Duration] in nanoseconds with 0 for no
    limit, and [tls.Config.InsecureSkipVerify] of the client's
    [http.Transport]. *)
Record TLSConfig := mkTLSConfig { InsecureSkipVerify : bool }.

Record HttpTransport := mkTransport { TLSClientConfig : TLSConfig }.

Record Client := mkClient { Timeout : N; Transport : HttpTransport }.

#[export] Instance TLSConfig_eq_dec : EqDecision TLSConfig.
Proof. solve_decision. Defined.

#[export] Instance HttpTransport_eq_dec : EqDecision HttpTransport.
Proof. solve_decision. Defined.

#[export] Instance Client_eq_dec : EqDecision Client.
Proof. solve_decision. Defined.

(** What a finished process gives back; [p_started] is false when the
    program could not be run. *)
Record ProcOut := mkProcOut {
  p_started : bool;
  p_stdout : string;
  p_stderr : string;
  p_exit : nat;
}.

(** What the process holds open and has to close: a file, by the value
    [os.Create] or [os.Open] returned for it, or the body of the response
    to a GET, by its URL.  The same file opened twice is held twice. *)
Inductive handle :=
| HFile (f : File)
| HBody (url : string).

#[export] Instance handle_eq_dec : EqDecision handle.
Proof. solve_decision. Defined.

#[export] Instance handle_countable : Countable handle.
Proof.
  refine (inj_countable' (fun h => match h with HFile f => inl f | HBody u => inr u end)
                         (fun x => match x with inl f => HFile f | inr u => HBody u end) _).
  by intros [].
Defined.

Record World := mkWorld {
  fs : FS;
  pool : Pool;
  stdout : list string;
  trace : list event;
  handles : gmultiset handle;  (* the descriptors that are open *)
}.

(** The oracles: each stands for a part of the outside world that the
    program only calls. *)
Record Host := mkHost {
  http_parse : string -> bool;   (* http.NewRequest accepts the URL *)
  http_do : Client -> string -> reply;  (* the answer a client gets to GET url *)
  untar : string -> option (list entry);  (* decoding of an archive's bytes *)
  proc : string -> list string -> FS * Pool -> ProcOut * (FS * Pool);
  io_fail : string -> bool;      (* writes to this path fail *)
}.

(** A host with no network, no archive decoder, no program and no failing
    disk: the base of the hosts the examples run on. *)
Definition null_host : Host :=
  mkHost (fun _ => true) (fun _ u => NoReply (ErrURL "Get" u)) (fun _ => None)
         (fun _ _ s => (mkProcOut false "" "" 0, s)) (fun _ => false).

(** ** Lifting to the world *)

Definition set_fs (f : FS) (w : World) : World :=
  mkWorld f (pool w) (stdout w) (trace w) (handles w).

Definition log (e : event) (w : World) : World :=
  mkWorld (fs w) (pool w) (stdout w) (trace w ++ [e]) (handles w).

Definition set_handles (X : gmultiset handle) (w : World) : World :=
  mkWorld (fs w) (pool w) (stdout w) (trace w) X.

(** The world with one more descriptor open, and with one closed. *)
Definition opened (h : handle) (w : World) : World :=
  set_handles ({[+ h +]} ⊎ handles w) w.

Definition closed (h : handle) (w : World) : World :=
  set_handles (handles w ∖ {[+ h +]}) w.

Definition is_open (h : handle) (w : World) : bool := bool_decide (h ∈ handles w).

(** A call on a descriptor: it fails with [os.ErrClosed] once the
    descriptor is closed. *)
Definition on_open {A} (op : string) (f : File) (m : M World A) : M World A := fun w =>
  if is_open (HFile f) w then m w else (Err (ErrPath op (f_path f) ECLOSED), w).

Definition lift_fs {A} (m : M FS A) : M World A := fun w =>
  let '(r, f) := m (fs w) in (r, set_fs f w).

(** The invariant of the world: its file system is well formed. *)
Definition world_wf (w : World) : Prop := fs_wf (fs w).

(** A host whose processes keep the file system well formed. *)
Class HostWf (H : Host) : Prop :=
  proc_wf : forall name args f p, fs_wf f -> fs_wf (proc H name args (f, p)).2.1.

(** ** Go packages *)

Module utils.

Definition Exists (p : string) : M World bool := gets (fun w => fs_exists p (fs w)).

End utils.

Module os.

Definition Mkdir (p : string) : M World unit := lift_fs (fs_mkdir p).

Definition Create (p : string) : M World File :=
  f <- lift_fs (fs_create p) ;;
  modify (opened (HFile f)) ;;
  ret f.

Definition Open (p : string) : M World File :=
  f <- lift_fs (fs_open p) ;;
  modify (opened (HFile f)) ;;
  ret f.

(** [f.Close()]: the second close of a descriptor is an error. *)
Definition Close (f : File) : M World unit :=
  on_open "close" f (modify (closed (HFile f))).

Definition Write (H : Host) (f : File) (data : string) : M World nat :=
  on_open "write" f (lift_fs (fs_write (io_fail H (f_path f)) f data)).

Definition Read (f : File) : M World string :=
  on_open "read" f (lift_fs (fs_read f)).

End os.

Module fmt.

(** [fmt.Sprintf] for formats whose only verb is [%s]. *)
Fixpoint Sprintf (format : string) (args : list string) : string :=
  match format with
  | EmptyString => EmptyString
  | String "%"%char (String "s"%char rest) =>
      match args with
      | a :: args' => a +:+ Sprintf rest args'
      | [] => "%!s(MISSING)" +:+ Sprintf rest []
      end
  | String c rest => String c (Sprintf rest args)
  end.

(** [fmt.Println(s)]. *)
Definition Println (s : string) : M World unit :=
  modify (fun w => mkWorld (fs w) (pool w) (stdout w ++ [s]) (trace w) (handles w)).

End fmt.

(** A source of bytes for [io.Copy]: an open file or a response body. *)
Inductive Reader :=
| RFile (f : File)
| RBody (body : string) (cut : option error).

#[export] Instance Reader_eq_dec : EqDecision Reader.
Proof. solve_decision. Defined.

Module io.

(** [io.Copy(dst, src)]: what can be read is written, then the error that
    ended the reading, if any, is returned. *)
Definition Copy (H : Host) (dst : File) (src : Reader) : M World nat :=
  match src with
  | RFile f =>
      data <- os.Read f ;;
      os.Write H dst data
  | RBody body cut =>
      n <- os.Write H dst body ;;
      match cut with
      | None => ret n
      | Some e => fail e
      end
  end.

End io.

Module time.

(** [time.Second]: a [time.Duration] counts nanoseconds in 64 bits. *)
Definition Second : N := 1000000000%N.

Definition max_duration : N := (2 ^ 63 - 1)%N.

End time.

Module http.

(** [http.NewRequest(http.MethodGet, url, nil)]. *)
Definition NewRequest (H : Host) (url : string) : M World string :=
  if http_parse H url then ret url else fail (ErrURL "parse" url).

(** [hc.Do(req)]: the status is returned with the body, and is not an
    error whatever it is; a response comes with its body open, an error
    with none.  What the client's time limit and its transport do to the
    exchange is the host's: the oracle is given the client. *)
Definition Do (H : Host) (hc : Client) (url : string) : M World (nat * Reader) := fun w =>
  match http_do H hc url with
  | NoReply e => (Err e, log (EvGet url) w)
  | Reply status body cut =>
      (Ok (status, RBody body cut), opened (HBody url) (log (EvGet url) w))
  end.

(** [res.Body.Close()] for the response to a GET of [url]: closing a body
    twice is no error. *)
Definition BodyClose (url : string) : M World unit :=
  modify (closed (HBody url)).

End http.

Module archiver.

(** [archiver.TarXZ.Open(source, destination)]: the archive is read and
    decoded, then its entries are written below the destination in
    order; what was written before a failure stays.  The descriptors are
    the library's: it closes what it opens before it returns, and the
    model does not follow them. *)
Definition Open (H : Host) (source destination : string) : M World unit :=
  modify (log (EvExtract source destination)) ;;
  f <- lift_fs (fs_open source) ;;
  data <- lift_fs (fs_read f) ;;
  match untar H data with
  | None => fail (ErrArchive source)
  | Some es => lift_fs (forM_ (fs_extract_entry (io_fail H) destination) es)
  end.

End archiver.

Module exec.

(** [exec.Command(name, args...)] started and waited for. *)
Definition Run (H : Host) (name : string) (args : list string) : M World ProcOut := fun w =>
  let '(out, (f, p)) := proc H name args (fs w, pool w) in
  if p_started out
  then (Ok out, mkWorld f p (stdout w) (trace w ++ [EvExec name args (Some (p_exit out))])
                        (handles w))
  else (Err (ErrExec name), log (EvExec name args None) w).

(** The error of [cmd.Wait]: [nil] for exit status 0. *)
Definition exit_error (out : ProcOut) : option error :=
  if decide (p_exit out = 0) then None else Some (ErrExit (p_exit out)).

End exec.

(** ** The command executor *)

(** The interface [Wrapper]: run a command to completion and return its
    output, with a non-zero exit as an error.  Go returns the output
    together with the error; so does the model.  An interface value is the
    record of its methods. *)
Record Wrapper := mkWrapper {
  Output : string -> list string -> World -> (string * option error) * World;
  CombinedOutput : string -> list string -> World -> (string * option error) * World;
}.

(** A call of a Go function that returns [(T, error)] with both results
    bound. *)
Definition call2 {S A} (f : S -> (A * option error) * S) : M S (A * option error) :=
  fun s => let '(r, s') := f s in (Ok r, s').

(** The implementation [Wrap]: [exec.Command(name, args...).Output()] and
    [.CombinedOutput()]. *)
Definition Wrap (H : Host) : Wrapper := {|
  Output name args := fun w =>
    match exec.Run H name args w with
    | (Ok out, w') => ((p_stdout out, exec.exit_error out), w')
    | (Err e, w') => (("", Some e), w')
    end;
  CombinedOutput name args := fun w =>
    match exec.Run H name args w with
    | (Ok out, w') => ((p_stdout out +:+ p_stderr out, exec.exit_error out), w')
    | (Err e, w') => (("", Some e), w')
    end;
|}.
