(* ===== verification/HostFacts.v ===== *)
(** * HostFacts: lemmas on the host model

  How the operations of [Host] run ([lift_fs], [os.Create], writes through
  read-only, writable and closed handles, a deferred [Close]:
  [bracket_run], [drop_defer]), and the preservation of the invariants
  [fs_wf] and [world_wf] by every operation, registered in the hint
  database [go] so that [solve_preserves] proves the preservation of a
  computation built from them. *)

From stdpp Require Import base gmap gmultiset strings list.
From S2P Require Import Prelude.
From S2P Require Import Host.

(** ** Running the operations *)

Lemma lift_fs_run {A} (m : M FS A) w : lift_fs m w = ((m (fs w)).1, set_fs (m (fs w)).2 w).
Proof. unfold lift_fs. by destruct (m (fs w)). Qed.

Lemma set_fs_fs f w : fs (set_fs f w) = f.
Proof. done. Qed.

Lemma set_fs_id w : set_fs (fs w) w = w.
Proof. by destruct w. Qed.

(** Two worlds with the same components are the same. *)
Lemma world_eq (w w' : World) :
  fs w = fs w' -> pool w = pool w' -> stdout w = stdout w' -> trace w = trace w' ->
  handles w = handles w' -> w = w'.
Proof. destruct w, w'. simpl. by intros -> -> -> -> ->. Qed.

Lemma fs_exists_insert p q data fs :
  fs_exists p (mkFS (<[q := data]> (files fs)) (dirs fs)) =
    bool_decide (p = q) || fs_exists p fs.
Proof.
  unfold fs_exists, is_file, is_dir. simpl.
  destruct (decide (p = q)) as [->|Hne].
  - rewrite lookup_insert_eq. rewrite (bool_decide_eq_true_2 (is_Some _)) by eauto.
    by rewrite (bool_decide_eq_true_2 (q = q)).
  - rewrite lookup_insert_ne by done. by rewrite (bool_decide_eq_false_2 (p = q)).
Qed.

(** [os.Create] on a path that is no directory and whose directory
    exists leaves an empty file there. *)
Lemma fs_create_ok p fs :
  is_dir p fs = false -> parent_ok p (dirs fs) = true ->
  fs_create p fs = (Ok (mkFile p true), mkFS (<[p := ""]> (files fs)) (dirs fs)).
Proof. intros Hd Hp. unfold fs_create. by rewrite Hd, Hp. Qed.

(** A write through a handle of [os.Create] appends, unless the disk
    fails. *)
Lemma fs_write_ok p data old fs :
  files fs !! p = Some old ->
  fs_write false (mkFile p true) data fs =
    (Ok (String.length data), mkFS (<[p := old +:+ data]> (files fs)) (dirs fs)).
Proof. intros Hf. unfold fs_write. simpl. by rewrite Hf. Qed.

(** A write through a handle of [os.Open] fails and changes nothing. *)
Lemma fs_write_readonly bad p data fs :
  fs_write bad (mkFile p false) data fs = (Err (ErrPath "write" p EBADF), fs).
Proof. done. Qed.

(** ** Files *)

Lemma with_file_with_file p a b f : with_file p a (with_file p b f) = with_file p a f.
Proof. unfold with_file. simpl. by rewrite insert_insert_eq. Qed.

Lemma with_file_id p data f : files f !! p = Some data -> with_file p data f = f.
Proof. intros Hf. unfold with_file. rewrite insert_id by done. by destruct f. Qed.

Lemma with_file_lookup p data f : files (with_file p data f) !! p = Some data.
Proof. apply lookup_insert_eq. Qed.

Lemma with_file_lookup_ne p q data f : p <> q -> files (with_file p data f) !! q = files f !! q.
Proof. intros Hne. by apply lookup_insert_ne. Qed.

Lemma set_fs_set_fs f g w : set_fs f (set_fs g w) = set_fs f w.
Proof. done. Qed.

(** ** Descriptors *)

Lemma is_open_opened h w : is_open h (opened h w) = true.
Proof. apply bool_decide_eq_true. simpl. multiset_solver. Qed.

Lemma is_open_opened_other h h' w : is_open h w = true -> is_open h (opened h' w) = true.
Proof. unfold is_open. rewrite !bool_decide_eq_true. simpl. multiset_solver. Qed.

Lemma is_open_set_fs h f w : is_open h (set_fs f w) = is_open h w.
Proof. done. Qed.

Lemma is_open_log h e w : is_open h (log e w) = is_open h w.
Proof. done. Qed.

Lemma is_open_closed_other h h' w :
  h <> h' -> is_open h w = true -> is_open h (closed h' w) = true.
Proof. unfold is_open. rewrite !bool_decide_eq_true. simpl. multiset_solver. Qed.

Lemma is_open_elem_of h w : is_open h w = true <-> h ∈ handles w.
Proof. apply bool_decide_eq_true. Qed.

Lemma is_open_handles h w w' : handles w' = handles w -> is_open h w' = is_open h w.
Proof. unfold is_open. by intros ->. Qed.

(** Closing what was opened last gives the world back. *)
Lemma closed_opened h w : closed h (opened h w) = w.
Proof.
  destruct w as [f p o t X]. unfold closed, opened, set_handles. simpl.
  f_equal. multiset_solver.
Qed.

Lemma opened_set_fs h f w : opened h (set_fs f w) = set_fs f (opened h w).
Proof. done. Qed.

Lemma closed_set_fs h f w : closed h (set_fs f w) = set_fs f (closed h w).
Proof. done. Qed.

Lemma opened_log h e w : opened h (log e w) = log e (opened h w).
Proof. done. Qed.

Lemma closed_log h e w : closed h (log e w) = log e (closed h w).
Proof. done. Qed.

Lemma on_open_run {A} op f (m : M World A) w :
  is_open (HFile f) w = true -> on_open op f m w = m w.
Proof. unfold on_open. by intros ->. Qed.

Lemma on_open_closed {A} op f (m : M World A) w :
  is_open (HFile f) w = false ->
  on_open op f m w = (Err (ErrPath op (f_path f) ECLOSED), w).
Proof. unfold on_open. by intros ->. Qed.

Lemma os_Close_run f w :
  is_open (HFile f) w = true -> os.Close f w = (Ok tt, closed (HFile f) w).
Proof. intros Ho. unfold os.Close. by rewrite on_open_run. Qed.

(** A descriptor is open in a world built by [opened], [log] and
    [set_fs]. *)
Ltac solve_open := unfold is_open; apply bool_decide_eq_true; simpl; multiset_solver.

(** Closing changes the descriptors and nothing else, open or not. *)
Lemma set_handles_id w : set_handles (handles w) w = w.
Proof. by destruct w. Qed.

Lemma os_Close_only f w : exists X, (os.Close f w).2 = set_handles X w.
Proof.
  unfold os.Close, on_open. destruct (is_open _ _); [by eexists|].
  exists (handles w). by rewrite set_handles_id.
Qed.

Lemma http_BodyClose_only url w : exists X, (http.BodyClose url w).2 = set_handles X w.
Proof. by eexists. Qed.

(** A function with a deferred [Close] does to the file system, the pool
    and the trace what its body does. *)
Lemma defer_only {A} (c : M World unit) (m : M World A) w :
  (forall w', exists X, (c w').2 = set_handles X w') ->
  exists X, defer c m w = ((m w).1, set_handles X (m w).2).
Proof. intros Hc. rewrite defer_run. destruct (Hc (m w).2) as [X ->]. eauto. Qed.

#[export] Hint Resolve os_Close_only http_BodyClose_only : go.

(** Replace a deferred [Close] in the goal by the change of descriptors it
    makes. *)
Ltac drop_defer :=
  match goal with
  | |- context [defer ?c ?m ?w] =>
      let X := fresh "X" in
      destruct (defer_only c m w) as [X ->]; [solve [eauto with go]|]
  end.

Lemma lift_fs_open_run p w :
  lift_fs (fs_open p) w =
    if fs_exists p (fs w) then (Ok (mkFile p false), w)
    else (Err (ErrPath "open" p ENOENT), w).
Proof.
  unfold lift_fs, fs_open. destruct (fs_exists _ _); simpl; by rewrite set_fs_id.
Qed.

(** The deferred [Close] of a descriptor that is open when the function
    returns closes it, whatever the function returns. *)
Lemma defer_Close_run {A} f (m : M World A) w r w' :
  m w = (r, w') -> is_open (HFile f) w' = true ->
  defer (os.Close f) m w = (r, closed (HFile f) w').
Proof. intros Hm Ho. by rewrite defer_run, Hm; simpl; rewrite os_Close_run. Qed.

(** A function that opens a descriptor, defers its [Close] and leaves it
    open until it returns gives it back. *)
Lemma bracket_run {A} f (m : M World A) w r w' :
  m (opened (HFile f) w) = (r, opened (HFile f) w') ->
  defer (os.Close f) m (opened (HFile f) w) = (r, w').
Proof.
  intros Hm. erewrite defer_Close_run, closed_opened; [done..|apply is_open_opened].
Qed.

Lemma os_Create_run p w :
  os.Create p w =
    if is_dir p (fs w) then (Err (ErrPath "open" p EISDIR), w)
    else if parent_ok p (dirs (fs w))
         then (Ok (mkFile p true),
               opened (HFile (mkFile p true)) (set_fs (with_file p "" (fs w)) w))
         else (Err (ErrPath "open" p ENOENT), w).
Proof.
  unfold os.Create, bind, lift_fs, fs_create.
  destruct (is_dir _ _); [by rewrite set_fs_id|].
  destruct (parent_ok _ _); [done|by rewrite set_fs_id].
Qed.

Lemma os_Open_run p w :
  os.Open p w =
    if fs_exists p (fs w) then (Ok (mkFile p false), opened (HFile (mkFile p false)) w)
    else (Err (ErrPath "open" p ENOENT), w).
Proof.
  unfold os.Open, bind, lift_fs, fs_open.
  destruct (fs_exists _ _); simpl; by rewrite set_fs_id.
Qed.

Lemma os_Write_readonly H p data w :
  is_open (HFile (mkFile p false)) w = true ->
  os.Write H (mkFile p false) data w = (Err (ErrPath "write" p EBADF), w).
Proof.
  intros Ho. unfold os.Write. rewrite on_open_run, lift_fs_run by done.
  simpl. by rewrite set_fs_id.
Qed.

Lemma os_Write_ok H p data old w :
  io_fail H p = false -> files (fs w) !! p = Some old ->
  is_open (HFile (mkFile p true)) w = true ->
  os.Write H (mkFile p true) data w =
    (Ok (String.length data), set_fs (with_file p (old +:+ data) (fs w)) w).
Proof.
  intros Hio Hf Ho. unfold os.Write. rewrite on_open_run, lift_fs_run by done.
  simpl. rewrite Hio. by rewrite (fs_write_ok _ _ old).
Qed.

Lemma os_Write_fail H p data w :
  io_fail H p = true -> is_open (HFile (mkFile p true)) w = true ->
  os.Write H (mkFile p true) data w = (Err (ErrPath "write" p EIO), w).
Proof.
  intros Hio Ho. unfold os.Write. rewrite on_open_run, lift_fs_run by done.
  simpl. rewrite Hio. unfold fs_write. simpl. by rewrite set_fs_id.
Qed.

Lemma io_Copy_file_run H p q w :
  is_open (HFile (mkFile q false)) w = true ->
  io.Copy H (mkFile p true) (RFile (mkFile q false)) w =
    match files (fs w) !! q with
    | None => (Err (ErrPath "read" q EISDIR), w)
    | Some data => os.Write H (mkFile p true) data w
    end.
Proof.
  intros Ho. unfold io.Copy, os.Read, bind. rewrite on_open_run, lift_fs_run by done.
  unfold fs_read. simpl. destruct (files (fs w) !! q); simpl; by rewrite set_fs_id.
Qed.

(** ** The invariant of the file system *)

Lemma parent_ok_mono p (ds ds' : gset string) :
  ds ⊆ ds' -> parent_ok p ds = true -> parent_ok p ds' = true.
Proof.
  unfold parent_ok. destruct (dirname p) as [d|]; [|done].
  intros Hs [?|Hd%bool_decide_eq_true]%orb_true_iff; apply orb_true_iff; [by left|].
  right. apply bool_decide_eq_true. set_solver.
Qed.

Lemma fs_empty_wf : fs_wf fs_empty.
Proof. split_and!; intros p; [by intros [? ?]|set_solver|by intros [? ?]]. Qed.


Lemma fs_mkdir_wf p : preserves fs_wf (fs_mkdir p).
Proof.
  intros fs (Hf & Hd & Hn). unfold fs_mkdir.
  destruct (fs_exists p fs) eqn:He; [done|].
  destruct (parent_ok p (dirs fs)) eqn:Hp; [|done]. simpl.
  apply orb_false_iff in He as [Hnf%bool_decide_eq_false Hnd%bool_decide_eq_false].
  split_and!; simpl.
  - intros q Hq. eapply parent_ok_mono; [|by apply Hf]. set_solver.
  - intros q [->%elem_of_singleton|Hq]%elem_of_union;
      (eapply parent_ok_mono; [|by eauto]); set_solver.
  - intros q Hq [->%elem_of_singleton|Hq']%elem_of_union; [done|]. by eapply Hn.
Qed.

Lemma fs_create_wf p : preserves fs_wf (fs_create p).
Proof.
  intros fs (Hf & Hd & Hn). unfold fs_create.
  destruct (is_dir p fs) eqn:Hdir; [done|].
  destruct (parent_ok p (dirs fs)) eqn:Hp; [|done]. simpl.
  apply bool_decide_eq_false in Hdir.
  split_and!; simpl; [|done|].
  - intros q [<-|[_ Hq]]%lookup_insert_is_Some; [done|by apply Hf].
  - intros q [<-|[_ Hq]]%lookup_insert_is_Some; [done|by apply Hn].
Qed.

Lemma fs_open_wf p : preserves fs_wf (fs_open p).
Proof. intros fs Hw. unfold fs_open. by destruct (fs_exists p fs). Qed.

Lemma fs_read_wf f : preserves fs_wf (fs_read f).
Proof. intros fs Hw. unfold fs_read. by destruct (files fs !! f_path f). Qed.

Lemma fs_write_wf bad f data : preserves fs_wf (fs_write bad f data).
Proof.
  intros fs (Hf & Hd & Hn). unfold fs_write.
  destruct (f_writable f), bad; simpl; try done.
  destruct (files fs !! f_path f) as [old|] eqn:E; [|done]. simpl.
  split_and!; simpl; [|done|].
  - intros q [<-|[_ Hq]]%lookup_insert_is_Some; [|by apply Hf].
    apply Hf. by rewrite E.
  - intros q [<-|[_ Hq]]%lookup_insert_is_Some; [|by apply Hn].
    apply Hn. by rewrite E.
Qed.

Lemma fs_mkdir_all_wf p : preserves fs_wf (fs_mkdir_all p).
Proof.
  intros fs (Hf & Hd & Hn). unfold fs_mkdir_all.
  destruct (list_find _ _) as [[i x]|] eqn:E; [done|]. simpl.
  apply list_find_None in E. rewrite Forall_forall in E.
  split_and!; simpl.
  - intros q Hq. eapply parent_ok_mono; [|by apply Hf]. set_solver.
  - intros q [Hq|Hq]%elem_of_union; [|eapply parent_ok_mono; [|by eauto]; set_solver].
    apply elem_of_list_to_set, list_elem_of_filter in Hq as [Hne Hq].
    unfold parent_ok. destruct (dirname q) as [d|] eqn:Ed; [|done].
    apply orb_true_iff. destruct (decide (d = "")) as [->|Hd']; [by left|right].
    apply bool_decide_eq_true, elem_of_union. left.
    apply elem_of_list_to_set, list_elem_of_filter. split; [done|].
    by eapply prefixes_dirname.
  - intros q Hq [Hq'|Hq']%elem_of_union; [|by eapply Hn].
    apply elem_of_list_to_set in Hq'. by apply E in Hq'.
Qed.

#[export] Hint Resolve fs_mkdir_wf fs_create_wf fs_open_wf fs_read_wf fs_write_wf
  fs_mkdir_all_wf : go.

Lemma fs_extract_entry_wf bad dst e : preserves fs_wf (fs_extract_entry bad dst e).
Proof.
  destruct e as [rel|rel data]; simpl; solve_preserves.
Qed.

#[export] Hint Resolve fs_extract_entry_wf : go.

Lemma lift_fs_wf {A} (m : M FS A) : preserves fs_wf m -> preserves world_wf (lift_fs m).
Proof.
  intros Hm w Hw. unfold lift_fs. specialize (Hm (fs w) Hw).
  by destruct (m (fs w)) as [r f].
Qed.

Lemma modify_log_wf e : preserves world_wf (modify (log e)).
Proof. by intros w. Qed.

Lemma Println_wf s : preserves world_wf (fmt.Println s).
Proof. by intros w. Qed.

Lemma preserves_on_open {A} (P : World -> Prop) op f (m : M World A) :
  preserves P m -> preserves P (on_open op f m).
Proof. intros Hm w Hw. unfold on_open. case_match; [by apply Hm|done]. Qed.

Lemma opened_wf h : preserves world_wf (modify (opened h)).
Proof. by intros w. Qed.

Lemma closed_wf h : preserves world_wf (modify (closed h)).
Proof. by intros w. Qed.

#[export] Hint Resolve lift_fs_wf modify_log_wf Println_wf preserves_on_open
  opened_wf closed_wf : go.

Lemma os_Mkdir_wf p : preserves world_wf (os.Mkdir p).
Proof. unfold os.Mkdir. solve_preserves. Qed.

Lemma os_Create_wf p : preserves world_wf (os.Create p).
Proof. unfold os.Create. solve_preserves. Qed.

Lemma os_Open_wf p : preserves world_wf (os.Open p).
Proof. unfold os.Open. solve_preserves. Qed.

Lemma os_Close_wf f : preserves world_wf (os.Close f).
Proof. unfold os.Close. solve_preserves. Qed.

Lemma os_Write_wf H f data : preserves world_wf (os.Write H f data).
Proof. unfold os.Write. solve_preserves. Qed.

Lemma os_Read_wf f : preserves world_wf (os.Read f).
Proof. unfold os.Read. solve_preserves. Qed.

Lemma http_BodyClose_wf url : preserves world_wf (http.BodyClose url).
Proof. by intros w. Qed.

Lemma io_Copy_wf H dst src : preserves world_wf (io.Copy H dst src).
Proof. unfold io.Copy, os.Write, os.Read. destruct src; solve_preserves. Qed.

Lemma utils_Exists_wf p : preserves world_wf (utils.Exists p).
Proof. unfold utils.Exists. solve_preserves. Qed.

Lemma http_NewRequest_wf H url : preserves world_wf (http.NewRequest H url).
Proof. unfold http.NewRequest. solve_preserves. Qed.

Lemma http_Do_wf H hc url : preserves world_wf (http.Do H hc url).
Proof. intros w Hw. unfold http.Do. by destruct (http_do H hc url). Qed.

Lemma archiver_Open_wf H src dst : preserves world_wf (archiver.Open H src dst).
Proof. unfold archiver.Open. solve_preserves. Qed.

#[export] Hint Resolve os_Mkdir_wf os_Create_wf os_Open_wf os_Close_wf os_Write_wf
  os_Read_wf http_BodyClose_wf io_Copy_wf utils_Exists_wf http_NewRequest_wf http_Do_wf archiver_Open_wf : go.



Section host_wf.
Context (H : Host) `{!HostWf H}.

Lemma exec_Run_wf name args : preserves world_wf (exec.Run H name args).
Proof.
  intros w Hw. unfold exec.Run.
  pose proof (proc_wf name args (fs w) (pool w) Hw) as Hp.
  destruct (proc H name args (fs w, pool w)) as [out [f p]].
  by destruct (p_started out).
Qed.

Lemma Wrap_Output_wf name args : preserves world_wf (call2 (Output (Wrap H) name args)).
Proof.
  intros w Hw. unfold call2. simpl. pose proof (exec_Run_wf name args w Hw) as Hr.
  by destruct (exec.Run H name args w) as [[out|e] w'].
Qed.

Lemma Wrap_CombinedOutput_wf name args :
  preserves world_wf (call2 (CombinedOutput (Wrap H) name args)).
Proof.
  intros w Hw. unfold call2. simpl. pose proof (exec_Run_wf name args w Hw) as Hr.
  by destruct (exec.Run H name args w) as [[out|e] w'].
Qed.

End host_wf.

#[export] Hint Resolve exec_Run_wf Wrap_Output_wf Wrap_CombinedOutput_wf : go.

(** ** The trace *)

Lemma lift_fs_trace {A} (m : M FS A) w : trace (lift_fs m w).2 = trace w.
Proof. by rewrite lift_fs_run. Qed.

Lemma lift_fs_keeps_trace {A} (m : M FS A) t :
  preserves (fun w => trace w = t) (lift_fs m).
Proof. intros w Hw. by rewrite lift_fs_trace. Qed.

Lemma opened_keeps_trace h t : preserves (fun w => trace w = t) (modify (opened h)).
Proof. by intros w. Qed.

Lemma closed_keeps_trace h t : preserves (fun w => trace w = t) (modify (closed h)).
Proof. by intros w. Qed.

Lemma Println_keeps_trace s t : preserves (fun w => trace w = t) (fmt.Println s).
Proof. by intros w. Qed.

#[export] Hint Resolve lift_fs_keeps_trace opened_keeps_trace closed_keeps_trace
  Println_keeps_trace : go.

Lemma archiver_Open_trace H src dst w :
  trace (archiver.Open H src dst w).2 = trace w ++ [EvExtract src dst].
Proof.
  unfold archiver.Open. unfold bind at 1. simpl.
  set (rest := bind _ _).
  assert (preserves (fun w' => trace w' = trace w ++ [EvExtract src dst]) rest) as Hp
    by (unfold rest; solve_preserves).
  by apply Hp.
Qed.

Lemma io_Copy_trace H dst src w : trace (io.Copy H dst src w).2 = trace w.
Proof.
  assert (preserves (fun w' => trace w' = trace w) (io.Copy H dst src)) as Hp
    by (unfold io.Copy, os.Write, os.Read; destruct src as [|? []]; solve_preserves).
  by apply Hp.
Qed.

(** ** What an extraction leaves in the files *)

Lemma fs_mkdir_all_files p f f' : fs_mkdir_all p f = (Ok tt, f') -> files f' = files f.
Proof. unfold fs_mkdir_all. case_match; [by destruct p0|]. by intros [= <-]. Qed.

Lemma fs_create_inv p f out f' :
  fs_create p f = (Ok out, f') ->
  out = mkFile p true /\ files f' = <[p := ""]> (files f).
Proof. unfold fs_create. repeat case_match; try done. by intros [= <- <-]. Qed.

Lemma fs_write_inv bad p data f n f' :
  fs_write bad (mkFile p true) data f = (Ok n, f') ->
  exists old, files f !! p = Some old /\ files f' = <[p := old +:+ data]> (files f).
Proof.
  unfold fs_write. simpl. destruct bad; [done|].
  destruct (files f !! p) as [old|]; [|done]. intros [= _ <-]. eauto.
Qed.

(** An entry that was written is in the files with its content, whatever
    the path held before; a directory entry changes no file. *)
Lemma fs_extract_entry_files bad dst e f f' :
  fs_extract_entry bad dst e f = (Ok tt, f') ->
  files f' = match e with
             | EDir _ => files f
             | EFile rel data => <[dst +:+ "/" +:+ rel := data]> (files f)
             end.
Proof.
  destruct e as [rel|rel data]; simpl; [apply fs_mkdir_all_files|].
  intros (u & f1 & Hm & (out & f2 & Hc & (n & f3 & Hw & [= <-])%bind_inv_ok)%bind_inv_ok)%bind_inv_ok.
  assert (files f1 = files f) as Hf1.
  { destruct u, (dirname _); [by eapply fs_mkdir_all_files|]. unfold ret in Hm. by injection Hm as <-. }
  apply fs_create_inv in Hc as [-> Hf2].
  apply fs_write_inv in Hw as (old & Hold & ->).
  rewrite Hf2, lookup_insert_eq in Hold. injection Hold as <-.
  by rewrite Hf2, insert_insert_eq, Hf1.
Qed.

(** ** The pool *)

(** The calls of [os], [io] and [archiver] leave the pool alone. *)
Lemma lift_fs_keeps_pool {A} (m : M FS A) p : preserves (fun w => pool w = p) (lift_fs m).
Proof. intros w Hw. by rewrite lift_fs_run. Qed.

Lemma log_keeps_pool ev p : preserves (fun w => pool w = p) (modify (log ev)).
Proof. by intros w Hw. Qed.

Lemma opened_keeps_pool h p : preserves (fun w => pool w = p) (modify (opened h)).
Proof. by intros w. Qed.

Lemma closed_keeps_pool h p : preserves (fun w => pool w = p) (modify (closed h)).
Proof. by intros w. Qed.

#[export] Hint Resolve lift_fs_keeps_pool log_keeps_pool opened_keeps_pool
  closed_keeps_pool : go.

Lemma archiver_Open_pool H src dst w : pool (archiver.Open H src dst w).2 = pool w.
Proof.
  assert (preserves (fun w' => pool w' = pool w) (archiver.Open H src dst)) as Hp
    by (unfold archiver.Open; solve_preserves).
  by apply Hp.
Qed.
