(* ===== verification/Trace.v ===== *)
(** * Trace: the commands a computation runs

  The world records every process the program starts ([EvExec]).  This
  file reads the commands off a trace and gives the rule by which the
  commands of a sequence are those of its parts: [runs m cs] says that
  [m] starts the commands [cs] in this order when it succeeds and a
  prefix of them when it fails.  Each component proves [runs] for its
  methods; the pipeline composes them. *)

From stdpp Require Import base gmap strings list.
From S2P Require Import Prelude.
From S2P Require Import Host.
From S2P Require Import HostFacts.

(** A command: the program and its arguments. *)
Definition command : Type := string * list string.

Definition command_of (e : event) : option command :=
  match e with
  | EvExec name args _ => Some (name, args)
  | _ => None
  end.

(** The commands of a trace, in the order they were started. *)
Definition commands (tr : list event) : list command := omap command_of tr.

(** [m] starts the commands [cs], all of them when it succeeds and the
    first of them when it fails. *)
Definition runs {A} (m : M World A) (cs : list command) : Prop :=
  forall w, exists cs',
    cs' `prefix_of` cs /\
    commands (trace (m w).2) = commands (trace w) ++ cs' /\
    (is_ok (m w).1 = true -> cs' = cs).

(** [m] starts no process. *)
Definition quiet {A} (m : M World A) : Prop :=
  forall w, commands (trace (m w).2) = commands (trace w).

Lemma commands_app tr1 tr2 : commands (tr1 ++ tr2) = commands tr1 ++ commands tr2.
Proof. apply omap_app. Qed.

Lemma quiet_runs {A} (m : M World A) : quiet m -> runs m [].
Proof. intros Hq w. exists []. by rewrite Hq, app_nil_r. Qed.

Lemma runs_quiet {A} (m : M World A) : runs m [] -> quiet m.
Proof. intros Hr w. destruct (Hr w) as (cs' & ->%prefix_nil_inv & -> & _). apply app_nil_r. Qed.

Lemma runs_bind {A B} (m : M World A) (k : A -> M World B) cs1 cs2 :
  runs m cs1 -> (forall x, runs (k x) cs2) -> runs (x <- m ;; k x) (cs1 ++ cs2).
Proof.
  intros Hm Hk w. destruct (Hm w) as (cs1' & Hp1 & Ht1 & Hok1). unfold bind.
  destruct (m w) as [[x|e] w1]; simpl in *.
  - destruct (Hk x w1) as (cs2' & Hp2 & Ht2 & Hok2). rewrite Hok1 in * by done.
    exists (cs1 ++ cs2'). rewrite Ht2, Ht1, app_assoc.
    split_and!; [by apply prefix_app|done|]. intros ->%Hok2. done.
  - exists cs1'. split_and!; [by apply prefix_app_r|done..].
Qed.

Lemma quiet_bind {A B} (m : M World A) (k : A -> M World B) : quiet m -> (forall x, quiet (k x)) -> quiet (x <- m ;; k x).
Proof.
  intros Hm Hk. apply runs_quiet, (runs_bind m k [] []); auto using quiet_runs.
Qed.

Lemma quiet_ret {A} (x : A) : quiet (ret x).
Proof. done. Qed.

Lemma quiet_fail {A} e : quiet (fail e : M World A).
Proof. done. Qed.

Lemma quiet_gets {A} (f : World -> A) : quiet (gets f).
Proof. done. Qed.

Lemma quiet_ignore {A} (m : M World A) : quiet m -> quiet (ignore m).
Proof. intros Hm w. apply Hm. Qed.

Lemma quiet_lift_fs {A} (c : M FS A) : quiet (lift_fs c).
Proof. intros w. by rewrite lift_fs_trace. Qed.

Lemma quiet_forM {A} (f : A -> M World unit) l : (forall x, quiet (f x)) -> quiet (forM_ f l).
Proof. intros Hf. induction l; simpl; [done|]. by apply quiet_bind. Qed.

Lemma quiet_iter {A B} (f : A -> M World B) l : (forall x, quiet (f x)) -> quiet (iter_ f l).
Proof.
  intros Hf. induction l; simpl; [done|].
  apply quiet_bind; auto using quiet_ignore.
Qed.

Lemma quiet_of_err o : quiet (of_err o).
Proof. done. Qed.

Lemma quiet_Println s : quiet (fmt.Println s).
Proof. done. Qed.

Lemma quiet_log e : command_of e = None -> quiet (modify (log e)).
Proof. intros He w. simpl. by rewrite commands_app; simpl; rewrite He, app_nil_r. Qed.

Lemma quiet_Exists p : quiet (utils.Exists p).
Proof. done. Qed.

Lemma quiet_Mkdir p : quiet (os.Mkdir p).
Proof. apply quiet_lift_fs. Qed.

(** Opening and closing a descriptor is not an interaction of the trace. *)
Lemma quiet_opened h : quiet (modify (opened h)).
Proof. done. Qed.

Lemma quiet_closed h : quiet (modify (closed h)).
Proof. done. Qed.

Lemma quiet_on_open {A} op f (m : M World A) : quiet m -> quiet (on_open op f m).
Proof. intros Hm w. unfold on_open. case_match; [apply Hm|done]. Qed.

Lemma quiet_defer {A} (c : M World unit) (m : M World A) :
  quiet c -> quiet m -> quiet (defer c m).
Proof. intros Hc Hm w. rewrite defer_run. simpl. by rewrite Hc, Hm. Qed.

#[export] Hint Resolve quiet_ret quiet_fail quiet_gets quiet_ignore quiet_lift_fs
  quiet_of_err quiet_Println quiet_log quiet_Exists quiet_Mkdir quiet_opened
  quiet_closed quiet_on_open : go.

(** The goals [quiet m] for a [m] built from the operations above. *)
Ltac solve_quiet :=
  repeat match goal with
  | |- quiet (bind _ _) => apply quiet_bind; [|intros ?]
  | |- quiet (defer _ _) => apply quiet_defer
  | |- quiet (forM_ _ _) => apply quiet_forM; intros ?
  | |- quiet (iter_ _ _) => apply quiet_iter; intros ?
  | |- quiet (match ?x with _ => _ end) => destruct x
  | |- _ => solve [eauto with go]
  end.

Lemma quiet_Create p : quiet (os.Create p).
Proof. unfold os.Create. solve_quiet. Qed.

Lemma quiet_Open p : quiet (os.Open p).
Proof. unfold os.Open. solve_quiet. Qed.

Lemma quiet_Close f : quiet (os.Close f).
Proof. unfold os.Close. solve_quiet. Qed.

Lemma quiet_Write H f data : quiet (os.Write H f data).
Proof. unfold os.Write. solve_quiet. Qed.

Lemma quiet_Read f : quiet (os.Read f).
Proof. unfold os.Read. solve_quiet. Qed.

Lemma quiet_BodyClose url : quiet (http.BodyClose url).
Proof. done. Qed.

#[export] Hint Resolve quiet_Create quiet_Open quiet_Close quiet_Write quiet_Read
  quiet_BodyClose : go.

Lemma quiet_Copy H dst src : quiet (io.Copy H dst src).
Proof. unfold io.Copy. solve_quiet. Qed.

Lemma quiet_NewRequest H url : quiet (http.NewRequest H url).
Proof. unfold http.NewRequest. solve_quiet. Qed.

Lemma quiet_Do H hc url : quiet (http.Do H hc url).
Proof.
  intros w. unfold http.Do. destruct (http_do H hc url); simpl;
    by rewrite commands_app, app_nil_r.
Qed.

Lemma quiet_archiver_Open H src dst : quiet (archiver.Open H src dst).
Proof. unfold archiver.Open. solve_quiet. Qed.

(** A process is one command, started or not. *)
Lemma exec_Run_commands H name args w :
  commands (trace (exec.Run H name args w).2) = commands (trace w) ++ [(name, args)].
Proof.
  unfold exec.Run. destruct (proc H name args _) as [out [f p]].
  destruct (p_started out); simpl; by rewrite commands_app.
Qed.

Lemma runs_always {A} (m : M World A) cs :
  (forall w, commands (trace (m w).2) = commands (trace w) ++ cs) -> runs m cs.
Proof. intros Hm w. by exists cs. Qed.

Lemma runs_exec_Run H name args : runs (exec.Run H name args) [(name, args)].
Proof. apply runs_always, exec_Run_commands. Qed.

Lemma runs_Output H name args : runs (call2 (Output (Wrap H) name args)) [(name, args)].
Proof.
  apply runs_always. intros w. rewrite <-(exec_Run_commands H). unfold call2. simpl.
  by destruct (exec.Run H name args w) as [[out|e] w'].
Qed.

Lemma runs_CombinedOutput H name args :
  runs (call2 (CombinedOutput (Wrap H) name args)) [(name, args)].
Proof.
  apply runs_always. intros w. rewrite <-(exec_Run_commands H). unfold call2. simpl.
  by destruct (exec.Run H name args w) as [[out|e] w'].
Qed.

(** A command followed by quiet steps. *)
Lemma runs_then_quiet {A B} (m : M World A) (k : A -> M World B) cs :
  runs m cs -> (forall x, quiet (k x)) -> runs (x <- m ;; k x) cs.
Proof.
  intros Hm Hk. rewrite <-(app_nil_r cs). apply runs_bind; auto using quiet_runs.
Qed.

Lemma quiet_then_runs {A B} (m : M World A) (k : A -> M World B) cs :
  quiet m -> (forall x, runs (k x) cs) -> runs (x <- m ;; k x) cs.
Proof. intros Hm Hk. apply (runs_bind m k [] cs); auto using quiet_runs. Qed.

#[export] Hint Resolve quiet_Copy quiet_NewRequest quiet_Do quiet_archiver_Open
  runs_exec_Run runs_Output runs_CombinedOutput : go.
