(* ===== verification/Handles.v ===== *)
(** * Handles: the descriptors a function holds open

  [os.Create], [os.Open] and [hc.Do] open a descriptor, and the program
  closes each with a deferred [Close].  A computation is [balanced] when it
  returns with the descriptors it was called with, on every path, the
  failing ones included.  The rules of this file prove it for a computation
  built from the operations of [Host]: one rule per combinator, and one per
  idiom that opens a descriptor and defers its [Close] ([balanced_Create],
  [balanced_Open], [balanced_Do]); [solve_balanced] applies them. *)

From stdpp Require Import base gmap gmultiset strings list.
From S2P Require Import Prelude.
From S2P Require Import Host.
From S2P Require Import HostFacts.

(** [m] gives back every descriptor it opens, whether it succeeds or
    fails, and closes none of its caller's. *)
Definition balanced {A} (m : M World A) : Prop :=
  forall X, preserves (fun w => handles w = X) m.

(** [m] returns [a] with one more descriptor open, [h a], or fails with
    none. *)
Definition opens {A} (m : M World A) (h : A -> handle) : Prop :=
  forall w, match m w with
            | (Ok a, w') => handles w' = {[+ h a +]} ⊎ handles w
            | (Err _, w') => handles w' = handles w
            end.

(** * Theorems *)

Lemma balanced_run {A} (m : M World A) w : balanced m -> handles (m w).2 = handles w.
Proof. intros Hm. by apply Hm. Qed.

Lemma balanced_always {A} (m : M World A) :
  (forall w, handles (m w).2 = handles w) -> balanced m.
Proof. intros Hm X w <-. apply Hm. Qed.

#[export] Instance balanced_proper {A} : Proper ((≡) ==> iff) (@balanced A).
Proof.
  assert (forall m1 m2 : M World A, m1 ≡ m2 -> balanced m1 -> balanced m2) as Himp.
  { intros m1 m2 Hm H1 X w Hw. rewrite <-Hm. by apply H1. }
  intros m1 m2 Hm. split; apply Himp; [done|by symmetry].
Qed.

(** ** The combinators *)

Lemma balanced_ret {A} (a : A) : balanced (ret a : M World A).
Proof. intros X. apply preserves_ret. Qed.

Lemma balanced_fail {A} e : balanced (fail e : M World A).
Proof. intros X. apply preserves_fail. Qed.

Lemma balanced_gets {A} (f : World -> A) : balanced (gets f).
Proof. intros X. apply preserves_gets. Qed.

Lemma balanced_of_err o : balanced (of_err o : M World unit).
Proof. intros X. apply preserves_of_err. Qed.

Lemma balanced_bind {A B} (m : M World A) (k : A -> M World B) :
  balanced m -> (forall a, balanced (k a)) -> balanced (bind m k).
Proof. intros Hm Hk X. apply preserves_bind; [apply Hm|]. intros a. apply Hk. Qed.

Lemma balanced_ignore {A} (m : M World A) : balanced m -> balanced (ignore m).
Proof. intros Hm X. apply preserves_ignore, Hm. Qed.

Lemma balanced_forM {A} (f : A -> M World unit) l :
  (forall x, balanced (f x)) -> balanced (forM_ f l).
Proof. intros Hf X. apply preserves_forM. intros x. apply Hf. Qed.

Lemma balanced_iter {A B} (f : A -> M World B) l :
  (forall x, balanced (f x)) -> balanced (iter_ f l).
Proof. intros Hf X. apply preserves_iter. intros x. apply Hf. Qed.

Lemma balanced_on_open {A} op f (m : M World A) : balanced m -> balanced (on_open op f m).
Proof. intros Hm X. apply preserves_on_open, Hm. Qed.

(** ** The operations that open nothing *)

Lemma balanced_lift_fs {A} (m : M FS A) : balanced (lift_fs m).
Proof. apply balanced_always. intros w. by rewrite lift_fs_run. Qed.

Lemma balanced_log e : balanced (modify (log e)).
Proof. by apply balanced_always. Qed.

Lemma balanced_Println s : balanced (fmt.Println s).
Proof. by apply balanced_always. Qed.

Lemma balanced_Exists p : balanced (utils.Exists p).
Proof. apply balanced_gets. Qed.

Lemma balanced_Mkdir p : balanced (os.Mkdir p).
Proof. apply balanced_lift_fs. Qed.

Lemma balanced_Write H f data : balanced (os.Write H f data).
Proof. unfold os.Write. apply balanced_on_open, balanced_lift_fs. Qed.

Lemma balanced_Read f : balanced (os.Read f).
Proof. unfold os.Read. apply balanced_on_open, balanced_lift_fs. Qed.

Lemma balanced_NewRequest H url : balanced (http.NewRequest H url).
Proof. unfold http.NewRequest. case_match; [apply balanced_ret|apply balanced_fail]. Qed.

Lemma balanced_Copy H dst src : balanced (io.Copy H dst src).
Proof.
  destruct src as [f|body [e|]]; simpl;
    (apply balanced_bind; [|intros ?]);
    auto using balanced_Read, balanced_Write, balanced_ret, balanced_fail.
Qed.

Lemma balanced_exec_Run H name args : balanced (exec.Run H name args).
Proof.
  apply balanced_always. intros w. unfold exec.Run.
  destruct (proc H name args _) as [out [f p]]. by destruct (p_started out).
Qed.

Lemma balanced_call2 {A} (f : World -> (A * option error) * World) :
  (forall w, handles (f w).2 = handles w) -> balanced (call2 f).
Proof.
  intros Hf. apply balanced_always. intros w. unfold call2.
  specialize (Hf w). by destruct (f w).
Qed.

Lemma balanced_Output H name args : balanced (call2 (Output (Wrap H) name args)).
Proof.
  apply balanced_call2. intros w. simpl.
  pose proof (balanced_run _ w (balanced_exec_Run H name args)) as Hr.
  by destruct (exec.Run H name args w) as [[out|e] w'].
Qed.

Lemma balanced_CombinedOutput H name args :
  balanced (call2 (CombinedOutput (Wrap H) name args)).
Proof.
  apply balanced_call2. intros w. simpl.
  pose proof (balanced_run _ w (balanced_exec_Run H name args)) as Hr.
  by destruct (exec.Run H name args w) as [[out|e] w'].
Qed.

Lemma balanced_archiver_Open H src dst : balanced (archiver.Open H src dst).
Proof.
  unfold archiver.Open.
  repeat (apply balanced_bind; [|intros ?]);
    auto using balanced_log, balanced_lift_fs.
  case_match; auto using balanced_lift_fs, balanced_fail.
Qed.

(** ** Open, defer, close *)

Lemma opens_Create p : opens (os.Create p) HFile.
Proof. intros w. rewrite os_Create_run. by repeat case_match; simplify_eq. Qed.

Lemma opens_Open p : opens (os.Open p) HFile.
Proof. intros w. rewrite os_Open_run. by repeat case_match; simplify_eq. Qed.

(** [req, err := http.NewRequest(url); res, err := hc.Do(req)]: the body
    of the response to the GET of [url]. *)
Lemma opens_Do H hc url :
  opens (req <- http.NewRequest H url ;; http.Do H hc req) (fun _ => HBody url).
Proof.
  intros w. unfold bind, http.NewRequest, http.Do.
  destruct (http_parse H url); simpl; [|done]. by destruct (http_do H hc url).
Qed.

(** A descriptor that is open and deferred is closed at the return. *)
Lemma defer_closes {A} (c : M World unit) (m : M World A) h X :
  (forall w, h ∈ handles w -> handles (c w).2 = handles w ∖ {[+ h +]}) ->
  preserves (fun w => handles w = {[+ h +]} ⊎ X) m ->
  forall w, handles w = {[+ h +]} ⊎ X -> handles (defer c m w).2 = X.
Proof.
  intros Hc Hm w Hw. rewrite defer_run. simpl.
  specialize (Hm w Hw). simpl in Hm.
  rewrite Hc; rewrite Hm; multiset_solver.
Qed.

Lemma os_Close_handles f w :
  HFile f ∈ handles w -> handles (os.Close f w).2 = handles w ∖ {[+ HFile f +]}.
Proof. intros Hin. by rewrite os_Close_run by by apply bool_decide_eq_true. Qed.

(** [x, err := open(); if err != nil { return err }; defer close(x); body]
    is balanced when [body] is. *)
Lemma balanced_bracket {A B} (m : M World A) (h : A -> handle)
    (c : A -> M World unit) (body : A -> M World B) :
  opens m h ->
  (forall a w, h a ∈ handles w -> handles (c a w).2 = handles w ∖ {[+ h a +]}) ->
  (forall a, balanced (body a)) ->
  balanced (a <- m ;; defer (c a) (body a)).
Proof.
  intros Hm Hc Hb X w Hw. unfold bind. specialize (Hm w).
  destruct (m w) as [[a|e] w']; [|simpl; congruence].
  eapply defer_closes; [apply Hc|apply Hb|]. by rewrite Hm, Hw.
Qed.

Lemma balanced_Create {A} p (body : File -> M World A) :
  (forall f, balanced (body f)) ->
  balanced (f <- os.Create p ;; defer (os.Close f) (body f)).
Proof.
  apply (balanced_bracket _ HFile); [apply opens_Create|]. intros f. apply os_Close_handles.
Qed.

Lemma balanced_Open {A} p (body : File -> M World A) :
  (forall f, balanced (body f)) ->
  balanced (f <- os.Open p ;; defer (os.Close f) (body f)).
Proof.
  apply (balanced_bracket _ HFile); [apply opens_Open|]. intros f. apply os_Close_handles.
Qed.

Lemma balanced_Do {A} H hc url (body : nat * Reader -> M World A) :
  (forall res, balanced (body res)) ->
  balanced (req <- http.NewRequest H url ;;
            res <- http.Do H hc req ;;
            defer (http.BodyClose url) (body res)).
Proof.
  intros Hb. rewrite <-bind_assoc.
  apply (balanced_bracket _ (fun _ => HBody url)); [apply opens_Do|done..].
Qed.

#[export] Hint Resolve balanced_ret balanced_fail balanced_gets balanced_of_err
  balanced_lift_fs balanced_log balanced_Println balanced_Exists balanced_Mkdir
  balanced_Write balanced_Read balanced_NewRequest balanced_Copy balanced_exec_Run
  balanced_Output balanced_CombinedOutput balanced_archiver_Open : go.

(** The goals [balanced m]: the idioms that open a descriptor first, then
    the combinators, then the operations. *)
Ltac solve_balanced :=
  repeat match goal with
  | |- balanced (bind (os.Create _) _) => apply balanced_Create; intros ?
  | |- balanced (bind (os.Open _) _) => apply balanced_Open; intros ?
  | |- balanced (bind (http.NewRequest _ _) _) => apply balanced_Do; intros ?
  | |- balanced (bind _ _) => apply balanced_bind; [|intros ?]
  | |- balanced (forM_ _ _) => apply balanced_forM; intros ?
  | |- balanced (iter_ _ _) => apply balanced_iter; intros ?
  | |- balanced (ignore _) => apply balanced_ignore
  | |- balanced (match ?x with _ => _ end) => destruct x
  | |- _ => solve [eauto with go]
  end.

(** ** Examples *)

(** A write after the [Close] is refused, a second [Close] is an error,
    and a deferred [Close] that fails is not reported: the function
    returns what its body did. *)
Example write_after_close :
  let w := mkWorld fs_empty (mkPool ∅ ∅ ∅) [] [] ∅ in
  (f <- os.Create "motd" ;; os.Close f ;; os.Write null_host f "hello") w =
    (Err (ErrPath "write" "motd" ECLOSED), set_fs (with_file "motd" "" fs_empty) w) /\
  (f <- os.Create "motd" ;; os.Close f ;; os.Close f) w =
    (Err (ErrPath "close" "motd" ECLOSED), set_fs (with_file "motd" "" fs_empty) w) /\
  (f <- os.Create "motd" ;; defer (os.Close f) (os.Close f ;; os.Write null_host f "hello")) w =
    (Err (ErrPath "write" "motd" ECLOSED), set_fs (with_file "motd" "" fs_empty) w).
Proof. split_and!; by vm_compute. Qed.

(** A function that opens a second file before it defers the [Close] of
    the first leaks the first when the second cannot be opened; with the
    [defer] in its place it does not. *)
Example late_defer_leaks :
  let w := mkWorld (mkFS {["a" := "data"]} ∅) (mkPool ∅ ∅ ∅) [] [] ∅ in
  multiplicity (HFile (mkFile "a" false))
    (handles ((inp <- os.Open "a" ;; out <- os.Create "no/b" ;;
               defer (os.Close inp) (defer (os.Close out) (ret tt))) w).2) = 1 /\
  size (handles ((inp <- os.Open "a" ;;
                  defer (os.Close inp) (out <- os.Create "no/b" ;;
                                        defer (os.Close out) (ret tt))) w).2) = 0.
Proof. split; by vm_compute. Qed.
