(* ===== verification/Options.v ===== *)
(** * Options: the provisioning parameters and the builder

  [src/build.go], lines 18-66: the package-level constants, [Opts] with its
  validator, [Builder] and its constructor [New]. *)

From stdpp Require Import base gmap strings list.
From S2P Require Import Prelude.
From S2P Require Import Host.

(** ** Constants *)

Definition basePackages : list string := ["base.txz"; "lib32.txz"; "ports.txz"].

Definition rcConf : string := "/etc/rc.conf".

Definition sysDownloadURL : string :=
  "http://ftp.freebsd.org/pub/FreeBSD/releases/amd64/amd64/%s/%s".

(** ** Options *)

Record Opts := mkOpts {
  BaseDir : string;
  Release : string;
  Dataset : string;
}.

#[export] Instance Opts_eq_dec : EqDecision Opts.
Proof. solve_decision. Defined.

(** [func (o *Opts) Validate() error]: the [switch] takes the first case
    that holds. *)
Definition Validate (o : Opts) : option error :=
  if decide (BaseDir o = "") then Some (ErrNew "missing base directory")
  else if decide (Release o = "") then Some (ErrNew "missing release")
  else if decide (Dataset o = "") then Some (ErrNew "missing dataset")
  else None.

(** ** The builder *)

Record Builder := mkBuilder {
  wrapper : Wrapper;
  opts : Opts;
}.

(** [func New(opts *Opts)], returning a builder or an error. *)
Definition New (H : Host) (o : Opts) : Res Builder :=
  match Validate o with
  | Some err => Err err
  | None => Ok {| wrapper := Wrap H; opts := o |}
  end.

(** The cache file of a package. *)
Definition cache_file (o : Opts) (p : string) : string :=
  "/tmp/" +:+ Release o +:+ "/" +:+ p.

(** Sample options for the examples. *)
Definition opts0 : Opts := mkOpts "/usr/jails" "11.0-RELEASE" "zroot".

(** ** Specification of the validator *)

(** The mandatory fields in the order the validator declares them, each
    with the message that reports it missing. *)
Definition required : list ((Opts -> string) * string) :=
  [(BaseDir, "missing base directory");
   (Release, "missing release");
   (Dataset, "missing dataset")].

(** The first mandatory field that is empty, as an error. *)
Fixpoint first_missing (fields : list ((Opts -> string) * string)) (o : Opts) : option error :=
  match fields with
  | [] => None
  | (get, msg) :: rest =>
      if decide (get o = "") then Some (ErrNew msg) else first_missing rest o
  end.

Definition complete (o : Opts) : Prop :=
  BaseDir o <> "" /\ Release o <> "" /\ Dataset o <> "".

#[export] Instance complete_dec o : Decision (complete o).
Proof. unfold complete. apply _. Defined.

(** ** Theorems *)

(** The validator reports the first mandatory field, in declaration
    order, that is empty. *)
Lemma Validate_first_missing (o : Opts) : Validate o = first_missing required o.
Proof. unfold Validate. simpl. by repeat case_decide. Qed.

Lemma first_missing_None fields o :
  first_missing fields o = None <-> Forall (fun f => f.1 o <> "") fields.
Proof.
  induction fields as [|[get msg] fields IH]; simpl.
  - split; [constructor | done].
  - case_decide as Hg.
    + split; [done|]. by intros [? _]%Forall_cons.
    + rewrite IH, Forall_cons. naive_solver.
Qed.

(** The validator accepts exactly the options with three non-empty
    fields. *)
Lemma Validate_ok_iff (o : Opts) : Validate o = None <-> complete o.
Proof.
  rewrite Validate_first_missing, first_missing_None. unfold required, complete.
  rewrite !Forall_cons, Forall_nil. simpl. tauto.
Qed.

(** C38: an error of [Validate] is one of the three messages, and it
    names a field that is empty while all the fields declared before it
    are not: the first missing field is reported. *)
Theorem Validate_error_names_first (o : Opts) (e : error) :
  Validate o = Some e ->
  exists before get msg after,
    required = before ++ (get, msg) :: after /\
    e = ErrNew msg /\ get o = "" /\ Forall (fun f => f.1 o <> "") before.
Proof.
  rewrite Validate_first_missing. generalize required.
  induction l as [|[get msg] l IH]; simpl; [done|].
  case_decide as Hg.
  - intros [= <-]. exists [], get, msg, l. by repeat split.
  - intros (before & g & m & after & -> & -> & Hg' & Hb)%IH.
    exists ((get, msg) :: before), g, m, after. repeat split; [done|]. by constructor.
Qed.

Lemma Validate_error_names_first_witness :
  exists before get msg after,
    required = before ++ (get, msg) :: after /\
    ErrNew "missing release" = ErrNew msg /\ get (mkOpts "/usr/jails" "" "") = "" /\
    Forall (fun f => f.1 (mkOpts "/usr/jails" "" "") <> "") before.
Proof. apply (Validate_error_names_first (mkOpts "/usr/jails" "" "")). reflexivity. Defined.

(** [New] returns a builder exactly for options whose three
    fields are not empty; the builder holds the options unchanged and
    the real command executor. *)
Theorem New_ok_iff (H : Host) (o : Opts) (b : Builder) :
  New H o = Ok b <-> complete o /\ b = {| wrapper := Wrap H; opts := o |}.
Proof.
  unfold New. rewrite <- Validate_ok_iff.
  destruct (Validate o); naive_solver.
Qed.

(** [New] fails exactly when [Validate] reports an error, with
    that error, and builds nothing. *)
Theorem New_error (H : Host) (o : Opts) (e : error) :
  New H o = Err e <-> Validate o = Some e.
Proof. unfold New. destruct (Validate o); naive_solver. Qed.

(** Every builder made by [New] carries complete options. *)
Corollary New_complete (H : Host) (o : Opts) (b : Builder) :
  New H o = Ok b -> complete (opts b).
Proof.
  unfold New. destruct (Validate o) eqn:Hv; [done|]. intros [= <-].
  by apply Validate_ok_iff.
Qed.
