(* ===== verification/Zfs.v ===== *)
(** * Zfs: the snapshot and clone manager

  [src/zfs.go]: the four methods of [Builder] that run the [zfs] binary
  through the builder's command executor.  They are stated over any
  [Wrapper].

  The second half of the file is a reference semantics of the [zfs] binary
  on the pool ([zfs_run]): dataset and snapshot names and their validity,
  [create -p], [snapshot] and [clone].  It is modelled from the specification
  and from the documented behaviour of ZFS (names are paths of non-empty
  components without a leading slash; [create -p] creates the missing
  ancestors and accepts an existing dataset; a snapshot needs its dataset; a
  clone needs its snapshot).  A host whose process runner behaves like it for
  the program [zfs] is a [ZfsHost]. *)

From stdpp Require Import base gmap strings list.
From S2P Require Import Prelude.
From S2P Require Import Host.
From S2P Require Import HostFacts.
From S2P Require Import Trace.
From S2P Require Import Handles.
From S2P Require Import Options.

(** ** The methods of [src/zfs.go] *)

Definition CreateZFSDataset (b : Builder) : M World unit :=
  let dataset := Dataset (opts b) +:+ "/jails/releases/" +:+ Release (opts b) in
  r <- call2 (CombinedOutput (wrapper b) "zfs" ["create"; "-p"; dataset]) ;;
  fmt.Println r.1 ;;
  of_err r.2.

Definition CreateZFSSnapshot (b : Builder) : M World unit :=
  r <- call2 (Output (wrapper b) "zfs"
                ["snapshot";
                 Dataset (opts b) +:+ "/jails/releases/" +:+ Release (opts b) +:+ "@p1"]) ;;
  of_err r.2.

Definition CloneBaseToJail (b : Builder) (jname : string) : M World unit :=
  let base := "/" +:+ Dataset (opts b) +:+ "/jails/releases/" +:+ Release (opts b) +:+ "@p1" in
  let dataset := "/zroot/jails/" +:+ jname in
  r <- call2 (Output (wrapper b) "zfs" ["clone"; base; dataset]) ;;
  of_err r.2.

Definition CreateBaseJailDataset (b : Builder) : M World unit :=
  r <- call2 (Output (wrapper b) "zfs"
                ["create"; "-o"; "mountpoint=" +:+ BaseDir (opts b); "zroot"; ""]) ;;
  of_err r.2.

(** The names the methods build, for the statements below. *)
Definition release_dataset (o : Opts) : string :=
  Dataset o +:+ "/jails/releases/" +:+ Release o.

Definition release_snapshot (o : Opts) : string :=
  Dataset o +:+ "/jails/releases/" +:+ Release o +:+ "@p1".

(** ** Reference semantics of the [zfs] binary *)

Definition at_sign : Ascii.ascii :=
  Ascii.Ascii false false false false false false true false.

Definition is_at (c : Ascii.ascii) : bool := bool_decide (c = at_sign).

(** A dataset name: components separated by single slashes, none of them
    empty, no [@].  [fresh] says that a component has just begun. *)
Fixpoint name_ok_from (fresh : bool) (s : string) : bool :=
  match s with
  | EmptyString => negb fresh
  | String a s' =>
      if is_slash a then negb fresh && name_ok_from true s'
      else if is_at a then false
      else name_ok_from false s'
  end.

Definition ds_name_ok (s : string) : bool := name_ok_from true s.

(** The text before and after the first [@]. *)
Fixpoint split_at (s : string) : option (string * string) :=
  match s with
  | EmptyString => None
  | String a s' =>
      if is_at a then Some (EmptyString, s')
      else match split_at s' with
           | Some (x, y) => Some (String a x, y)
           | None => None
           end
  end.

(** A snapshot name [dataset@tag], split when both halves are valid. *)
Definition parse_snapshot (s : string) : option (string * string) :=
  match split_at s with
  | Some (ds, tag) =>
      if ds_name_ok ds && ds_name_ok tag && no_slash tag then Some (ds, tag) else None
  | None => None
  end.

(** The dataset and its ancestors, the pool first. *)
Definition ancestors (s : string) : list string := prefixes s.

(** The parent dataset: the last ancestor but one. *)
Definition ds_parent (s : string) : option string :=
  last (removelast (ancestors s)).

Definition zfs_ok : ProcOut := mkProcOut true "" "" 0.

Definition zfs_err (msg : string) : ProcOut := mkProcOut true "" msg 1.

Definition zfs_usage : ProcOut := mkProcOut true "" "usage: zfs command args ..." 2.

(** [zfs create -p name]. *)
Definition zfs_create_p (name : string) (p : Pool) : ProcOut * Pool :=
  if negb (ds_name_ok name) then (zfs_err "invalid dataset name", p)
  else match ancestors name with
       | root :: _ =>
           if bool_decide (root ∈ datasets p)
           then (zfs_ok, mkPool (list_to_set (ancestors name) ∪ datasets p)
                                (snapshots p) (origins p))
           else (zfs_err "no such pool", p)
       | [] => (zfs_err "invalid dataset name", p)
       end.

(** [zfs create -o property=value name]: without [-p] the parent must
    exist and the dataset must not.  The property is not modelled. *)
Definition zfs_create (name : string) (p : Pool) : ProcOut * Pool :=
  if negb (ds_name_ok name) then (zfs_err "invalid dataset name", p)
  else if bool_decide (name ∈ datasets p) then (zfs_err "dataset already exists", p)
  else match ds_parent name with
       | Some parent =>
           if bool_decide (parent ∈ datasets p)
           then (zfs_ok, mkPool ({[name]} ∪ datasets p) (snapshots p) (origins p))
           else (zfs_err "parent does not exist", p)
       | None => (zfs_err "missing dataset name", p)
       end.

(** [zfs snapshot dataset@tag]. *)
Definition zfs_snapshot (snap : string) (p : Pool) : ProcOut * Pool :=
  match parse_snapshot snap with
  | None => (zfs_err "invalid snapshot name", p)
  | Some (ds, _) =>
      if negb (bool_decide (ds ∈ datasets p)) then (zfs_err "dataset does not exist", p)
      else if bool_decide (snap ∈ snapshots p) then (zfs_err "dataset already exists", p)
      else (zfs_ok, mkPool (datasets p) ({[snap]} ∪ snapshots p) (origins p))
  end.

(** [zfs clone snapshot target]. *)
Definition zfs_clone (snap target : string) (p : Pool) : ProcOut * Pool :=
  match parse_snapshot snap with
  | None => (zfs_err "invalid snapshot name", p)
  | Some _ =>
      if negb (bool_decide (snap ∈ snapshots p)) then (zfs_err "dataset does not exist", p)
      else if negb (ds_name_ok target) then (zfs_err "invalid dataset name", p)
      else if bool_decide (target ∈ datasets p) then (zfs_err "dataset already exists", p)
      else match ds_parent target with
           | Some parent =>
               if bool_decide (parent ∈ datasets p)
               then (zfs_ok, mkPool ({[target]} ∪ datasets p) (snapshots p)
                                    (<[target := snap]> (origins p)))
               else (zfs_err "parent does not exist", p)
           | None => (zfs_err "missing dataset name", p)
           end
  end.

Definition zfs_run (args : list string) (p : Pool) : ProcOut * Pool :=
  match args with
  | [cmd; a; _; c] =>
      if bool_decide (cmd = "create") && bool_decide (a = "-o") then zfs_create c p
      else (zfs_usage, p)
  | [cmd; a; b] =>
      if bool_decide (cmd = "create") && bool_decide (a = "-p") then zfs_create_p b p
      else if bool_decide (cmd = "clone") then zfs_clone a b p
      else (zfs_usage, p)
  | [cmd; a] =>
      if bool_decide (cmd = "snapshot") then zfs_snapshot a p else (zfs_usage, p)
  | _ => (zfs_usage, p)
  end.

(** A host on which the program [zfs] is the reference one: it changes
    the pool as [zfs_run] says and leaves the files alone. *)
Class ZfsHost (H : Host) : Prop :=
  zfs_host : forall args f p,
    proc H "zfs" args (f, p) = ((zfs_run args p).1, (f, (zfs_run args p).2)).

(** The names of a pool are valid: the invariant of [zfs_run]. *)
Definition pool_wf (p : Pool) : Prop :=
  (forall d, d ∈ datasets p -> ds_name_ok d = true) /\
  (forall s, s ∈ snapshots p -> exists ds tag, parse_snapshot s = Some (ds, tag) /\ ds ∈ datasets p) /\
  (forall c s, origins p !! c = Some s -> c ∈ datasets p /\ s ∈ snapshots p).

(** The world after the reference [zfs] ran with [args]. *)
Definition zfs_world (args : list string) (w : World) : World :=
  mkWorld (fs w) (zfs_run args (pool w)).2 (stdout w)
          (trace w ++ [EvExec "zfs" args (Some (p_exit (zfs_run args (pool w)).1))])
          (handles w).

(** A process runner that knows the program [zfs] only, and the host made
    of it. *)
Definition zfs_proc (name : string) (args : list string) (s : FS * Pool) : ProcOut * (FS * Pool) :=
  if bool_decide (name = "zfs") then ((zfs_run args s.2).1, (s.1, (zfs_run args s.2).2))
  else (mkProcOut false "" "" 0, s).

Definition zfs_only : Host :=
  mkHost (http_parse null_host) (http_do null_host) (untar null_host) zfs_proc
         (io_fail null_host).


(** A pool, a world and options to run the methods on. *)
Definition pool0 : Pool := mkPool {["zroot"]} ∅ ∅.

Definition world0 : World := mkWorld fs_empty pool0 [] [] ∅.

(** ** Names *)

Lemma is_slash_at c : is_slash c = true -> is_at c = false.
Proof. unfold is_slash, is_at. intros ->%bool_decide_eq_true. done. Qed.

Lemma name_ok_from_app b (a c : string) :
  name_ok_from b (a +:+ "/" +:+ c) = name_ok_from b a && name_ok_from true c.
Proof.
  revert b. induction a as [|x a IH]; intros b.
  - rewrite app_nil_l_s. change ("/" +:+ c) with (String slash c). simpl.
    done.
  - rewrite app_cons_s. simpl. rewrite !IH.
    destruct (is_slash x), (is_at x), b; simpl; try done.
Qed.

Lemma ds_name_ok_slash s : ds_name_ok (String slash s) = false.
Proof. done. Qed.

Lemma split_at_app b (a t : string) :
  name_ok_from b a = true -> split_at (a +:+ String at_sign t) = Some (a, t).
Proof.
  revert b. induction a as [|x a IH]; intros b; [done|].
  rewrite app_cons_s. simpl.
  destruct (is_slash x) eqn:Hs.
  - rewrite (is_slash_at _ Hs). intros [_ H]%andb_true_iff. by rewrite (IH _ H).
  - destruct (is_at x); [done|]. intros H. by rewrite (IH _ H).
Qed.

Lemma split_at_slash s : 
  split_at (String slash s) = (λ p, (String slash p.1, p.2)) <$> split_at s.
Proof. simpl. by destruct (split_at s) as [[]|]. Qed.

Lemma parse_snapshot_slash s : parse_snapshot (String slash s) = None.
Proof.
  unfold parse_snapshot. rewrite split_at_slash.
  by destruct (split_at s) as [[x y]|].
Qed.

Lemma ancestors_self s : s ∈ ancestors s.
Proof.
  apply prefixes_self.
Qed.

Lemma ancestors_ok s x : ds_name_ok s = true -> x ∈ ancestors s -> ds_name_ok x = true.
Proof.
  intros Hs [->|[rest ->]]%prefixes_elem; [done|]. unfold ds_name_ok in *.
  rewrite name_ok_from_app in Hs. by apply andb_true_iff in Hs as [? _].
Qed.

Lemma name_ok_from_at b (a t : string) : name_ok_from b (a +:+ String at_sign t) = false.
Proof.
  revert b. induction a as [|x a IH]; intros b; [done|].
  rewrite app_cons_s. simpl. rewrite !IH.
  by destruct (is_slash x), (is_at x), b.
Qed.

Lemma split_at_app_inv (a t x y : string) :
  split_at (a +:+ String at_sign t) = Some (x, y) ->
  (x = a /\ y = t) \/ exists a2, y = a2 +:+ String at_sign t.
Proof.
  revert x. induction a as [|c a IH]; intros x.
  - rewrite app_nil_l_s. simpl. naive_solver.
  - rewrite app_cons_s. simpl. destruct (is_at c); [naive_solver|].
    destruct (split_at _) as [[x' y']|]; [|done].
    intros [= <- <-]. destruct (IH x' eq_refl) as [[-> ->]|?]; naive_solver.
Qed.

(** A snapshot name built as [a@t] parses to [a] and [t] or not at all. *)
Lemma parse_snapshot_app (a t x y : string) :
  parse_snapshot (a +:+ String at_sign t) = Some (x, y) -> x = a /\ y = t.
Proof.
  unfold parse_snapshot.
  destruct (split_at _) as [[x' y']|] eqn:E; [|done].
  case_match eqn:Hok; [|done]. intros [= <- <-].
  apply split_at_app_inv in E as [?|[a2 ->]]; [done|].
  unfold ds_name_ok in Hok. by rewrite name_ok_from_at, andb_false_r in Hok.
Qed.

Lemma parse_snapshot_ok (a t : string) :
  ds_name_ok a = true -> ds_name_ok t = true -> no_slash t = true ->
  parse_snapshot (a +:+ String at_sign t) = Some (a, t).
Proof.
  intros Ha Ht Hs. unfold parse_snapshot.
  rewrite (split_at_app true) by done. by rewrite Ha, Ht, Hs.
Qed.

Lemma release_snapshot_eq o : release_snapshot o = release_dataset o +:+ String at_sign "p1".
Proof. unfold release_snapshot, release_dataset. by rewrite !app_assoc_s. Qed.

Lemma release_dataset_ok o :
  ds_name_ok (release_dataset o) = ds_name_ok (Dataset o) && ds_name_ok (Release o).
Proof.
  unfold release_dataset, ds_name_ok.
  change ("/jails/releases/" +:+ Release o) with ("/" +:+ "jails/releases" +:+ "/" +:+ Release o).
  rewrite name_ok_from_app.
  rewrite (name_ok_from_app true "jails/releases"). done.
Qed.

Lemma parse_snapshot_valid (s x y : string) :
  parse_snapshot s = Some (x, y) ->
  ds_name_ok x = true /\ ds_name_ok y = true /\ no_slash y = true.
Proof.
  unfold parse_snapshot. destruct (split_at s) as [[x' y']|]; [|done].
  case_match eqn:Hok; [|done]. intros [= <- <-].
  by apply andb_true_iff in Hok as [[? ?]%andb_true_iff ?].
Qed.

(** The snapshot of a release parses exactly when its dataset name is
    valid. *)
Lemma parse_release_snapshot o :
  parse_snapshot (release_snapshot o) =
    if ds_name_ok (release_dataset o) then Some (release_dataset o, "p1") else None.
Proof.
  rewrite release_snapshot_eq. destruct (ds_name_ok _) eqn:Hok.
  - by apply parse_snapshot_ok.
  - destruct (parse_snapshot _) as [[x y]|] eqn:E; [|done].
    pose proof (parse_snapshot_valid _ _ _ E) as [Hx _].
    apply parse_snapshot_app in E as [-> ->]. congruence.
Qed.


Lemma zfs_run_started args p : p_started (zfs_run args p).1 = true.
Proof.
  unfold zfs_run, zfs_create, zfs_create_p, zfs_snapshot, zfs_clone.
  repeat (case_match; simpl; try done).
Qed.

Lemma zfs_run_create_p name p : zfs_run ["create"; "-p"; name] p = zfs_create_p name p.
Proof. done. Qed.

Lemma zfs_run_snapshot snap p : zfs_run ["snapshot"; snap] p = zfs_snapshot snap p.
Proof. done. Qed.

Lemma zfs_run_clone snap target p : zfs_run ["clone"; snap; target] p = zfs_clone snap target p.
Proof. done. Qed.



(** *** The pool invariant *)

Lemma zfs_create_p_wf name p : pool_wf p -> pool_wf (zfs_create_p name p).2.
Proof.
  intros (Hd & Hs & Ho). unfold zfs_create_p.
  destruct (ds_name_ok name) eqn:Hok; [|done]. simpl.
  destruct (ancestors name) as [|root l] eqn:E; [done|].
  case_bool_decide; [|done]. rewrite <- E. split_and!; simpl.
  - intros dn [Hin|?]%elem_of_union; [|by apply Hd].
    apply elem_of_list_to_set in Hin. by eapply ancestors_ok.
  - intros sn (ds & tag & ? & ?)%Hs. exists ds, tag. set_solver.
  - intros cl sn [? ?]%Ho. set_solver.
Qed.

Lemma zfs_create_wf name p : pool_wf p -> pool_wf (zfs_create name p).2.
Proof.
  intros (Hd & Hs & Ho). unfold zfs_create.
  destruct (ds_name_ok name) eqn:Hok; [|done]. simpl.
  repeat case_match; try done. split_and!; simpl.
  - intros dn [->%elem_of_singleton|?]%elem_of_union; [done|by apply Hd].
  - intros sn (ds & tag & ? & ?)%Hs. exists ds, tag. set_solver.
  - intros cl sn [? ?]%Ho. set_solver.
Qed.

Lemma zfs_snapshot_wf snap p : pool_wf p -> pool_wf (zfs_snapshot snap p).2.
Proof.
  intros (Hd & Hs & Ho). unfold zfs_snapshot.
  destruct (parse_snapshot snap) as [[ds tag]|] eqn:E; [|done].
  repeat case_bool_decide; try done. split_and!; simpl; [done| |].
  - intros sn [->%elem_of_singleton|?]%elem_of_union; [by exists ds, tag|by apply Hs].
  - intros cl sn [? ?]%Ho. set_solver.
Qed.

Lemma zfs_clone_wf snap target p : pool_wf p -> pool_wf (zfs_clone snap target p).2.
Proof.
  intros (Hd & Hs & Ho). unfold zfs_clone.
  destruct (parse_snapshot snap) as [[ds tag]|] eqn:E; [|done].
  case_bool_decide as Hsn; [|done]. simpl.
  destruct (ds_name_ok target) eqn:Hok; [|done]. simpl.
  repeat case_match; try done. split_and!; simpl.
  - intros dn [->%elem_of_singleton|?]%elem_of_union; [done|by apply Hd].
  - intros sn (ds' & tag' & ? & ?)%Hs. exists ds', tag'. set_solver.
  - intros cl sn [[<- <-]|[_ [? ?]%Ho]]%lookup_insert_Some; set_solver.
Qed.

(** Every command of the reference [zfs] keeps the names of the pool
    valid. *)
Lemma zfs_run_wf args p : pool_wf p -> pool_wf (zfs_run args p).2.
Proof.
  intros Hp. unfold zfs_run.
  repeat case_match; try done;
    auto using zfs_create_p_wf, zfs_create_wf, zfs_snapshot_wf, zfs_clone_wf.
Qed.

(** A command that fails leaves the pool as it was. *)
Lemma zfs_run_fail_pool args p : p_exit (zfs_run args p).1 <> 0 -> (zfs_run args p).2 = p.
Proof.
  unfold zfs_run, zfs_create, zfs_create_p, zfs_snapshot, zfs_clone.
  repeat (case_match; simpl; try done).
Qed.

Lemma zfs_create_p_ok name p root :
  ds_name_ok name = true -> head (ancestors name) = Some root -> root ∈ datasets p ->
  zfs_create_p name p =
    (zfs_ok, mkPool (list_to_set (ancestors name) ∪ datasets p) (snapshots p) (origins p)).
Proof.
  intros Hok Hroot Hin. unfold zfs_create_p. rewrite Hok. simpl.
  destruct (ancestors name) as [|r l]; [done|]. simpl in Hroot. simplify_eq.
  by rewrite bool_decide_eq_true_2.
Qed.

(** ** The methods on any host *)

Section zfs_methods.
Context (H : Host) (o : Opts).

Lemma CreateZFSDataset_wf `{!HostWf H} : preserves world_wf (CreateZFSDataset (mkBuilder (Wrap H) o)).
Proof. unfold CreateZFSDataset. cbn [wrapper opts]. solve_preserves. Qed.

Lemma CreateZFSSnapshot_wf `{!HostWf H} : preserves world_wf (CreateZFSSnapshot (mkBuilder (Wrap H) o)).
Proof. unfold CreateZFSSnapshot. cbn [wrapper opts]. solve_preserves. Qed.

Lemma CloneBaseToJail_wf `{!HostWf H} jname : preserves world_wf (CloneBaseToJail (mkBuilder (Wrap H) o) jname).
Proof. unfold CloneBaseToJail. cbn [wrapper opts]. solve_preserves. Qed.

(** Each method starts [zfs] once, whatever becomes of it. *)
Lemma CreateZFSDataset_runs :
  runs (CreateZFSDataset (mkBuilder (Wrap H) o)) [("zfs", ["create"; "-p"; release_dataset o])].
Proof. apply runs_then_quiet; [apply runs_CombinedOutput|]. intros r. solve_quiet. Qed.

Lemma CreateZFSSnapshot_runs :
  runs (CreateZFSSnapshot (mkBuilder (Wrap H) o)) [("zfs", ["snapshot"; release_snapshot o])].
Proof. apply runs_then_quiet; [apply runs_Output|]. intros r. solve_quiet. Qed.

Lemma CloneBaseToJail_runs jname :
  runs (CloneBaseToJail (mkBuilder (Wrap H) o) jname)
       [("zfs", ["clone"; "/" +:+ release_snapshot o; "/zroot/jails/" +:+ jname])].
Proof. apply runs_then_quiet; [apply runs_Output|]. intros r. solve_quiet. Qed.

(** The methods open no descriptor of their own. *)
Lemma CreateZFSDataset_balanced : balanced (CreateZFSDataset (mkBuilder (Wrap H) o)).
Proof. unfold CreateZFSDataset. cbn [wrapper opts]. solve_balanced. Qed.

Lemma CreateZFSSnapshot_balanced : balanced (CreateZFSSnapshot (mkBuilder (Wrap H) o)).
Proof. unfold CreateZFSSnapshot. cbn [wrapper opts]. solve_balanced. Qed.

Lemma CloneBaseToJail_balanced jname : balanced (CloneBaseToJail (mkBuilder (Wrap H) o) jname).
Proof. unfold CloneBaseToJail. cbn [wrapper opts]. solve_balanced. Qed.

End zfs_methods.

#[export] Hint Resolve CreateZFSDataset_wf CreateZFSSnapshot_wf CloneBaseToJail_wf
  CreateZFSDataset_balanced CreateZFSSnapshot_balanced CloneBaseToJail_balanced : go.

(** The source of a clone cannot begin with a slash. *)
Lemma zfs_clone_slash s target p :
  zfs_run ["clone"; "/" +:+ s; target] p = (zfs_err "invalid snapshot name", p).
Proof.
  rewrite zfs_run_clone. unfold zfs_clone. change ("/" +:+ s) with (String slash s).
  by rewrite parse_snapshot_slash.
Qed.

(** ** The reference host *)

#[export] Instance zfs_only_host : ZfsHost zfs_only.
Proof. by intros args f p. Qed.

Section zfs_host.
Context (H : Host) `{!ZfsHost H}.

Lemma exec_Run_zfs args w :
  exec.Run H "zfs" args w = (Ok (zfs_run args (pool w)).1, zfs_world args w).
Proof. unfold exec.Run. rewrite zfs_host. simpl. by rewrite zfs_run_started. Qed.

Lemma Output_zfs args w :
  Output (Wrap H) "zfs" args w =
    ((p_stdout (zfs_run args (pool w)).1, exec.exit_error (zfs_run args (pool w)).1),
     zfs_world args w).
Proof. simpl. by rewrite exec_Run_zfs. Qed.

Lemma CombinedOutput_zfs args w :
  CombinedOutput (Wrap H) "zfs" args w =
    ((p_stdout (zfs_run args (pool w)).1 +:+ p_stderr (zfs_run args (pool w)).1,
      exec.exit_error (zfs_run args (pool w)).1),
     zfs_world args w).
Proof. simpl. by rewrite exec_Run_zfs. Qed.

Lemma CreateZFSSnapshot_run o w :
  CreateZFSSnapshot (mkBuilder (Wrap H) o) w =
    (res_of (exec.exit_error (zfs_snapshot (release_snapshot o) (pool w)).1),
     zfs_world ["snapshot"; release_snapshot o] w).
Proof.
  unfold CreateZFSSnapshot, bind, call2. cbn [wrapper opts].
  rewrite Output_zfs. cbn [snd]. rewrite of_err_run. done.
Qed.
Lemma CreateZFSDataset_run o w :
  CreateZFSDataset (mkBuilder (Wrap H) o) w =
    let out := (zfs_create_p (release_dataset o) (pool w)).1 in
    let w1 := zfs_world ["create"; "-p"; release_dataset o] w in
    (res_of (exec.exit_error out),
     mkWorld (fs w1) (pool w1) (stdout w1 ++ [p_stdout out +:+ p_stderr out]) (trace w1)
             (handles w1)).
Proof.
  unfold CreateZFSDataset, bind, call2, fmt.Println, modify. cbn [wrapper opts].
  rewrite CombinedOutput_zfs. cbn [fst snd]. rewrite of_err_run.
  by rewrite zfs_run_create_p.
Qed.

Lemma CloneBaseToJail_run o jname w :
  CloneBaseToJail (mkBuilder (Wrap H) o) jname w =
    let args := ["clone"; "/" +:+ release_snapshot o; "/zroot/jails/" +:+ jname] in
    (res_of (exec.exit_error (zfs_run args (pool w)).1), zfs_world args w).
Proof.
  unfold CloneBaseToJail, bind, call2. cbn [wrapper opts].
  rewrite Output_zfs. cbn [snd]. by rewrite of_err_run.
Qed.

Lemma CreateBaseJailDataset_run o w :
  CreateBaseJailDataset (mkBuilder (Wrap H) o) w =
    let args := ["create"; "-o"; "mountpoint=" +:+ BaseDir o; "zroot"; ""] in
    (res_of (exec.exit_error (zfs_run args (pool w)).1), zfs_world args w).
Proof.
  unfold CreateBaseJailDataset, bind, call2. cbn [wrapper opts].
  rewrite Output_zfs. cbn [snd]. by rewrite of_err_run.
Qed.

(** C35: on the reference [zfs], [CreateZFSSnapshot] succeeds exactly
    when the dataset of the release has a valid name and exists and the
    snapshot [@p1] does not exist yet. *)
Theorem CreateZFSSnapshot_ok_iff o w :
  (CreateZFSSnapshot (mkBuilder (Wrap H) o) w).1 = Ok tt <->
  ds_name_ok (release_dataset o) = true /\
  release_dataset o ∈ datasets (pool w) /\
  release_snapshot o ∉ snapshots (pool w).
Proof.
  rewrite CreateZFSSnapshot_run. cbn [fst]. unfold zfs_snapshot.
  rewrite parse_release_snapshot.
  destruct (ds_name_ok _); [|naive_solver].
  repeat case_bool_decide; simpl; naive_solver.
Qed.

Lemma zfs_snapshot_missing o p :
  release_dataset o ∉ datasets p ->
  exists msg, zfs_snapshot (release_snapshot o) p = (zfs_err msg, p).
Proof.
  intros Hd. unfold zfs_snapshot. rewrite parse_release_snapshot.
  destruct (ds_name_ok _); [|by eexists]. rewrite bool_decide_eq_false_2 by done.
  by eexists.
Qed.

(** A snapshot requested before the dataset of the release exists
    fails with exit status 1 and changes neither the pool nor the files:
    the snapshot step depends on the dataset step. *)
Theorem CreateZFSSnapshot_needs_dataset o w :
  release_dataset o ∉ datasets (pool w) ->
  exists w', CreateZFSSnapshot (mkBuilder (Wrap H) o) w = (Err (ErrExit 1), w') /\
             pool w' = pool w /\ fs w' = fs w.
Proof.
  intros [msg Hs]%zfs_snapshot_missing. rewrite CreateZFSSnapshot_run.
  eexists. split; [by rewrite Hs|]. unfold zfs_world.
  by rewrite zfs_run_snapshot, Hs.
Qed.

(** C9: [CloneBaseToJail] names its source with a leading slash, which
    is no snapshot name: on the reference [zfs] the clone fails for every
    option set, jail name and pool, and nothing is cloned. *)
Theorem CloneBaseToJail_fails o jname w :
  exists w', CloneBaseToJail (mkBuilder (Wrap H) o) jname w = (Err (ErrExit 1), w') /\
             pool w' = pool w /\ fs w' = fs w.
Proof.
  rewrite CloneBaseToJail_run. cbn zeta. unfold zfs_world. rewrite zfs_clone_slash. eauto.
Qed.


(** C36: the dataset of a release is created with its ancestors when the pool
    exists; datasets and snapshots already there are kept, and a second
    run succeeds and changes nothing more. *)
Theorem CreateZFSDataset_creates o w root :
  ds_name_ok (release_dataset o) = true ->
  head (ancestors (release_dataset o)) = Some root ->
  root ∈ datasets (pool w) ->
  let b := mkBuilder (Wrap H) o in
  let r := CreateZFSDataset b w in
  r.1 = Ok tt /\
  release_dataset o ∈ datasets (pool r.2) /\
  datasets (pool w) ⊆ datasets (pool r.2) /\
  snapshots (pool r.2) = snapshots (pool w) /\
  fs r.2 = fs w /\
  (CreateZFSDataset b r.2).1 = Ok tt /\
  pool (CreateZFSDataset b r.2).2 = pool r.2.
Proof.
  intros Hok Hroot Hin b r. subst b r. rewrite !CreateZFSDataset_run. cbn zeta.
  cbn [fst snd pool fs zfs_world]. rewrite !zfs_run_create_p.
  rewrite (zfs_create_p_ok _ _ root) by done. cbn [fst snd datasets snapshots].
  rewrite (zfs_create_p_ok _ _ root) by (simpl; set_solver).
  pose proof (ancestors_self (release_dataset o)).
  split_and!; try done; [set_solver..|]. simpl. f_equal. set_solver.
Qed.

(** The four methods keep the names of the pool valid. *)
Theorem zfs_methods_keep_pool_wf o jname w :
  pool_wf (pool w) ->
  let b := mkBuilder (Wrap H) o in
  pool_wf (pool (CreateZFSDataset b w).2) /\
  pool_wf (pool (CreateZFSSnapshot b w).2) /\
  pool_wf (pool (CloneBaseToJail b jname w).2) /\
  pool_wf (pool (CreateBaseJailDataset b w).2).
Proof.
  intros Hw b. subst b.
  rewrite CreateZFSDataset_run, CreateZFSSnapshot_run, CloneBaseToJail_run,
    CreateBaseJailDataset_run.
  cbn zeta. cbn [snd pool zfs_world]. auto using zfs_run_wf.
Qed.

(** [CreateBaseJailDataset] passes two operands, the second one empty, to
    a command that takes one: on the reference [zfs] it is a usage error
    and the pool is unchanged. *)
Theorem CreateBaseJailDataset_fails o w :
  exists w', CreateBaseJailDataset (mkBuilder (Wrap H) o) w = (Err (ErrExit 2), w') /\
             pool w' = pool w /\ fs w' = fs w.
Proof. rewrite CreateBaseJailDataset_run. by eexists. Qed.

End zfs_host.



Lemma CreateZFSDataset_creates_witness :
  let b := mkBuilder (Wrap zfs_only) opts0 in
  let r := CreateZFSDataset b world0 in
  r.1 = Ok tt /\
  release_dataset opts0 ∈ datasets (pool r.2) /\
  datasets (pool world0) ⊆ datasets (pool r.2) /\
  snapshots (pool r.2) = snapshots (pool world0) /\
  fs r.2 = fs world0 /\
  (CreateZFSDataset b r.2).1 = Ok tt /\
  pool (CreateZFSDataset b r.2).2 = pool r.2.
Proof.
  apply (CreateZFSDataset_creates zfs_only opts0 world0 "zroot");
    [reflexivity | reflexivity | vm_compute; reflexivity].
Defined.

Lemma CreateZFSSnapshot_needs_dataset_witness :
  exists w', CreateZFSSnapshot (mkBuilder (Wrap zfs_only) opts0) world0 = (Err (ErrExit 1), w') /\
             pool w' = pool world0 /\ fs w' = fs world0.
Proof.
  apply (CreateZFSSnapshot_needs_dataset zfs_only opts0 world0).
  vm_compute. intros Hin. discriminate Hin.
Defined.

Example snapshot_after_create :
  let b := mkBuilder (Wrap zfs_only) opts0 in
  (CreateZFSSnapshot b (CreateZFSDataset b world0).2).1 = Ok tt /\
  (CreateZFSSnapshot b world0).1 = Err (ErrExit 1).
Proof. split; vm_compute; reflexivity. Qed.

Lemma pool0_wf : pool_wf pool0.
Proof.
  split_and!; simpl.
  - by intros d ->%elem_of_singleton.
  - by intros s ?%elem_of_empty.
  - by intros c s ?.
Qed.

Lemma CreateZFSSnapshot_ok_iff_witness :
  (CreateZFSSnapshot (mkBuilder (Wrap zfs_only) opts0) world0).1 = Ok tt <->
  ds_name_ok (release_dataset opts0) = true /\
  release_dataset opts0 ∈ datasets (pool world0) /\
  release_snapshot opts0 ∉ snapshots (pool world0).
Proof. apply (CreateZFSSnapshot_ok_iff zfs_only opts0 world0). Defined.

Lemma CloneBaseToJail_fails_witness :
  exists w', CloneBaseToJail (mkBuilder (Wrap zfs_only) opts0) "base" world0 = (Err (ErrExit 1), w') /\
             pool w' = pool world0 /\ fs w' = fs world0.
Proof. apply (CloneBaseToJail_fails zfs_only opts0 "base" world0). Defined.

Lemma zfs_methods_keep_pool_wf_witness :
  let b := mkBuilder (Wrap zfs_only) opts0 in
  pool_wf (pool (CreateZFSDataset b world0).2) /\
  pool_wf (pool (CreateZFSSnapshot b world0).2) /\
  pool_wf (pool (CloneBaseToJail b "base" world0).2) /\
  pool_wf (pool (CreateBaseJailDataset b world0).2).
Proof. apply (zfs_methods_keep_pool_wf zfs_only opts0 "base" world0), pool0_wf. Defined.

Lemma CreateBaseJailDataset_fails_witness :
  exists w', CreateBaseJailDataset (mkBuilder (Wrap zfs_only) opts0) world0 = (Err (ErrExit 2), w') /\
             pool w' = pool world0 /\ fs w' = fs world0.
Proof. apply (CreateBaseJailDataset_fails zfs_only opts0 world0). Defined.
