(* ===== verification/Config.v ===== *)
(** * Config: the environment configurator

  [src/build.go], lines 144-213: [BaseJailSysConf], [SetLocaltime],
  [SetResolvConf], [ConfigureJailHostname] and [SetBaseJailConf].

  The theorems give the behaviour of each method on every branch: what the
  resolver file holds after [SetResolvConf] for a list of name servers and
  for [nil], that a failed write is dropped, that [SetBaseJailConf] passes an
  empty non-nil list, that [ConfigureJailHostname] writes through a
  read-only handle, and that every method closes the files it opened
  whatever way it returns. *)

From stdpp Require Import base gmap strings list.
From S2P Require Import Prelude.
From S2P Require Import Host.
From S2P Require Import HostFacts.
From S2P Require Import Trace.
From S2P Require Import Handles.
From S2P Require Import Options.

(** ** The methods *)

Definition BaseJailSysConf (b : Builder) : M World unit := ret tt.

Definition SetLocaltime (H : Host) (b : Builder) : M World unit :=
  inp <- os.Open "/etc/localtime" ;;
  defer (os.Close inp) (
    out <- os.Create (BaseDir (opts b) +:+ "/releases/" +:+ Release (opts b) +:+ "/etc/localtime") ;;
    defer (os.Close out) (
      io.Copy H out (RFile inp) ;;
      ret tt)).

(** [nameservers] is [None] for Go's [nil] slice. *)
Definition SetResolvConf (H : Host) (b : Builder) (nameservers : option (list string)) :
    M World unit :=
  match nameservers with
  | Some ns =>
      out <- os.Create (BaseDir (opts b) +:+ "/releases/" +:+ Release (opts b) +:+ "/etc/resolv.conf") ;;
      defer (os.Close out) (
        iter_ (fun i => os.Write H out ("nameserver " +:+ i +:+ newline)) ns ;;
        ret tt)
  | None =>
      inp <- os.Open "/etc/resolv.conf" ;;
      defer (os.Close inp) (
        out <- os.Create (BaseDir (opts b) +:+ "/releases/" +:+ Release (opts b) +:+ "/etc/resolv.conf") ;;
        defer (os.Close out) (
          io.Copy H out (RFile inp) ;;
          ret tt))
  end.

Definition ConfigureJailHostname (H : Host) (b : Builder) (name : string) : M World unit :=
  rcconf <- os.Open (BaseDir (opts b) +:+ "/" +:+ name +:+ "/etc/rc.conf") ;;
  defer (os.Close rcconf) (
    os.Write H rcconf ("hostname=" +:+ name) ;;
    ret tt).

Definition SetBaseJailConf (H : Host) (b : Builder) : M World unit :=
  SetResolvConf H b (Some []) ;;
  ret tt.

(** ** Names for the statements *)

(** The base tree of a release. *)
Definition tree (o : Opts) : string := BaseDir o +:+ "/releases/" +:+ Release o.

Definition tree_resolv (o : Opts) : string := tree o +:+ "/etc/resolv.conf".

Definition tree_localtime (o : Opts) : string := tree o +:+ "/etc/localtime".

(** The resolver file for a list of name servers: one line each, in
    order. *)
Definition resolv_lines (ns : list string) : string :=
  foldr (fun i acc => "nameserver " +:+ i +:+ newline +:+ acc) "" ns.

(** What copying the file [src] of the host to [dst] gives, on every
    branch. *)
Definition copy_spec (H : Host) (src dst : string) (w : World) : Res unit * World :=
  if negb (fs_exists src (fs w)) then (Err (ErrPath "open" src ENOENT), w)
  else if is_dir dst (fs w) then (Err (ErrPath "open" dst EISDIR), w)
  else if negb (parent_ok dst (dirs (fs w))) then (Err (ErrPath "open" dst ENOENT), w)
  else match files (fs w) !! src with
       | None => (Err (ErrPath "read" src EISDIR), set_fs (with_file dst "" (fs w)) w)
       | Some data =>
           if io_fail H dst
           then (Err (ErrPath "write" dst EIO), set_fs (with_file dst "" (fs w)) w)
           else (Ok tt, set_fs (with_file dst data (fs w)) w)
       end.

(** A host on which every write fails. *)
Definition bad_disk : Host :=
  mkHost (http_parse null_host) (http_do null_host) (untar null_host) (proc null_host)
         (fun _ => true).

(** A host file system with a resolver configuration and the tree of the
    sample options, and the world that holds it. *)
Definition fs1 : FS :=
  mkFS {[ "/etc/resolv.conf" := "nameserver 9.9.9.9" +:+ newline;
          "/etc/localtime" := "TZif2" ]}
       {[ "/etc"; "/usr/jails/releases/11.0-RELEASE/etc" ]}.

Definition world1 : World := mkWorld fs1 (mkPool ∅ ∅ ∅) [] [] ∅.

Definition builder0 : Builder := mkBuilder (Wrap null_host) opts0.

(** ** Running the methods *)

Lemma resolv_lines_cons i ns :
  resolv_lines (i :: ns) = ("nameserver " +:+ i +:+ newline) +:+ resolv_lines ns.
Proof. simpl. by rewrite !app_assoc_s. Qed.

Section config.
Context (H : Host).

Lemma write_lines_ok p ns old w :
  io_fail H p = false -> is_open (HFile (mkFile p true)) w = true ->
  files (fs w) !! p = Some old ->
  iter_ (fun i => os.Write H (mkFile p true) ("nameserver " +:+ i +:+ newline)) ns w =
    (Ok tt, set_fs (with_file p (old +:+ resolv_lines ns) (fs w)) w).
Proof.
  intros Hio. revert old w. induction ns as [|i ns IH]; intros old w Ho Hf.
  - simpl. rewrite app_nil_r_s, with_file_id by done. by rewrite set_fs_id.
  - cbn [iter_]. erewrite bind_ok; [|by rewrite ignore_run, (os_Write_ok _ _ _ old)].
    cbn [snd].
    rewrite (IH (old +:+ "nameserver " +:+ i +:+ newline)) by (done || apply with_file_lookup).
    rewrite resolv_lines_cons, set_fs_fs, set_fs_set_fs, with_file_with_file.
    by rewrite !app_assoc_s.
Qed.

Lemma write_lines_fail p ns w :
  io_fail H p = true -> is_open (HFile (mkFile p true)) w = true ->
  iter_ (fun i => os.Write H (mkFile p true) ("nameserver " +:+ i +:+ newline)) ns w = (Ok tt, w).
Proof.
  intros Hio Ho. induction ns as [|i ns IH]; [done|].
  cbn [iter_]. erewrite bind_ok; [|by rewrite ignore_run, os_Write_fail]. done.
Qed.

Lemma tree_resolv_eq o :
  BaseDir o +:+ "/releases/" +:+ Release o +:+ "/etc/resolv.conf" = tree_resolv o.
Proof. unfold tree_resolv, tree. by rewrite !app_assoc_s. Qed.

(** [SetResolvConf] with a non-nil list, on every branch: it fails
    without touching anything when the resolver path is a directory or
    its directory is missing; otherwise it succeeds and the file holds one
    [nameserver] line per entry, in order, and nothing else -- or nothing at
    all when the writes fail, because their errors are dropped. *)
Lemma SetResolvConf_Some_run b ns w :
  SetResolvConf H b (Some ns) w =
    let p := tree_resolv (opts b) in
    if is_dir p (fs w) then (Err (ErrPath "open" p EISDIR), w)
    else if parent_ok p (dirs (fs w))
         then (Ok tt, set_fs (with_file p (if io_fail H p then "" else resolv_lines ns) (fs w)) w)
         else (Err (ErrPath "open" p ENOENT), w).
Proof.
  unfold SetResolvConf. rewrite tree_resolv_eq. cbn zeta.
  pose proof (os_Create_run (tree_resolv (opts b)) w) as Hc.
  destruct (is_dir _ _); [by rewrite (bind_err _ _ _ _ _ Hc)|].
  destruct (parent_ok _ _); [|by rewrite (bind_err _ _ _ _ _ Hc)].
  rewrite (bind_ok _ _ _ _ _ Hc). apply bracket_run.
  destruct (io_fail H _) eqn:Hio.
  - by erewrite bind_ok; [|by apply write_lines_fail, is_open_opened].
  - erewrite bind_ok;
      [|apply (write_lines_ok _ _ ""); [done|apply is_open_opened|apply with_file_lookup]].
    simpl. by rewrite with_file_with_file.
Qed.

(** The copy of one file with both descriptors open: the body of
    [SetLocaltime] and of the [nil] branch of [SetResolvConf]. *)
Lemma copy_body_run src dst w :
  src <> dst -> is_open (HFile (mkFile src false)) w = true ->
  is_open (HFile (mkFile dst true)) w = true -> files (fs w) !! dst = Some "" ->
  (io.Copy H (mkFile dst true) (RFile (mkFile src false)) ;; ret tt) w =
    match files (fs w) !! src with
    | None => (Err (ErrPath "read" src EISDIR), w)
    | Some data =>
        if io_fail H dst then (Err (ErrPath "write" dst EIO), w)
        else (Ok tt, set_fs (with_file dst data (fs w)) w)
    end.
Proof.
  intros Hne Hi Ho Hd. unfold bind. rewrite io_Copy_file_run by done.
  destruct (files (fs w) !! src) as [data|]; [|done].
  destruct (io_fail H dst) eqn:Hio; [by rewrite os_Write_fail|].
  by rewrite (os_Write_ok _ _ _ "").
Qed.

Lemma copy_run src dst w :
  src <> dst ->
  (inp <- os.Open src ;;
   defer (os.Close inp) (
     out <- os.Create dst ;;
     defer (os.Close out) (io.Copy H out (RFile inp) ;; ret tt))) w =
    copy_spec H src dst w.
Proof.
  intros Hne. unfold copy_spec.
  pose proof (os_Open_run src w) as Ho.
  destruct (fs_exists src (fs w)); [|by rewrite (bind_err _ _ _ _ _ Ho)].
  rewrite (bind_ok _ _ _ _ _ Ho). clear Ho. cbn beta.
  set (hi := HFile (mkFile src false)).
  pose proof (os_Create_run dst (opened hi w)) as Hc. cbn [fs opened set_handles] in Hc.
  destruct (is_dir dst (fs w)); [by apply bracket_run; rewrite (bind_err _ _ _ _ _ Hc)|].
  destruct (parent_ok dst _); cbn [negb];
    [|by apply bracket_run; rewrite (bind_err _ _ _ _ _ Hc)].
  pose proof (copy_body_run src dst
    (opened (HFile (mkFile dst true)) (set_fs (with_file dst "" (fs w)) (opened hi w))) Hne
    (is_open_opened_other _ _ _ (is_open_opened _ _)) (is_open_opened _ _)
    (with_file_lookup _ _ _)) as Hb.
  cbn [fs opened set_handles set_fs] in Hb. rewrite with_file_lookup_ne in Hb by done.
  destruct (files (fs w) !! src) as [data|]; [destruct (io_fail H dst)|];
    apply bracket_run; rewrite (bind_ok _ _ _ _ _ Hc); apply bracket_run;
    rewrite Hb; try done.
  simpl. by rewrite with_file_with_file.
Qed.

Lemma tree_localtime_eq o :
  BaseDir o +:+ "/releases/" +:+ Release o +:+ "/etc/localtime" = tree_localtime o.
Proof. unfold tree_localtime, tree. by rewrite !app_assoc_s. Qed.

Lemma tree_file_ne o (name : string) : "/etc/" +:+ name <> tree o +:+ "/etc/" +:+ name.
Proof.
  intros Heq. apply (f_equal String.length) in Heq. unfold tree in Heq.
  rewrite !length_app_s in Heq. simpl in Heq. lia.
Qed.

(** [SetResolvConf] with [nil] is the copy of the host's
    [/etc/resolv.conf] into the tree, on every branch of [copy_spec]. *)
Lemma SetResolvConf_nil_run b w :
  SetResolvConf H b None w = copy_spec H "/etc/resolv.conf" (tree_resolv (opts b)) w.
Proof.
  unfold SetResolvConf. rewrite tree_resolv_eq. apply copy_run.
  apply (tree_file_ne _ "resolv.conf").
Qed.

(** [SetLocaltime] is the copy of the host's [/etc/localtime] into the
    tree, on every branch of [copy_spec]. *)
Lemma SetLocaltime_run b w :
  SetLocaltime H b w = copy_spec H "/etc/localtime" (tree_localtime (opts b)) w.
Proof.
  unfold SetLocaltime. rewrite tree_localtime_eq. apply copy_run.
  apply (tree_file_ne _ "localtime").
Qed.

Lemma copy_spec_ok src dst w data :
  files (fs w) !! src = Some data -> creatable dst (fs w) = true -> io_fail H dst = false ->
  copy_spec H src dst w = (Ok tt, set_fs (with_file dst data (fs w)) w).
Proof.
  intros Hsrc [Hd Hp]%andb_true_iff Hio. unfold copy_spec.
  assert (fs_exists src (fs w) = true) as ->.
  { unfold fs_exists, is_file. rewrite Hsrc. by rewrite bool_decide_eq_true_2. }
  apply negb_true_iff in Hd. by rewrite Hd, Hp, Hsrc, Hio.
Qed.

(** C30: given a list of name servers and a tree that can take the
    file, [SetResolvConf] succeeds and the tree's resolver file holds one
    [nameserver] line per entry, in the order given, and nothing else:
    what the file held before is gone and nothing of the host's file is
    in it. *)
Theorem SetResolvConf_writes_lines b ns w :
  creatable (tree_resolv (opts b)) (fs w) = true ->
  io_fail H (tree_resolv (opts b)) = false ->
  SetResolvConf H b (Some ns) w =
    (Ok tt, set_fs (with_file (tree_resolv (opts b)) (resolv_lines ns) (fs w)) w).
Proof.
  intros [Hd Hp]%andb_true_iff Hio. apply negb_true_iff in Hd.
  rewrite SetResolvConf_Some_run. cbn zeta. by rewrite Hd, Hp, Hio.
Qed.

(** C40: the errors of the writes of [SetResolvConf] are dropped: when
    the file can be created and every write to it fails, the method
    still succeeds and leaves the resolver file empty. *)
Theorem SetResolvConf_drops_write_errors b ns w :
  creatable (tree_resolv (opts b)) (fs w) = true ->
  io_fail H (tree_resolv (opts b)) = true ->
  SetResolvConf H b (Some ns) w =
    (Ok tt, set_fs (with_file (tree_resolv (opts b)) "" (fs w)) w).
Proof.
  intros [Hd Hp]%andb_true_iff Hio. apply negb_true_iff in Hd.
  rewrite SetResolvConf_Some_run. cbn zeta. by rewrite Hd, Hp, Hio.
Qed.

(** With a host local time file and a tree that can take the
    file, [SetLocaltime] makes the tree's file byte-identical to the
    host's and changes nothing else. *)
Theorem SetLocaltime_copies b w data :
  files (fs w) !! "/etc/localtime" = Some data ->
  creatable (tree_localtime (opts b)) (fs w) = true ->
  io_fail H (tree_localtime (opts b)) = false ->
  SetLocaltime H b w =
    (Ok tt, set_fs (with_file (tree_localtime (opts b)) data (fs w)) w).
Proof. intros. rewrite SetLocaltime_run. by apply copy_spec_ok. Qed.

(** With [nil] name servers, a host resolver file and a tree that
    can take the file, the tree's resolver file becomes byte-identical to
    the host's and nothing else changes. *)
Theorem SetResolvConf_nil_copies b w data :
  files (fs w) !! "/etc/resolv.conf" = Some data ->
  creatable (tree_resolv (opts b)) (fs w) = true ->
  io_fail H (tree_resolv (opts b)) = false ->
  SetResolvConf H b None w =
    (Ok tt, set_fs (with_file (tree_resolv (opts b)) data (fs w)) w).
Proof. intros. rewrite SetResolvConf_nil_run. by apply copy_spec_ok. Qed.

(** A run of [SetBaseJailConf] that succeeds is one write of the empty
    resolver file. *)
Lemma SetBaseJailConf_ok b w w' :
  SetBaseJailConf H b w = (Ok tt, w') ->
  w' = set_fs (with_file (tree_resolv (opts b)) "" (fs w)) w.
Proof.
  unfold SetBaseJailConf. intros (a & w1 & Hr & Hret)%bind_inv_ok.
  injection Hret as <-. rewrite SetResolvConf_Some_run in Hr. cbn zeta in Hr.
  by repeat case_match; simplify_eq.
Qed.

(** [SetBaseJailConf] passes an empty non-nil list: whenever it
    succeeds the tree's resolver file is empty, whatever the host's
    resolver file holds, and the host's local time is not copied. *)
Theorem SetBaseJailConf_empties b w w' :
  SetBaseJailConf H b w = (Ok tt, w') ->
  files (fs w') !! tree_resolv (opts b) = Some "" /\
  w' = set_fs (with_file (tree_resolv (opts b)) "" (fs w)) w.
Proof.
  intros ->%SetBaseJailConf_ok. split; [|done]. by rewrite set_fs_fs, with_file_lookup.
Qed.

(** C31: [ConfigureJailHostname] opens the jail's [rc.conf] read-only
    and writes through that handle: it returns an error in every world, and
    leaves the world as it was. *)
Theorem ConfigureJailHostname_fails b name w :
  exists e, ConfigureJailHostname H b name w = (Err e, w).
Proof.
  unfold ConfigureJailHostname.
  pose proof (os_Open_run (BaseDir (opts b) +:+ "/" +:+ name +:+ "/etc/rc.conf") w) as Ho.
  destruct (fs_exists _ _).
  - rewrite (bind_ok _ _ _ _ _ Ho). eexists.
    apply bracket_run.
    by rewrite (bind_err _ _ _ _ _ (os_Write_readonly _ _ _ _ (is_open_opened _ _))).
  - eexists. by rewrite (bind_err _ _ _ _ _ Ho).
Qed.

(** The methods keep the file system well formed, whether they succeed or
    fail, and start no process. *)
Lemma SetLocaltime_wf b : preserves world_wf (SetLocaltime H b).
Proof. unfold SetLocaltime. solve_preserves. Qed.

Lemma SetResolvConf_wf b ns : preserves world_wf (SetResolvConf H b ns).
Proof. unfold SetResolvConf. solve_preserves. Qed.

Lemma ConfigureJailHostname_wf b name : preserves world_wf (ConfigureJailHostname H b name).
Proof. unfold ConfigureJailHostname. solve_preserves. Qed.

Lemma SetBaseJailConf_wf b : preserves world_wf (SetBaseJailConf H b).
Proof. unfold SetBaseJailConf, SetResolvConf. solve_preserves. Qed.

Lemma SetResolvConf_quiet b ns : quiet (SetResolvConf H b ns).
Proof. unfold SetResolvConf. solve_quiet. Qed.

Lemma SetLocaltime_quiet b : quiet (SetLocaltime H b).
Proof. unfold SetLocaltime. solve_quiet. Qed.

Lemma SetBaseJailConf_quiet b : quiet (SetBaseJailConf H b).
Proof. unfold SetBaseJailConf. apply quiet_bind; auto using SetResolvConf_quiet, quiet_ret. Qed.

(** ** The descriptors *)

(** Each method closes the files it opens, on every path: when the second
    file cannot be created the first is closed, and a failed copy or write
    leaves none open. *)
Lemma SetLocaltime_balanced b : balanced (SetLocaltime H b).
Proof. unfold SetLocaltime. solve_balanced. Qed.

Lemma SetResolvConf_balanced b ns : balanced (SetResolvConf H b ns).
Proof. unfold SetResolvConf. solve_balanced. Qed.

Lemma ConfigureJailHostname_balanced b name : balanced (ConfigureJailHostname H b name).
Proof. unfold ConfigureJailHostname. solve_balanced. Qed.

Lemma SetBaseJailConf_balanced b : balanced (SetBaseJailConf H b).
Proof. pose proof SetResolvConf_balanced. unfold SetBaseJailConf. solve_balanced. Qed.

(** C29: the methods of the configurator return with exactly the
    descriptors open that were open when they were called, whether they
    succeed or fail: the host's file is closed when the file of the tree
    cannot be created, both are closed when the copy fails, and
    [ConfigureJailHostname] closes [rc.conf] after the write it was
    refused. *)
Theorem configurator_closes_descriptors b w :
  handles (SetLocaltime H b w).2 = handles w /\
  (forall ns, handles (SetResolvConf H b ns w).2 = handles w) /\
  (forall name, handles (ConfigureJailHostname H b name w).2 = handles w) /\
  handles (SetBaseJailConf H b w).2 = handles w.
Proof.
  split_and!; intros; apply balanced_run;
    auto using SetLocaltime_balanced, SetResolvConf_balanced,
      ConfigureJailHostname_balanced, SetBaseJailConf_balanced.
Qed.

End config.

#[export] Hint Resolve SetLocaltime_wf SetResolvConf_wf ConfigureJailHostname_wf
  SetBaseJailConf_wf SetResolvConf_quiet SetLocaltime_quiet SetBaseJailConf_quiet
  SetLocaltime_balanced SetResolvConf_balanced ConfigureJailHostname_balanced
  SetBaseJailConf_balanced : go.

(** ** Examples *)

(** The specification's example: two name servers give exactly two lines,
    in order, and nothing of the host's file. *)
Example SetResolvConf_two_nameservers :
  let r := SetResolvConf null_host builder0 (Some ["8.8.8.8"; "1.1.1.1"]) world1 in
  r.1 = Ok tt /\
  files (fs r.2) !! tree_resolv opts0 =
    Some ("nameserver 8.8.8.8" +:+ newline +:+ "nameserver 1.1.1.1" +:+ newline).
Proof. split; vm_compute; reflexivity. Qed.

Lemma SetResolvConf_nil_copies_witness :
  SetResolvConf null_host builder0 None world1 =
    (Ok tt, set_fs (with_file (tree_resolv opts0) ("nameserver 9.9.9.9" +:+ newline) fs1) world1).
Proof.
  apply (SetResolvConf_nil_copies null_host builder0 world1);
    [vm_compute; reflexivity | vm_compute; reflexivity | reflexivity].
Defined.

Lemma SetBaseJailConf_empties_witness :
  files (fs (SetBaseJailConf null_host builder0 world1).2) !! tree_resolv opts0 = Some "" /\
  (SetBaseJailConf null_host builder0 world1).2 =
    set_fs (with_file (tree_resolv opts0) "" (fs world1)) world1.
Proof.
  apply (SetBaseJailConf_empties null_host builder0 world1).
  vm_compute. reflexivity.
Defined.

Lemma SetResolvConf_writes_lines_witness :
  SetResolvConf null_host builder0 (Some ["8.8.8.8"; "1.1.1.1"]) world1 =
    (Ok tt, set_fs (with_file (tree_resolv opts0) (resolv_lines ["8.8.8.8"; "1.1.1.1"]) (fs world1))
                   world1).
Proof. apply (SetResolvConf_writes_lines null_host builder0); by vm_compute. Defined.

Lemma SetResolvConf_drops_write_errors_witness :
  SetResolvConf bad_disk builder0 (Some ["8.8.8.8"]) world1 =
    (Ok tt, set_fs (with_file (tree_resolv opts0) "" (fs world1)) world1).
Proof. apply (SetResolvConf_drops_write_errors bad_disk builder0); by vm_compute. Defined.

Lemma SetLocaltime_copies_witness :
  SetLocaltime null_host builder0 world1 =
    (Ok tt, set_fs (with_file (tree_localtime opts0) "TZif2" (fs world1)) world1).
Proof. apply (SetLocaltime_copies null_host builder0 world1); by vm_compute. Defined.
