(* ===== verification/Resolv.v ===== *)
(** * Resolv: the resolver file read back

  [SetResolvConf] of [src/build.go] (lines 165-178) prints a list of name
  servers as the lines of a resolver file.  This file holds the reader of
  that format -- the lines of a text, and of each line that starts with
  the keyword its argument -- and the round trip: what [SetResolvConf]
  writes reads back as the list it was given, as long as no entry holds a
  line feed; an entry that does is read back as more than one. *)

From Stdlib Require Import Ascii.
From stdpp Require Import base gmap strings list.
From S2P Require Import Prelude.
From S2P Require Import Host.
From S2P Require Import HostFacts.
From S2P Require Import Options.
From S2P Require Import Config.

(** ** The reader *)

Definition is_newline (c : ascii) : bool :=
  bool_decide (c = Ascii false true false true false false false false).

Fixpoint has_newline (s : string) : bool :=
  match s with
  | EmptyString => false
  | String c s' => is_newline c || has_newline s'
  end.

(** The lines of a text; a line feed ends a line, and the last line need
    not have one. *)
Fixpoint lines (s : string) : list string :=
  match s with
  | EmptyString => []
  | String c s' =>
      if is_newline c then EmptyString :: lines s'
      else match lines s' with
           | [] => [String c EmptyString]
           | l :: ls => String c l :: ls
           end
  end.

(** [s] without its prefix [p], when it has it. *)
Fixpoint strip_prefix (p s : string) : option string :=
  match p, s with
  | EmptyString, _ => Some s
  | String a p', String c s' => if bool_decide (a = c) then strip_prefix p' s' else None
  | String _ _, EmptyString => None
  end.

(** The name servers of a resolver file, in the order of its lines. *)
Definition parse_resolv (s : string) : list string :=
  omap (strip_prefix "nameserver ") (lines s).

(** * Theorems *)

Lemma strip_prefix_app p s : strip_prefix p (p +:+ s) = Some s.
Proof. induction p as [|a p IH]; [by destruct s|]. simpl. by rewrite bool_decide_eq_true_2. Qed.

Lemma has_newline_app s t : has_newline (s +:+ t) = has_newline s || has_newline t.
Proof. induction s as [|c s IH]; [done|]. simpl. by rewrite IH, orb_assoc. Qed.

(** A line without a line feed, followed by one, is the first line. *)
Lemma lines_line l rest :
  has_newline l = false -> lines (l +:+ newline +:+ rest) = l :: lines rest.
Proof.
  induction l as [|c l IH]; [done|]. simpl. intros [Hc Hl]%orb_false_iff.
  by rewrite Hc, IH.
Qed.

Lemma lines_resolv_lines ns :
  Forall (fun i => has_newline i = false) ns ->
  lines (resolv_lines ns) = map (fun i => "nameserver " +:+ i) ns.
Proof.
  induction 1 as [|i ns Hi _ IH]; [done|].
  rewrite resolv_lines_cons, !app_assoc_s, <-(app_assoc_s "nameserver " i), lines_line, IH; [done|].
  by rewrite has_newline_app, Hi.
Qed.

(** The printer and the reader of the resolver file are inverse on
    entries without line feeds. *)
Lemma parse_resolv_lines ns :
  Forall (fun i => has_newline i = false) ns -> parse_resolv (resolv_lines ns) = ns.
Proof.
  intros Hns. unfold parse_resolv. rewrite lines_resolv_lines by done. clear Hns.
  induction ns as [|i ns IH]; [done|]. cbn [map omap list_omap].
  by rewrite (strip_prefix_app "nameserver " i), IH.
Qed.

(** C28: what [SetResolvConf] writes for a list of name servers reads
    back as that list: when the file can be created, the disk takes the
    writes and no entry holds a line feed, the name servers of the tree's
    resolver file are the entries given, in their order. *)
Theorem SetResolvConf_read_back (H : Host) b ns w :
  creatable (tree_resolv (opts b)) (fs w) = true ->
  io_fail H (tree_resolv (opts b)) = false ->
  Forall (fun i => has_newline i = false) ns ->
  exists data,
    files (fs (SetResolvConf H b (Some ns) w).2) !! tree_resolv (opts b) = Some data /\
    parse_resolv data = ns.
Proof.
  intros [Hd Hp]%andb_true_iff Hio Hns. apply negb_true_iff in Hd.
  rewrite SetResolvConf_Some_run. cbn zeta. rewrite Hd, Hp, Hio. simpl.
  exists (resolv_lines ns). split; [apply lookup_insert_eq|by apply parse_resolv_lines].
Qed.

(** An entry with a line feed is not read back as itself: the entries
    are written as they are, and this one is two name servers to the
    reader. *)
Example SetResolvConf_line_feed :
  let ns := ["8.8.8.8" +:+ newline +:+ "nameserver 6.6.6.6"] in
  let r := SetResolvConf null_host builder0 (Some ns) world1 in
  r.1 = Ok tt /\
  parse_resolv <$> files (fs r.2) !! tree_resolv opts0 = Some ["8.8.8.8"; "6.6.6.6"].
Proof. split; by vm_compute. Qed.

Lemma SetResolvConf_read_back_witness :
  exists data,
    files (fs (SetResolvConf null_host builder0 (Some ["8.8.8.8"; "1.1.1.1"]) world1).2)
      !! tree_resolv opts0 = Some data /\
    parse_resolv data = ["8.8.8.8"; "1.1.1.1"].
Proof.
  apply (SetResolvConf_read_back null_host builder0 ["8.8.8.8"; "1.1.1.1"] world1);
    [by vm_compute..|].
  repeat constructor.
Defined.
