(* ===== verification/Extract.v ===== *)
(** * Extract: the archive extractor and the patcher

  [src/build.go], lines 113-142: [ExtractBasePkgs] unpacks the three cached
  archives into the tree of the release, in the order of [basePackages],
  and stops at the first failure; [UpdateBaseJail] runs [freebsd-update]
  through [env] and returns the error of the process. *)

From Stdlib Require Import Ascii.
From stdpp Require Import base gmap strings list.
From S2P Require Import Prelude.
From S2P Require Import Host.
From S2P Require Import HostFacts.
From S2P Require Import Trace.
From S2P Require Import Handles.
From S2P Require Import Options.

(** ** The methods *)

Definition ExtractBasePkgs (H : Host) (b : Builder) : M World unit :=
  let fullPath := BaseDir (opts b) +:+ "/releases/" +:+ Release (opts b) in
  forM_ (fun p => archiver.Open H ("/tmp/" +:+ Release (opts b) +:+ "/" +:+ p) fullPath)
        basePackages.

(** The command line is the one the source builds.  The source also
    computes an environment ([os.Environ()] with [UNAME_r] appended) and
    never gives it to the command: it has no effect, and no counterpart
    here. *)
Definition UpdateBaseJail (H : Host) (b : Builder) : M World unit :=
  let path := BaseDir (opts b) +:+ "/releases/" +:+ Release (opts b) in
  out <- exec.Run H "env"
           ["UNAME_r=" +:+ Release (opts b);
            "freebsd-update";
            "-b";
            "--not-running-from-cron";
            path;
            "fetch";
            "install"] ;;
  of_err (exec.exit_error out).

(** ** Names for the statements *)

(** The tree of a release, as [ExtractBasePkgs] names it. *)
Definition full_path (o : Opts) : string := BaseDir o +:+ "/releases/" +:+ Release o.

(** The extraction of one package, as the outside world sees it. *)
Definition extract_event (o : Opts) (p : string) : event :=
  EvExtract (cache_file o p) (full_path o).

(** The files after the entries [es] were written below [dst], in order:
    a later entry of the same path wins. *)
Definition entry_files (dst : string) (m : gmap string string) (e : entry) : gmap string string :=
  match e with
  | EDir _ => m
  | EFile rel data => <[dst +:+ "/" +:+ rel := data]> m
  end.

Definition extract_files (dst : string) (es : list entry) (m : gmap string string) :
    gmap string string :=
  foldl (entry_files dst) m es.

(** The files after the packages [ps] were extracted one after the
    other, each from what its cache file holds at that moment; [None]
    when a cache file is missing or is not an archive. *)
Fixpoint extract_all (H : Host) (o : Opts) (ps : list string) (m : gmap string string) :
    option (gmap string string) :=
  match ps with
  | [] => Some m
  | p :: ps' =>
      match m !! cache_file o p with
      | Some data =>
          match untar H data with
          | Some es => extract_all H o ps' (extract_files (full_path o) es m)
          | None => None
          end
      | None => None
      end
  end.

(** The argument vector of the patch command. *)
Definition update_args (o : Opts) : list string :=
  ["UNAME_r=" +:+ Release o; "freebsd-update"; "-b"; "--not-running-from-cron";
   full_path o; "fetch"; "install"].

(** ** The command line of the patcher *)

(** What [freebsd-update] takes from its command line: the base
    directory of [-b] and the commands. *)
Record fu_cmd := mkFu { fu_basedir : option string; fu_commands : list string }.

Definition fu0 : fu_cmd := mkFu None [].

(** The options that take the next word, the options that stand alone,
    and the commands, as freebsd-update(8) lists them. *)
Definition fu_opts_arg : list string :=
  ["-b"; "-d"; "-f"; "-j"; "-k"; "-r"; "-s"; "-t"; "--currently-running"].

Definition fu_opts_flag : list string := ["-F"; "--not-running-from-cron"].

Definition fu_known_commands : list string :=
  ["fetch"; "cron"; "upgrade"; "updatesready"; "install"; "rollback"; "IDS"].

(** The parser of the command line, word by word: an option that takes
    an argument takes the next word whatever it is, and a word that is
    neither an option nor a command is refused. *)
Fixpoint fu_parse (args : list string) (c : fu_cmd) : option fu_cmd :=
  match args with
  | [] => Some c
  | a :: rest =>
      if bool_decide (a ∈ fu_opts_arg) then
        match rest with
        | [] => None
        | d :: rest' =>
            fu_parse rest' (if bool_decide (a = "-b") then mkFu (Some d) (fu_commands c) else c)
        end
      else if bool_decide (a ∈ fu_opts_flag) then fu_parse rest c
      else if bool_decide (a ∈ fu_known_commands)
           then fu_parse rest (mkFu (fu_basedir c) (fu_commands c ++ [a]))
           else None
  end.

(** [env]: the leading words with an equals sign are assignments, the
    rest is the command. *)
Fixpoint has_equals (s : string) : bool :=
  match s with
  | EmptyString => false
  | String c s' => bool_decide (c = "="%char) || has_equals s'
  end.

Fixpoint env_split (args : list string) : list string :=
  match args with
  | a :: rest => if has_equals a then env_split rest else args
  | [] => []
  end.

(** ** A host for the examples *)

(** A host whose decoder knows the archives [dec] lists. *)
Definition archive_host (dec : gmap string (list entry)) : Host :=
  mkHost (http_parse null_host) (http_do null_host) (fun data => dec !! data)
         (proc null_host) (io_fail null_host).

Definition archives0 : gmap string (list entry) :=
  {[ "BASE" := [EDir "bin"; EFile "bin/sh" "#!"; EFile "etc/rc.conf" ""];
     "LIB32" := [EFile "usr/lib32/libc.so" "ELF"] ]}.

Definition extract_builder : Builder := mkBuilder (Wrap (archive_host archives0)) opts0.

(** A world whose cache holds the three archives, the last one damaged,
    and one whose cache lacks the second. *)
Definition extract_world : World :=
  mkWorld (mkFS {[cache_file opts0 "base.txz" := "BASE";
                  cache_file opts0 "lib32.txz" := "LIB32";
                  cache_file opts0 "ports.txz" := "POR"]}
                {["/tmp"; "/tmp/11.0-RELEASE"]})
          (mkPool ∅ ∅ ∅) [] [] ∅.

Definition extract_world_good : World :=
  mkWorld (mkFS {[cache_file opts0 "base.txz" := "BASE";
                  cache_file opts0 "lib32.txz" := "LIB32";
                  cache_file opts0 "ports.txz" := "LIB32"]}
                {["/tmp"; "/tmp/11.0-RELEASE"]})
          (mkPool ∅ ∅ ∅) [] [] ∅.

(** ** The extractor *)

Section extract.
Context (H : Host).

Lemma ExtractBasePkgs_eq b :
  ExtractBasePkgs H b =
    forM_ (fun p => archiver.Open H (cache_file (opts b) p) (full_path (opts b))) basePackages.
Proof. done. Qed.

(** When every archive is read, decoded and written, the three
    packages were extracted in the order base, lib32, ports, each from its
    cache file into the tree of the release. *)
Lemma ExtractBasePkgs_ok_trace b w w' :
  ExtractBasePkgs H b w = (Ok tt, w') ->
  trace w' = trace w ++ map (extract_event (opts b)) basePackages.
Proof.
  rewrite ExtractBasePkgs_eq. apply (forM_trace_ok trace).
  intros p s. apply archiver_Open_trace.
Qed.

(** C32: the extractor stops at the first failure: the error is the one
    of the first package whose extraction fails, the packages before it
    were extracted and stay so, and no package behind it is touched. *)
Theorem ExtractBasePkgs_fail_fast b w e w' :
  ExtractBasePkgs H b w = (Err e, w') ->
  exists done p rest w1,
    basePackages = done ++ p :: rest /\
    forM_ (fun p => archiver.Open H (cache_file (opts b) p) (full_path (opts b))) done w
      = (Ok tt, w1) /\
    archiver.Open H (cache_file (opts b) p) (full_path (opts b)) w1 = (Err e, w') /\
    trace w' = trace w ++ map (extract_event (opts b)) (done ++ [p]).
Proof.
  rewrite ExtractBasePkgs_eq. apply (forM_trace_err trace).
  intros p s. apply archiver_Open_trace.
Qed.

(** The entries of an archive that was extracted are in the files. *)
Lemma extract_entries_files bad dst es f f' :
  forM_ (fs_extract_entry bad dst) es f = (Ok tt, f') ->
  files f' = extract_files dst es (files f).
Proof.
  revert f. induction es as [|e es IH]; intros f; simpl; [by intros [= <-]|].
  intros ([] & f1 & He & Hes)%bind_inv_ok. apply fs_extract_entry_files in He.
  rewrite (IH _ Hes), He. by destruct e.
Qed.

(** An extraction that succeeded read its archive from the file, decoded
    it and wrote its entries. *)
Lemma archiver_Open_files src dst w w' :
  archiver.Open H src dst w = (Ok tt, w') ->
  exists data es,
    files (fs w) !! src = Some data /\ untar H data = Some es /\
    files (fs w') = extract_files dst es (files (fs w)).
Proof.
  unfold archiver.Open.
  intros ([] & w0 & [= <-] & (f & w1 & Ho & (data & w2 & Hr & Hx)%bind_inv_ok)%bind_inv_ok)%bind_inv_ok.
  rewrite lift_fs_open_run in Ho. destruct (fs_exists _ _); [|done]. injection Ho as <- <-.
  rewrite lift_fs_run in Hr. unfold fs_read in Hr. simpl in Hr.
  destruct (files (fs w) !! src) as [d|] eqn:Hf; [|done]. injection Hr as <- <-.
  exists d. destruct (untar H d) as [es|]; [|done]. exists es. split_and!; [done..|].
  rewrite lift_fs_run in Hx. injection Hx as Hr <-. simpl.
  apply (extract_entries_files (io_fail H)).
  by destruct (forM_ _ _ _) as [[[]|] ?]; simplify_eq/=.
Qed.

Lemma extract_all_run b ps w w' :
  forM_ (fun p => archiver.Open H (cache_file (opts b) p) (full_path (opts b))) ps w
    = (Ok tt, w') ->
  extract_all H (opts b) ps (files (fs w)) = Some (files (fs w')).
Proof.
  revert w. induction ps as [|p ps IH]; intros w; simpl; [by intros [= <-]|].
  intros ([] & w1 & (data & es & -> & -> & Hf)%archiver_Open_files & Hps)%bind_inv_ok.
  rewrite <-Hf. by apply IH.
Qed.

(** C33: when [ExtractBasePkgs] succeeds the three packages were
    extracted in the order base, lib32, ports, each from what its cache
    file held, and the files in the end are those of the entries of the
    three archives written in that order over the files there were: an
    entry of a later archive replaces one of an earlier archive at the
    same path. *)
Theorem ExtractBasePkgs_files b w w' :
  ExtractBasePkgs H b w = (Ok tt, w') ->
  trace w' = trace w ++ map (extract_event (opts b)) basePackages /\
  extract_all H (opts b) basePackages (files (fs w)) = Some (files (fs w')).
Proof.
  intros Hrun. split; [by apply ExtractBasePkgs_ok_trace|].
  rewrite ExtractBasePkgs_eq in Hrun. by apply extract_all_run.
Qed.

(** The extractor keeps the file system well formed, also when it stops
    half way. *)
Lemma ExtractBasePkgs_wf b : preserves world_wf (ExtractBasePkgs H b).
Proof. unfold ExtractBasePkgs. solve_preserves. Qed.

(** ** The patcher *)

(** [UpdateBaseJail] runs one process, [env] with the arguments of
    [update_args], and returns its fate: [ErrExec] when it cannot be
    started, [ErrExit] with the status when that is not 0, success
    otherwise; the world is what the process left.  In the arguments the
    flag [-b] is followed by [--not-running-from-cron] and the tree comes
    after it. *)
Theorem UpdateBaseJail_run b w :
  UpdateBaseJail H b w =
    let '(out, (f, p)) := proc H "env" (update_args (opts b)) (fs w, pool w) in
    if p_started out
    then (res_of (exec.exit_error out),
          mkWorld f p (stdout w)
                  (trace w ++ [EvExec "env" (update_args (opts b)) (Some (p_exit out))])
                  (handles w))
    else (Err (ErrExec "env"), log (EvExec "env" (update_args (opts b)) None) w).
Proof.
  unfold UpdateBaseJail, bind, exec.Run, update_args, full_path. cbn zeta.
  destruct (proc H "env" _ _) as [out [f p]]. by destruct (p_started out).
Qed.

(** The patcher does not go through the builder's command
    executor: two builders with the same options patch alike, whatever
    executor each holds. *)
Theorem UpdateBaseJail_ignores_wrapper b1 b2 :
  opts b1 = opts b2 -> UpdateBaseJail H b1 = UpdateBaseJail H b2.
Proof. unfold UpdateBaseJail. by intros ->. Qed.

Lemma UpdateBaseJail_wf `{!HostWf H} b : preserves world_wf (UpdateBaseJail H b).
Proof. unfold UpdateBaseJail. solve_preserves. Qed.

Lemma ExtractBasePkgs_quiet b : quiet (ExtractBasePkgs H b).
Proof. unfold ExtractBasePkgs. solve_quiet. Qed.

Lemma UpdateBaseJail_runs b : runs (UpdateBaseJail H b) [("env", update_args (opts b))].
Proof. apply runs_then_quiet; [apply runs_exec_Run|]. intros r. solve_quiet. Qed.

(** Neither method holds a descriptor of its own when it returns. *)
Lemma ExtractBasePkgs_balanced b : balanced (ExtractBasePkgs H b).
Proof. unfold ExtractBasePkgs. solve_balanced. Qed.

Lemma UpdateBaseJail_balanced b : balanced (UpdateBaseJail H b).
Proof. unfold UpdateBaseJail. solve_balanced. Qed.

End extract.

Lemma has_slash_not_word (a s : string) (l : list string) :
  forallb no_slash l = true -> a +:+ String slash s ∉ l.
Proof.
  intros Hl Hin%list_elem_of_In. rewrite forallb_forall in Hl. apply Hl in Hin.
  induction a as [|c a IH]; simpl in Hin.
  - done.
  - apply andb_true_iff in Hin as [_ Hin]. by apply IH.
Qed.

(** C34: the command line [UpdateBaseJail] builds is one the parser
    of [freebsd-update] refuses: [env] takes the assignment and runs
    [freebsd-update], whose [-b] takes the flag behind it for the base
    directory, so that the tree of the release stands where a command is
    expected. *)
Theorem update_args_rejected o :
  exists rest,
    env_split (update_args o) = "freebsd-update" :: rest /\ fu_parse rest fu0 = None.
Proof.
  eexists. split; [done|]. unfold fu_parse.
  rewrite bool_decide_eq_true_2 by (apply (bool_decide_unpack _); by vm_compute).
  assert (forall l, forallb no_slash l = true -> bool_decide (full_path o ∈ l) = false) as Hp.
  { intros l Hl. apply bool_decide_eq_false. unfold full_path.
    change "/releases/" with (String slash "releases/"). by apply has_slash_not_word. }
  by rewrite !Hp.
Qed.

(** With the tree behind [-b] the same words are accepted. *)
Example update_args_reordered :
  fu_parse ["-b"; full_path opts0; "--not-running-from-cron"; "fetch"; "install"] fu0 =
    Some (mkFu (Some (full_path opts0)) ["fetch"; "install"]).
Proof. by vm_compute. Qed.

Lemma ExtractBasePkgs_ok_trace_witness :
  trace (ExtractBasePkgs (archive_host archives0) extract_builder extract_world_good).2 =
    trace extract_world_good ++ map (extract_event opts0) basePackages.
Proof.
  apply (ExtractBasePkgs_ok_trace (archive_host archives0) extract_builder extract_world_good).
  apply run_eq. by vm_compute.
Defined.

Lemma ExtractBasePkgs_files_witness :
  trace (ExtractBasePkgs (archive_host archives0) extract_builder extract_world_good).2 =
    trace extract_world_good ++ map (extract_event opts0) basePackages /\
  extract_all (archive_host archives0) opts0 basePackages (files (fs extract_world_good)) =
    Some (files (fs (ExtractBasePkgs (archive_host archives0) extract_builder
                       extract_world_good).2)).
Proof.
  apply (ExtractBasePkgs_files (archive_host archives0) extract_builder extract_world_good).
  apply run_eq. by vm_compute.
Defined.

Lemma ExtractBasePkgs_fail_fast_witness :
  exists done p rest w1,
    basePackages = done ++ p :: rest /\
    forM_ (fun p => archiver.Open (archive_host archives0) (cache_file opts0 p) (full_path opts0))
          done extract_world = (Ok tt, w1) /\
    archiver.Open (archive_host archives0) (cache_file opts0 p) (full_path opts0) w1 =
      (Err (ErrArchive (cache_file opts0 "ports.txz")),
       (ExtractBasePkgs (archive_host archives0) extract_builder extract_world).2) /\
    trace (ExtractBasePkgs (archive_host archives0) extract_builder extract_world).2 =
      trace extract_world ++ map (extract_event opts0) (done ++ [p]).
Proof.
  apply (ExtractBasePkgs_fail_fast (archive_host archives0) extract_builder extract_world).
  apply run_eq. by vm_compute.
Defined.

Lemma UpdateBaseJail_ignores_wrapper_witness :
  UpdateBaseJail null_host extract_builder = UpdateBaseJail null_host (mkBuilder (Wrap null_host) opts0).
Proof. by apply (UpdateBaseJail_ignores_wrapper null_host). Defined.

(** The damaged archive stops the extraction after the first two: their
    files are in the tree. *)
Example ExtractBasePkgs_example :
  let r := ExtractBasePkgs (archive_host archives0) extract_builder extract_world in
  r.1 = Err (ErrArchive (cache_file opts0 "ports.txz")) /\
  files (fs r.2) !! (full_path opts0 +:+ "/bin/sh") = Some "#!" /\
  files (fs r.2) !! (full_path opts0 +:+ "/usr/lib32/libc.so") = Some "ELF".
Proof. by vm_compute. Qed.

#[export] Hint Resolve ExtractBasePkgs_wf UpdateBaseJail_wf ExtractBasePkgs_quiet
  UpdateBaseJail_runs ExtractBasePkgs_balanced UpdateBaseJail_balanced : go.
