(* ===== verification/Fetch.v ===== *)
(** * Fetch: the base system fetcher

  [src/build.go], lines 68-111: [DownloadBaseSystem].

  The method makes the cache directory, then walks [basePackages]: a
  package whose cache file exists is skipped, for any other a goroutine is
  started with [errgroup.Group.Go]; [Wait] returns the first error the
  goroutines recorded.  The goroutines run while the loop is still
  walking, so the model is a machine of threads:

  - [main_step] is one step of the method's own thread (the directory, one
    package of the loop, the return from [Wait]);
  - [task_step] is one step of a goroutine: [os.Create], the request, the
    copy of the body, each atomic, the step that returns taking the
    deferred [Close] calls with it;
  - [step] lets the thread a scheduler chose take its step, and records
    the error of a goroutine that ends, once ([errgroup]'s [errOnce]);
  - [DownloadBaseSystem] runs the machine under a schedule, any list of
    choices, and then lets the threads that are left run to the end
    ([run_fair]), which [measure] steps suffice for;
  - [download] is the closure as a sequential program and [DownloadSeq]
    the fetcher without goroutines, the reference the machine is
    compared with.

  The theorems of this file are on termination: every step uses up the
  [measure], so the threads left always come to the return, within
  fifteen steps.  The invariant of the machine and the theorems on the
  end of a run, stated with [fetch_outcome] (what one download comes to)
  and [fetch_fs] (the files in the end), are in [FetchInv]. *)

From stdpp Require Import base gmap gmultiset strings list.
From S2P Require Import Prelude.
From S2P Require Import Host.
From S2P Require Import HostFacts.
From S2P Require Import Trace.
From S2P Require Import Handles.
From S2P Require Import Options.

(** ** Threads *)

(** Where a goroutine is: before [os.Create], before the request, before
    the copy, or returned. *)
Inductive task_pc :=
| TCreate
| TRequest (out : File)
| TCopy (out : File) (body : Reader)
| TDone (err : option error).

(** A goroutine with the variables its closure captured. *)
Record task := mkTask { t_pkg : string; t_file : string; t_pc : task_pc }.

(** Where the method's thread is. *)
Inductive main_pc :=
| MInit
| MLoop (rest : list string)
| MWait
| MReturn (err : option error).

(** The machine: the world, the method's thread, the goroutines of the
    group in the order they were started, and the group's error. *)
Record config := mkConfig {
  c_world : World;
  c_main : main_pc;
  c_tasks : list task;
  c_err : option error;
}.

Inductive tid := Main | Task (i : nat).

Definition is_done (t : task) : bool :=
  match t_pc t with TDone _ => true | _ => false end.

(** ** The error group *)

Module errgroup.

(** [g.Go(f)]: one more goroutine. *)
Definition Go (t : task) (c : config) : config :=
  mkConfig (c_world c) (c_main c) (c_tasks c ++ [t]) (c_err c).

(** The end of a goroutine: its error is kept if it is the first. *)
Definition record (err : option error) (g : option error) : option error :=
  match g with
  | Some e => Some e
  | None => err
  end.

(** [g.Wait()] returns when every goroutine has. *)
Definition can_return (c : config) : bool := forallb is_done (c_tasks c).

End errgroup.

(** ** The steps *)

(** The cache directory of a release. *)
Definition tmp_dir (o : Opts) : string := "/tmp/" +:+ Release o.

(** The address a package is fetched from. *)
Definition pkg_url (o : Opts) (p : string) : string :=
  fmt.Sprintf sysDownloadURL [Release o; p].

(** The client the closure builds: every exchange is given 300 seconds,
    and the transport does not check the certificate of the server. *)
Definition hc : Client :=
  mkClient (time.Second * 300)%N (mkTransport (mkTLSConfig true)).

(** The first statement of the method: the cache directory is made unless
    something of its name exists. *)
Definition ensure_dir (o : Opts) : M World unit :=
  ex <- utils.Exists (tmp_dir o) ;;
  if ex : bool then ret tt else os.Mkdir (tmp_dir o).

(** The closure given to [g.Go], one atomic step at a time.  A step that
    returns runs the calls deferred so far with it: [out.Close()] once the
    file is created, [res.Body.Close()] before it once there is a
    response. *)
Definition task_step (H : Host) (b : Builder) (t : task) (w : World) : task_pc * World :=
  match t_pc t with
  | TCreate =>
      match os.Create (t_file t) w with
      | (Ok out, w') => (TRequest out, w')
      | (Err e, w') => (TDone (Some e), w')
      end
  | TRequest out =>
      match (req <- http.NewRequest H (pkg_url (opts b) (t_pkg t)) ;;
             http.Do H hc req) w with
      | (Ok res, w') => (TCopy out res.2, w')
      | (Err e, w') => (TDone (Some e), snd (os.Close out w'))
      end
  | TCopy out body =>
      match defer (os.Close out)
              (defer (http.BodyClose (pkg_url (opts b) (t_pkg t)))
                 (io.Copy H out body)) w with
      | (Ok _, w') => (TDone None, w')
      | (Err e, w') => (TDone (Some e), w')
      end
  | TDone err => (TDone err, w)
  end.

(** The method's own thread. *)
Definition main_step (b : Builder) (c : config) : option config :=
  match c_main c with
  | MInit =>
      match ensure_dir (opts b) (c_world c) with
      | (Ok _, w') => Some (mkConfig w' (MLoop basePackages) (c_tasks c) (c_err c))
      | (Err e, w') => Some (mkConfig w' (MReturn (Some e)) (c_tasks c) (c_err c))
      end
  | MLoop [] => Some (mkConfig (c_world c) MWait (c_tasks c) (c_err c))
  | MLoop (p :: rest) =>
      let file := cache_file (opts b) p in
      let c' := mkConfig (c_world c) (MLoop rest) (c_tasks c) (c_err c) in
      if fs_exists file (fs (c_world c)) then Some c'
      else Some (errgroup.Go (mkTask p file TCreate) c')
  | MWait =>
      if errgroup.can_return c
      then Some (mkConfig (c_world c) (MReturn (c_err c)) (c_tasks c) (c_err c))
      else None
  | MReturn _ => None
  end.

(** The group's error after a goroutine's step: the error the goroutine
    returned, if this step was its last, is recorded. *)
Definition err_after (pc : task_pc) (g : option error) : option error :=
  match pc with
  | TDone err => errgroup.record err g
  | _ => g
  end.

(** One step of the thread [i]; [None] when it cannot move. *)
Definition step (H : Host) (b : Builder) (i : tid) (c : config) : option config :=
  match i with
  | Main => main_step b c
  | Task n =>
      match c_tasks c !! n with
      | Some t =>
          if is_done t then None
          else
            let '(pc, w') := task_step H b t (c_world c) in
            let t' := mkTask (t_pkg t) (t_file t) pc in
            Some (mkConfig w' (c_main c) (<[n := t']> (c_tasks c)) (err_after pc (c_err c)))
      | None => None
      end
  end.

(** ** Schedules *)

(** The machine under a schedule: a choice that cannot move is skipped. *)
Fixpoint run_sched (H : Host) (b : Builder) (sched : list tid) (c : config) : config :=
  match sched with
  | [] => c
  | i :: sched' =>
      match step H b i c with
      | Some c' => run_sched H b sched' c'
      | None => run_sched H b sched' c
      end
  end.

(** The first thread that can move: the method's, then the goroutines
    in the order they were started. *)
Definition fair_step (H : Host) (b : Builder) (c : config) : option config :=
  match step H b Main c with
  | Some c' => Some c'
  | None =>
      match list_find (fun t => is_done t = false) (c_tasks c) with
      | Some (n, _) => step H b (Task n) c
      | None => None
      end
  end.

Fixpoint run_fair (H : Host) (b : Builder) (fuel : nat) (c : config) : config :=
  match fuel with
  | 0 => c
  | S fuel' =>
      match fair_step H b c with
      | Some c' => run_fair H b fuel' c'
      | None => c
      end
  end.

(** An upper bound of the steps left: a goroutine has at most three, and
    the method's thread one per package still to walk, which may start a
    goroutine, and two more. *)
Definition pc_measure (pc : task_pc) : nat :=
  match pc with
  | TCreate => 3
  | TRequest _ => 2
  | TCopy _ _ => 1
  | TDone _ => 0
  end.

Definition main_measure (m : main_pc) : nat :=
  match m with
  | MInit => 4 * length basePackages + 3
  | MLoop rest => 4 * length rest + 2
  | MWait => 1
  | MReturn _ => 0
  end.

Definition measure (c : config) : nat :=
  main_measure (c_main c) + sum_list (map (fun t => pc_measure (t_pc t)) (c_tasks c)).

Definition init (w : World) : config := mkConfig w MInit [] None.

(** What the method returned, once its thread has. *)
Definition result (c : config) : option error :=
  match c_main c with
  | MReturn err => err
  | _ => None
  end.

Definition finished (c : config) : bool :=
  match c_main c with
  | MReturn _ => true
  | _ => false
  end.

(** ** The method *)

(** [DownloadBaseSystem] under a schedule: the schedule first, then what
    is left of every thread. *)
Definition DownloadBaseSystem (H : Host) (b : Builder) (sched : list tid) : M World unit :=
  fun w =>
    let c1 := run_sched H b sched (init w) in
    let c2 := run_fair H b (measure c1) c1 in
    (res_of (result c2), c_world c2).

(** The closure as a sequential program: what a goroutine does when no
    other thread moves. *)
Definition download (H : Host) (b : Builder) (pkg pkgFile : string) : M World unit :=
  out <- os.Create pkgFile ;;
  defer (os.Close out) (
    req <- http.NewRequest H (pkg_url (opts b) pkg) ;;
    res <- http.Do H hc req ;;
    defer (http.BodyClose (pkg_url (opts b) pkg)) (
      io.Copy H out res.2 ;;
      ret tt)).

(** The fetcher without goroutines: the packages one after the other,
    each download run to its end whatever the others came to, and the
    first error in the order of the packages returned. *)
Fixpoint download_each (H : Host) (b : Builder) (l : list string) (w : World) :
    option error * World :=
  match l with
  | [] => (None, w)
  | p :: l' =>
      if fs_exists (cache_file (opts b) p) (fs w) then download_each H b l' w
      else
        let '(r, w1) := download H b p (cache_file (opts b) p) w in
        let '(e, w2) := download_each H b l' w1 in
        (errgroup.record e (err_of r), w2)
  end.

Definition DownloadSeq (H : Host) (b : Builder) : M World unit :=
  ensure_dir (opts b) ;;
  fun w => let '(e, w') := download_each H b basePackages w in (res_of e, w').

(** The steps a schedule makes the machine take. *)
Fixpoint steps_taken (H : Host) (b : Builder) (sched : list tid) (c : config) : nat :=
  match sched with
  | [] => 0
  | i :: sched' =>
      match step H b i c with
      | Some c' => S (steps_taken H b sched' c')
      | None => steps_taken H b sched' c
      end
  end.

(** ** Names for the statements *)

(** A package whose cache file is absent. *)
Definition missing (o : Opts) (f : FS) (p : string) : bool :=
  negb (fs_exists (cache_file o p) f).

(** What the download of a package comes to, whatever the other threads
    do meanwhile: the error the goroutine returns and what its cache file
    holds in the end ([None]: no file).  [f1] is the file system when the
    loop begins. *)
Definition fetch_outcome (H : Host) (o : Opts) (f1 : FS) (p : string) :
    option error * option string :=
  let file := cache_file o p in
  if is_dir file f1 then (Some (ErrPath "open" file EISDIR), None)
  else if negb (parent_ok file (dirs f1)) then (Some (ErrPath "open" file ENOENT), None)
  else if negb (http_parse H (pkg_url o p)) then (Some (ErrURL "parse" (pkg_url o p)), Some "")
  else match http_do H hc (pkg_url o p) with
       | NoReply e => (Some e, Some "")
       | Reply _ body cut =>
           if io_fail H file then (Some (ErrPath "write" file EIO), Some "")
           else (cut, Some body)
       end.

(** The packages the loop starts a goroutine for. *)
Definition to_fetch (o : Opts) (f1 : FS) : list string :=
  filter (fun p => missing o f1 p = true) basePackages.

(** The files once every goroutine has returned. *)
Definition fetch_files (H : Host) (o : Opts) (f1 : FS) (l : list string) : gmap string string :=
  foldr (fun p m => match (fetch_outcome H o f1 p).2 with
                    | Some data => <[cache_file o p := data]> m
                    | None => m
                    end) (files f1) l.

Definition fetch_fs (H : Host) (o : Opts) (f1 : FS) : FS :=
  mkFS (fetch_files H o f1 (to_fetch o f1)) (dirs f1).

(** What is left of the loop. *)
Definition rest_of (m : main_pc) : list string :=
  match m with
  | MInit => basePackages
  | MLoop rest => rest
  | MWait | MReturn _ => []
  end.

(** ** A host for the examples *)

(** A host whose mirror answers the requests [m] lists and no other. *)
Definition mirror_host (m : gmap string reply) : Host :=
  mkHost (http_parse null_host) (fun _ u => default (NoReply (ErrURL "Get" u)) (m !! u))
         (untar null_host) (proc null_host) (io_fail null_host).

(** A mirror that serves [base.txz], answers 404 for [lib32.txz], and
    breaks off in the middle of [ports.txz]. *)
Definition mirror0 : gmap string reply :=
  {[ pkg_url opts0 "base.txz" := Reply 200 "BASE" None;
     pkg_url opts0 "lib32.txz" := Reply 404 "not found" None;
     pkg_url opts0 "ports.txz" := Reply 200 "POR" (Some (ErrNew "unexpected EOF")) ]}.

Definition fetch_builder : Builder := mkBuilder (Wrap (mirror_host mirror0)) opts0.

(** A world with [/tmp] and nothing else, and the same with a cache that
    holds [ports.txz] already. *)
Definition fetch_world : World :=
  mkWorld (mkFS ∅ {["/tmp"]}) (mkPool ∅ ∅ ∅) [] [] ∅.

Definition fetch_world_cached : World :=
  mkWorld (mkFS {[cache_file opts0 "ports.txz" := "PORTS"]} {["/tmp"; tmp_dir opts0]})
          (mkPool ∅ ∅ ∅) [] [] ∅.

(** The same world with every cache file there, and one without [/tmp]. *)
Definition fetch_world_warm : World :=
  mkWorld (mkFS {[cache_file opts0 "base.txz" := "BASE";
                  cache_file opts0 "lib32.txz" := "LIB32";
                  cache_file opts0 "ports.txz" := "PORTS"]} {["/tmp"; tmp_dir opts0]})
          (mkPool ∅ ∅ ∅) [] [] ∅.

Definition fetch_world_bare : World := mkWorld fs_empty (mkPool ∅ ∅ ∅) [] [] ∅.

(** A schedule that lets the loop start before the first goroutines run,
    and one that lets the last goroutine finish first. *)
Definition sched0 : list tid := [Main; Main; Task 0; Main; Task 1; Task 0].

Definition sched_last_first : list tid := [Main; Main; Main; Main; Task 2; Task 2; Task 2].

(** A schedule that brings every goroutine to its copy before one of them
    returns. *)
Definition sched_all_open : list tid :=
  [Main; Main; Main; Main; Task 0; Task 0; Task 1; Task 1; Task 2; Task 2].

(** The configurations the machine can be in, started in the world [w]. *)
Inductive reachable (H : Host) (b : Builder) (w : World) : config -> Prop :=
| reach_init : reachable H b w (init w)
| reach_step i c c' :
    reachable H b w c -> step H b i c = Some c' -> reachable H b w c'.

(** * Theorems *)

(** ** The address and the client *)

(** Every package is asked for over plain HTTP from the one mirror, at
    the release and the name of the package as they are. *)
Lemma pkg_url_eq o p :
  pkg_url o p =
    "http://ftp.freebsd.org/pub/FreeBSD/releases/amd64/amd64/" +:+ Release o +:+ "/" +:+ p.
Proof. unfold pkg_url, sysDownloadURL. simpl. by rewrite app_nil_r_s. Qed.

Lemma pkg_url_inj o : Inj (=) (=) (pkg_url o).
Proof. intros p q. rewrite !pkg_url_eq. intros Hpq. by repeat apply (inj (String.app _)) in Hpq. Qed.

(** The time limit of the client is a duration of 64 bits, 300 seconds of
    it, and its transport skips the check of the certificate. *)
Lemma hc_config :
  Timeout hc = 300000000000%N /\ (Timeout hc <= time.max_duration)%N /\
  InsecureSkipVerify (TLSClientConfig (Transport hc)) = true.
Proof. by vm_compute. Qed.

Section fetch.
Context (H : Host) (b : Builder).

(** ** The steps that return *)

(** The request of a goroutine whose file is open: a request that fails
    closes the file, a response comes with its body open. *)
Lemma task_step_request t out w :
  t_pc t = TRequest out -> is_open (HFile out) w = true ->
  task_step H b t w =
    let url := pkg_url (opts b) (t_pkg t) in
    if http_parse H url
    then match http_do H hc url with
         | NoReply e => (TDone (Some e), closed (HFile out) (log (EvGet url) w))
         | Reply _ body cut =>
             (TCopy out (RBody body cut), opened (HBody url) (log (EvGet url) w))
         end
    else (TDone (Some (ErrURL "parse" url)), closed (HFile out) w).
Proof.
  intros Ht Ho. unfold task_step, bind, http.NewRequest, http.Do. rewrite Ht. cbn zeta.
  destruct (http_parse H _); simpl; [|by rewrite os_Close_run].
  destruct (http_do H hc _); simpl; [by rewrite os_Close_run|done].
Qed.

(** The last step of a goroutine whose file is open: the copy, then the
    body is closed and then the file, whatever the copy came to. *)
Lemma task_step_copy t out body w :
  t_pc t = TCopy out body -> is_open (HFile out) w = true ->
  task_step H b t w =
    (TDone (err_of (io.Copy H out body w).1),
     closed (HFile out)
       (closed (HBody (pkg_url (opts b) (t_pkg t))) (io.Copy H out body w).2)).
Proof.
  intros Ht Ho. unfold task_step. rewrite Ht.
  erewrite defer_Close_run; [|apply defer_run|].
  - simpl. by destruct (io.Copy H out body w) as [[n|e] w'].
  - simpl. apply is_open_closed_other; [done|]. rewrite <-Ho.
    apply is_open_handles, balanced_run, balanced_Copy.
Qed.

(** ** Termination *)

Lemma task_step_measure t w :
  is_done t = false -> pc_measure (task_step H b t w).1 < pc_measure (t_pc t).
Proof.
  unfold is_done, task_step.
  destruct (t_pc t); [| | |done]; intros _; repeat case_match; simpl; lia.
Qed.

Lemma sum_list_insert {A} (f : A -> nat) (l : list A) n x y :
  l !! n = Some x ->
  sum_list (map f (<[n := y]> l)) + f x = sum_list (map f l) + f y.
Proof.
  revert n. induction l as [|a l IH]; intros [|n]; simpl; try done.
  - intros [= ->]. lia.
  - intros Hn. specialize (IH _ Hn). lia.
Qed.

Lemma sum_list_snoc (l : list nat) n : sum_list (l ++ [n]) = sum_list l + n.
Proof. induction l as [|a l IH]; simpl; lia. Qed.

Lemma main_step_measure c c' : main_step b c = Some c' -> measure c' < measure c.
Proof.
  unfold main_step, measure. destruct (c_main c) as [|[|p rest]| |]; [| | | |done].
  - destruct (ensure_dir _ _) as [[?|?] ?]; intros [= <-]; simpl; lia.
  - intros [= <-]. simpl. lia.
  - cbn zeta. repeat case_match; intros [= <-]; simpl;
      rewrite ?map_app; simpl; rewrite ?sum_list_snoc; lia.
  - case_match; [|done]. intros [= <-]. simpl. lia.
Qed.

(** Every step of every thread uses up some of the measure. *)
Lemma step_measure i c c' : step H b i c = Some c' -> measure c' < measure c.
Proof.
  destruct i as [|n]; [apply main_step_measure|]. simpl.
  destruct (c_tasks c !! n) as [t|] eqn:Hn; [|done].
  destruct (is_done t) eqn:Hd; [done|].
  pose proof (task_step_measure t (c_world c) Hd) as Hm.
  destruct (task_step H b t (c_world c)) as [pc w']. intros [= <-].
  unfold measure. simpl.
  pose proof (sum_list_insert (fun t => pc_measure (t_pc t)) _ _ _
                (mkTask (t_pkg t) (t_file t) pc) Hn) as Hs.
  simpl in *. lia.
Qed.

Lemma step_finished i c c' :
  step H b i c = Some c' -> finished c = true -> finished c' = true.
Proof.
  destruct i as [|n]; simpl.
  - unfold main_step, finished. by destruct (c_main c).
  - destruct (c_tasks c !! n) as [t|]; [|done]. destruct (is_done t); [done|].
    destruct (task_step _ _ _ _). by intros [= <-].
Qed.

Lemma main_step_None c :
  main_step b c = None ->
  (exists e, c_main c = MReturn e) \/ (c_main c = MWait /\ errgroup.can_return c = false).
Proof.
  unfold main_step.
  destruct (c_main c) as [|[|p rest]| |]; cbn zeta; repeat case_match; naive_solver.
Qed.

(** A machine whose method has not returned can move: the group's
    [Wait] cannot block for ever. *)
Lemma fair_step_progress c : finished c = false -> is_Some (fair_step H b c).
Proof.
  intros Hf. unfold fair_step. simpl.
  destruct (main_step b c) as [c'|] eqn:Hm; [eauto|].
  apply main_step_None in Hm as [[e He]|[_ Hw]].
  { unfold finished in Hf. by rewrite He in Hf. }
  destruct (list_find _ _) as [[n t]|] eqn:Hl.
  - apply list_find_Some in Hl as (Hn & Hd & _). rewrite Hn, Hd.
    destruct (task_step _ _ _ _). eauto.
  - apply list_find_None in Hl. exfalso.
    apply not_true_iff_false in Hw. apply Hw, forallb_forall.
    intros t Ht%list_elem_of_In. rewrite Forall_forall in Hl.
    specialize (Hl t Ht). by destruct (is_done t).
Qed.

Lemma fair_step_measure c c' : fair_step H b c = Some c' -> measure c' < measure c.
Proof.
  unfold fair_step. destruct (step H b Main c) eqn:E.
  - intros [= <-]. by eapply step_measure.
  - destruct (list_find _ _) as [[n t]|]; [|done]. apply step_measure.
Qed.

Lemma fair_step_finished c c' :
  fair_step H b c = Some c' -> finished c = true -> finished c' = true.
Proof.
  unfold fair_step. destruct (step H b Main c) eqn:E.
  - intros [= <-]. by eapply step_finished.
  - destruct (list_find _ _) as [[n t]|]; [|done]. apply step_finished.
Qed.

(** With the measure as fuel the method returns. *)
Lemma run_fair_finished fuel c : measure c <= fuel -> finished (run_fair H b fuel c) = true.
Proof.
  revert c. induction fuel as [|fuel IH]; intros c Hm; simpl.
  - destruct (finished c) eqn:Hf; [done|].
    apply fair_step_progress in Hf as [c' Hc']. apply fair_step_measure in Hc'. lia.
  - destruct (fair_step H b c) as [c'|] eqn:Hs.
    + apply IH. apply fair_step_measure in Hs. lia.
    + destruct (finished c) eqn:Hf; [done|].
      apply fair_step_progress in Hf as [c' Hc']. congruence.
Qed.

Lemma run_sched_reachable w sched c :
  reachable H b w c -> reachable H b w (run_sched H b sched c).
Proof.
  revert c. induction sched as [|i sched IH]; intros c Hc; simpl; [done|].
  destruct (step H b i c) as [c'|] eqn:Hs; [|by apply IH].
  apply IH. by eapply reach_step.
Qed.

Lemma run_fair_reachable w fuel c :
  reachable H b w c -> reachable H b w (run_fair H b fuel c).
Proof.
  revert c. induction fuel as [|fuel IH]; intros c Hc; simpl; [done|].
  destruct (fair_step H b c) as [c'|] eqn:Hs; [|done]. apply IH.
  unfold fair_step in Hs. destruct (step H b Main c) eqn:Hm.
  - simplify_eq. by eapply reach_step.
  - destruct (list_find _ _) as [[n t]|]; [|done]. by eapply reach_step.
Qed.

Lemma steps_taken_measure sched c :
  steps_taken H b sched c + measure (run_sched H b sched c) <= measure c.
Proof.
  revert c. induction sched as [|i sched IH]; intros c; simpl; [lia|].
  destruct (step H b i c) as [c'|] eqn:Hs; [|apply IH].
  apply step_measure in Hs. specialize (IH c'). lia.
Qed.

(** C26: no schedule makes the threads of [DownloadBaseSystem] take
    more than fifteen steps in all: the steps taken and the measure of
    what is left never exceed the measure of the start. *)
Theorem DownloadBaseSystem_bounded sched w :
  steps_taken H b sched (init w) + measure (run_sched H b sched (init w)) <= 15.
Proof. apply (steps_taken_measure sched (init w)). Qed.

End fetch.
