(* ===== verification/FetchTyped.v ===== *)
(** * FetchTyped: well-typed configurations of the fetcher

  A typing discipline for the machine of [Fetch], decidable and kept by
  every step on its own, before any invariant: a goroutine
  is one of [basePackages], captured the cache file of its package, holds
  the writable handle of that file from [os.Create] on and reads the body
  of an answer, not a file; the loop is at a suffix of [basePackages] and
  has started at most one goroutine for each package it has walked. *)

From Stdlib Require Import Lia.
From stdpp Require Import base gmap strings list.
From S2P Require Import Prelude.
From S2P Require Import Host.
From S2P Require Import HostFacts.
From S2P Require Import Options.
From S2P Require Import Fetch.

(** ** The typing *)

(** The handle [out] of a goroutine is the writable handle of its own
    file, and what it copies is the body of an answer. *)
Definition pc_typed (file : string) (pc : task_pc) : Prop :=
  match pc with
  | TCreate | TDone _ => True
  | TRequest out => out = mkFile file true
  | TCopy out body => out = mkFile file true /\ forall f, body <> RFile f
  end.

Definition task_typed (o : Opts) (t : task) : Prop :=
  t_pkg t ∈ basePackages /\ t_file t = cache_file o (t_pkg t) /\ pc_typed (t_file t) (t_pc t).

(** The loop is at a suffix of the packages, no goroutine runs before the
    cache directory was looked at, and the goroutines are never more than
    the packages walked. *)
Definition main_typed (c : config) : Prop :=
  rest_of (c_main c) `suffix_of` basePackages /\
  (c_main c = MInit -> c_tasks c = []) /\
  length (c_tasks c) + length (rest_of (c_main c)) <= length basePackages.

Definition config_typed (o : Opts) (c : config) : Prop :=
  Forall (task_typed o) (c_tasks c) /\ main_typed c.

#[export] Instance task_pc_eq_dec : EqDecision task_pc.
Proof. solve_decision. Defined.

#[export] Instance main_pc_eq_dec : EqDecision main_pc.
Proof. solve_decision. Defined.

#[export] Instance pc_typed_dec file pc : Decision (pc_typed file pc).
Proof.
  destruct pc as [| |out [f|body cut]|]; simpl; try apply _.
  - right. intros [_ Hb]. by apply (Hb f).
  - destruct (decide (out = mkFile file true)); [left|right]; naive_solver.
Defined.

#[export] Instance task_typed_dec o t : Decision (task_typed o t).
Proof. unfold task_typed. apply _. Defined.

#[export] Instance main_typed_dec c : Decision (main_typed c).
Proof. unfold main_typed. apply _. Defined.

#[export] Instance config_typed_dec o c : Decision (config_typed o c).
Proof. unfold config_typed. apply _. Defined.

(** * Theorems *)

Section typed.
Context (H : Host) (b : Builder).

Lemma init_typed w : config_typed (opts b) (init w).
Proof. repeat split; simpl; [by constructor|done|lia]. Qed.

(** A step of a goroutine keeps its type. *)
Lemma task_step_typed t w :
  task_typed (opts b) t ->
  task_typed (opts b) (mkTask (t_pkg t) (t_file t) (task_step H b t w).1).
Proof.
  intros (Hp & Hf & Hpc). split_and!; [done..|]. simpl.
  unfold task_step. destruct (t_pc t) as [|out|out body|err]; simpl in *; [| | |done].
  - rewrite ?os_Create_run. by repeat case_match; simplify_eq/=.
  - unfold bind, http.NewRequest, http.Do. by repeat case_match; simplify_eq/=.
  - by repeat case_match.
Qed.

Lemma suffix_head (p : string) rest l : p :: rest `suffix_of` l -> p ∈ l.
Proof. intros [k ->]. set_solver. Qed.

Lemma main_step_typed c c' :
  config_typed (opts b) c -> main_step b c = Some c' -> config_typed (opts b) c'.
Proof.
  intros (Hts & Hsuf & Hinit & Hlen). unfold main_step.
  destruct (c_main c) as [|[|p rest]| |] eqn:Hm; simpl in *; cbn zeta;
    repeat case_match; try done; intros [= <-];
    unfold errgroup.Go, config_typed, main_typed; simpl; rewrite ?Hinit by done;
    rewrite ?Forall_app, ?Forall_singleton, ?length_app; simpl;
    split_and!; try done; try lia;
    eauto using suffix_nil, suffix_cons_l.
  all: by split_and!; [eapply suffix_head|..].
Qed.

(** Subject reduction: every step of every thread keeps the configuration
    well typed. *)
Lemma step_typed i c c' :
  config_typed (opts b) c -> step H b i c = Some c' -> config_typed (opts b) c'.
Proof.
  destruct i as [|n]; [apply main_step_typed|]. simpl.
  intros (Hts & Hsuf & Hinit & Hlen).
  destruct (c_tasks c !! n) as [t|] eqn:Hn; [|done].
  destruct (is_done t); [done|].
  pose proof (task_step_typed t (c_world c) (proj1 (Forall_lookup _ _) Hts _ _ Hn)) as Ht.
  destruct (task_step H b t (c_world c)) as [pc w']. intros [= <-].
  unfold config_typed, main_typed. simpl. rewrite length_insert.
  split_and!; try done.
  - by apply Forall_insert.
  - intros Hm. by rewrite (Hinit Hm), lookup_nil in Hn.
Qed.

(** C18: every configuration a run of [DownloadBaseSystem] comes to is
    well typed: each goroutine is one of the three packages with the cache
    file of that package as its file, the handle it writes to is the
    writable handle of that file, what it copies is the body of an answer,
    and the goroutines started are never more than the packages the loop
    has walked. *)
Theorem reachable_typed w c : reachable H b w c -> config_typed (opts b) c.
Proof. induction 1; [apply init_typed|by eapply step_typed]. Qed.

(** A well-typed goroutine never writes through a handle that is not
    open for writing: its copy fails only where the disk or the
    connection does. *)
Lemma typed_copy_error t w out body e :
  task_typed (opts b) t -> t_pc t = TCopy out body ->
  is_open (HFile out) w = true ->
  (task_step H b t w).1 = TDone (Some e) ->
  files (fs w) !! t_file t <> None ->
  e = ErrPath "write" (t_file t) EIO \/ exists data, body = RBody data (Some e).
Proof.
  intros (_ & _ & Hpc) Ht Ho. rewrite (task_step_copy _ _ _ _ _ _ Ht Ho).
  rewrite Ht in Hpc. destruct Hpc as [-> Hb].
  destruct body as [f|data cut]; [by destruct (Hb f)|]. simpl. unfold bind.
  intros Hstep Hfile. destruct (io_fail H (t_file t)) eqn:Hio.
  - rewrite os_Write_fail in Hstep by done. left. by simplify_eq/=.
  - destruct (files (fs w) !! t_file t) as [old|] eqn:Hold; [|done].
    rewrite (os_Write_ok _ _ _ old) in Hstep by done. simpl in Hstep.
    destruct cut; simplify_eq/=. eauto.
Qed.

End typed.

(** An ill-typed configuration is told by the checker. *)
Example config_typed_example :
  let t := mkTask "base.txz" (cache_file opts0 "lib32.txz") TCreate in
  bool_decide (config_typed opts0 (mkConfig fetch_world MWait [t] None)) = false /\
  bool_decide (config_typed opts0
    (run_sched (mirror_host mirror0) fetch_builder [Main; Main; Task 0; Task 0] (init fetch_world)))
  = true.
Proof. split; by vm_compute. Qed.

Lemma reachable_typed_witness :
  config_typed opts0
    (run_sched (mirror_host mirror0) fetch_builder [Main; Main; Task 0; Task 0] (init fetch_world)).
Proof.
  apply (reachable_typed (mirror_host mirror0) fetch_builder fetch_world).
  apply run_sched_reachable, reach_init.
Defined.
