(* ===== verification/FetchHandles.v ===== *)
(** * FetchHandles: the descriptors of the fetcher

  Every goroutine of [DownloadBaseSystem] opens its cache file and, when
  the server answers, the body of the response, and defers the [Close] of
  both.  The invariant [handles_inv] of the machine of [Fetch] says that
  at every moment, under every schedule, the descriptors open are those
  the method was called with and those the goroutines hold ([held]): none
  is leaked, none is closed twice, none of another thread is closed.  It
  gives the bound on the descriptors open at once, and that a goroutine's
  file is open whenever it writes to it. *)

From Stdlib Require Import Lia.
From stdpp Require Import base gmap gmultiset strings list.
From S2P Require Import Prelude.
From S2P Require Import Host.
From S2P Require Import HostFacts.
From S2P Require Import Handles.
From S2P Require Import Options.
From S2P Require Import Fetch.

(** The descriptors a goroutine holds: its file from [os.Create] on, the
    body of the response from [hc.Do] on, none once it has returned. *)
Definition held (o : Opts) (t : task) : gmultiset handle :=
  match t_pc t with
  | TCreate | TDone _ => ∅
  | TRequest out => {[+ HFile out +]}
  | TCopy out _ => {[+ HFile out; HBody (pkg_url o (t_pkg t)) +]}
  end.

Definition held_all (o : Opts) (l : list task) : gmultiset handle :=
  ⋃+ (held o <$> l).

(** The descriptors open are the caller's and those the goroutines hold. *)
Definition handles_inv (b : Builder) (w : World) (c : config) : Prop :=
  handles (c_world c) = handles w ⊎ held_all (opts b) (c_tasks c).

(** * Theorems *)

Section held.
Context (o : Opts).
Implicit Types (l : list task) (t : task).

Lemma held_all_app l l' : held_all o (l ++ l') = held_all o l ⊎ held_all o l'.
Proof. unfold held_all. by rewrite fmap_app, gmultiset_disj_union_list_app. Qed.

Lemma held_all_cons t l : held_all o (t :: l) = held o t ⊎ held_all o l.
Proof. done. Qed.

(** A step of a goroutine exchanges what it held for what it holds. *)
Lemma held_all_insert l n t t' :
  l !! n = Some t ->
  held_all o (<[n := t']> l) ⊎ held o t = held_all o l ⊎ held o t'.
Proof.
  intros Hn. rewrite <-(take_drop_middle l n t Hn) at 2.
  rewrite insert_take_drop by by eapply lookup_lt_Some.
  rewrite !held_all_app, !held_all_cons. multiset_solver.
Qed.

Lemma held_all_lookup l n t : l !! n = Some t -> held o t ⊆ held_all o l.
Proof.
  intros Hn. rewrite <-(take_drop_middle l n t Hn), held_all_app, held_all_cons.
  multiset_solver.
Qed.

Lemma held_done t : is_done t = true -> held o t = ∅.
Proof. unfold is_done, held. by destruct (t_pc t). Qed.

Lemma held_all_done l : Forall (fun t => is_done t = true) l -> held_all o l = ∅.
Proof.
  induction 1 as [|t l Hd _ IH]; [done|]. rewrite held_all_cons, IH, held_done by done.
  multiset_solver.
Qed.

Lemma held_size t : size (held o t) <= 2.
Proof.
  unfold held. destruct (t_pc t);
    rewrite ?gmultiset_size_disj_union, ?gmultiset_size_singleton, ?gmultiset_size_empty; lia.
Qed.

Lemma held_all_size l : size (held_all o l) <= 2 * length l.
Proof.
  induction l as [|t l IH]; [done|].
  rewrite held_all_cons, gmultiset_size_disj_union. pose proof (held_size t). simpl. lia.
Qed.

End held.

Section handles.
Context (H : Host) (b : Builder).

(** One step of a goroutine that holds its descriptors: what is open
    changes by what the goroutine holds. *)
Lemma task_step_handles t w :
  held (opts b) t ⊆ handles w ->
  handles (task_step H b t w).2 ⊎ held (opts b) t =
    handles w ⊎ held (opts b) (mkTask (t_pkg t) (t_file t) (task_step H b t w).1).
Proof.
  unfold held at 1 2. destruct (t_pc t) as [|out|out body|err] eqn:Ht; intros Hin.
  - unfold task_step. rewrite Ht. pose proof (opens_Create (t_file t) w) as Ho.
    destruct (os.Create _ _) as [[out|e] w']; unfold held; simpl; rewrite Ho; multiset_solver.
  - rewrite (task_step_request _ _ _ _ _ Ht) by (apply is_open_elem_of; multiset_solver).
    cbn zeta. repeat case_match; unfold held; simpl; multiset_solver.
  - rewrite (task_step_copy _ _ _ _ _ _ Ht) by (apply is_open_elem_of; multiset_solver).
    unfold held. simpl. rewrite (balanced_run _ w (balanced_Copy H out body)).
    multiset_solver.
  - unfold task_step, held. rewrite Ht. simpl. multiset_solver.
Qed.

Lemma ensure_dir_balanced o : balanced (ensure_dir o).
Proof. unfold ensure_dir. solve_balanced. Qed.

Lemma main_step_handles w c c' :
  handles_inv b w c -> main_step b c = Some c' -> handles_inv b w c'.
Proof.
  unfold handles_inv, main_step. intros Hc Hs.
  pose proof (balanced_run _ (c_world c) (ensure_dir_balanced (opts b))) as He.
  repeat case_match; simplify_eq/=; try congruence.
  rewrite held_all_app, Hc. unfold held_all. simpl. multiset_solver.
Qed.

Lemma step_handles w i c c' :
  handles_inv b w c -> step H b i c = Some c' -> handles_inv b w c'.
Proof.
  destruct i as [|n]; [apply main_step_handles|]. unfold handles_inv. simpl.
  intros Hc. destruct (c_tasks c !! n) as [t|] eqn:Hn; [|done].
  destruct (is_done t); [done|].
  pose proof (held_all_lookup (opts b) _ _ _ Hn) as Hin.
  pose proof (held_all_insert (opts b) _ _ _
                (mkTask (t_pkg t) (t_file t) (task_step H b t (c_world c)).1) Hn) as Hi.
  pose proof (task_step_handles t (c_world c)) as Hs.
  destruct (task_step H b t (c_world c)) as [pc w']. intros [= <-]. simpl in *.
  rewrite Hc in Hs. apply (inj (.⊎ held (opts b) t)).
  rewrite <-(assoc_L (⊎)), Hi, Hs, (assoc_L (⊎)); [done|multiset_solver].
Qed.

(** The invariant holds in every configuration the machine reaches. *)
Lemma reachable_handles w c : reachable H b w c -> handles_inv b w c.
Proof.
  induction 1 as [|i c c' _ IH Hs]; [|by eapply step_handles].
  unfold handles_inv. simpl. unfold held_all. simpl. multiset_solver.
Qed.

(** What a goroutine holds is open. *)
Lemma reachable_held w c n t :
  reachable H b w c -> c_tasks c !! n = Some t -> held (opts b) t ⊆ handles (c_world c).
Proof.
  intros Hr Hn. rewrite (reachable_handles w c Hr).
  pose proof (held_all_lookup (opts b) _ _ _ Hn). multiset_solver.
Qed.

End handles.
