(* ===== verification/FetchInv.v ===== *)
(** * FetchInv: the invariant of the fetcher

  The invariant [inv] of the machine of [Fetch] holds in every reachable
  configuration ([reachable_inv], by induction on [reachable]): the
  goroutines started are those of the missing packages the loop has
  walked, each owns the cache file of its package and has left in it what
  its steps so far wrote, the requests sent are those of the goroutines
  that came to their request, and nothing else of the world has changed.
  The lemmas on a configuration the method returns from ([finished_fs],
  [finished_ok_iff], [DownloadBaseSystem_final]) are what the theorems of
  [FetchRun] are derived from. *)

From stdpp Require Import base gmap gmultiset strings list.
From S2P Require Import Prelude.
From S2P Require Import Host.
From S2P Require Import HostFacts.
From S2P Require Import Trace.
From S2P Require Import Handles.
From S2P Require Import Options.
From S2P Require Import Fetch.
From S2P Require Import FetchHandles.

(** ** The invariant, defined *)

(** A goroutine and its cache file agree: the file holds what the steps
    taken so far wrote. *)
Definition task_ok (H : Host) (o : Opts) (f1 : FS) (t : task) (content : option string) : Prop :=
  let file := cache_file o (t_pkg t) in
  t_file t = file /\
  match t_pc t with
  | TCreate => content = None /\ is_dir file f1 = false
  | TRequest out =>
      out = mkFile file true /\ creatable file f1 = true /\ content = Some ""
  | TCopy out body =>
      out = mkFile file true /\ creatable file f1 = true /\ content = Some "" /\
      http_parse H (pkg_url o (t_pkg t)) = true /\
      exists status data cut,
        http_do H hc (pkg_url o (t_pkg t)) = Reply status data cut /\ body = RBody data cut
  | TDone err => (err, content) = fetch_outcome H o f1 (t_pkg t)
  end.

(** Whether the closure of package [p] comes to send its request: its file
    could be created and the address parsed. *)
Definition requested (H : Host) (o : Opts) (f1 : FS) (p : string) : bool :=
  creatable (cache_file o p) f1 && http_parse H (pkg_url o p).

(** Whether a goroutine has sent its request. *)
Definition sent (H : Host) (o : Opts) (f1 : FS) (t : task) : bool :=
  match t_pc t with
  | TCreate | TRequest _ => false
  | TCopy _ _ => true
  | TDone _ => requested H o f1 (t_pkg t)
  end.

(** The requests the goroutines have sent, in the order of the loop. *)
Definition requests (H : Host) (o : Opts) (f1 : FS) (l : list task) : list event :=
  map (fun t => EvGet (pkg_url o (t_pkg t))) (filter (fun t => sent H o f1 t = true) l).

(** The request a step from [t] to [t'] sends, if it sends one. *)
Definition new_request (H : Host) (o : Opts) (f1 : FS) (t t' : task) : list event :=
  if negb (sent H o f1 t) && sent H o f1 t' then [EvGet (pkg_url o (t_pkg t))] else [].

(** The invariant of the machine once the cache directory is there; [w1]
    is the world at that point. *)
Record running (H : Host) (b : Builder) (w1 : World) (c : config) : Prop := mkRunning {
  run_walked : exists walked,
    basePackages = walked ++ rest_of (c_main c) /\
    map t_pkg (c_tasks c) = filter (fun p => missing (opts b) (fs w1) p = true) walked;
  run_frame :
    pool (c_world c) = pool w1 /\ stdout (c_world c) = stdout w1 /\
    dirs (fs (c_world c)) = dirs (fs w1);
  run_other : forall q,
    q ∉ map t_file (c_tasks c) -> files (fs (c_world c)) !! q = files (fs w1) !! q;
  run_tasks :
    Forall (fun t => task_ok H (opts b) (fs w1) t (files (fs (c_world c)) !! t_file t))
           (c_tasks c);
  run_err_none :
    c_err c = None -> Forall (fun t => forall e, t_pc t <> TDone (Some e)) (c_tasks c);
  run_err_some : forall e,
    c_err c = Some e -> exists t, t ∈ c_tasks c /\ t_pc t = TDone (Some e);
  run_return : forall e,
    c_main c = MReturn e -> e = c_err c /\ Forall (fun t => is_done t = true) (c_tasks c);
  run_trace : exists evs,
    trace (c_world c) = trace w1 ++ evs /\ evs ≡ₚ requests H (opts b) (fs w1) (c_tasks c);
}.

(** What a step of a goroutine leaves alone. *)
Definition task_frame (b : Builder) (t : task) (w w' : World) : Prop :=
  dirs (fs w') = dirs (fs w) /\ pool w' = pool w /\ stdout w' = stdout w /\
  (forall q, q <> t_file t -> files (fs w') !! q = files (fs w) !! q) /\
  exists evs, trace w' = trace w ++ evs /\
              Forall (fun e => e = EvGet (pkg_url (opts b) (t_pkg t))) evs.

(** The invariant of the machine: it has not started, or the cache
    directory could not be made and the method returned the error, or the
    loop is under way or over. *)
Inductive inv (H : Host) (b : Builder) (w : World) : config -> Prop :=
| inv_init : inv H b w (init w)
| inv_failed e w' :
    ensure_dir (opts b) w = (Err e, w') ->
    inv H b w (mkConfig w' (MReturn (Some e)) [] None)
| inv_running w1 c :
    ensure_dir (opts b) w = (Ok tt, w1) -> c_main c <> MInit -> running H b w1 c ->
    inv H b w c.

(** * Theorems *)

Section fetch.
Context (H : Host) (b : Builder).

(** ** One step of a goroutine *)

Lemma creatable_spec p f :
  creatable p f = true <-> is_dir p f = false /\ parent_ok p (dirs f) = true.
Proof. unfold creatable. destruct (is_dir p f), (parent_ok p (dirs f)); naive_solver. Qed.

Lemma is_dir_dirs p f g : dirs f = dirs g -> is_dir p f = is_dir p g.
Proof. unfold is_dir. by intros ->. Qed.

Lemma task_frame_refl t w : task_frame b t w w.
Proof. split_and!; try done. exists []. by rewrite app_nil_r. Qed.

Lemma task_frame_trans t w w' w'' :
  task_frame b t w w' -> task_frame b t w' w'' -> task_frame b t w w''.
Proof.
  intros (Hd & Hp & Hs & Hq & evs & He & Ha) (Hd' & Hp' & Hs' & Hq' & evs' & He' & Ha').
  split_and!; try congruence.
  - intros q Hne. by rewrite Hq', Hq.
  - exists (evs ++ evs'). rewrite He', He, app_assoc. split; [done|]. by apply Forall_app.
Qed.

Lemma task_frame_file t w data :
  task_frame b t w (set_fs (with_file (t_file t) data (fs w)) w).
Proof.
  split_and!; try done.
  - intros q Hq. by apply with_file_lookup_ne.
  - exists []. by rewrite app_nil_r.
Qed.

Lemma task_frame_log t w :
  task_frame b t w (log (EvGet (pkg_url (opts b) (t_pkg t))) w).
Proof. split_and!; try done. eexists [_]. split; [done|]. by constructor. Qed.

(** Opening and closing descriptors is no change a frame sees. *)
Lemma task_frame_handles t w w' X :
  task_frame b t w w' -> task_frame b t w (set_handles X w').
Proof. done. Qed.

Lemma held_open t out w :
  held (opts b) t ⊆ handles w ->
  (t_pc t = TRequest out \/ exists body, t_pc t = TCopy out body) ->
  is_open (HFile out) w = true.
Proof.
  unfold held. intros Hin [Ht|[body Ht]]; rewrite Ht in Hin;
    apply is_open_elem_of; multiset_solver.
Qed.

Lemma task_step_ok t w f1 :
  dirs (fs w) = dirs f1 -> held (opts b) t ⊆ handles w ->
  task_ok H (opts b) f1 t (files (fs w) !! t_file t) ->
  task_ok H (opts b) f1 (mkTask (t_pkg t) (t_file t) (task_step H b t w).1)
          (files (fs (task_step H b t w).2) !! t_file t) /\
  task_frame b t w (task_step H b t w).2.
Proof.
  intros Hd Hin [Hfile Hpc]. destruct (t_pc t) as [|out|out body|err] eqn:Ht.
  - destruct t as [p file pc]. unfold task_ok, task_step, fetch_outcome. simpl in *.
    subst. destruct Hpc as [Hc Hnd].
    rewrite os_Create_run, (is_dir_dirs _ _ f1), Hnd, Hd by done.
    destruct (parent_ok _ _) eqn:Hp; simpl.
    + split; [|apply task_frame_handles, (task_frame_file (mkTask p _ _))].
      rewrite lookup_insert_eq. by rewrite creatable_spec.
    + split; [|apply task_frame_refl]. by rewrite Hc.
  - rewrite (task_step_request _ _ _ _ _ Ht) by eauto using held_open.
    destruct t as [p file pc]. unfold task_ok, fetch_outcome. simpl in *. subst. cbn zeta.
    destruct Hpc as (-> & [Hnd Hp]%creatable_spec & Hc). rewrite Hnd, Hp. simpl.
    destruct (http_parse _ _) eqn:Hparse; simpl;
      [|split; [by rewrite Hc|apply task_frame_handles, task_frame_refl]].
    destruct (http_do _ _ _) as [e|status data cut] eqn:Hdo; simpl.
    + split; [by rewrite Hc|apply task_frame_handles, (task_frame_log (mkTask p _ _))].
    + split; [|apply task_frame_handles, (task_frame_log (mkTask p _ _))].
      rewrite creatable_spec. split_and!; eauto.
  - rewrite (task_step_copy _ _ _ _ _ _ Ht) by eauto using held_open.
    pose proof (held_open _ out _ Hin (or_intror (ex_intro _ body Ht))) as Ho.
    destruct t as [p file pc]. unfold task_ok, fetch_outcome. simpl in *. subst.
    destruct Hpc as (-> & [Hnd Hp]%creatable_spec & Hc & Hparse & status & data & cut & Hdo & ->).
    rewrite Hnd, Hp, Hparse, Hdo. simpl. unfold bind.
    destruct (io_fail H (cache_file (opts b) p)) eqn:Hio.
    + rewrite os_Write_fail by done. simpl.
      split; [by rewrite Hc|do 2 apply task_frame_handles; apply task_frame_refl].
    + rewrite (os_Write_ok _ _ _ "") by done. simpl.
      destruct cut; simpl;
        (split; [by rewrite ?set_fs_fs, ?with_file_lookup, ?lookup_insert_eq
                |do 2 apply task_frame_handles; apply (task_frame_file (mkTask p _ _))]).
  - unfold task_step. rewrite Ht. simpl. split; [by split|apply task_frame_refl].
Qed.

(** A step sends a request when it takes the goroutine from before the
    request to after it, and no step takes it back. *)
Lemma task_step_trace t w f1 :
  dirs (fs w) = dirs f1 -> held (opts b) t ⊆ handles w ->
  task_ok H (opts b) f1 t (files (fs w) !! t_file t) ->
  let t' := mkTask (t_pkg t) (t_file t) (task_step H b t w).1 in
  trace (task_step H b t w).2 = trace w ++ new_request H (opts b) f1 t t' /\
  (sent H (opts b) f1 t = true -> sent H (opts b) f1 t' = true).
Proof.
  intros Hd Hin [Hfile Hpc]. destruct (t_pc t) as [|out|out body|err] eqn:Ht; cbn zeta.
  - destruct t as [p file pc]. unfold task_step, new_request, sent, requested. simpl in *.
    subst. destruct Hpc as [Hc Hnd].
    rewrite os_Create_run, (is_dir_dirs _ _ f1), Hnd, Hd by done.
    unfold creatable. rewrite Hnd. destruct (parent_ok _ _); simpl; by rewrite app_nil_r.
  - rewrite (task_step_request _ _ _ _ _ Ht) by eauto using held_open.
    destruct t as [p file pc]. unfold new_request, sent, requested. simpl in *. subst.
    destruct Hpc as (-> & Hcr & Hc). rewrite Hcr. cbn zeta.
    destruct (http_parse _ _); simpl; [|by rewrite app_nil_r].
    by destruct (http_do _ _ _).
  - rewrite (task_step_copy _ _ _ _ _ _ Ht) by eauto using held_open.
    destruct t as [p file pc]. unfold new_request, sent, requested. simpl in *. subst.
    destruct Hpc as (-> & Hcr & Hc & Hparse & _).
    by rewrite app_nil_r, io_Copy_trace, Hcr, Hparse.
  - unfold task_step, new_request, sent. rewrite Ht. simpl.
    destruct (requested _ _ _ _); simpl; by rewrite app_nil_r.
Qed.

(** ** The invariant *)

Section requests.
Context (f1 : FS).
Implicit Types (l : list task) (t : task).

Lemma requests_app l l' : requests H (opts b) f1 (l ++ l') = requests H (opts b) f1 l ++ requests H (opts b) f1 l'.
Proof. unfold requests. by rewrite filter_app, map_app. Qed.

Lemma requests_cons t l :
  requests H (opts b) f1 (t :: l) = (if sent H (opts b) f1 t then [EvGet (pkg_url (opts b) (t_pkg t))] else []) ++ requests H (opts b) f1 l.
Proof.
  unfold requests. destruct (sent H (opts b) f1 t) eqn:Hs.
  - by rewrite filter_cons_True.
  - rewrite filter_cons_False; [done|congruence].
Qed.

(** A step of a goroutine adds its request to those sent, if it sends one. *)
Lemma requests_insert l n t t' :
  l !! n = Some t -> t_pkg t' = t_pkg t -> (sent H (opts b) f1 t = true -> sent H (opts b) f1 t' = true) ->
  requests H (opts b) f1 (<[n := t']> l) ≡ₚ requests H (opts b) f1 l ++ new_request H (opts b) f1 t t'.
Proof.
  intros Hn Hp Hs. rewrite <-(take_drop_middle l n t Hn) at 2.
  rewrite insert_take_drop by by eapply lookup_lt_Some.
  rewrite !requests_app, !requests_cons, Hp. unfold new_request.
  destruct (sent H (opts b) f1 t); [by rewrite Hs, app_nil_r|]. simpl.
  destruct (sent H (opts b) f1 t'); simpl; [|by rewrite app_nil_r].
  rewrite <-Permutation_middle. apply Permutation_cons_append.
Qed.

(** Once all have returned, the requests sent are those of the packages
    whose closure comes to its request. *)
Lemma requests_done l :
  Forall (fun t => is_done t = true) l ->
  requests H (opts b) f1 l =
  map (fun p => EvGet (pkg_url (opts b) p))
      (filter (fun p => requested H (opts b) f1 p = true) (map t_pkg l)).
Proof.
  induction 1 as [|t l Hd _ IH]; [done|]. rewrite requests_cons, IH. simpl.
  unfold sent, is_done in *. destruct (t_pc t); try done.
  destruct (requested _ _ _ _) eqn:Hr.
  - by rewrite filter_cons_True.
  - rewrite filter_cons_False; [done|congruence].
Qed.

End requests.

Lemma task_fmap_insert {A} (f : task -> A) (l : list task) n t t' :
  l !! n = Some t -> f t' = f t -> map f (<[n := t']> l) = map f l.
Proof.
  intros Hn Hf. rewrite (list_fmap_insert f), Hf. apply list_insert_id.
  by rewrite (list_lookup_fmap f), Hn.
Qed.

Section errors.
Context (l : list task) (n : nat) (t : task) (pc : task_pc) (g : option error).
Context (Hn : l !! n = Some t) (Hd : is_done t = false).
Let t' := mkTask (t_pkg t) (t_file t) pc.

Lemma err_none_insert :
  (g = None -> Forall (fun t => forall e, t_pc t <> TDone (Some e)) l) ->
  err_after pc g = None ->
  Forall (fun t => forall e, t_pc t <> TDone (Some e)) (<[n := t']> l).
Proof using Type.
  intros Hg Hnone. assert (g = None) as ->.
  { destruct pc, g; simpl in *; congruence. }
  apply Forall_insert; [by apply Hg|]. simpl. by intros e ->.
Qed.

Lemma err_some_insert e :
  (forall e, g = Some e -> exists t, t ∈ l /\ t_pc t = TDone (Some e)) ->
  err_after pc g = Some e ->
  exists t, t ∈ <[n := t']> l /\ t_pc t = TDone (Some e).
Proof using Hn Hd.
  intros Hg Hsome. destruct g as [e'|].
  - assert (e' = e) as -> by (destruct pc; simpl in *; congruence).
    destruct (Hg e eq_refl) as (t0 & [i Hi]%list_elem_of_lookup_1 & Hpc).
    exists t0. split; [|done]. apply (list_elem_of_lookup_2 _ i).
    rewrite list_lookup_insert_ne; [done|]. intros ->. simplify_eq.
    unfold is_done in Hd. by rewrite Hpc in Hd.
  - exists t'. split; [|by destruct pc; simplify_eq/=].
    apply list_elem_of_insert. by eapply lookup_lt_Some.
Qed.

End errors.


Lemma cache_file_inj o : Inj (=) (=) (cache_file o).
Proof. intros p q Hpq. unfold cache_file in Hpq. by repeat apply (inj (String.app _)) in Hpq. Qed.

Lemma basePackages_NoDup : NoDup basePackages.
Proof. apply (bool_decide_unpack _). by vm_compute. Qed.

Section running.
Context (w1 : World) (c : config) (Hrun : running H b w1 c).

Lemma running_files : map t_file (c_tasks c) = map (cache_file (opts b)) (map t_pkg (c_tasks c)).
Proof.
  rewrite <-list_fmap_compose. apply Forall_fmap_ext_1.
  eapply Forall_impl; [apply (run_tasks _ _ _ _ Hrun)|]. by intros t [Hf _].
Qed.

Lemma running_nodup walked :
  basePackages = walked ++ rest_of (c_main c) ->
  map t_pkg (c_tasks c) = filter (fun p => missing (opts b) (fs w1) p = true) walked ->
  NoDup (map t_file (c_tasks c)).
Proof.
  intros Hw Hm. rewrite running_files, Hm. apply (NoDup_fmap_2 _), NoDup_filter.
  pose proof basePackages_NoDup as Hn. rewrite Hw in Hn. by apply NoDup_app in Hn as [? _].
Qed.

(** A package the loop has not come to has its cache file as it was. *)
Lemma running_exists p rest :
  c_main c = MLoop (p :: rest) ->
  fs_exists (cache_file (opts b) p) (fs (c_world c)) = fs_exists (cache_file (opts b) p) (fs w1).
Proof.
  intros Hm. destruct Hrun as [(walked & Hw & Ht) (_ & _ & Hd) Ho _ _ _ _ _].
  unfold fs_exists, is_file, is_dir. rewrite Hd, Ho; [done|].
  rewrite running_files, Ht. intros (q & Hq & Hin)%list_elem_of_fmap.
  apply (inj _) in Hq as <-. apply list_elem_of_filter in Hin as [_ Hin].
  pose proof basePackages_NoDup as Hn. rewrite Hw, Hm in Hn.
  apply NoDup_app in Hn as (_ & Hn & _). apply (Hn p); [done|left].
Qed.

(** The method's thread moves on without touching the loop. *)
Lemma running_main m :
  rest_of m = rest_of (c_main c) ->
  (forall e, m = MReturn e -> e = c_err c /\ Forall (fun t => is_done t = true) (c_tasks c)) ->
  running H b w1 (mkConfig (c_world c) m (c_tasks c) (c_err c)).
Proof. intros Hm Hr. destruct Hrun. split; simpl; try done. by rewrite Hm. Qed.

(** The loop skips a package whose file is there. *)
Lemma running_skip p rest :
  c_main c = MLoop (p :: rest) ->
  fs_exists (cache_file (opts b) p) (fs (c_world c)) = true ->
  running H b w1 (mkConfig (c_world c) (MLoop rest) (c_tasks c) (c_err c)).
Proof.
  intros Hm He. rewrite (running_exists p rest Hm) in He.
  destruct Hrun as [(walked & Hw & Ht) ? ? ? ? ? ? ?]. split; simpl; try done.
  exists (walked ++ [p]). rewrite Hm in Hw. rewrite <-app_assoc. split; [done|].
  rewrite filter_app, filter_cons_False, filter_nil, app_nil_r; [done|].
  unfold missing. by rewrite He.
Qed.

(** The loop starts a goroutine for a package whose file is not. *)
Lemma running_go p rest :
  c_main c = MLoop (p :: rest) ->
  fs_exists (cache_file (opts b) p) (fs (c_world c)) = false ->
  running H b w1 (errgroup.Go (mkTask p (cache_file (opts b) p) TCreate)
                    (mkConfig (c_world c) (MLoop rest) (c_tasks c) (c_err c))).
Proof.
  intros Hm He. pose proof He as He1. rewrite (running_exists p rest Hm) in He1.
  apply orb_false_iff in He as [Hf _]. apply orb_false_iff in He1 as [Hf1 Hd1].
  destruct Hrun as [(walked & Hw & Ht) ? Ho Hts Hn Hs _ (evs & Hevs & Hall)].
  split; simpl; try done.
  - exists (walked ++ [p]). rewrite Hm in Hw. rewrite <-app_assoc. split; [done|].
    rewrite map_app, filter_app, filter_cons_True, filter_nil, Ht; [done|].
    unfold missing, fs_exists. by rewrite Hf1, Hd1.
  - intros q Hq. apply Ho. rewrite map_app in Hq. set_solver.
  - apply Forall_app. split; [done|]. apply Forall_singleton. split; [done|]. simpl.
    split; [|done]. apply bool_decide_eq_false in Hf. by apply eq_None_not_Some.
  - intros Hnone. apply Forall_app. split; [by apply Hn|]. by apply Forall_singleton.
  - intros e [t [Hin Hpc]]%Hs. exists t. set_solver.
  - exists evs. split; [done|]. by rewrite requests_app, app_nil_r.
Qed.

(** A goroutine that holds its descriptors takes a step. *)
Lemma running_task n t :
  c_tasks c !! n = Some t -> is_done t = false ->
  held (opts b) t ⊆ handles (c_world c) ->
  running H b w1
    (mkConfig (task_step H b t (c_world c)).2 (c_main c)
       (<[n := mkTask (t_pkg t) (t_file t) (task_step H b t (c_world c)).1]> (c_tasks c))
       (err_after (task_step H b t (c_world c)).1 (c_err c))).
Proof.
  intros Hn Hd Hin. pose proof running_nodup as Hnd.
  destruct Hrun as [(walked & Hw & Ht) (Hp & Hs & Hds) Ho Hts Hnone Hsome Hret (evs & Hevs & Hall)].
  specialize (Hnd _ Hw Ht). pose proof (proj1 (Forall_lookup _ _) Hts _ _ Hn) as Hok.
  destruct (task_step_ok t (c_world c) (fs w1) Hds Hin Hok) as [Hok' (Hd' & Hp' & Hs' & Hq' & _)].
  destruct (task_step_trace t (c_world c) (fs w1) Hds Hin Hok) as [Hev' Hsent].
  destruct (task_step H b t (c_world c)) as [pc w']. simpl in *.
  split; simpl; rewrite ?(task_fmap_insert _ _ _ t) by done.
  - eauto.
  - by rewrite Hd', Hp', Hs'.
  - intros q Hq. rewrite Hq'; [by apply Ho|]. intros ->. apply Hq.
    apply list_elem_of_fmap. eauto using list_elem_of_lookup_2.
  - apply Forall_lookup. intros i t2 Hi. destruct (decide (n = i)) as [<-|Hne].
    + rewrite list_lookup_insert_eq in Hi by by eapply lookup_lt_Some. by simplify_eq.
    + rewrite list_lookup_insert_ne in Hi by done. rewrite Hq'.
      * by apply (proj1 (Forall_lookup _ _) Hts i).
      * intros Heq. apply Hne. eapply (NoDup_lookup _ _ _ _ Hnd).
        -- by rewrite (list_lookup_fmap t_file), Hn.
        -- rewrite (list_lookup_fmap t_file), Hi. simpl. by rewrite Heq.
  - by apply err_none_insert.
  - intros e. by apply err_some_insert.
  - intros e [_ Hdone]%Hret. apply (proj1 (Forall_lookup _ _) Hdone) in Hn. congruence.
  - eexists. rewrite Hev', Hevs, <-app_assoc. split; [done|].
    by rewrite requests_insert, Hall.
Qed.

End running.

Lemma running_init w1 : running H b w1 (mkConfig w1 (MLoop basePackages) [] None).
Proof.
  split; simpl; try done.
  - by exists [].
  - exists []. by rewrite app_nil_r.
Qed.

Lemma main_step_inv w c c' : inv H b w c -> main_step b c = Some c' -> inv H b w c'.
Proof.
  unfold main_step. destruct 1 as [|e w' He|w1 c He Hm Hrun]; simpl.
  - destruct (ensure_dir _ _) as [[[]|e] w1] eqn:He; intros [= <-].
    + apply (inv_running _ _ _ w1); [done..|apply running_init].
    + by apply inv_failed.
  - done.
  - destruct (c_main c) as [|[|p rest]| |] eqn:Hc; [done| | | |done].
    + intros [= <-]. apply (inv_running _ _ _ w1); [done..|].
      apply running_main; [done|by rewrite Hc|done].
    + cbn zeta. destruct (fs_exists _ _) eqn:Hex; intros [= <-].
      * apply (inv_running _ _ _ w1); [done..|by eapply running_skip].
      * apply (inv_running _ _ _ w1); [done..|by eapply running_go].
    + destruct (errgroup.can_return c) eqn:Hcr; [|done]. intros [= <-].
      apply (inv_running _ _ _ w1); [done..|]. apply running_main; [done|by rewrite Hc|].
      intros e [= <-]. split; [done|]. apply Forall_forall. intros t Ht%list_elem_of_In.
      unfold errgroup.can_return in Hcr. by eapply forallb_forall in Hcr.
Qed.

(** Every step keeps the invariant, in a configuration whose goroutines
    hold their descriptors. *)
Lemma step_inv w i c c' :
  handles_inv b w c -> inv H b w c -> step H b i c = Some c' -> inv H b w c'.
Proof.
  intros Hh. destruct i as [|n]; [apply main_step_inv|]. simpl.
  destruct 1 as [|e w' He|w1 c He Hm Hrun]; simpl; [done..|].
  destruct (c_tasks c !! n) as [t|] eqn:Hn; [|done].
  destruct (is_done t) eqn:Hd; [done|].
  assert (held (opts b) t ⊆ handles (c_world c)) as Hin.
  { rewrite Hh. pose proof (held_all_lookup (opts b) _ _ _ Hn). multiset_solver. }
  pose proof (running_task w1 c Hrun n t Hn Hd Hin) as Hrun'.
  destruct (task_step H b t (c_world c)) as [pc w']. intros [= <-].
  by apply (inv_running _ _ _ w1).
Qed.

Lemma reachable_inv w c : reachable H b w c -> inv H b w c.
Proof.
  induction 1; [apply inv_init|]. eapply step_inv; [|done..].
  by apply (reachable_handles H).
Qed.

(** ** The end of the run *)

(** Distinct packages have distinct addresses. *)
Lemma requests_NoDup o f1 (P : string -> Prop) `{!forall p, Decision (P p)} :
  NoDup (map (fun p => EvGet (pkg_url o p)) (filter P (to_fetch o f1))).
Proof.
  apply NoDup_fmap_2; [|by do 2 apply NoDup_filter; apply basePackages_NoDup].
  intros p q Hpq. apply (pkg_url_inj o). congruence.
Qed.

Section fetch_files.
Context (o : Opts) (f1 : FS).

Lemma fetch_files_other l q :
  q ∉ map (cache_file o) l -> fetch_files H o f1 l !! q = files f1 !! q.
Proof.
  induction l as [|p l IH]; simpl; [done|]. intros Hq.
  apply not_elem_of_cons in Hq as [Hne Hq]. case_match; [|by apply IH].
  rewrite lookup_insert_ne by done. by apply IH.
Qed.

Lemma fetch_files_lookup l p :
  p ∈ l -> files f1 !! cache_file o p = None ->
  fetch_files H o f1 l !! cache_file o p = (fetch_outcome H o f1 p).2.
Proof.
  intros Hin Hf. induction l as [|p0 l IH]; simpl; [by apply elem_of_nil in Hin|].
  destruct (decide (p0 = p)) as [->|Hne].
  - destruct (fetch_outcome H o f1 p).2 as [data|] eqn:Ho; [by rewrite lookup_insert_eq|].
    destruct (decide (p ∈ l)) as [Hl|Hl]; [by apply IH|].
    rewrite fetch_files_other; [done|]. by intros (? & ->%(inj _) & ?)%list_elem_of_fmap.
  - apply elem_of_cons in Hin as [->|Hin]; [done|].
    case_match; [rewrite lookup_insert_ne by by intros ?%(inj _)|]; by apply IH.
Qed.

Lemma missing_lookup p : missing o f1 p = true -> files f1 !! cache_file o p = None.
Proof.
  unfold missing, fs_exists, is_file. intros [Hf _]%negb_true_iff%orb_false_iff.
  apply bool_decide_eq_false in Hf. by apply eq_None_not_Some.
Qed.

End fetch_files.

Section finished.
Context (w w1 : World) (c : config).
Context (Hreach : reachable H b w c) (Hfin : finished c = true).
Context (Hens : ensure_dir (opts b) w = (Ok tt, w1)).

Lemma finished_running : running H b w1 c /\ c_main c = MReturn (c_err c).
Proof using Hreach Hfin Hens.
  apply reachable_inv in Hreach. destruct Hreach as [|e w' He|w1' c He Hm Hrun].
  - done.
  - congruence.
  - assert (w1' = w1) as -> by congruence. split; [done|].
    unfold finished in Hfin. destruct (c_main c) as [| | |e] eqn:Hc; try done.
    by destruct (run_return _ _ _ _ Hrun _ Hc) as [-> _].
Qed.

(** One goroutine was started for each package whose file was missing, in
    the order of [basePackages]. *)
Lemma finished_tasks : map t_pkg (c_tasks c) = to_fetch (opts b) (fs w1).
Proof using Hreach Hfin Hens.
  destruct finished_running as [[(walked & Hw & Ht) _ _ _ _ _ _] Hc].
  rewrite Hc, app_nil_r in Hw. unfold to_fetch. by rewrite Ht, Hw.
Qed.

(** Every goroutine ended the way [fetch_outcome] says. *)
Lemma finished_outcomes :
  Forall (fun t => exists err, t_pc t = TDone err /\
            (err, files (fs (c_world c)) !! t_file t) = fetch_outcome H (opts b) (fs w1) (t_pkg t))
         (c_tasks c).
Proof using Hreach Hfin Hens.
  destruct finished_running as [Hrun Hc].
  destruct (run_return _ _ _ _ Hrun _ Hc) as [_ Hdone].
  pose proof (run_tasks _ _ _ _ Hrun) as Hts.
  eapply Forall_impl; [apply Forall_and; split; [apply Hdone|apply Hts]|]. simpl.
  intros t [Hd [_ Hok]]. unfold is_done in Hd. destruct (t_pc t); try done. eauto.
Qed.

Lemma finished_files : files (fs (c_world c)) = fetch_files H (opts b) (fs w1) (to_fetch (opts b) (fs w1)).
Proof using Hreach Hfin Hens.
  destruct finished_running as [Hrun Hc]. apply map_eq. intros q.
  pose proof (running_files _ _ Hrun) as Hfiles. rewrite finished_tasks in Hfiles.
  destruct (decide (q ∈ map t_file (c_tasks c))) as [Hq|Hq].
  - apply list_elem_of_fmap in Hq as (t & -> & Ht).
    pose proof (proj1 (Forall_forall _ _) finished_outcomes t Ht) as (err & _ & Ho).
    pose proof (proj1 (Forall_forall _ _) (run_tasks _ _ _ _ Hrun) t Ht) as [Hf _].
    assert (t_pkg t ∈ to_fetch (opts b) (fs w1)) as Hin.
    { rewrite <-finished_tasks. apply list_elem_of_fmap. eauto. }
    rewrite Hf, fetch_files_lookup; [by rewrite <-Ho, <-Hf|done|].
    apply list_elem_of_filter in Hin as [Hm _]. by apply missing_lookup.
  - rewrite (run_other _ _ _ _ Hrun) by done. rewrite fetch_files_other; [done|].
    by rewrite <-Hfiles.
Qed.

(** The file system at the end does not depend on the schedule. *)
Lemma finished_fs : fs (c_world c) = fetch_fs H (opts b) (fs w1).
Proof using Hreach Hfin Hens.
  destruct finished_running as [Hrun _]. destruct (run_frame _ _ _ _ Hrun) as (_ & _ & Hd).
  unfold fetch_fs. rewrite <-finished_files, <-Hd. by destruct (fs (c_world c)).
Qed.

(** The requests of the whole run: one for each package whose closure
    came to send it. *)
Lemma finished_trace :
  exists evs, trace (c_world c) = trace w1 ++ evs /\
    evs ≡ₚ map (fun p => EvGet (pkg_url (opts b) p))
             (filter (fun p => requested H (opts b) (fs w1) p = true)
                     (to_fetch (opts b) (fs w1))).
Proof using Hreach Hfin Hens.
  destruct finished_running as [Hrun Hc].
  destruct (run_trace _ _ _ _ Hrun) as (evs & Htr & Hall). exists evs. split; [done|].
  destruct (run_return _ _ _ _ Hrun _ Hc) as [_ Hdone].
  by rewrite requests_done, finished_tasks in Hall.
Qed.

(** The pool and the standard output are those of the start. *)
Lemma finished_frame : pool (c_world c) = pool w1 /\ stdout (c_world c) = stdout w1.
Proof using Hreach Hfin Hens.
  destruct finished_running as [Hrun _]. by destruct (run_frame _ _ _ _ Hrun) as (? & ? & _).
Qed.

(** The error the method returns is the error of one of the goroutines,
    and there is none when no goroutine has one. *)
Lemma finished_result :
  match result c with
  | None => Forall (fun p => (fetch_outcome H (opts b) (fs w1) p).1 = None) (to_fetch (opts b) (fs w1))
  | Some e => Exists (fun p => (fetch_outcome H (opts b) (fs w1) p).1 = Some e) (to_fetch (opts b) (fs w1))
  end.
Proof using Hreach Hfin Hens.
  destruct finished_running as [Hrun Hc]. unfold result. rewrite Hc.
  rewrite <-finished_tasks. pose proof finished_outcomes as Ho.
  destruct (c_err c) as [e|] eqn:He.
  - destruct (run_err_some _ _ _ _ Hrun e He) as (t & Ht & Hpc).
    apply Exists_fmap, Exists_exists. exists t. split; [done|].
    apply (proj1 (Forall_forall _ _) Ho) in Ht as (err & Hpc' & Ho'). simpl.
    rewrite <-Ho'. simpl. congruence.
  - apply Forall_fmap. pose proof (run_err_none _ _ _ _ Hrun He) as Hn.
    eapply Forall_impl; [apply Forall_and; split; [apply Ho|apply Hn]|]. simpl.
    intros t [(err & Hpc & Ho') Hne]. rewrite <-Ho'. simpl.
    destruct err as [e|]; [|done]. by destruct (Hne e).
Qed.

Lemma finished_ok_iff :
  result c = None <->
  Forall (fun p => (fetch_outcome H (opts b) (fs w1) p).1 = None) (to_fetch (opts b) (fs w1)).
Proof using Hreach Hfin Hens.
  pose proof finished_result as Hres. destruct (result c) as [e|]; [|done].
  split; [done|]. intros Hall. apply Exists_exists in Hres as (p & Hp & Hpe).
  apply (proj1 (Forall_forall _ _) Hall) in Hp. congruence.
Qed.

End finished.

Lemma finished_done w c :
  reachable H b w c -> finished c = true -> Forall (fun t => is_done t = true) (c_tasks c).
Proof.
  intros [|e w' He|w1 c' He Hm Hrun]%reachable_inv Hfin; [done..|].
  unfold finished in Hfin. destruct (c_main c') eqn:Hc; try done.
  by destruct (run_return _ _ _ _ Hrun _ Hc).
Qed.

(** When the method returns every goroutine has closed what it opened. *)
Lemma finished_handles w c :
  reachable H b w c -> finished c = true -> handles (c_world c) = handles w.
Proof.
  intros Hr Hfin. rewrite (reachable_handles H b w c Hr).
  rewrite held_all_done by by eapply finished_done. multiset_solver.
Qed.

(** At most one goroutine per package. *)
Lemma reachable_tasks_length w c :
  reachable H b w c -> length (c_tasks c) <= length basePackages.
Proof.
  intros [|e w' He|w1 c' He Hm Hrun]%reachable_inv; [simpl; lia..|].
  destruct Hrun as [(walked & Hw & Ht) _ _ _ _ _ _ _].
  rewrite <-(length_map t_pkg), Ht, Hw, length_app.
  pose proof (length_filter (fun p => missing (opts b) (fs w1) p = true) walked). lia.
Qed.

Lemma finished_failed w c e w' :
  reachable H b w c -> finished c = true -> ensure_dir (opts b) w = (Err e, w') ->
  c = mkConfig w' (MReturn (Some e)) [] None.
Proof. intros [| |]%reachable_inv Hfin He; [done| |]; congruence. Qed.

(** The configuration the method returns from. *)
Lemma DownloadBaseSystem_final sched w :
  exists c, reachable H b w c /\ finished c = true /\
            DownloadBaseSystem H b sched w = (res_of (result c), c_world c).
Proof.
  eexists. split_and!; [|by apply run_fair_finished|done].
  apply run_fair_reachable, run_sched_reachable, reach_init.
Qed.

(** The fetcher returns with the descriptors it was called with. *)
Lemma DownloadBaseSystem_handles sched w :
  handles (DownloadBaseSystem H b sched w).2 = handles w.
Proof.
  destruct (DownloadBaseSystem_final sched w) as (c & Hr & Hf & ->).
  by apply finished_handles.
Qed.

(** The fetcher leaves the pool alone. *)
Lemma DownloadBaseSystem_pool sched w : pool (DownloadBaseSystem H b sched w).2 = pool w.
Proof.
  destruct (DownloadBaseSystem_final sched w) as (c & Hr & _ & ->). simpl.
  assert (preserves (fun w' => pool w' = pool w) (ensure_dir (opts b))) as Hp
    by (unfold ensure_dir, utils.Exists, os.Mkdir; solve_preserves).
  specialize (Hp w eq_refl).
  apply reachable_inv in Hr as [|e w' He|w1 c' He Hm Hrun]; [done|by rewrite He in Hp|].
  rewrite He in Hp. by destruct (run_frame _ _ _ _ Hrun) as [-> _].
Qed.

End fetch.
