(* ===== verification/FetchCommute.v ===== *)
(** * FetchCommute: the goroutines of the fetcher commute

  What a step of a goroutine of [DownloadBaseSystem] does depends on its
  own cache file and on the directories, and it changes its own cache
  file, its own descriptors and the trace ([local_step], [apply_effect]).
  So the steps of two goroutines can be taken in either order: the
  machine of [Fetch] comes to the same goroutines and to the same world,
  up to the order of the two requests in the trace
  ([goroutines_commute]).  The one thing the order decides is the error
  the group keeps when both steps return one. *)

From stdpp Require Import base gmap gmultiset strings list.
From S2P Require Import Prelude.
From S2P Require Import Host.
From S2P Require Import HostFacts.
From S2P Require Import Handles.
From S2P Require Import Options.
From S2P Require Import Fetch.
From S2P Require Import FetchHandles.
From S2P Require Import FetchInv.

(** ** Effects *)

(** What a step does to the world: the new content of the goroutine's
    file, the request sent, the descriptors opened and closed. *)
Record effect := mkEffect {
  e_write : option string;
  e_log : list event;
  e_open : gmultiset handle;
  e_close : gmultiset handle;
}.

Definition no_effect : effect := mkEffect None [] ∅ ∅.

Definition apply_effect (file : string) (e : effect) (w : World) : World :=
  mkWorld (match e_write e with
           | Some data => with_file file data (fs w)
           | None => fs w
           end)
          (pool w) (stdout w) (trace w ++ e_log e)
          (e_open e ⊎ handles w ∖ e_close e).

(** The step of a goroutine as a function of what it can see: the
    content of its own file and the directories. *)
Definition local_step (H : Host) (b : Builder) (t : task)
    (content : option string) (ds : gset string) : task_pc * effect :=
  let file := t_file t in
  let url := pkg_url (opts b) (t_pkg t) in
  match t_pc t with
  | TCreate =>
      if bool_decide (file ∈ ds) then (TDone (Some (ErrPath "open" file EISDIR)), no_effect)
      else if parent_ok file ds
           then (TRequest (mkFile file true),
                 mkEffect (Some "") [] {[+ HFile (mkFile file true) +]} ∅)
           else (TDone (Some (ErrPath "open" file ENOENT)), no_effect)
  | TRequest out =>
      if http_parse H url
      then match http_do H hc url with
           | NoReply e => (TDone (Some e), mkEffect None [EvGet url] ∅ {[+ HFile out +]})
           | Reply _ body cut =>
               (TCopy out (RBody body cut), mkEffect None [EvGet url] {[+ HBody url +]} ∅)
           end
      else (TDone (Some (ErrURL "parse" url)), mkEffect None [] ∅ {[+ HFile out +]})
  | TCopy out (RBody data cut) =>
      let closes := {[+ HFile out; HBody url +]} in
      if io_fail H file
      then (TDone (Some (ErrPath "write" file EIO)), mkEffect None [] ∅ closes)
      else match content with
           | Some old => (TDone cut, mkEffect (Some (old +:+ data)) [] ∅ closes)
           | None => (TDone (Some (ErrPath "write" file EBADF)), mkEffect None [] ∅ closes)
           end
  | TCopy out (RFile _) => (TDone None, no_effect)
  | TDone err => (TDone err, no_effect)
  end.

(** A goroutine's handle is that of its own file, and what it copies is
    the body of a response. *)
Definition pc_local (t : task) : Prop :=
  match t_pc t with
  | TCreate | TDone _ => True
  | TRequest out => out = mkFile (t_file t) true
  | TCopy out body => out = mkFile (t_file t) true /\ exists data cut, body = RBody data cut
  end.

(** The configuration after the step of the goroutine [n], from what the
    goroutine sees. *)
Definition view_step (H : Host) (b : Builder) (n : nat) (t : task)
    (content : option string) (ds : gset string) (c : config) : config :=
  let l := local_step H b t content ds in
  mkConfig (apply_effect (t_file t) l.2 (c_world c)) (c_main c)
           (<[n := mkTask (t_pkg t) (t_file t) l.1]> (c_tasks c))
           (err_after l.1 (c_err c)).

(** Worlds that differ in the order of the trace only. *)
#[export] Instance world_equiv : Equiv World := fun w w' =>
  fs w = fs w' /\ pool w = pool w' /\ stdout w = stdout w' /\
  handles w = handles w' /\ trace w ≡ₚ trace w'.

(** * Theorems *)

#[export] Instance world_equivalence : Equivalence (≡@{World}).
Proof.
  split.
  - by intros w.
  - intros w w' (? & ? & ? & ? & ?). by split_and!.
  - intros w1 w2 w3 (? & ? & ? & ? & ?) (? & ? & ? & ? & ?).
    split_and!; try congruence. by etrans.
Qed.

Lemma list_insert_comm {A} (l : list A) i j x y :
  i <> j -> <[i := x]> (<[j := y]> l) = <[j := y]> (<[i := x]> l).
Proof.
  revert i j. induction l as [|a l IH]; intros [|i] [|j] Hne; simpl; try done.
  f_equal. apply IH. congruence.
Qed.

(** ** Effects commute *)

Lemma apply_no_effect file w : apply_effect file no_effect w = w.
Proof. apply world_eq; simpl; [done..|apply app_nil_r|multiset_solver]. Qed.

(** Two effects on different files, each closing descriptors of its own,
    can be applied in either order. *)
Lemma apply_effect_comm p q e1 e2 w :
  p <> q -> e_close e1 ⊎ e_close e2 ⊆ handles w ->
  apply_effect p e1 (apply_effect q e2 w) ≡ apply_effect q e2 (apply_effect p e1 w).
Proof.
  intros Hne Hc. unfold apply_effect. split_and!; simpl; try done.
  - destruct (e_write e1), (e_write e2); try done.
    unfold with_file. simpl. f_equal. by apply insert_insert_ne.
  - multiset_solver.
  - rewrite <-!app_assoc. apply Permutation_app_head, Permutation_app_comm.
Qed.

Section commute.
Context (H : Host) (b : Builder).

(** ** The step is local *)

Lemma task_ok_local f1 t content : task_ok H (opts b) f1 t content -> pc_local t.
Proof.
  unfold task_ok, pc_local. intros [-> Hpc]. destruct (t_pc t); [done| | |done].
  - by destruct Hpc as [-> _].
  - destruct Hpc as (-> & _ & _ & _ & _ & data & cut & _ & ->). eauto.
Qed.

(** What a step closes is held by the goroutine. *)
Lemma local_step_close t content ds :
  e_close (local_step H b t content ds).2 ⊆ held (opts b) t.
Proof.
  unfold local_step, held.
  destruct (t_pc t) as [| |out [f|data cut]|]; repeat case_match; simpl; multiset_solver.
Qed.

(** The step of a goroutine that holds its descriptors is its local step,
    applied to the world. *)
Lemma task_step_local t w :
  pc_local t -> held (opts b) t ⊆ handles w ->
  task_step H b t w =
    ((local_step H b t (files (fs w) !! t_file t) (dirs (fs w))).1,
     apply_effect (t_file t) (local_step H b t (files (fs w) !! t_file t) (dirs (fs w))).2 w).
Proof.
  unfold pc_local, local_step. intros Hpc Hin.
  destruct (t_pc t) as [|out|out body|err] eqn:Ht.
  - unfold task_step. rewrite Ht, os_Create_run. unfold is_dir.
    destruct (bool_decide _); [by rewrite apply_no_effect|].
    destruct (parent_ok _ _); [|by rewrite apply_no_effect].
    simpl. f_equal. apply world_eq; simpl; [done..|by rewrite app_nil_r|multiset_solver].
  - rewrite (task_step_request _ _ _ _ _ Ht) by eauto using held_open. cbn zeta.
    repeat case_match; simpl; f_equal; apply world_eq; simpl;
      rewrite ?app_nil_r; try done; multiset_solver.
  - rewrite (task_step_copy _ _ _ _ _ _ Ht) by eauto using held_open.
    pose proof (held_open b t out w Hin (or_intror (ex_intro _ body Ht))) as Ho.
    destruct Hpc as (-> & data & cut & ->). simpl. unfold bind.
    destruct (io_fail H (t_file t)) eqn:Hio.
    { rewrite os_Write_fail by done. simpl. f_equal. apply world_eq; simpl;
        rewrite ?app_nil_r; try done; multiset_solver. }
    destruct (files (fs w) !! t_file t) as [old|] eqn:Hf.
    + rewrite (os_Write_ok _ _ _ old) by done. simpl.
      destruct cut; simpl; f_equal; apply world_eq; simpl;
        rewrite ?app_nil_r; try done; multiset_solver.
    + unfold os.Write. rewrite on_open_run, lift_fs_run by done.
      unfold fs_write. simpl. rewrite Hio, Hf. simpl. f_equal.
      apply world_eq; simpl; rewrite ?app_nil_r, ?set_fs_id; try done; multiset_solver.
  - unfold task_step. rewrite Ht. simpl. by rewrite apply_no_effect.
Qed.

(** The effect of another goroutine is out of sight. *)
Lemma apply_effect_view p q e w :
  p <> q ->
  files (fs (apply_effect q e w)) !! p = files (fs w) !! p /\
  dirs (fs (apply_effect q e w)) = dirs (fs w).
Proof.
  intros Hne. unfold apply_effect. destruct (e_write e); simpl; [|done].
  by rewrite lookup_insert_ne.
Qed.

(** ** The machine *)

Lemma step_task n c t :
  c_tasks c !! n = Some t -> is_done t = false ->
  step H b (Task n) c =
    Some (mkConfig (task_step H b t (c_world c)).2 (c_main c)
            (<[n := mkTask (t_pkg t) (t_file t) (task_step H b t (c_world c)).1]> (c_tasks c))
            (err_after (task_step H b t (c_world c)).1 (c_err c))).
Proof. intros Hn Hd. simpl. rewrite Hn, Hd. by destruct (task_step _ _ _ _). Qed.

Lemma step_task_inv n c c' :
  step H b (Task n) c = Some c' ->
  exists t, c_tasks c !! n = Some t /\ is_done t = false.
Proof.
  simpl. destruct (c_tasks c !! n) as [t|]; [|done].
  destruct (is_done t) eqn:Hd; [done|]. eauto.
Qed.

(** In a configuration the machine reaches the goroutines are local and
    their files differ. *)
Lemma reachable_local w c :
  reachable H b w c -> Forall pc_local (c_tasks c) /\ NoDup (map t_file (c_tasks c)).
Proof.
  intros [|e w' He|w1 c' He Hm Hrun]%reachable_inv; [by split; constructor..|].
  split.
  - eapply Forall_impl; [apply (run_tasks _ _ _ _ Hrun)|]. intros t. apply task_ok_local.
  - destruct (run_walked _ _ _ _ Hrun) as (walked & Hw & Ht). by eapply running_nodup.
Qed.

(** Two goroutines have two files. *)
Lemma reachable_files_ne w c i j ti tj :
  reachable H b w c -> i <> j -> c_tasks c !! i = Some ti -> c_tasks c !! j = Some tj ->
  t_file ti <> t_file tj.
Proof.
  intros Hr Hne Hi Hj Heq. destruct (reachable_local w c Hr) as [_ Hnd]. apply Hne.
  eapply (NoDup_lookup _ _ _ _ Hnd); rewrite list_lookup_fmap; [by rewrite Hi|].
  by rewrite Hj; simpl; rewrite Heq.
Qed.

Lemma held_all_lookup2 o (l : list task) i j ti tj :
  i <> j -> l !! i = Some ti -> l !! j = Some tj ->
  held o ti ⊎ held o tj ⊆ held_all o l.
Proof.
  intros Hne Hi Hj.
  pose proof (held_all_insert o l i ti (mkTask (t_pkg ti) (t_file ti) TCreate) Hi) as Hins.
  pose proof (held_all_lookup o (<[i := mkTask (t_pkg ti) (t_file ti) TCreate]> l) j tj) as Hin.
  rewrite list_lookup_insert_ne in Hin by done. specialize (Hin Hj).
  change (held o (mkTask _ _ TCreate)) with (∅ : gmultiset handle) in Hins.
  multiset_solver.
Qed.

(** The group's error after two steps: the order matters only when both
    return an error to a group that has none. *)
Lemma err_after_comm pc1 pc2 g :
  err_after pc2 (err_after pc1 g) = err_after pc1 (err_after pc2 g) \/
  g = None /\ exists e1 e2,
    pc1 = TDone (Some e1) /\ pc2 = TDone (Some e2) /\
    err_after pc2 (err_after pc1 g) = Some e1 /\ err_after pc1 (err_after pc2 g) = Some e2.
Proof. destruct pc1 as [| | |[e1|]], pc2 as [| | |[e2|]], g; simpl; eauto 10. Qed.

(** A step of a goroutine in a reachable configuration, as its local
    step. *)
Lemma step_local w c n t :
  reachable H b w c -> c_tasks c !! n = Some t -> is_done t = false ->
  step H b (Task n) c =
    Some (view_step H b n t (files (fs (c_world c)) !! t_file t) (dirs (fs (c_world c))) c).
Proof.
  intros Hr Hn Hd. unfold view_step. rewrite (step_task n c t Hn Hd).
  rewrite task_step_local; [done| |].
  - destruct (reachable_local w c Hr) as [Hloc _]. by eapply Forall_lookup_1.
  - by eapply (reachable_held H).
Qed.

(** The step of [j] after the step of [i] sees what it saw before. *)
Lemma step_after w c i j ti tj :
  reachable H b w c -> i <> j ->
  c_tasks c !! i = Some ti -> is_done ti = false ->
  c_tasks c !! j = Some tj -> is_done tj = false ->
  let vi := view_step H b i ti (files (fs (c_world c)) !! t_file ti) (dirs (fs (c_world c))) in
  let vj := view_step H b j tj (files (fs (c_world c)) !! t_file tj) (dirs (fs (c_world c))) in
  step H b (Task i) c = Some (vi c) /\ step H b (Task j) (vi c) = Some (vj (vi c)).
Proof.
  intros Hr Hne Hi Hdi Hj Hdj vi vj.
  pose proof (step_local w c i ti Hr Hi Hdi) as Hsi. split; [done|].
  pose proof (reach_step _ _ _ _ _ _ Hr Hsi) as Hri.
  pose proof (reachable_files_ne w c j i tj ti Hr (not_eq_sym Hne) Hj Hi) as Hf.
  rewrite (step_local w (vi c) j tj Hri); [|by simpl; rewrite list_lookup_insert_ne|done].
  subst vi. unfold view_step at 2 3. cbn [c_world].
  by destruct (apply_effect_view (t_file tj) (t_file ti)
    (local_step H b ti (files (fs (c_world c)) !! t_file ti) (dirs (fs (c_world c)))).2
    (c_world c) Hf) as [-> ->].
Qed.

(** C23: two goroutines of [DownloadBaseSystem] that can both take a
    step can take the two steps in either order, in every configuration
    the machine reaches: after one the other can still move, and the two
    orders lead to the same goroutines, the same files, pool, standard
    output and descriptors, and the same requests in the trace up to their
    order.  The error the group keeps is the same too, unless both steps
    return an error to a group that has none: then it is the error of the
    step taken first. *)
Theorem goroutines_commute w c i j ti tj :
  reachable H b w c -> i <> j ->
  c_tasks c !! i = Some ti -> is_done ti = false ->
  c_tasks c !! j = Some tj -> is_done tj = false ->
  exists ci cj cij cji,
    step H b (Task i) c = Some ci /\ step H b (Task j) c = Some cj /\
    step H b (Task j) ci = Some cij /\ step H b (Task i) cj = Some cji /\
    c_world cij ≡ c_world cji /\ c_tasks cij = c_tasks cji /\ c_main cij = c_main cji /\
    (c_err cij = c_err cji \/
     c_err c = None /\ exists ei ej,
       c_err ci = Some ei /\ c_err cj = Some ej /\
       c_err cij = Some ei /\ c_err cji = Some ej).
Proof.
  intros Hr Hne Hti Hdi Htj Hdj.
  destruct (step_after w c i j ti tj Hr Hne Hti Hdi Htj Hdj) as [Hi1 Hij].
  destruct (step_after w c j i tj ti Hr (not_eq_sym Hne) Htj Hdj Hti Hdi) as [Hj1 Hji].
  cbn zeta in *. eexists _, _, _, _. split_and!; [done..| | | |].
  - apply apply_effect_comm; [by eapply (reachable_files_ne w c j i)|].
    pose proof (local_step_close tj (files (fs (c_world c)) !! t_file tj) (dirs (fs (c_world c)))).
    pose proof (local_step_close ti (files (fs (c_world c)) !! t_file ti) (dirs (fs (c_world c)))).
    pose proof (held_all_lookup2 (opts b) _ i j ti tj Hne Hti Htj).
    rewrite (reachable_handles H b w c Hr). multiset_solver.
  - by apply list_insert_comm.
  - done.
  - unfold view_step. simpl. destruct (err_after_comm
      (local_step H b ti (files (fs (c_world c)) !! t_file ti) (dirs (fs (c_world c)))).1
      (local_step H b tj (files (fs (c_world c)) !! t_file tj) (dirs (fs (c_world c)))).1
      (c_err c)) as [Heq|(Hg & ei & ej & Hpi & Hpj & He1 & He2)]; [by left|right].
    split; [done|]. exists ei, ej. rewrite Hpi, Hpj, Hg in *. by split_and!.
Qed.

End commute.

(** ** Examples *)

Lemma goroutines_commute_witness :
  let H := mirror_host mirror0 in
  let c := run_sched H fetch_builder [Main; Main; Main; Main; Task 0] (init fetch_world) in
  exists ci cj cij cji,
    step H fetch_builder (Task 0) c = Some ci /\ step H fetch_builder (Task 2) c = Some cj /\
    step H fetch_builder (Task 2) ci = Some cij /\ step H fetch_builder (Task 0) cj = Some cji /\
    c_world cij ≡ c_world cji /\ c_tasks cij = c_tasks cji /\ c_main cij = c_main cji /\
    (c_err cij = c_err cji \/
     c_err c = None /\ exists ei ej,
       c_err ci = Some ei /\ c_err cj = Some ej /\
       c_err cij = Some ei /\ c_err cji = Some ej).
Proof.
  apply (goroutines_commute (mirror_host mirror0) fetch_builder fetch_world _ 0 2
           (mkTask "base.txz" (cache_file opts0 "base.txz")
              (TRequest (mkFile (cache_file opts0 "base.txz") true)))
           (mkTask "ports.txz" (cache_file opts0 "ports.txz") TCreate)).
  - apply run_sched_reachable, reach_init.
  - done.
  - by vm_compute.
  - done.
  - by vm_compute.
  - done.
Defined.

(** With a mirror that answers nobody, two goroutines that send their
    request one after the other leave the same world but for the order of
    the two requests in the trace, and the group keeps the error of the
    one that went first. *)
Example goroutines_commute_errors :
  let H := mirror_host ∅ in
  let b := mkBuilder (Wrap H) opts0 in
  let c := run_sched H b [Main; Main; Main; Main; Task 0; Task 1] (init fetch_world) in
  let cij := run_sched H b [Task 0; Task 1] c in
  let cji := run_sched H b [Task 1; Task 0] c in
  map (fun p => files (fs (c_world cij)) !! cache_file opts0 p) basePackages =
    map (fun p => files (fs (c_world cji)) !! cache_file opts0 p) basePackages /\
  size (handles (c_world cij)) = size (handles (c_world cji)) /\
  trace (c_world cij) = [EvGet (pkg_url opts0 "base.txz"); EvGet (pkg_url opts0 "lib32.txz")] /\
  trace (c_world cji) = [EvGet (pkg_url opts0 "lib32.txz"); EvGet (pkg_url opts0 "base.txz")] /\
  c_err cij = Some (ErrURL "Get" (pkg_url opts0 "base.txz")) /\
  c_err cji = Some (ErrURL "Get" (pkg_url opts0 "lib32.txz")).
Proof. by vm_compute. Qed.
