(* ===== verification/FetchRun.v ===== *)
(** * FetchRun: a whole run of the fetcher

  The theorems on [DownloadBaseSystem] as a method, derived from the
  invariant of [FetchInv]: that it returns, the files and the result in
  the end, the same under every schedule ([fetch_fs], [fetch_outcome]),
  the requests it sends, what each goroutine did compared with the
  closure run alone ([download]), the equivalence with the fetcher
  without goroutines ([DownloadSeq]), the descriptors open during the run
  and at its end, and that the method keeps the file system well formed
  and starts no process. *)

From Stdlib Require Import Lia.
From stdpp Require Import base gmap gmultiset strings list.
From S2P Require Import Prelude.
From S2P Require Import Host.
From S2P Require Import HostFacts.
From S2P Require Import Trace.
From S2P Require Import Handles.
From S2P Require Import Options.
From S2P Require Import Fetch.
From S2P Require Import FetchHandles.
From S2P Require Import FetchInv.

(** ** Names for the statements *)

(** What the sequential loop leaves, in a world that agrees with the
    start on the directories and on the cache files still to come. *)
Definition seq_post (H : Host) (b : Builder) (f1 : FS) (l : list string) (w : World)
    (r : option error * World) : Prop :=
  let todo := filter (fun p => missing (opts b) f1 p = true) l in
  dirs (fs r.2) = dirs f1 /\ pool r.2 = pool w /\ stdout r.2 = stdout w /\
  (forall q, q ∉ map (cache_file (opts b)) todo -> files (fs r.2) !! q = files (fs w) !! q) /\
  (forall p, p ∈ todo ->
     files (fs r.2) !! cache_file (opts b) p = (fetch_outcome H (opts b) f1 p).2) /\
  (r.1 = None <-> Forall (fun p => (fetch_outcome H (opts b) f1 p).1 = None) todo).

(** * Theorems *)

Section fetch.
Context (H : Host) (b : Builder).

(** ** The closure run alone *)

Lemma download_run p w :
  files (fs w) !! cache_file (opts b) p = None ->
  exists w',
    download H b p (cache_file (opts b) p) w = (res_of (fetch_outcome H (opts b) (fs w) p).1, w') /\
    files (fs w') !! cache_file (opts b) p = (fetch_outcome H (opts b) (fs w) p).2 /\
    task_frame b (mkTask p (cache_file (opts b) p) TCreate) w w'.
Proof.
  intros Hf. unfold download, fetch_outcome. unfold bind at 1. rewrite os_Create_run.
  destruct (is_dir _ _); [by eauto using task_frame_refl|].
  destruct (parent_ok _ _); [|by eauto using task_frame_refl]. simpl.
  pose proof (task_frame_file b (mkTask p (cache_file (opts b) p) TCreate)) as Hfile.
  pose proof (task_frame_log b (mkTask p (cache_file (opts b) p) TCreate)) as Hlog.
  simpl in Hfile, Hlog. drop_defer.
  unfold bind, http.NewRequest. destruct (http_parse _ _); simpl.
  2: { eexists. split_and!; [done|by simpl; rewrite lookup_insert_eq|].
       do 2 apply task_frame_handles. apply Hfile. }
  unfold http.Do. destruct (http_do _ _ _) as [e|status data cut]; simpl.
  { eexists. split_and!; [done|by simpl; rewrite lookup_insert_eq|].
    apply task_frame_handles. eapply task_frame_trans; [apply Hfile|].
    apply (Hlog (opened _ (set_fs _ w))). }
  drop_defer. unfold bind. destruct (io_fail H (cache_file (opts b) p)) eqn:Hio.
  - rewrite os_Write_fail by (done || solve_open). simpl.
    eexists. split_and!; [done|by simpl; rewrite lookup_insert_eq|].
    do 3 apply task_frame_handles. eapply task_frame_trans; [apply Hfile|].
    apply (Hlog (opened _ (set_fs _ w))).
  - rewrite (os_Write_ok _ _ _ "") by (done || apply lookup_insert_eq || solve_open). simpl.
    destruct cut; simpl; (eexists; split_and!; [done|by simpl; rewrite lookup_insert_eq|]);
      do 2 apply task_frame_handles;
      (eapply task_frame_trans; [|apply (Hfile (opened _ (log _ (opened _ (set_fs _ w)))))]);
      apply task_frame_handles; (eapply task_frame_trans; [apply Hfile|]);
      apply (Hlog (opened _ (set_fs _ w))).
Qed.

(** The closure closes its file and the body of the response on every
    path: when the address does not parse or the request fails the file is
    closed, and when the copy fails both are. *)
Lemma download_balanced pkg pkgFile : balanced (download H b pkg pkgFile).
Proof. unfold download. solve_balanced. Qed.

(** ** The method *)

Lemma ensure_dir_trace o w : trace (ensure_dir o w).2 = trace w.
Proof.
  assert (preserves (fun w' => trace w' = trace w) (ensure_dir o)) as Hp
    by (unfold ensure_dir, utils.Exists, os.Mkdir; solve_preserves).
  by apply Hp.
Qed.

Lemma ensure_dir_exists w :
  fs_exists (tmp_dir (opts b)) (fs w) = true -> ensure_dir (opts b) w = (Ok tt, w).
Proof. intros He. unfold ensure_dir, bind, utils.Exists, gets. by rewrite He. Qed.

Lemma to_fetch_missing f1 p : p ∈ to_fetch (opts b) f1 -> missing (opts b) f1 p = true.
Proof. by intros [? _]%list_elem_of_filter. Qed.

(** C2: under every schedule [DownloadBaseSystem] returns, and it
    returns from [Wait] only when every goroutine has returned: its
    result and its world are those of a configuration the machine
    reaches, in which the method's thread and all goroutines are done. *)
Theorem DownloadBaseSystem_returns sched w :
  exists c, reachable H b w c /\ finished c = true /\
            Forall (fun t => is_done t = true) (c_tasks c) /\
            DownloadBaseSystem H b sched w = (res_of (result c), c_world c).
Proof.
  destruct (DownloadBaseSystem_final H b sched w) as (c & Hr & Hf & Hd).
  eauto 10 using finished_done.
Qed.

(** C1: the file system [DownloadBaseSystem] leaves is the same under
    every schedule: each package whose cache file was missing has the
    file the closure's outcome says, every other path is as it was, and
    the pool and the standard output are untouched. *)
Theorem DownloadBaseSystem_fs sched w w1 :
  ensure_dir (opts b) w = (Ok tt, w1) ->
  fs (DownloadBaseSystem H b sched w).2 = fetch_fs H (opts b) (fs w1) /\
  pool (DownloadBaseSystem H b sched w).2 = pool w1 /\
  stdout (DownloadBaseSystem H b sched w).2 = stdout w1.
Proof.
  intros He. destruct (DownloadBaseSystem_final H b sched w) as (c & Hr & Hf & ->). simpl.
  destruct (finished_frame H b w w1 c Hr Hf He) as [? ?].
  split_and!; [by eapply finished_fs|done..].
Qed.

(** C4: [DownloadBaseSystem] succeeds exactly when the download of
    every package whose cache file was missing does. *)
Theorem DownloadBaseSystem_ok_iff sched w w1 :
  ensure_dir (opts b) w = (Ok tt, w1) ->
  (DownloadBaseSystem H b sched w).1 = Ok tt <->
  Forall (fun p => (fetch_outcome H (opts b) (fs w1) p).1 = None) (to_fetch (opts b) (fs w1)).
Proof.
  intros He. destruct (DownloadBaseSystem_final H b sched w) as (c & Hr & Hf & ->). simpl.
  rewrite <-(finished_ok_iff H b w w1 c Hr Hf He). by destruct (result c).
Qed.

(** An error [DownloadBaseSystem] returns after the cache
    directory was made is the error of one of the goroutines. *)
Theorem DownloadBaseSystem_error sched w w1 e :
  ensure_dir (opts b) w = (Ok tt, w1) ->
  (DownloadBaseSystem H b sched w).1 = Err e ->
  Exists (fun p => (fetch_outcome H (opts b) (fs w1) p).1 = Some e) (to_fetch (opts b) (fs w1)).
Proof.
  intros He. destruct (DownloadBaseSystem_final H b sched w) as (c & Hr & Hf & ->). simpl.
  pose proof (finished_result H b w w1 c Hr Hf He) as Hres.
  destruct (result c); simpl; [|done]. by intros [= <-].
Qed.

(** When the cache directory cannot be made [DownloadBaseSystem]
    returns that error and starts no goroutine. *)
Theorem DownloadBaseSystem_mkdir_error sched w e w' :
  ensure_dir (opts b) w = (Err e, w') -> DownloadBaseSystem H b sched w = (Err e, w').
Proof.
  intros He. destruct (DownloadBaseSystem_final H b sched w) as (c & Hr & Hf & ->).
  by rewrite (finished_failed H b w c e w' Hr Hf He).
Qed.

(** Two schedules of [DownloadBaseSystem] leave the same file
    system and agree on success. *)
Theorem DownloadBaseSystem_schedule_independent s1 s2 w :
  fs (DownloadBaseSystem H b s1 w).2 = fs (DownloadBaseSystem H b s2 w).2 /\
  is_ok (DownloadBaseSystem H b s1 w).1 = is_ok (DownloadBaseSystem H b s2 w).1.
Proof.
  destruct (DownloadBaseSystem_final H b s1 w) as (c1 & Hr1 & Hf1 & ->).
  destruct (DownloadBaseSystem_final H b s2 w) as (c2 & Hr2 & Hf2 & ->). simpl.
  destruct (ensure_dir (opts b) w) as [[[]|e] w1] eqn:He.
  - rewrite (finished_fs H b w w1 c1), (finished_fs H b w w1 c2) by done. split; [done|].
    pose proof (finished_ok_iff H b w w1 c1 Hr1 Hf1 He) as Ho1.
    pose proof (finished_ok_iff H b w w1 c2 Hr2 Hf2 He) as Ho2.
    destruct (result c1), (result c2); simpl; naive_solver.
  - by rewrite (finished_failed H b w c1 e w1), (finished_failed H b w c2 e w1).
Qed.

(** With the cache directory there and every cache file present
    [DownloadBaseSystem] succeeds without starting a goroutine and leaves
    the world as it was. *)
Theorem DownloadBaseSystem_warm_cache sched w :
  fs_exists (tmp_dir (opts b)) (fs w) = true -> to_fetch (opts b) (fs w) = [] ->
  DownloadBaseSystem H b sched w = (Ok tt, w).
Proof.
  intros He%ensure_dir_exists Hnil.
  destruct (DownloadBaseSystem_final H b sched w) as (c & Hr & Hf & ->).
  pose proof (finished_fs H b w w c Hr Hf He) as Hfs.
  pose proof (finished_tasks H b w w c Hr Hf He) as Hts.
  pose proof (proj2 (finished_ok_iff H b w w c Hr Hf He)) as ->; [|by rewrite Hnil].
  destruct (finished_running H b w w c Hr Hf He) as [[_ (Hp & Hs & _) _ _ _ _ _ (evs & Hevs & Hall)] _].
  rewrite Hnil in Hts. apply fmap_nil_inv in Hts. rewrite Hts in Hall.
  apply Permutation_nil_r in Hall as ->.
  pose proof (finished_handles H b w c Hr Hf) as Hh.
  unfold fetch_fs in Hfs. rewrite Hnil, app_nil_r in *. simpl in *.
  destruct (c_world c), w as [[] ? ? ? ?]; simpl in *. by subst.
Qed.

(** C10: in every run of [DownloadBaseSystem] that finds or makes the
    cache directory, and under every schedule, the requests sent are, up
    to their order, one for each missing package whose cache file could be
    created and whose address parsed, and nothing else is added to the
    trace: no package is requested twice, none whose file was there is
    requested at all. *)
Theorem DownloadBaseSystem_requests sched w w1 :
  ensure_dir (opts b) w = (Ok tt, w1) ->
  exists evs,
    trace (DownloadBaseSystem H b sched w).2 = trace w ++ evs /\ NoDup evs /\
    evs ≡ₚ map (fun p => EvGet (pkg_url (opts b) p))
             (filter (fun p => requested H (opts b) (fs w1) p = true)
                     (to_fetch (opts b) (fs w1))).
Proof.
  intros He. destruct (DownloadBaseSystem_final H b sched w) as (c & Hr & Hf & ->). simpl.
  destruct (finished_trace H b w w1 c Hr Hf He) as (evs & -> & Hall). exists evs.
  pose proof (ensure_dir_trace (opts b) w) as Htr. rewrite He in Htr. simpl in Htr.
  rewrite Htr. split_and!; [done| |done]. rewrite Hall. apply requests_NoDup.
Qed.

(** C7: under every schedule and at every moment of
    [DownloadBaseSystem], the descriptors open are exactly those the
    method was called with and those its goroutines hold, the file of a
    goroutine between its [os.Create] and its return and the body of the
    response between [hc.Do] and the return: whatever way a goroutine
    returns, its deferred calls have closed what it opened and nothing
    else; what a goroutine holds is open, so no thread closes the
    descriptor of another; and when the method returns no descriptor of
    its own is left open. *)
Theorem goroutines_descriptors w c :
  reachable H b w c ->
  handles (c_world c) = handles w ⊎ held_all (opts b) (c_tasks c) /\
  Forall (fun t => held (opts b) t ⊆ handles (c_world c)) (c_tasks c) /\
  (finished c = true -> handles (c_world c) = handles w).
Proof.
  intros Hr. split_and!; [by apply (reachable_handles H)| |by apply (finished_handles H b)].
  apply Forall_lookup. intros n t Hn. by eapply (reachable_held H).
Qed.

(** [DownloadBaseSystem] never has more than six descriptors of its
    own open at once, a file and a response body for each of the three
    goroutines, whatever the schedule. *)
Theorem descriptors_bounded w c :
  reachable H b w c -> size (handles (c_world c)) <= size (handles w) + 6.
Proof.
  intros Hr. rewrite (reachable_handles H b w c Hr), gmultiset_size_disj_union.
  pose proof (held_all_size (opts b) (c_tasks c)) as Hs.
  pose proof (reachable_tasks_length H b w c Hr) as Hl. simpl in Hl. lia.
Qed.

(** At every moment of every run of [DownloadBaseSystem] the
    goroutines started are those of a prefix of the packages whose cache
    file was missing, in the order of [basePackages], each with the cache
    file of its own package; when the method has returned, one goroutine
    was started for each such package and no other. *)
Theorem goroutines_prefix w w1 c :
  reachable H b w c -> ensure_dir (opts b) w = (Ok tt, w1) ->
  map t_pkg (c_tasks c) `prefix_of` to_fetch (opts b) (fs w1) /\
  Forall (fun t => t_file t = cache_file (opts b) (t_pkg t)) (c_tasks c) /\
  (finished c = true -> map t_pkg (c_tasks c) = to_fetch (opts b) (fs w1)).
Proof.
  intros Hr Hens. split_and!; [| |by intros; eapply finished_tasks].
  all: apply reachable_inv in Hr as [|e w' He|w1' c' He Hm Hrun];
    [by try apply prefix_nil|congruence|].
  all: assert (w1' = w1) as -> by congruence.
  all: destruct Hrun as [(walked & Hw & Ht) _ _ Hts _ _ _ _].
  - unfold to_fetch. rewrite Ht, Hw, filter_app. by eexists.
  - eapply Forall_impl; [done|]. by intros t [? _].
Qed.

(** C22: when the run is over each goroutine has returned what the
    closure returns when it runs alone in the world the loop began in,
    and has left in its cache file what the closure run alone leaves:
    the other threads do not interfere. *)
Theorem goroutines_isolated w w1 c t :
  reachable H b w c -> finished c = true -> ensure_dir (opts b) w = (Ok tt, w1) ->
  t ∈ c_tasks c ->
  exists err w',
    t_pc t = TDone err /\
    download H b (t_pkg t) (t_file t) w1 = (res_of err, w') /\
    files (fs (c_world c)) !! t_file t = files (fs w') !! t_file t.
Proof.
  intros Hr Hf He Ht.
  pose proof (proj1 (Forall_forall _ _) (finished_outcomes H b w w1 c Hr Hf He) t Ht) as (err & Hpc & Ho).
  destruct (finished_running H b w w1 c Hr Hf He) as [Hrun _].
  pose proof (proj1 (Forall_forall _ _) (run_tasks _ _ _ _ Hrun) t Ht) as [Hfile _].
  assert (t_pkg t ∈ to_fetch (opts b) (fs w1)) as Hin%to_fetch_missing%missing_lookup.
  { rewrite <-(finished_tasks H b w w1 c Hr Hf He). apply list_elem_of_fmap. eauto. }
  destruct (download_run (t_pkg t) w1 Hin) as (w' & Hd & Hc & _).
  exists err, w'. rewrite Hfile, Hd, Hc, <-Ho. by rewrite Hfile.
Qed.

(** A package whose download failed after its cache file was
    created, on the request or in the middle of the body, is not fetched
    again by the next run: its file is there, empty or partial. *)
Theorem failed_download_skipped sched w w1 p e data :
  ensure_dir (opts b) w = (Ok tt, w1) ->
  p ∈ to_fetch (opts b) (fs w1) ->
  fetch_outcome H (opts b) (fs w1) p = (Some e, Some data) ->
  is_ok (DownloadBaseSystem H b sched w).1 = false /\
  files (fs (DownloadBaseSystem H b sched w).2) !! cache_file (opts b) p = Some data /\
  p ∉ to_fetch (opts b) (fs (DownloadBaseSystem H b sched w).2).
Proof.
  intros He Hin Ho. destruct (DownloadBaseSystem_final H b sched w) as (c & Hr & Hf & ->). simpl.
  assert (files (fs (c_world c)) !! cache_file (opts b) p = Some data) as Hdata.
  { rewrite (finished_fs H b w w1 c Hr Hf He). simpl.
    rewrite fetch_files_lookup, Ho; eauto using to_fetch_missing, missing_lookup. }
  split_and!; [|done|].
  - destruct (result c) eqn:Hres; [done|].
    apply (finished_ok_iff H b w w1 c Hr Hf He) in Hres.
    apply (proj1 (Forall_forall _ _) Hres) in Hin. by rewrite Ho in Hin.
  - intros Hm%to_fetch_missing%missing_lookup. congruence.
Qed.

(** C39: the closure does not look at the status of the answer: when
    the mirror answers with any status and a body that arrives whole,
    the closure succeeds and the cache file holds that body. *)
Theorem download_ignores_status p w status body :
  files (fs w) !! cache_file (opts b) p = None ->
  creatable (cache_file (opts b) p) (fs w) = true ->
  http_parse H (pkg_url (opts b) p) = true ->
  http_do H hc (pkg_url (opts b) p) = Reply status body None ->
  io_fail H (cache_file (opts b) p) = false ->
  exists w', download H b p (cache_file (opts b) p) w = (Ok tt, w') /\
             files (fs w') !! cache_file (opts b) p = Some body.
Proof.
  intros Hf [Hd Hp]%creatable_spec Hparse Hdo Hio.
  destruct (download_run p w Hf) as (w' & Hrun & Hc & _). exists w'.
  unfold fetch_outcome in Hrun, Hc. by rewrite Hd, Hp, Hparse, Hdo, Hio in Hrun, Hc.
Qed.

End fetch.

(** ** The fetcher without goroutines *)

Section sequential.
Context (H : Host) (b : Builder).

Lemma fetch_outcome_dirs f g p :
  dirs f = dirs g -> fetch_outcome H (opts b) f p = fetch_outcome H (opts b) g p.
Proof. intros Hd. unfold fetch_outcome, is_dir. by rewrite Hd. Qed.

Lemma fs_exists_same p f g :
  dirs f = dirs g -> files f !! p = files g !! p -> fs_exists p f = fs_exists p g.
Proof. intros Hd Hf. unfold fs_exists, is_file, is_dir. by rewrite Hd, Hf. Qed.

(** The files are those of [fetch_files] once they agree with it on the
    cache files and with the start elsewhere. *)
Lemma fetch_files_unique f1 l (m : gmap string string) :
  (forall p, p ∈ l -> files f1 !! cache_file (opts b) p = None) ->
  (forall q, q ∉ map (cache_file (opts b)) l -> m !! q = files f1 !! q) ->
  (forall p, p ∈ l -> m !! cache_file (opts b) p = (fetch_outcome H (opts b) f1 p).2) ->
  m = fetch_files H (opts b) f1 l.
Proof.
  intros Hnone Hother Hfiles. apply map_eq. intros q.
  destruct (decide (q ∈ map (cache_file (opts b)) l)) as [Hq|Hq].
  - apply list_elem_of_fmap in Hq as (p & -> & Hp).
    rewrite fetch_files_lookup; auto.
  - rewrite fetch_files_other; auto.
Qed.

Lemma seq_post_go f1 p l w w1 r :
  p ∉ l -> missing (opts b) f1 p = true ->
  download H b p (cache_file (opts b) p) w =
    (res_of (fetch_outcome H (opts b) f1 p).1, w1) ->
  files (fs w1) !! cache_file (opts b) p = (fetch_outcome H (opts b) f1 p).2 ->
  task_frame b (mkTask p (cache_file (opts b) p) TCreate) w w1 ->
  seq_post H b f1 l w1 r ->
  seq_post H b f1 (p :: l) w
    (errgroup.record r.1 (err_of (res_of (fetch_outcome H (opts b) f1 p).1)), r.2).
Proof.
  intros Hp Hm Hd Hc (Hds & Hpool & Hso & Hq & _) (Hds' & Hpool' & Hso' & Ho & Hf & He).
  unfold seq_post. rewrite filter_cons_True by done. simpl.
  assert (cache_file (opts b) p ∉
            map (cache_file (opts b)) (filter (fun p => missing (opts b) f1 p = true) l)) as Hni.
  { intros (p' & ->%(inj _) & [_ ?]%list_elem_of_filter)%list_elem_of_fmap. done. }
  split_and!; try congruence.
  - intros q [Hne Hq']%not_elem_of_cons. by rewrite Ho, Hq.
  - intros p' [->|Hin]%elem_of_cons; [by rewrite Ho|by apply Hf].
  - rewrite Forall_cons, <-He. destruct (fetch_outcome _ _ _ _).1, r.1; naive_solver.
Qed.

Lemma download_each_spec f1 l w :
  NoDup l -> dirs (fs w) = dirs f1 ->
  (forall p, p ∈ l -> files (fs w) !! cache_file (opts b) p = files f1 !! cache_file (opts b) p) ->
  seq_post H b f1 l w (download_each H b l w).
Proof.
  revert w. induction l as [|p l IH]; intros w Hnd Hds Hsame.
  { unfold seq_post. simpl. split_and!; try done. intros p []%elem_of_nil. }
  apply NoDup_cons in Hnd as [Hp Hnd]. simpl.
  rewrite (fs_exists_same _ _ f1) by (auto; apply Hsame; left).
  destruct (fs_exists _ f1) eqn:Hex.
  - specialize (IH w Hnd Hds (fun q Hq => Hsame q (list_elem_of_further _ _ _ Hq))).
    unfold seq_post in *. by rewrite filter_cons_False by (unfold missing; by rewrite Hex).
  - assert (missing (opts b) f1 p = true) as Hm by (unfold missing; by rewrite Hex).
    destruct (download_run H b p w) as (w1 & Hd & Hc & Hfr).
    { rewrite Hsame by left. by apply missing_lookup. }
    rewrite (fetch_outcome_dirs _ f1) in Hd, Hc by done. rewrite Hd.
    pose proof Hfr as (Hds1 & _ & _ & Hq1 & _).
    specialize (IH w1 Hnd (eq_trans Hds1 Hds)).
    destruct (download_each H b l w1) as [e w2] eqn:Hl.
    apply (seq_post_go f1 p l w w1 (e, w2)); auto. apply IH.
    intros q Hq. rewrite Hq1; [apply Hsame; by right|].
    simpl. intros ->%(inj _). done.
Qed.

(** C24: [DownloadBaseSystem] is equivalent to the fetcher without
    goroutines, which downloads the missing packages one after the
    other: under every schedule both leave the same file system, pool and
    standard output, and both succeed or both fail. *)
Theorem DownloadBaseSystem_sequential sched w :
  fs (DownloadBaseSystem H b sched w).2 = fs (DownloadSeq H b w).2 /\
  pool (DownloadBaseSystem H b sched w).2 = pool (DownloadSeq H b w).2 /\
  stdout (DownloadBaseSystem H b sched w).2 = stdout (DownloadSeq H b w).2 /\
  is_ok (DownloadBaseSystem H b sched w).1 = is_ok (DownloadSeq H b w).1.
Proof.
  destruct (DownloadBaseSystem_final H b sched w) as (c & Hr & Hf & ->).
  unfold DownloadSeq, bind. destruct (ensure_dir (opts b) w) as [[[]|e] w1] eqn:He.
  2: by rewrite (finished_failed H b w c e w1).
  destruct (download_each_spec (fs w1) basePackages w1 basePackages_NoDup eq_refl)
    as (Hds & Hp & Hs & Ho & Hfl & Herr); [done|].
  destruct (finished_running H b w w1 c Hr Hf He) as [Hrun _].
  destruct (run_frame _ _ _ _ Hrun) as (Hp' & Hs' & _).
  pose proof (finished_ok_iff H b w w1 c Hr Hf He) as Hok.
  destruct (download_each H b basePackages w1) as [e w2]. simpl in *.
  rewrite (finished_fs H b w w1 c Hr Hf He). split_and!; [|congruence..|].
  - unfold fetch_fs. rewrite <-Hds.
    rewrite <-(fetch_files_unique (fs w1) (to_fetch (opts b) (fs w1)) (files (fs w2)));
      [by destruct (fs w2)|by eauto using to_fetch_missing, missing_lookup|done..].
  - destruct (result c), e; simpl; naive_solver.
Qed.

End sequential.

(** ** Well-formedness *)

Section fetch_wf.
Context (H : Host) (b : Builder).

Lemma ensure_dir_wf o : preserves world_wf (ensure_dir o).
Proof. unfold ensure_dir. solve_preserves. Qed.

Lemma task_step_wf t w : world_wf w -> world_wf (task_step H b t w).2.
Proof.
  intros Hw. unfold task_step. destruct (t_pc t) as [|out|out body|err]; [| | |done].
  - pose proof (os_Create_wf (t_file t) w Hw). by destruct (os.Create _ _) as [[?|?] ?].
  - assert (preserves world_wf (req <- http.NewRequest H (pkg_url (opts b) (t_pkg t)) ;;
                                http.Do H hc req)) as Hp by solve_preserves.
    specialize (Hp w Hw). destruct (bind _ _ _) as [[?|?] ?]; [done|]. by apply os_Close_wf.
  - assert (preserves world_wf
              (defer (os.Close out)
                 (defer (http.BodyClose (pkg_url (opts b) (t_pkg t)))
                    (io.Copy H out body)))) as Hp by solve_preserves.
    specialize (Hp w Hw). by destruct (defer _ _ _) as [[?|?] ?].
Qed.

Lemma step_wf i c c' :
  step H b i c = Some c' -> world_wf (c_world c) -> world_wf (c_world c').
Proof.
  intros Hs Hw. destruct i as [|n]; simpl in Hs.
  - unfold main_step in Hs. pose proof (ensure_dir_wf (opts b) _ Hw).
    repeat case_match; by simplify_eq/=.
  - destruct (c_tasks c !! n) as [t|]; [|done]. destruct (is_done t); [done|].
    pose proof (task_step_wf t _ Hw) as Ht. destruct (task_step _ _ _ _) as [pc w'].
    by simplify_eq/=.
Qed.

Lemma reachable_wf w c : reachable H b w c -> world_wf w -> world_wf (c_world c).
Proof. induction 1; [done|]. eauto using step_wf. Qed.

(** The fetcher keeps the file system well formed under every schedule. *)
Lemma DownloadBaseSystem_wf sched : preserves world_wf (DownloadBaseSystem H b sched).
Proof.
  intros w Hw. destruct (DownloadBaseSystem_final H b sched w) as (c & Hr & _ & ->).
  by eapply reachable_wf.
Qed.

Lemma ensure_dir_quiet o : quiet (ensure_dir o).
Proof. unfold ensure_dir. solve_quiet. Qed.

(** The fetcher returns with the descriptors it was called with, under
    every schedule. *)
Lemma DownloadBaseSystem_balanced sched : balanced (DownloadBaseSystem H b sched).
Proof. apply balanced_always, DownloadBaseSystem_handles. Qed.

(** The fetcher starts no process. *)
Lemma DownloadBaseSystem_quiet sched : quiet (DownloadBaseSystem H b sched).
Proof.
  intros w. destruct (DownloadBaseSystem_final H b sched w) as (c & Hr & Hf & ->). simpl.
  pose proof (ensure_dir_quiet (opts b) w) as Hq.
  apply reachable_inv in Hr as [|e w' He|w1 c' He Hm Hrun]; [done|by rewrite He in Hq|].
  rewrite He in Hq. simpl in Hq. destruct (run_trace _ _ _ _ Hrun) as (evs & -> & Hall).
  assert (commands evs ≡ₚ []) as Hc%Permutation_nil_r;
    [|by rewrite commands_app, Hc, Hq, app_nil_r].
  unfold commands. rewrite Hall. unfold requests. by induction (filter _ _).
Qed.

End fetch_wf.

#[export] Hint Resolve DownloadBaseSystem_wf DownloadBaseSystem_quiet
  DownloadBaseSystem_balanced : go.

(** ** Examples *)

Lemma DownloadBaseSystem_fs_witness :
  let H := mirror_host mirror0 in
  let r := DownloadBaseSystem H fetch_builder sched0 fetch_world in
  fs r.2 = fetch_fs H opts0 (fs (ensure_dir opts0 fetch_world).2) /\
  pool r.2 = pool (ensure_dir opts0 fetch_world).2 /\
  stdout r.2 = stdout (ensure_dir opts0 fetch_world).2.
Proof.
  apply (DownloadBaseSystem_fs (mirror_host mirror0) fetch_builder sched0 fetch_world).
  by vm_compute.
Defined.

Lemma DownloadBaseSystem_ok_iff_witness :
  (DownloadBaseSystem (mirror_host mirror0) fetch_builder sched0 fetch_world_cached).1 = Ok tt <->
  Forall (fun p => (fetch_outcome (mirror_host mirror0) opts0 (fs fetch_world_cached) p).1 = None)
         (to_fetch opts0 (fs fetch_world_cached)).
Proof.
  apply (DownloadBaseSystem_ok_iff (mirror_host mirror0) fetch_builder sched0 fetch_world_cached).
  by vm_compute.
Defined.

Lemma DownloadBaseSystem_error_witness :
  Exists (fun p => (fetch_outcome (mirror_host mirror0) opts0 (fs (ensure_dir opts0 fetch_world).2) p).1
                   = Some (ErrNew "unexpected EOF"))
         (to_fetch opts0 (fs (ensure_dir opts0 fetch_world).2)).
Proof.
  apply (DownloadBaseSystem_error (mirror_host mirror0) fetch_builder sched0 fetch_world);
    by vm_compute.
Defined.

Lemma DownloadBaseSystem_mkdir_error_witness :
  DownloadBaseSystem (mirror_host mirror0) fetch_builder sched0 fetch_world_bare =
    (Err (ErrPath "mkdir" (tmp_dir opts0) ENOENT), fetch_world_bare).
Proof.
  apply (DownloadBaseSystem_mkdir_error (mirror_host mirror0) fetch_builder). by vm_compute.
Defined.

Lemma DownloadBaseSystem_requests_witness :
  exists evs,
    trace (DownloadBaseSystem (mirror_host mirror0) fetch_builder sched_last_first fetch_world).2
      = trace fetch_world ++ evs /\ NoDup evs /\
    evs ≡ₚ map (fun p => EvGet (pkg_url opts0 p))
             (filter (fun p => requested (mirror_host mirror0) opts0
                                 (fs (ensure_dir opts0 fetch_world).2) p = true)
                     (to_fetch opts0 (fs (ensure_dir opts0 fetch_world).2))).
Proof.
  apply (DownloadBaseSystem_requests (mirror_host mirror0) fetch_builder sched_last_first
           fetch_world).
  apply run_eq. by vm_compute.
Defined.

Lemma DownloadBaseSystem_warm_cache_witness :
  DownloadBaseSystem (mirror_host mirror0) fetch_builder sched0 fetch_world_warm =
    (Ok tt, fetch_world_warm).
Proof.
  apply (DownloadBaseSystem_warm_cache (mirror_host mirror0) fetch_builder); by vm_compute.
Defined.

Lemma goroutines_descriptors_witness :
  let c := run_sched (mirror_host mirror0) fetch_builder sched_all_open (init fetch_world) in
  handles (c_world c) = handles fetch_world ⊎ held_all opts0 (c_tasks c) /\
  Forall (fun t => held opts0 t ⊆ handles (c_world c)) (c_tasks c) /\
  (finished c = true -> handles (c_world c) = handles fetch_world).
Proof.
  apply (goroutines_descriptors (mirror_host mirror0) fetch_builder fetch_world).
  apply run_sched_reachable, reach_init.
Defined.

Lemma descriptors_bounded_witness :
  let c := run_sched (mirror_host mirror0) fetch_builder sched_all_open (init fetch_world) in
  size (handles (c_world c)) <= size (handles fetch_world) + 6.
Proof.
  apply (descriptors_bounded (mirror_host mirror0) fetch_builder fetch_world).
  apply run_sched_reachable, reach_init.
Defined.

(** The bound is reached: when the three goroutines have their response
    and none has returned, six descriptors are open, the three cache
    files and the three bodies; after the run none is. *)
Example descriptors_all_open :
  let H := mirror_host mirror0 in
  let c := run_sched H fetch_builder sched_all_open (init fetch_world) in
  size (handles (c_world c)) = 6 /\
  map (fun p => multiplicity (HFile (mkFile (cache_file opts0 p) true)) (handles (c_world c)))
      basePackages = [1; 1; 1] /\
  map (fun p => multiplicity (HBody (pkg_url opts0 p)) (handles (c_world c)))
      basePackages = [1; 1; 1] /\
  size (handles (DownloadBaseSystem H fetch_builder sched_all_open fetch_world).2) = 0.
Proof. by vm_compute. Qed.

Lemma goroutines_prefix_witness :
  let c := run_sched (mirror_host mirror0) fetch_builder [Main; Main; Task 0; Main] (init fetch_world) in
  map t_pkg (c_tasks c) `prefix_of` to_fetch opts0 (fs (ensure_dir opts0 fetch_world).2) /\
  Forall (fun t => t_file t = cache_file opts0 (t_pkg t)) (c_tasks c) /\
  (finished c = true -> map t_pkg (c_tasks c) = to_fetch opts0 (fs (ensure_dir opts0 fetch_world).2)).
Proof.
  apply (goroutines_prefix (mirror_host mirror0) fetch_builder fetch_world).
  - apply run_sched_reachable, reach_init.
  - by vm_compute.
Defined.

Lemma goroutines_isolated_witness :
  let H := mirror_host mirror0 in
  let c := run_fair H fetch_builder 15 (init fetch_world) in
  let t := mkTask "ports.txz" (cache_file opts0 "ports.txz") (TDone (Some (ErrNew "unexpected EOF"))) in
  exists err w',
    t_pc t = TDone err /\
    download H fetch_builder (t_pkg t) (t_file t) (ensure_dir opts0 fetch_world).2 = (res_of err, w') /\
    files (fs (c_world c)) !! t_file t = files (fs w') !! t_file t.
Proof.
  apply (goroutines_isolated (mirror_host mirror0) fetch_builder fetch_world).
  - apply run_fair_reachable, reach_init.
  - by vm_compute.
  - by vm_compute.
  - apply (list_elem_of_lookup_2 _ 2). by vm_compute.
Defined.

Lemma failed_download_skipped_witness :
  let r := DownloadBaseSystem (mirror_host mirror0) fetch_builder sched0 fetch_world in
  is_ok r.1 = false /\
  files (fs r.2) !! cache_file opts0 "ports.txz" = Some "POR" /\
  "ports.txz" ∉ to_fetch opts0 (fs r.2).
Proof.
  apply (failed_download_skipped (mirror_host mirror0) fetch_builder sched0 fetch_world
           (ensure_dir opts0 fetch_world).2 "ports.txz" (ErrNew "unexpected EOF")).
  - by vm_compute.
  - apply (list_elem_of_lookup_2 _ 2). by vm_compute.
  - by vm_compute.
Defined.

Lemma download_ignores_status_witness :
  exists w', download (mirror_host mirror0) fetch_builder "lib32.txz" (cache_file opts0 "lib32.txz")
               (ensure_dir opts0 fetch_world).2 = (Ok tt, w') /\
             files (fs w') !! cache_file opts0 "lib32.txz" = Some "not found".
Proof.
  apply (download_ignores_status (mirror_host mirror0) fetch_builder "lib32.txz"
           (ensure_dir opts0 fetch_world).2 404 "not found"); by vm_compute.
Defined.

(** Which error [DownloadBaseSystem] returns depends on the
    schedule when more than one goroutine fails: with a mirror that does
    not answer for [base.txz] and breaks off [ports.txz], the schedule
    that runs the goroutines in order returns the first error and the
    one that lets the last goroutine finish first returns the other. *)
Example DownloadBaseSystem_error_depends_on_schedule :
  let H := mirror_host (delete (pkg_url opts0 "base.txz") mirror0) in
  let b := mkBuilder (Wrap H) opts0 in
  (DownloadBaseSystem H b [] fetch_world).1 = Err (ErrURL "Get" (pkg_url opts0 "base.txz")) /\
  (DownloadBaseSystem H b sched_last_first fetch_world).1 = Err (ErrNew "unexpected EOF").
Proof. by vm_compute. Qed.

(** The run of the example, end to end: the page of the 404 answer is
    cached as [lib32.txz], the partial [ports.txz] stays. *)
Example DownloadBaseSystem_example :
  let r := DownloadBaseSystem (mirror_host mirror0) fetch_builder sched0 fetch_world in
  r.1 = Err (ErrNew "unexpected EOF") /\
  map (fun p => files (fs r.2) !! cache_file opts0 p) basePackages =
    [Some "BASE"; Some "not found"; Some "POR"] /\
  trace r.2 = map (fun p => EvGet (pkg_url opts0 p)) ["base.txz"; "lib32.txz"; "ports.txz"].
Proof. by vm_compute. Qed.
