(* ===== verification/FetchOrder.v ===== *)
(** * FetchOrder: which error [Wait] returns

  [DownloadBaseSystem] of [src/build.go] returns [g.Wait()] (line 110):
  the error of the goroutine that was the first to return one.  Which
  goroutine that is depends on the schedule.  This file makes the order
  explicit: [full_sched] is the whole schedule of a run (the schedule
  given, then the threads [run_fair] picks), [returns] the goroutines
  that returned along a schedule, in the order they did, each with what
  it returned.  The method returns the first error of that list
  ([Wait_first_error]); the list holds what the goroutines are found to
  have returned in the end, and nothing else. *)

From Stdlib Require Import Lia.
From stdpp Require Import base gmap gmultiset strings list.
From S2P Require Import Prelude.
From S2P Require Import Host.
From S2P Require Import HostFacts.
From S2P Require Import Options.
From S2P Require Import Fetch.
From S2P Require Import FetchInv.

(** The thread [fair_step] lets move. *)
Definition fair_tid (H : Host) (b : Builder) (c : config) : tid :=
  match step H b Main c with
  | Some _ => Main
  | None =>
      match list_find (fun t => is_done t = false) (c_tasks c) with
      | Some (n, _) => Task n
      | None => Main
      end
  end.

(** The schedule [run_fair] follows. *)
Fixpoint fair_sched (H : Host) (b : Builder) (fuel : nat) (c : config) : list tid :=
  match fuel with
  | 0 => []
  | S fuel' =>
      match fair_step H b c with
      | Some c' => fair_tid H b c :: fair_sched H b fuel' c'
      | None => []
      end
  end.

(** The whole schedule of a run of the method. *)
Definition full_sched (H : Host) (b : Builder) (sched : list tid) (w : World) : list tid :=
  let c1 := run_sched H b sched (init w) in
  sched ++ fair_sched H b (measure c1) c1.

(** The goroutine that returns in the step of thread [i] from [c], with
    what it returns. *)
Definition returned (H : Host) (b : Builder) (i : tid) (c : config) :
    option (nat * option error) :=
  match i with
  | Main => None
  | Task n =>
      match c_tasks c !! n with
      | Some t =>
          if is_done t then None
          else match (task_step H b t (c_world c)).1 with
               | TDone err => Some (n, err)
               | _ => None
               end
      | None => None
      end
  end.

(** The returns of the goroutines along a schedule, in the order they
    happen. *)
Fixpoint returns (H : Host) (b : Builder) (sched : list tid) (c : config) :
    list (nat * option error) :=
  match sched with
  | [] => []
  | i :: sched' =>
      match step H b i c with
      | Some c' => option_list (returned H b i c) ++ returns H b sched' c'
      | None => returns H b sched' c
      end
  end.

(** The first error in a list of returns. *)
Definition first_error (l : list (nat * option error)) : option error :=
  head (omap snd l).

(** * Theorems *)

Section order.
Context (H : Host) (b : Builder).

(** ** The schedule of a run *)

Lemma fair_step_tid c : fair_step H b c = step H b (fair_tid H b c) c.
Proof.
  unfold fair_step, fair_tid. destruct (step H b Main c) eqn:Hm; [done|].
  destruct (list_find _ _) as [[n t]|]; [done|]. by rewrite Hm.
Qed.

Lemma run_fair_sched fuel c : run_fair H b fuel c = run_sched H b (fair_sched H b fuel c) c.
Proof.
  revert c. induction fuel as [|fuel IH]; intros c; simpl; [done|].
  destruct (fair_step H b c) as [c'|] eqn:Hf; [|done]. simpl.
  by rewrite <-fair_step_tid, Hf.
Qed.

Lemma run_sched_app s1 s2 c :
  run_sched H b (s1 ++ s2) c = run_sched H b s2 (run_sched H b s1 c).
Proof. revert c. induction s1 as [|i s1 IH]; intros c; simpl; [done|]. by case_match. Qed.

(** A run of the method is the run of its whole schedule. *)
Lemma DownloadBaseSystem_full sched w :
  DownloadBaseSystem H b sched w =
    (res_of (result (run_sched H b (full_sched H b sched w) (init w))),
     c_world (run_sched H b (full_sched H b sched w) (init w))).
Proof. unfold DownloadBaseSystem, full_sched. by rewrite run_sched_app, <-run_fair_sched. Qed.

(** ** The error of the group *)

(** A step records the error of the goroutine that returns in it, unless
    an error is recorded. *)
Lemma step_err i c c' :
  step H b i c = Some c' ->
  c_err c' = errgroup.record (returned H b i c ≫= snd) (c_err c).
Proof.
  destruct i as [|n]; simpl.
  - unfold main_step. repeat case_match; intros [= <-]; simpl; by destruct (c_err c).
  - destruct (c_tasks c !! n) as [t|]; [|done]. destruct (is_done t); [done|].
    destruct (task_step H b t (c_world c)) as [pc w']. intros [= <-]. simpl.
    by destruct pc, (c_err c).
Qed.

Lemma first_error_app l1 l2 :
  first_error (l1 ++ l2) = errgroup.record (first_error l2) (first_error l1).
Proof.
  unfold first_error. rewrite omap_app. by destruct (omap snd l1).
Qed.

(** The error of the group after a schedule: the one it had, or else the
    first that a goroutine returned. *)
Lemma run_sched_err sched c :
  c_err (run_sched H b sched c) =
    errgroup.record (first_error (returns H b sched c)) (c_err c).
Proof.
  revert c. induction sched as [|i sched IH]; intros c; simpl; [by destruct (c_err c)|].
  destruct (step H b i c) as [c'|] eqn:Hs; [|apply IH].
  rewrite IH, (step_err i c c' Hs), first_error_app.
  destruct (returned H b i c) as [[n [e|]]|], (c_err c); try done.
Qed.

(** ** The list of returns is faithful *)

(** A goroutine that has returned stays as it is. *)
Lemma step_keeps_done i c c' n t :
  step H b i c = Some c' -> c_tasks c !! n = Some t -> is_done t = true ->
  c_tasks c' !! n = Some t.
Proof.
  intros Hs Hn Hd. destruct i as [|m]; simpl in Hs.
  - unfold main_step, errgroup.Go in Hs. repeat case_match; simplify_eq/=; try done.
    by apply lookup_app_l_Some.
  - destruct (c_tasks c !! m) as [t'|] eqn:Hm; [|done].
    destruct (is_done t') eqn:Hd'; [done|]. destruct (task_step _ _ _ _). simplify_eq/=.
    rewrite list_lookup_insert_ne; [done|]. intros ->. congruence.
Qed.

Lemma run_sched_keeps_done sched c n t :
  c_tasks c !! n = Some t -> is_done t = true ->
  c_tasks (run_sched H b sched c) !! n = Some t.
Proof.
  revert c. induction sched as [|i sched IH]; intros c Hn Hd; simpl; [done|].
  destruct (step H b i c) as [c'|] eqn:Hs; [|by apply IH].
  apply IH; [|done]. by eapply step_keeps_done.
Qed.

(** The goroutine of a return is found returned after the step. *)
Lemma returned_after i c c' n r :
  step H b i c = Some c' -> returned H b i c = Some (n, r) ->
  exists t, c_tasks c' !! n = Some t /\ t_pc t = TDone r /\
            exists t0, c_tasks c !! n = Some t0 /\ is_done t0 = false.
Proof.
  destruct i as [|m]; simpl; [done|].
  destruct (c_tasks c !! m) as [t|] eqn:Hm; [|done]. destruct (is_done t) eqn:Hd; [done|].
  destruct (task_step H b t (c_world c)) as [pc w']. intros [= <-] Hr. simpl in *.
  destruct pc; simplify_eq/=. eexists. split; [|split; [|by eauto]].
  - apply list_lookup_insert_eq. by eapply lookup_lt_Some.
  - done.
Qed.

(** A goroutine found returned after a step returned in that step or had
    returned before. *)
Lemma returned_before i c c' n t r :
  step H b i c = Some c' -> c_tasks c' !! n = Some t -> t_pc t = TDone r ->
  returned H b i c = Some (n, r) \/ c_tasks c !! n = Some t.
Proof.
  intros Hs Hn Hr. destruct i as [|m]; simpl in *.
  - right. unfold main_step, errgroup.Go in Hs. repeat case_match; simplify_eq/=; try done.
    apply lookup_app_Some in Hn as [?|[_ Hn]]; [done|].
    apply list_lookup_singleton_Some in Hn as [_ <-]. done.
  - destruct (c_tasks c !! m) as [t'|] eqn:Hm; [|done].
    destruct (is_done t') eqn:Hd'; [done|].
    destruct (task_step H b t' (c_world c)) as [pc w']. simplify_eq/=.
    destruct (decide (n = m)) as [->|Hne]; [|right; by rewrite list_lookup_insert_ne in Hn].
    left. rewrite list_lookup_insert_eq in Hn by by eapply lookup_lt_Some.
    by simplify_eq/=.
Qed.

Lemma returns_sound sched c n r :
  (n, r) ∈ returns H b sched c ->
  (exists t, c_tasks (run_sched H b sched c) !! n = Some t /\ t_pc t = TDone r) /\
  ~ (exists t, c_tasks c !! n = Some t /\ is_done t = true).
Proof.
  revert c. induction sched as [|i sched IH]; intros c; simpl; [by intros ?%elem_of_nil|].
  destruct (step H b i c) as [c'|] eqn:Hs; [|apply IH].
  intros [Hin|Hin]%elem_of_app.
  - destruct (returned H b i c) as [[n' r']|] eqn:Hr; [|by apply elem_of_nil in Hin].
    apply list_elem_of_singleton in Hin as [= <- <-].
    destruct (returned_after i c c' n r Hs Hr) as (t & Hn & Hpc & t0 & Hn0 & Hd0). split.
    + exists t. split; [|done]. apply run_sched_keeps_done; [done|].
      unfold is_done. by rewrite Hpc.
    + intros (t1 & ? & ?). congruence.
  - destruct (IH c' Hin) as [Ht Hnd]. split; [done|]. intros (t & Hn & Hd). apply Hnd.
    exists t. split; [|done]. by eapply step_keeps_done.
Qed.

Lemma returns_complete sched c n t r :
  c_tasks (run_sched H b sched c) !! n = Some t -> t_pc t = TDone r ->
  (n, r) ∈ returns H b sched c \/ c_tasks c !! n = Some t.
Proof.
  revert c. induction sched as [|i sched IH]; intros c; simpl; [by right|].
  destruct (step H b i c) as [c'|] eqn:Hs; [|apply IH]. intros Hn Hr.
  destruct (IH c' Hn Hr) as [Hin|Hn']; [left; apply elem_of_app; by right|].
  destruct (returned_before i c c' n t r Hs Hn' Hr) as [Hret|?]; [|by right].
  left. rewrite Hret. apply elem_of_app. left. by apply list_elem_of_singleton.
Qed.

Lemma returns_NoDup sched c : NoDup (map fst (returns H b sched c)).
Proof.
  revert c. induction sched as [|i sched IH]; intros c; simpl; [constructor|].
  destruct (step H b i c) as [c'|] eqn:Hs; [|apply IH].
  rewrite fmap_app. apply NoDup_app. split_and!; [|intros n Hn|apply IH].
  { destruct (returned H b i c); simpl; [apply NoDup_singleton|constructor]. }
  destruct (returned H b i c) as [[n' r']|] eqn:Hr; [|by apply elem_of_nil in Hn].
  apply list_elem_of_singleton in Hn as ->. simpl.
  intros ([n r] & -> & [_ Hnd]%returns_sound)%list_elem_of_fmap. apply Hnd.
  destruct (returned_after i c c' n r' Hs Hr) as (t & Hn & Hpc & _).
  exists t. split; [done|]. unfold is_done. by rewrite Hpc.
Qed.

(** C5: [g.Wait()] returns the first error in the order of time: along
    the whole schedule of a run of [DownloadBaseSystem], the goroutines
    return one after the other; the method returns the error of the first
    of them that returned one, whatever the goroutines behind it came
    to, and no error when none did (the error of [os.Mkdir] when the
    cache directory could not be made).  The list of returns is that of
    the goroutines as they are in the end, each once: every goroutine
    started has returned when the method does. *)
Theorem Wait_first_error sched w :
  let full := full_sched H b sched w in
  let c := run_sched H b full (init w) in
  (DownloadBaseSystem H b sched w).1 =
    res_of (errgroup.record (first_error (returns H b full (init w)))
                            (err_of (ensure_dir (opts b) w).1)) /\
  NoDup (map fst (returns H b full (init w))) /\
  (forall n r, (n, r) ∈ returns H b full (init w) <->
               exists t, c_tasks c !! n = Some t /\ t_pc t = TDone r) /\
  Forall (fun t => is_done t = true) (c_tasks c).
Proof.
  intros full c. assert (reachable H b w c /\ finished c = true) as [Hr Hf].
  { subst c full. unfold full_sched. rewrite run_sched_app, <-run_fair_sched.
    split; [|by apply run_fair_finished].
    apply run_fair_reachable, run_sched_reachable, reach_init. }
  split_and!; [|apply returns_NoDup| |by eapply finished_done].
  - rewrite DownloadBaseSystem_full. fold full c. simpl.
    pose proof (run_sched_err full (init w)) as He. fold c in He. simpl in He.
    destruct (ensure_dir (opts b) w) as [[[]|e] w1] eqn:Hens; simpl.
    + destruct (finished_running H b w w1 c Hr Hf Hens) as [_ Hm].
      unfold result. by rewrite Hm, He.
    + by rewrite (finished_failed H b w c e w1 Hr Hf Hens).
  - intros n r. split; [by intros [? _]%returns_sound|].
    intros (t & Hn & Hpc). by destruct (returns_complete full (init w) n t r Hn Hpc).
Qed.

End order.

(** The run of the examples in which the last goroutine is the first to
    return: it returns the error of the broken transfer, and that is the
    error of the method although the first goroutine fails as well. *)
Example Wait_first_error_example :
  let H := mirror_host (delete (pkg_url opts0 "base.txz") mirror0) in
  let b := mkBuilder (Wrap H) opts0 in
  returns H b (full_sched H b sched_last_first fetch_world) (init fetch_world) =
    [(2, Some (ErrNew "unexpected EOF")); (0, Some (ErrURL "Get" (pkg_url opts0 "base.txz")));
     (1, None)] /\
  returns H b (full_sched H b [] fetch_world) (init fetch_world) =
    [(0, Some (ErrURL "Get" (pkg_url opts0 "base.txz"))); (1, None);
     (2, Some (ErrNew "unexpected EOF"))].
Proof. by vm_compute. Qed.
