(* ===== verification/FetchRerun.v ===== *)
(** * FetchRerun: the fetcher run again

  [DownloadBaseSystem] of [src/build.go] (lines 62-110) decides what to
  fetch by the presence of the cache files (line 73), and its closure
  creates the file (line 78) before it sends the request.  So whatever the
  first run came to, the run after it finds a file for every package whose
  file could be created, fetched whole, cut short or empty, and fetches
  nothing; a package whose file could not be created is tried again and
  fails the same way without a request.  The second run leaves the world
  as it found it, and it succeeds where the cache directory is a
  directory, also after a run that failed. *)

From stdpp Require Import base gmap gmultiset strings list.
From S2P Require Import Prelude.
From S2P Require Import Host.
From S2P Require Import HostFacts.
From S2P Require Import Options.
From S2P Require Import Fetch.
From S2P Require Import FetchInv.
From S2P Require Import FetchRun.

(** * Theorems *)

Section outcome.
Context (H : Host) (o : Opts).

(** ** The cache files and the cache directory *)

(** The cache file of a package lies in the cache directory. *)
Lemma cache_file_dirname p : p ∈ basePackages -> dirname (cache_file o p) = Some (tmp_dir o).
Proof.
  intros Hp. unfold cache_file, tmp_dir. rewrite <-(app_assoc_s "/tmp/" (Release o)).
  apply dirname_app. revert p Hp. apply Forall_forall. unfold basePackages. by repeat constructor.
Qed.

(** Where the cache directory is a directory every missing cache file can
    be created. *)
Lemma to_fetch_creatable f p :
  is_dir (tmp_dir o) f = true -> p ∈ to_fetch o f -> creatable (cache_file o p) f = true.
Proof.
  intros Hd [Hm Hp]%list_elem_of_filter. apply creatable_spec. split.
  - unfold missing, fs_exists in Hm. by apply negb_true_iff, orb_false_iff in Hm as [_ ?].
  - unfold parent_ok, is_dir in *. rewrite cache_file_dirname, Hd by done. apply orb_true_r.
Qed.

(** ** What a download leaves *)

(** The closure leaves a file exactly when it could create it. *)
Lemma fetch_outcome_file f p :
  is_Some (fetch_outcome H o f p).2 <-> creatable (cache_file o p) f = true.
Proof.
  rewrite creatable_spec. unfold fetch_outcome.
  destruct (is_dir _ _), (parent_ok _ _); simpl; try by split; [intros [? [=]]|intros [[=] [=]]].
  split; [done|]. intros _. repeat case_match; by eexists.
Qed.

(** A closure that cannot create its file fails and leaves nothing. *)
Lemma fetch_outcome_refused f p :
  creatable (cache_file o p) f = false -> exists e, fetch_outcome H o f p = (Some e, None).
Proof.
  unfold creatable, fetch_outcome. destruct (is_dir _ _); [by eexists|].
  destruct (parent_ok _ _); [done|by eexists].
Qed.

Lemma fetch_files_refused f l :
  Forall (fun p => creatable (cache_file o p) f = false) l -> fetch_files H o f l = files f.
Proof.
  induction 1 as [|p l Hp _ IH]; simpl; [done|].
  by destruct (fetch_outcome_refused f p Hp) as [e ->].
Qed.

(** The downloads remove no file. *)
Lemma fetch_files_is_Some f l q :
  is_Some (files f !! q) -> is_Some (fetch_files H o f l !! q).
Proof.
  intros Hq. induction l as [|p l IH]; simpl; [done|].
  case_match; [|done]. rewrite lookup_insert_is_Some. destruct (decide (cache_file o p = q)); auto.
Qed.

Lemma fetch_fs_exists f q : fs_exists q f = true -> fs_exists q (fetch_fs H o f) = true.
Proof.
  unfold fs_exists, is_file, is_dir. simpl.
  intros [Hf%bool_decide_eq_true| ->]%orb_true_iff; [|apply orb_true_r].
  by rewrite bool_decide_eq_true_2 by by apply fetch_files_is_Some.
Qed.

(** The downloads make no directory, so what can be created after them
    could be created before. *)
Lemma creatable_fetch_fs f q : creatable q (fetch_fs H o f) = creatable q f.
Proof. done. Qed.

(** ** What the next run finds *)

(** After the downloads the cache file of a package is missing exactly
    when it was missing before and could not be created. *)
Lemma fetch_fs_missing f p :
  p ∈ basePackages ->
  missing o (fetch_fs H o f) p = true <->
  missing o f p = true /\ creatable (cache_file o p) f = false.
Proof.
  intros Hp. destruct (missing o f p) eqn:Hm.
  - assert (p ∈ to_fetch o f) as Hin by by apply list_elem_of_filter.
    pose proof (fetch_files_lookup H o f _ p Hin (missing_lookup o f p Hm)) as Hl.
    pose proof (fetch_outcome_file f p) as Hc. rewrite <-Hl in Hc.
    unfold missing, fs_exists, is_file, is_dir in *. simpl.
    apply negb_true_iff, orb_false_iff in Hm as [_ ->].
    rewrite orb_false_r, negb_true_iff, bool_decide_eq_false, Hc.
    destruct (creatable _ _); intuition congruence.
  - apply negb_false_iff in Hm. unfold missing. rewrite fetch_fs_exists by done.
    split; [done|by intros [? _]].
Qed.

(** The packages the next run starts a goroutine for are those whose file
    could not be created. *)
Lemma to_fetch_again f :
  to_fetch o (fetch_fs H o f) =
  filter (fun p => creatable (cache_file o p) f = false) (to_fetch o f).
Proof.
  unfold to_fetch. rewrite list_filter_filter. apply list_filter_iff_in.
  intros p Hp. rewrite (fetch_fs_missing f p Hp). tauto.
Qed.

(** The next run leaves the files as they are: a closure that could not
    create its file cannot now. *)
Lemma fetch_fs_idemp f : fetch_fs H o (fetch_fs H o f) = fetch_fs H o f.
Proof.
  unfold fetch_fs at 1. rewrite fetch_files_refused; [done|]. apply Forall_forall.
  intros p [Hm Hp]%list_elem_of_filter. apply fetch_fs_missing in Hm as [_ Hc]; [|done].
  by rewrite creatable_fetch_fs.
Qed.

(** The next run sends no request. *)
Lemma requested_again f :
  filter (fun p => requested H o (fetch_fs H o f) p = true) (to_fetch o (fetch_fs H o f)) = [].
Proof.
  apply filter_nil_iff, Forall_forall.
  intros p [Hm Hp]%list_elem_of_filter [Hc _]%andb_true_iff.
  apply fetch_fs_missing in Hm as [_ Hn]; [|done]. rewrite creatable_fetch_fs in Hc. congruence.
Qed.

End outcome.

Section again.
Context (H : Host) (b : Builder).

(** The run after the downloads succeeds exactly when every missing file
    could be created: a file that could not be created fails again. *)
Lemma again_ok_iff f :
  Forall (fun p => (fetch_outcome H (opts b) (fetch_fs H (opts b) f) p).1 = None)
         (to_fetch (opts b) (fetch_fs H (opts b) f)) <->
  Forall (fun p => creatable (cache_file (opts b) p) f = true) (to_fetch (opts b) f).
Proof.
  rewrite to_fetch_again, !Forall_forall. split.
  - intros Hall p Hp. destruct (creatable (cache_file (opts b) p) f) eqn:Hc; [done|].
    destruct (fetch_outcome_refused H (opts b) (fetch_fs H (opts b) f) p) as [e He];
      [by rewrite creatable_fetch_fs|].
    specialize (Hall p (proj2 (list_elem_of_filter _ _ _) (conj Hc Hp))). by rewrite He in Hall.
  - intros Hall p [Hc Hp]%list_elem_of_filter. by rewrite (Hall p Hp) in Hc.
Qed.

(** Once the cache directory is found or made it is there. *)
Lemma ensure_dir_ok w w1 :
  ensure_dir (opts b) w = (Ok tt, w1) -> fs_exists (tmp_dir (opts b)) (fs w1) = true.
Proof.
  unfold ensure_dir, bind, utils.Exists, gets, os.Mkdir, lift_fs, fs_mkdir.
  destruct (fs_exists _ (fs w)) eqn:He; simpl; [by intros [= <-]|]. rewrite He.
  destruct (parent_ok _ _); [|done]. intros [= <-]. unfold fs_exists, is_dir. simpl.
  rewrite (bool_decide_eq_true_2 _); [apply orb_true_r|set_solver].
Qed.

(** What a run of the fetcher comes to, in one statement. *)
Lemma DownloadBaseSystem_run sched w w1 :
  ensure_dir (opts b) w = (Ok tt, w1) ->
  exists r w' evs,
    DownloadBaseSystem H b sched w = (r, w') /\
    fs w' = fetch_fs H (opts b) (fs w1) /\ pool w' = pool w1 /\ stdout w' = stdout w1 /\
    handles w' = handles w /\ trace w' = trace w1 ++ evs /\
    evs ≡ₚ map (fun p => EvGet (pkg_url (opts b) p))
             (filter (fun p => requested H (opts b) (fs w1) p = true)
                     (to_fetch (opts b) (fs w1))) /\
    (r = Ok tt <->
     Forall (fun p => (fetch_outcome H (opts b) (fs w1) p).1 = None) (to_fetch (opts b) (fs w1))).
Proof.
  intros He. destruct (DownloadBaseSystem_final H b sched w) as (c & Hr & Hf & ->).
  destruct (finished_trace H b w w1 c Hr Hf He) as (evs & Htr & Hevs).
  destruct (finished_frame H b w w1 c Hr Hf He) as [Hp Hs].
  exists (res_of (result c)), (c_world c), evs.
  split_and!; [done|by eapply finished_fs|done|done|by eapply finished_handles|done|done|].
  rewrite <-(finished_ok_iff H b w w1 c Hr Hf He). by destruct (result c).
Qed.

(** Where the cache directory is a directory a run leaves a cache file
    for every package, whatever it returns. *)
Lemma DownloadBaseSystem_warms sched w w1 :
  ensure_dir (opts b) w = (Ok tt, w1) -> is_dir (tmp_dir (opts b)) (fs w1) = true ->
  fs_exists (tmp_dir (opts b)) (fs (DownloadBaseSystem H b sched w).2) = true /\
  to_fetch (opts b) (fs (DownloadBaseSystem H b sched w).2) = [].
Proof.
  intros He Hd. destruct (DownloadBaseSystem_run sched w w1 He) as (r & w' & evs & -> & Hfs & _).
  cbn [snd]. rewrite Hfs. split; [by eapply fetch_fs_exists, ensure_dir_ok|].
  rewrite to_fetch_again. apply filter_nil_iff, Forall_forall. intros p Hp.
  by rewrite to_fetch_creatable.
Qed.

(** C11: [DownloadBaseSystem] is idempotent on the world: the run after
    a run that found or made the cache directory, under any schedule and
    whatever the first run returned, leaves the files, the pool, the
    output, the trace and the descriptors as it found them -- it sends no
    request; it succeeds exactly when every cache file that was missing
    could be created by the first run, so it succeeds wherever the cache
    directory is a directory, also after a first run that failed. *)
Theorem DownloadBaseSystem_idempotent s1 s2 w w1 :
  ensure_dir (opts b) w = (Ok tt, w1) ->
  let w2 := (DownloadBaseSystem H b s1 w).2 in
  (DownloadBaseSystem H b s2 w2).2 = w2 /\
  ((DownloadBaseSystem H b s2 w2).1 = Ok tt <->
   Forall (fun p => creatable (cache_file (opts b) p) (fs w1) = true)
          (to_fetch (opts b) (fs w1))) /\
  (is_dir (tmp_dir (opts b)) (fs w1) = true ->
   DownloadBaseSystem H b s2 w2 = (Ok tt, w2)).
Proof.
  intros He w2.
  destruct (DownloadBaseSystem_run s1 w w1 He) as (r & w' & evs & Hrun & Hfs & _).
  subst w2. rewrite Hrun. cbn [fst snd].
  assert (ensure_dir (opts b) w' = (Ok tt, w')) as He2.
  { apply ensure_dir_exists. rewrite Hfs. by eapply fetch_fs_exists, ensure_dir_ok. }
  destruct (DownloadBaseSystem_run s2 w' w' He2)
    as (r2 & w'' & evs2 & Hrun2 & Hfs2 & Hp2 & Hs2 & Hh2 & Ht2 & Hev2 & Hok2).
  rewrite Hrun2. cbn [fst snd].
  rewrite Hfs in Hfs2, Hev2, Hok2. rewrite fetch_fs_idemp, <-Hfs in Hfs2.
  rewrite requested_again in Hev2. apply Permutation_nil_r in Hev2 as ->.
  rewrite app_nil_r in Ht2. rewrite again_ok_iff in Hok2.
  assert (w'' = w') as -> by by apply world_eq.
  split_and!; [done..|]. intros Hd. f_equal. apply Hok2, Forall_forall.
  intros p Hp. by apply to_fetch_creatable.
Qed.

End again.

(** The mirror of the examples breaks off [ports.txz], so the first run
    fails; the second finds the partial file and succeeds. *)
Lemma DownloadBaseSystem_idempotent_witness :
  let H := mirror_host mirror0 in
  let w1 := (ensure_dir opts0 fetch_world).2 in
  let w2 := (DownloadBaseSystem H fetch_builder sched0 fetch_world).2 in
  (DownloadBaseSystem H fetch_builder sched_last_first w2).2 = w2 /\
  ((DownloadBaseSystem H fetch_builder sched_last_first w2).1 = Ok tt <->
   Forall (fun p => creatable (cache_file opts0 p) (fs w1) = true) (to_fetch opts0 (fs w1))) /\
  (is_dir (tmp_dir opts0) (fs w1) = true ->
   DownloadBaseSystem H fetch_builder sched_last_first w2 = (Ok tt, w2)).
Proof.
  apply (DownloadBaseSystem_idempotent (mirror_host mirror0) fetch_builder sched0
           sched_last_first fetch_world).
  apply run_eq. by vm_compute.
Defined.

(** The two runs on the machine of the examples. *)
Example DownloadBaseSystem_second_run :
  let H := mirror_host mirror0 in
  let r1 := DownloadBaseSystem H fetch_builder sched0 fetch_world in
  r1.1 = Err (ErrNew "unexpected EOF") /\
  (DownloadBaseSystem H fetch_builder sched0 r1.2).1 = Ok tt /\
  files (fs r1.2) !! cache_file opts0 "ports.txz" = Some "POR".
Proof. by vm_compute. Qed.
