(* ===== verification/FetchLive.v ===== *)
(** * FetchLive: the fetcher under schedules without end

  A schedule of [Fetch] is a finite list of choices, after which
  [DownloadBaseSystem] lets every thread run to its end.  Here the
  scheduler never hands over: a schedule is a function of time
  ([run_stream]), and the only assumption on it is fairness ([fair]): a
  thread that can move is chosen at some later moment.  Under every fair
  schedule the method returns ([fair_returns]); without fairness it need
  not ([unfair_never_returns]). *)

From stdpp Require Import base gmap strings list.
From Stdlib Require Import Lia.
From S2P Require Import Prelude.
From S2P Require Import Host.
From S2P Require Import HostFacts.
From S2P Require Import Trace.
From S2P Require Import Options.
From S2P Require Import Fetch.
From S2P Require Import FetchInv.
From S2P Require Import FetchRun.

(** ** Schedules without end *)

(** The machine after the first [n] choices of the schedule [s]; a choice
    that cannot move is skipped. *)
Fixpoint run_stream (H : Host) (b : Builder) (s : nat -> tid) (n : nat) (c : config) : config :=
  match n with
  | 0 => c
  | S n' =>
      let c' := run_stream H b s n' c in
      match step H b (s n') c' with
      | Some c'' => c''
      | None => c'
      end
  end.

(** The thread [i] can move. *)
Definition enabled (H : Host) (b : Builder) (i : tid) (c : config) : Prop :=
  is_Some (step H b i c).

(** A schedule is fair for a run when a thread that can move at some
    moment is chosen at that moment or later. *)
Definition fair (H : Host) (b : Builder) (s : nat -> tid) (c : config) : Prop :=
  forall n i, enabled H b i (run_stream H b s n c) -> exists m, n <= m /\ s m = i.

(** The first [n] choices of a schedule, as a list. *)
Definition prefix_of_stream (s : nat -> tid) (n : nat) : list tid := map s (seq 0 n).

(** Round robin over the method's thread and three goroutines, and the
    schedule that only ever chooses the method's thread. *)
Definition round_robin (n : nat) : tid :=
  match n mod 4 with
  | 0 => Main
  | S k => Task k
  end.

Definition only_main (n : nat) : tid := Main.

(** * Theorems *)

Section live.
Context (H : Host) (b : Builder).

Lemma run_stream_S s n c :
  run_stream H b s (S n) c =
    match step H b (s n) (run_stream H b s n c) with
    | Some c' => c'
    | None => run_stream H b s n c
    end.
Proof. done. Qed.

Lemma run_stream_prefix s n c :
  run_stream H b s n c = run_sched H b (prefix_of_stream s n) c.
Proof.
  unfold prefix_of_stream. induction n as [|n IH]; [done|].
  rewrite seq_S, map_app. simpl. rewrite IH. generalize (map s (seq 0 n)). clear IH.
  intros l. revert c. induction l as [|i l IH]; intros c; simpl.
  - by destruct (step H b (s n) c).
  - destruct (step H b i c); apply IH.
Qed.

Lemma run_stream_reachable w s n : reachable H b w (run_stream H b s n (init w)).
Proof. rewrite run_stream_prefix. apply run_sched_reachable, reach_init. Qed.

Lemma fair_step_enabled c c' : fair_step H b c = Some c' -> exists i, enabled H b i c.
Proof.
  unfold fair_step, enabled. destruct (step H b Main c) eqn:Hm; [by eauto|].
  destruct (list_find _ _) as [[n t]|]; [|done]. intros Hs. exists (Task n). by rewrite Hs.
Qed.

(** While the method has not returned some thread can move. *)
Lemma progress c : finished c = false -> exists i, enabled H b i c.
Proof. intros [c' Hc']%(fair_step_progress H b). by eapply fair_step_enabled. Qed.

Lemma run_stream_measure s n c : measure (run_stream H b s (S n) c) <= measure (run_stream H b s n c).
Proof.
  simpl. destruct (step H b (s n) _) as [c'|] eqn:Hs; [|done].
  apply step_measure in Hs. lia.
Qed.

(** A thread that can move and is chosen [k] choices later: by then the
    measure has gone down. *)
Lemma chosen_decreases s c i k n :
  s (n + k) = i -> enabled H b i (run_stream H b s n c) ->
  exists m, n < m /\ measure (run_stream H b s m c) < measure (run_stream H b s n c).
Proof.
  revert n. induction k as [|k IH]; intros n Hi [c' Hen].
  - exists (S n). split; [lia|]. simpl. rewrite Nat.add_0_r in Hi.
    rewrite Hi, Hen. by eapply step_measure.
  - destruct (step H b (s n) (run_stream H b s n c)) as [c''|] eqn:Hs.
    + exists (S n). split; [lia|]. simpl. rewrite Hs. by eapply step_measure.
    + destruct (IH (S n)) as (m & Hm & Hlt).
      * by rewrite <-Hi, Nat.add_succ_comm.
      * simpl. rewrite Hs. by exists c'.
      * exists m. split; [lia|]. simpl in Hlt. by rewrite Hs in Hlt.
Qed.

Lemma fair_finishes s c k n :
  fair H b s c -> measure (run_stream H b s n c) <= k ->
  exists m, finished (run_stream H b s m c) = true.
Proof.
  intros Hfair. revert n. induction k as [|k IH]; intros n Hk;
    (destruct (finished (run_stream H b s n c)) eqn:Hf; [by eauto|]);
    destruct (progress _ Hf) as [i Hen];
    destruct (Hfair n i Hen) as (m & Hm & Hi);
    destruct (chosen_decreases s c i (m - n) n) as (m' & _ & Hlt);
    try done; try (rewrite <-Hi; f_equal; lia); [lia|].
  apply (IH m'). lia.
Qed.

Lemma finished_stuck w c i : reachable H b w c -> finished c = true -> step H b i c = None.
Proof.
  intros Hr Hf. pose proof (finished_done H b w c Hr Hf) as Hd.
  destruct i as [|n]; simpl.
  - unfold main_step, finished in *. by destruct (c_main c).
  - destruct (c_tasks c !! n) as [t|] eqn:Hn; [|done].
    by rewrite (proj1 (Forall_lookup _ _) Hd n t Hn).
Qed.

Lemma run_stream_stuck w s n m :
  finished (run_stream H b s n (init w)) = true -> n <= m ->
  run_stream H b s m (init w) = run_stream H b s n (init w).
Proof.
  intros Hf. induction 1 as [|m Hle IH]; [done|]. simpl. rewrite IH.
  by rewrite (finished_stuck w _ _ (run_stream_reachable w s n) Hf).
Qed.

Lemma run_fair_stuck w c fuel :
  reachable H b w c -> finished c = true -> run_fair H b fuel c = c.
Proof.
  intros Hr Hf. destruct fuel as [|fuel]; [done|]. simpl. unfold fair_step.
  rewrite (finished_stuck w c Main Hr Hf).
  destruct (list_find _ _) as [[n t]|]; [|done]. by rewrite (finished_stuck w c _ Hr Hf).
Qed.

(** ** Under a fair schedule *)

(** C27: some thread can always move while the method has not returned:
    neither the loop nor [Wait] can block for ever, and the step that is
    possible brings the end nearer. *)
Theorem no_deadlock c :
  finished c = false ->
  exists i c', step H b i c = Some c' /\ measure c' < measure c.
Proof.
  intros [i [c' Hs]]%progress. exists i, c'. split; [done|]. by eapply step_measure.
Qed.

(** C6: under every fair schedule [DownloadBaseSystem] returns: there
    is a moment at which the method's thread has returned from [Wait];
    from then on nothing moves, and the result and the world are those
    the method gives for the choices made until then. *)
Theorem fair_returns s w :
  fair H b s (init w) ->
  exists n,
    finished (run_stream H b s n (init w)) = true /\
    (forall m, n <= m -> run_stream H b s m (init w) = run_stream H b s n (init w)) /\
    DownloadBaseSystem H b (prefix_of_stream s n) w =
      (res_of (result (run_stream H b s n (init w))), c_world (run_stream H b s n (init w))).
Proof.
  intros Hfair. destruct (fair_finishes s (init w) _ 0 Hfair (le_n _)) as [n Hn].
  exists n. split_and!; [done|by intros; apply run_stream_stuck|].
  unfold DownloadBaseSystem. rewrite <-run_stream_prefix.
  by rewrite (run_fair_stuck w) by auto using run_stream_reachable.
Qed.

(** Round robin over four threads is fair: the machine never has more
    than three goroutines. *)
Lemma round_robin_fair w : fair H b round_robin (init w).
Proof.
  intros n i Hen. unfold round_robin. destruct i as [|j].
  - exists (4 * n). split; [lia|]. by rewrite Nat.mul_comm, Nat.Div0.mod_mul.
  - assert (j < 3) as Hj.
    { pose proof (reachable_tasks_length H b w _ (run_stream_reachable w round_robin n)) as Hl.
      destruct Hen as [c' Hs]. simpl in Hs, Hl.
      destruct (c_tasks _ !! j) eqn:Hlk; [|done]. apply lookup_lt_Some in Hlk. lia. }
    exists (S j + n * 4). split; [lia|].
    by rewrite Nat.Div0.mod_add, Nat.mod_small by lia.
Qed.

End live.

(** ** Examples *)

Lemma no_deadlock_witness :
  exists i c', step (mirror_host mirror0) fetch_builder i (init fetch_world) = Some c' /\
               measure c' < measure (init fetch_world).
Proof. by apply (no_deadlock (mirror_host mirror0) fetch_builder (init fetch_world)). Defined.

Lemma fair_returns_witness :
  exists n,
    finished (run_stream (mirror_host mirror0) fetch_builder round_robin n (init fetch_world)) = true /\
    (forall m, n <= m ->
       run_stream (mirror_host mirror0) fetch_builder round_robin m (init fetch_world) =
       run_stream (mirror_host mirror0) fetch_builder round_robin n (init fetch_world)) /\
    DownloadBaseSystem (mirror_host mirror0) fetch_builder (prefix_of_stream round_robin n) fetch_world =
      (res_of (result (run_stream (mirror_host mirror0) fetch_builder round_robin n (init fetch_world))),
       c_world (run_stream (mirror_host mirror0) fetch_builder round_robin n (init fetch_world))).
Proof.
  apply (fair_returns (mirror_host mirror0) fetch_builder round_robin fetch_world),
    round_robin_fair.
Defined.

(** Fairness is needed: under the schedule that only ever chooses
    the method's thread the goroutines are started and never run, and
    the method waits for ever. *)
Example unfair_never_returns n :
  finished (run_stream (mirror_host mirror0) fetch_builder only_main n (init fetch_world)) = false.
Proof.
  assert (forall k, run_stream (mirror_host mirror0) fetch_builder only_main (5 + k) (init fetch_world)
                    = run_stream (mirror_host mirror0) fetch_builder only_main 5 (init fetch_world)) as Hk.
  { induction k as [|k IH]; [done|]. rewrite Nat.add_succ_r, run_stream_S, IH.
    by vm_compute. }
  destruct (decide (n < 5)) as [Hn|Hn].
  - do 5 (destruct n as [|n]; [by vm_compute|]). lia.
  - replace n with (5 + (n - 5)) by lia. rewrite Hk. by vm_compute.
Qed.
