(* ===== verification/FetchExtract.v ===== *)
(** * FetchExtract: what the extractor reads is what the fetcher stored

  [DownloadBaseSystem] and [ExtractBasePkgs] of [src/build.go] meet in the
  cache files: the first writes them (lines 84-107), the second opens and
  decodes them (line 117).  Here the two are put together: after a fetch
  that succeeded, the cache file of every package fetched holds the body
  the mirror served, whole, and [archiver.Open] on it decodes exactly
  those bytes; a package whose file was there before the fetch is
  extracted from what the file held, whatever that was; and after a fetch
  that failed the next fetch succeeds without a request, so the extractor
  is handed the empty or partial file the failed download left. *)

From stdpp Require Import base gmap strings list.
From S2P Require Import Prelude.
From S2P Require Import Host.
From S2P Require Import HostFacts.
From S2P Require Import Trace.
From S2P Require Import Options.
From S2P Require Import Extract.
From S2P Require Import Fetch.
From S2P Require Import FetchInv.
From S2P Require Import FetchRun.
From S2P Require Import FetchRerun.

(** ** Names for the statements *)

(** [archiver.Open] from the point where the bytes of the archive have
    been read. *)
Definition extract_data (H : Host) (source destination data : string) : M World unit :=
  modify (log (EvExtract source destination)) ;;
  match untar H data with
  | None => fail (ErrArchive source)
  | Some es => lift_fs (forM_ (fs_extract_entry (io_fail H) destination) es)
  end.

(** A host with the mirror of [mirror0] for the first two packages and a
    working one for the third, and the decoder of [archives0]. *)
Definition good_mirror : gmap string reply :=
  <[pkg_url opts0 "ports.txz" := Reply 200 "LIB32" None]> mirror0.

Definition fetch_extract_host : Host :=
  mkHost (http_parse null_host) (http_do (mirror_host good_mirror))
         (untar (archive_host archives0)) (proc null_host) (io_fail null_host).

(** * Theorems *)

Section fetch_extract.
Context (H : Host) (b : Builder).

(** A download without error stored the whole body of an answer. *)
Lemma fetch_outcome_ok f1 p :
  (fetch_outcome H (opts b) f1 p).1 = None ->
  exists status data,
    http_do H hc (pkg_url (opts b) p) = Reply status data None /\
    (fetch_outcome H (opts b) f1 p).2 = Some data.
Proof.
  unfold fetch_outcome. repeat case_match; simpl; try done. intros ->. eauto.
Qed.

(** The extractor on a file that is there: the file's bytes are decoded. *)
Lemma archiver_Open_file src dst data w :
  files (fs w) !! src = Some data ->
  archiver.Open H src dst w = extract_data H src dst data w.
Proof.
  intros Hf. unfold archiver.Open, extract_data, bind, modify. simpl.
  rewrite lift_fs_open_run. unfold fs_exists, is_file. simpl.
  rewrite Hf, bool_decide_eq_true_2 by done. simpl.
  rewrite lift_fs_run. unfold fs_read. simpl. rewrite Hf. simpl. by destruct w.
Qed.

(** The files of the cache after a fetch. *)
Lemma DownloadBaseSystem_cache sched w w1 p :
  ensure_dir (opts b) w = (Ok tt, w1) ->
  files (fs (DownloadBaseSystem H b sched w).2) !! cache_file (opts b) p =
    if bool_decide (p ∈ to_fetch (opts b) (fs w1))
    then (fetch_outcome H (opts b) (fs w1) p).2
    else files (fs w1) !! cache_file (opts b) p.
Proof.
  intros He. destruct (DownloadBaseSystem_final H b sched w) as (c & Hr & Hf & ->). simpl.
  rewrite (finished_files H b w w1 c) by done. case_bool_decide as Hp.
  - apply fetch_files_lookup; [done|].
    apply list_elem_of_filter in Hp as [Hm _]. by apply missing_lookup.
  - apply fetch_files_other. by intros (q & ->%(inj _) & Hq)%list_elem_of_fmap.
Qed.

(** C19: the fetcher and the extractor agree on the cache: after a fetch
    that succeeded, under every schedule, the cache file of a package that
    was fetched holds the whole body the mirror served for it, and the
    extractor run on that file decodes those bytes. *)
Theorem fetched_read_back sched w w1 p dst :
  ensure_dir (opts b) w = (Ok tt, w1) ->
  (DownloadBaseSystem H b sched w).1 = Ok tt ->
  p ∈ to_fetch (opts b) (fs w1) ->
  exists status data,
    http_do H hc (pkg_url (opts b) p) = Reply status data None /\
    files (fs (DownloadBaseSystem H b sched w).2) !! cache_file (opts b) p = Some data /\
    archiver.Open H (cache_file (opts b) p) dst (DownloadBaseSystem H b sched w).2 =
      extract_data H (cache_file (opts b) p) dst data (DownloadBaseSystem H b sched w).2.
Proof.
  intros He Hok Hp. pose proof (DownloadBaseSystem_cache sched w w1 p He) as Hc.
  rewrite bool_decide_eq_true_2 in Hc by done.
  destruct (DownloadBaseSystem_final H b sched w) as (c & Hr & Hf & Hrun).
  rewrite Hrun in *. simpl in *.
  assert (result c = None) as Hres by (by destruct (result c)).
  apply (finished_ok_iff H b w w1 c Hr Hf He) in Hres.
  apply (proj1 (Forall_forall _ _) Hres), fetch_outcome_ok in Hp as (status & data & Hdo & Ho).
  rewrite Ho in Hc. exists status, data. split_and!; [done..|]. by apply archiver_Open_file.
Qed.

(** A package whose cache file was there is extracted from what the file
    held before the fetch: the fetcher trusts the file by its presence. *)
Lemma cached_read_back sched w w1 p dst data :
  ensure_dir (opts b) w = (Ok tt, w1) ->
  files (fs w1) !! cache_file (opts b) p = Some data ->
  archiver.Open H (cache_file (opts b) p) dst (DownloadBaseSystem H b sched w).2 =
    extract_data H (cache_file (opts b) p) dst data (DownloadBaseSystem H b sched w).2.
Proof.
  intros He Hf. apply archiver_Open_file. rewrite (DownloadBaseSystem_cache sched w w1) by done.
  rewrite bool_decide_eq_false_2; [done|]. intros [Hm _]%list_elem_of_filter.
  apply missing_lookup in Hm. congruence.
Qed.

(** A download that failed after it created its file left the file
    empty, or holding the part of the body that had arrived when the
    transfer broke. *)
Lemma fetch_outcome_damaged f1 p e data :
  fetch_outcome H (opts b) f1 p = (Some e, Some data) ->
  data = "" \/ exists status, http_do H hc (pkg_url (opts b) p) = Reply status data (Some e).
Proof. unfold fetch_outcome. repeat case_match; intros [= <- <-]; eauto. Qed.

(** C25: a download that failed after [os.Create] is never repaired:
    the run fails and leaves the cache file, empty or with the part of the
    body that arrived; where the cache directory is a directory the next
    run of [DownloadBaseSystem], under any schedule, finds a file for
    every package, sends no request and succeeds; and [archiver.Open] is
    then handed the damaged file as the archive of the package. *)
Theorem damaged_archive_extracted s1 s2 w w1 p e data dst :
  ensure_dir (opts b) w = (Ok tt, w1) ->
  is_dir (tmp_dir (opts b)) (fs w1) = true ->
  p ∈ to_fetch (opts b) (fs w1) ->
  fetch_outcome H (opts b) (fs w1) p = (Some e, Some data) ->
  let w2 := (DownloadBaseSystem H b s1 w).2 in
  is_ok (DownloadBaseSystem H b s1 w).1 = false /\
  (data = "" \/ exists status, http_do H hc (pkg_url (opts b) p) = Reply status data (Some e)) /\
  DownloadBaseSystem H b s2 w2 = (Ok tt, w2) /\
  archiver.Open H (cache_file (opts b) p) dst w2 =
    extract_data H (cache_file (opts b) p) dst data w2.
Proof.
  intros He Hd Hp Ho w2.
  destruct (failed_download_skipped H b s1 w w1 p e data He Hp Ho) as (Hfail & Hdata & _).
  destruct (DownloadBaseSystem_warms H b s1 w w1 He Hd) as [Hex Hnil].
  split_and!; [done|by eapply fetch_outcome_damaged| |by apply archiver_Open_file].
  by apply DownloadBaseSystem_warm_cache.
Qed.

End fetch_extract.

Lemma fetched_read_back_witness :
  let H := fetch_extract_host in
  let b := mkBuilder (Wrap H) opts0 in
  exists status data,
    http_do H hc (pkg_url opts0 "base.txz") = Reply status data None /\
    files (fs (DownloadBaseSystem H b sched0 fetch_world).2) !! cache_file opts0 "base.txz"
      = Some data /\
    archiver.Open H (cache_file opts0 "base.txz") (full_path opts0)
        (DownloadBaseSystem H b sched0 fetch_world).2 =
      extract_data H (cache_file opts0 "base.txz") (full_path opts0) data
        (DownloadBaseSystem H b sched0 fetch_world).2.
Proof.
  apply (fetched_read_back fetch_extract_host (mkBuilder (Wrap fetch_extract_host) opts0)
           sched0 fetch_world (ensure_dir opts0 fetch_world).2 "base.txz" (full_path opts0)).
  - apply run_eq. by vm_compute.
  - by vm_compute.
  - apply (bool_decide_unpack _). by vm_compute.
Defined.

(** The mirror of the examples breaks off [ports.txz] after three bytes:
    the second run succeeds and the extractor is given those three. *)
Lemma damaged_archive_extracted_witness :
  let H := mirror_host mirror0 in
  let w2 := (DownloadBaseSystem H fetch_builder sched0 fetch_world).2 in
  is_ok (DownloadBaseSystem H fetch_builder sched0 fetch_world).1 = false /\
  ("POR" = "" \/ exists status, http_do H hc (pkg_url opts0 "ports.txz") =
                   Reply status "POR" (Some (ErrNew "unexpected EOF"))) /\
  DownloadBaseSystem H fetch_builder sched_last_first w2 = (Ok tt, w2) /\
  archiver.Open H (cache_file opts0 "ports.txz") (full_path opts0) w2 =
    extract_data H (cache_file opts0 "ports.txz") (full_path opts0) "POR" w2.
Proof.
  apply (damaged_archive_extracted (mirror_host mirror0) fetch_builder sched0 sched_last_first
           fetch_world (ensure_dir opts0 fetch_world).2 "ports.txz" (ErrNew "unexpected EOF")).
  - apply run_eq. by vm_compute.
  - by vm_compute.
  - apply (list_elem_of_lookup_2 _ 2). by vm_compute.
  - by vm_compute.
Defined.

(** The fetch and the extraction of the three packages, one after the
    other, from an empty cache. *)
Example fetch_then_extract :
  let H := fetch_extract_host in
  let b := mkBuilder (Wrap H) opts0 in
  let w := (DownloadBaseSystem H b sched0 fetch_world).2 in
  (DownloadBaseSystem H b sched0 fetch_world).1 = Ok tt /\
  files (fs (archiver.Open H (cache_file opts0 "base.txz") (full_path opts0) w).2)
    !! (full_path opts0 +:+ "/bin/sh") = Some "#!".
Proof. split; by vm_compute. Qed.
