(* ===== verification/Pipeline.v ===== *)
(** * Pipeline: the orchestrator

  [src/build.go], lines 215-252: [Initialize] runs the seven steps of the
  preparation of a release in a fixed order and returns the first error;
  [CreateJail] clones the snapshot of the release and writes the jail's
  [rc.conf].

  The specification describes the pipeline as a list of named steps run
  in order with no rollback ([run_steps] over [step_names]);
  [Initialize_refines] shows that the method is that list.  The other
  theorems are about the order of the commands, the first failure, the
  invariant of the file system, the descriptors closed at the return, and
  what the pipeline comes to on a host whose [zfs] behaves like the
  reference. *)

From stdpp Require Import base gmap strings list.
From S2P Require Import Prelude.
From S2P Require Import Host.
From S2P Require Import HostFacts.
From S2P Require Import Trace.
From S2P Require Import Handles.
From S2P Require Import Options.
From S2P Require Import Zfs.
From S2P Require Import Config.
From S2P Require Import Resolv.
From S2P Require Import Extract.
From S2P Require Import Fetch.
From S2P Require Import FetchInv.
From S2P Require Import FetchRun.

(** ** The methods *)

Definition CreateJail (H : Host) (b : Builder) (name : string) : M World unit :=
  CloneBaseToJail b name ;;
  f <- os.Create (BaseDir (opts b) +:+ "/" +:+ name +:+ rcConf) ;;
  defer (os.Close f) (
    os.Write H f (fmt.Sprintf ("hostname=" +:+ dquote +:+ "%s" +:+ dquote) [name]) ;;
    ret tt).

(** The goroutines of the fetcher run under the schedule [sched]. *)
Definition Initialize (H : Host) (b : Builder) (sched : list tid) : M World unit :=
  CreateZFSDataset b ;;
  DownloadBaseSystem H b sched ;;
  ExtractBasePkgs H b ;;
  UpdateBaseJail H b ;;
  SetBaseJailConf H b ;;
  CreateZFSSnapshot b ;;
  CreateJail H b "base".

(** ** The pipeline of the specification *)

Inductive step_name :=
| SDataset | SFetch | SExtract | SPatch | SConfigure | SSnapshot | SJail.

#[export] Instance step_name_eq_dec : EqDecision step_name.
Proof. solve_decision. Defined.

Definition step_names : list step_name :=
  [SDataset; SFetch; SExtract; SPatch; SConfigure; SSnapshot; SJail].

Definition run_step (H : Host) (b : Builder) (sched : list tid) (s : step_name) : M World unit :=
  match s with
  | SDataset => CreateZFSDataset b
  | SFetch => DownloadBaseSystem H b sched
  | SExtract => ExtractBasePkgs H b
  | SPatch => UpdateBaseJail H b
  | SConfigure => SetBaseJailConf H b
  | SSnapshot => CreateZFSSnapshot b
  | SJail => CreateJail H b "base"
  end.

(** The steps before the jail. *)
Definition steps_before_jail : list step_name :=
  [SDataset; SFetch; SExtract; SPatch; SConfigure; SSnapshot].

(** The steps in order, ended by the first error, nothing undone. *)
Definition run_steps (H : Host) (b : Builder) (sched : list tid) (l : list step_name) :
    M World unit :=
  forM_ (run_step H b sched) l.

(** What the specification asks of a run of the steps [l] from the world
    [w]: each step starts in the world the one before left, the first
    error is the result, and the world is the one the failing step
    left. *)
Inductive pipeline_spec (H : Host) (b : Builder) (sched : list tid) :
    list step_name -> World -> Res unit * World -> Prop :=
| ps_done w : pipeline_spec H b sched [] w (Ok tt, w)
| ps_step s l w w1 r :
    run_step H b sched s w = (Ok tt, w1) -> pipeline_spec H b sched l w1 r ->
    pipeline_spec H b sched (s :: l) w r
| ps_fail s l w e w' :
    run_step H b sched s w = (Err e, w') ->
    pipeline_spec H b sched (s :: l) w (Err e, w').

(** The commands of a whole run, in order. *)
Definition pipeline_commands (o : Opts) : list command :=
  [("zfs", ["create"; "-p"; release_dataset o]);
   ("env", update_args o);
   ("zfs", ["snapshot"; release_snapshot o]);
   ("zfs", ["clone"; "/" +:+ release_snapshot o; "/zroot/jails/base"])].

(** Where a dataset is mounted unless a property says otherwise: at its
    name below the root. *)
Definition default_mountpoint (ds : string) : string := "/" +:+ ds.

(** The content [CreateJail] gives [rc.conf], and the file. *)
Definition jail_rc (o : Opts) (name : string) : string := BaseDir o +:+ "/" +:+ name +:+ rcConf.

Definition hostname_line (name : string) : string :=
  "hostname=" +:+ dquote +:+ name +:+ dquote.

(** The reader of the line [CreateJail] writes: the value of
    [hostname="..."] is what stands between the quotes, and nothing may
    follow the closing one. *)
Definition is_dquote (c : Ascii.ascii) : bool := bool_decide (String c "" = dquote).

Fixpoint has_dquote (s : string) : bool :=
  match s with
  | EmptyString => false
  | String c s' => is_dquote c || has_dquote s'
  end.

Fixpoint until_dquote (s : string) : option (string * string) :=
  match s with
  | EmptyString => None
  | String c s' =>
      if is_dquote c then Some (EmptyString, s')
      else match until_dquote s' with
           | Some (v, r) => Some (String c v, r)
           | None => None
           end
  end.

Definition rc_hostname (s : string) : option string :=
  match strip_prefix ("hostname=" +:+ dquote) s with
  | Some rest =>
      match until_dquote rest with
      | Some (v, EmptyString) => Some v
      | _ => None
      end
  | None => None
  end.

(** ** A host for the examples *)

(** [zfs] is the reference, [env] succeeds and changes nothing, no other
    program exists; the mirror serves [m], the decoder knows [dec]. *)
Definition ref_proc (name : string) (args : list string) (s : FS * Pool) : ProcOut * (FS * Pool) :=
  if bool_decide (name = "env") then (mkProcOut true "" "" 0, s)
  else zfs_proc name args s.

Definition ref_host (m : gmap string reply) (dec : gmap string (list entry)) : Host :=
  mkHost (http_parse null_host) (http_do (mirror_host m)) (untar (archive_host dec))
         ref_proc (io_fail null_host).

(** A host on which every program succeeds and changes nothing. *)
Definition yes_host : Host :=
  mkHost (http_parse null_host) (http_do null_host) (untar null_host)
         (fun _ _ s => (mkProcOut true "" "" 0, s)) (io_fail null_host).

Definition mirror_ok : gmap string reply :=
  {[ pkg_url opts0 "base.txz" := Reply 200 "BASE" None;
     pkg_url opts0 "lib32.txz" := Reply 200 "LIB32" None;
     pkg_url opts0 "ports.txz" := Reply 200 "LIB32" None ]}.

Definition host0 : Host := ref_host mirror_ok archives0.

Definition pipeline_builder : Builder := mkBuilder (Wrap host0) opts0.

(** A fresh machine: [/tmp], [/etc/resolv.conf] and the pool [zroot]. *)
Definition pipeline_world : World :=
  mkWorld (mkFS {["/etc/resolv.conf" := "nameserver 9.9.9.9"]} {["/tmp"; "/etc"]})
          pool0 [] [] ∅.

(** * Theorems *)

Lemma hostname_line_eq name :
  fmt.Sprintf ("hostname=" +:+ dquote +:+ "%s" +:+ dquote) [name] = hostname_line name.
Proof. done. Qed.

Lemma bind_ret_tt {S} (m : M S unit) : (m ;; ret tt) ≡ m.
Proof. intros s. unfold bind, ret. by destruct (m s) as [[[]|e] s']. Qed.

(** The tree the archives are extracted into is the directory the
    dataset of the release is mounted on exactly when the base directory
    is [/Dataset/jails]: the options do not tie the tree the pipeline
    fills to the dataset it snapshots. *)
Lemma tree_is_mountpoint o :
  full_path o = default_mountpoint (release_dataset o) <->
  BaseDir o = "/" +:+ Dataset o +:+ "/jails".
Proof.
  unfold full_path, default_mountpoint, release_dataset. split.
  - intros Heq. apply (app_inj_r_s ("/releases/" +:+ Release o)).
    rewrite Heq. change "/jails/releases/" with ("/jails" +:+ "/releases/").
    by rewrite !app_assoc_s.
  - intros ->. change "/jails/releases/" with ("/jails" +:+ "/releases/").
    by rewrite !app_assoc_s.
Qed.

(** The hostname line reads back as the name, unless the name holds a
    double quote. *)
Lemma until_dquote_app v r :
  has_dquote v = false -> until_dquote (v +:+ dquote +:+ r) = Some (v, r).
Proof.
  induction v as [|c v IH]; [done|]. simpl. intros [Hc Hv]%orb_false_iff.
  by rewrite Hc, IH.
Qed.

Lemma rc_hostname_line name :
  has_dquote name = false -> rc_hostname (hostname_line name) = Some name.
Proof.
  intros Hn. unfold rc_hostname, hostname_line.
  rewrite <-(app_assoc_s "hostname=" dquote), strip_prefix_app.
  by rewrite <-(app_nil_r_s dquote), until_dquote_app.
Qed.

Example rc_hostname_quote :
  rc_hostname (hostname_line ("a" +:+ dquote +:+ "b")) = None.
Proof. by vm_compute. Qed.

Example tree_not_mounted :
  full_path opts0 <> default_mountpoint (release_dataset opts0).
Proof. by vm_compute. Qed.

Section pipeline.
Context (H : Host).

(** ** The method and the steps *)

Lemma Initialize_steps b sched : Initialize H b sched ≡ run_steps H b sched step_names.
Proof.
  intros w. unfold Initialize, run_steps, step_names. simpl.
  do 6 (apply bind_ext; intros _ ?). by rewrite bind_ret_tt.
Qed.

Lemma run_steps_spec b sched l w : pipeline_spec H b sched l w (run_steps H b sched l w).
Proof.
  revert w. induction l as [|s l IH]; intros w; [constructor|].
  unfold run_steps. simpl. unfold bind.
  destruct (run_step H b sched s w) as [[[]|e] w1] eqn:Hs.
  - eapply ps_step; [done|apply IH].
  - by apply ps_fail.
Qed.

(** C3: [Initialize] implements the pipeline of the specification:
    its result and its world are those of the seven steps run in the
    order dataset, fetch, extract, patch, configure, snapshot, jail, each
    in the world the one before left, ended by the first error. *)
Theorem Initialize_refines b sched w :
  pipeline_spec H b sched step_names w (Initialize H b sched w).
Proof. rewrite Initialize_steps. apply run_steps_spec. Qed.


(** A step that fails after the steps before it succeeded ends
    [Initialize] with its error and its world. *)
Theorem Initialize_stops_at b sched w done s rest w1 e w' :
  step_names = done ++ s :: rest ->
  run_steps H b sched done w = (Ok tt, w1) ->
  run_step H b sched s w1 = (Err e, w') ->
  Initialize H b sched w = (Err e, w').
Proof.
  intros Hn Hd Hs. rewrite Initialize_steps. unfold run_steps. rewrite Hn.
  by eapply forM_err_at.
Qed.

(** ** The commands *)

Lemma CreateJail_runs o name :
  runs (CreateJail H (mkBuilder (Wrap H) o) name)
       [("zfs", ["clone"; "/" +:+ release_snapshot o; "/zroot/jails/" +:+ name])].
Proof.
  apply runs_then_quiet; [apply CloneBaseToJail_runs|]. intros _. solve_quiet.
Qed.

(** C17: [Initialize] starts the commands [zfs create -p], [env ...
    freebsd-update], [zfs snapshot] and [zfs clone] in this order and
    no other: all four when it succeeds, the first of them when it
    fails; the snapshot is never taken before the patcher ran. *)
Theorem Initialize_commands o sched :
  runs (Initialize H (mkBuilder (Wrap H) o) sched) (pipeline_commands o).
Proof.
  unfold Initialize, pipeline_commands.
  apply (runs_bind _ _ [_] [_; _; _]); [apply CreateZFSDataset_runs|intros _].
  apply quiet_then_runs; [apply DownloadBaseSystem_quiet|intros _].
  apply quiet_then_runs; [apply ExtractBasePkgs_quiet|intros _].
  apply (runs_bind _ _ [_] [_; _]); [apply UpdateBaseJail_runs|intros _].
  apply quiet_then_runs; [apply SetBaseJailConf_quiet|intros _].
  apply (runs_bind _ _ [_] [_]); [apply CreateZFSSnapshot_runs|intros _].
  apply CreateJail_runs.
Qed.

(** ** The file system *)

Lemma CreateJail_wf `{!HostWf H} o name :
  preserves world_wf (CreateJail H (mkBuilder (Wrap H) o) name).
Proof. unfold CreateJail. solve_preserves. Qed.

(** On a host whose programs keep the file system well formed,
    [Initialize] keeps it well formed under every schedule of the
    fetcher, whether it succeeds or stops at a step. *)
Theorem Initialize_wf `{!HostWf H} o sched :
  preserves world_wf (Initialize H (mkBuilder (Wrap H) o) sched).
Proof. pose proof CreateJail_wf. unfold Initialize. solve_preserves. Qed.

(** ** The descriptors *)

Lemma CreateJail_balanced o name : balanced (CreateJail H (mkBuilder (Wrap H) o) name).
Proof. unfold CreateJail. solve_balanced. Qed.

Lemma run_step_balanced o sched s : balanced (run_step H (mkBuilder (Wrap H) o) sched s).
Proof. pose proof CreateJail_balanced. destruct s; simpl; eauto with go. Qed.

Lemma Initialize_balanced o sched : balanced (Initialize H (mkBuilder (Wrap H) o) sched).
Proof. rewrite Initialize_steps. apply balanced_forM, run_step_balanced. Qed.

(** C12: [Initialize] returns with exactly the descriptors open that
    were open when it was called, under every schedule of the fetcher and
    on every host, whether it succeeds or stops at a step: every file and
    every response body that a step opened is closed by then, and none of
    the caller's is.  So does [CreateJail] for every jail, and every run
    of the steps that stops early. *)
Theorem Initialize_closes_descriptors o sched w :
  handles (Initialize H (mkBuilder (Wrap H) o) sched w).2 = handles w /\
  (forall name, handles (CreateJail H (mkBuilder (Wrap H) o) name w).2 = handles w) /\
  (forall l, handles (run_steps H (mkBuilder (Wrap H) o) sched l w).2 = handles w).
Proof.
  split_and!; intros; apply balanced_run;
    [apply Initialize_balanced|apply CreateJail_balanced|
     apply balanced_forM, run_step_balanced].
Qed.

(** ** The jail *)

(** C37: when the clone succeeds and [rc.conf] can be created,
    [CreateJail] leaves in it the line [hostname="name"] and nothing
    else: what the file held before is gone, and the file reads back as
    one declaration of the jail's name unless the name holds a double
    quote. *)
Theorem CreateJail_writes b name w w1 :
  CloneBaseToJail b name w = (Ok tt, w1) ->
  creatable (jail_rc (opts b) name) (fs w1) = true ->
  io_fail H (jail_rc (opts b) name) = false ->
  CreateJail H b name w =
    (Ok tt, set_fs (with_file (jail_rc (opts b) name) (hostname_line name) (fs w1)) w1) /\
  (has_dquote name = false ->
   rc_hostname <$> files (fs (CreateJail H b name w).2) !! jail_rc (opts b) name
     = Some (Some name)).
Proof.
  intros Hc [Hd Hp]%creatable_spec Hio.
  assert (CreateJail H b name w =
    (Ok tt, set_fs (with_file (jail_rc (opts b) name) (hostname_line name) (fs w1)) w1)) as Hrun.
  { unfold CreateJail.
    rewrite (bind_ok _ _ _ _ _ Hc). fold (jail_rc (opts b) name). unfold bind at 1.
    rewrite os_Create_run, Hd, Hp, hostname_line_eq. apply bracket_run. unfold bind.
    rewrite (os_Write_ok _ _ _ "") by (done || apply with_file_lookup || solve_open). simpl.
    by rewrite with_file_with_file. }
  split; [done|]. intros Hq. rewrite Hrun. simpl.
  by rewrite lookup_insert_eq, <-(rc_hostname_line name Hq).
Qed.

(** An error of the clone ends [CreateJail] before [rc.conf] is
    touched. *)
Theorem CreateJail_clone_error b name w e w' :
  CloneBaseToJail b name w = (Err e, w') -> CreateJail H b name w = (Err e, w').
Proof. intros Hc. unfold CreateJail. by rewrite (bind_err _ _ _ _ _ Hc). Qed.

(** ** On the reference [zfs] *)

Section zfs.
Context `{!ZfsHost H}.

Lemma CreateJail_zfs o name w :
  CreateJail H (mkBuilder (Wrap H) o) name w =
    (Err (ErrExit 1),
     zfs_world ["clone"; "/" +:+ release_snapshot o; "/zroot/jails/" +:+ name] w).
Proof.
  unfold CreateJail. apply bind_err.
  rewrite (CloneBaseToJail_run H). cbn zeta. by rewrite zfs_clone_slash.
Qed.

(** On a host whose [zfs] is the reference, [CreateJail] fails
    for every jail name: the clone is refused, no dataset is made and no
    file is written. *)
Theorem CreateJail_fails o name w :
  exists w', CreateJail H (mkBuilder (Wrap H) o) name w = (Err (ErrExit 1), w') /\
             pool w' = pool w /\ fs w' = fs w.
Proof.
  rewrite CreateJail_zfs. eexists. split; [done|]. unfold zfs_world.
  by rewrite zfs_clone_slash.
Qed.

(** C8: on a host whose [zfs] is the reference, [Initialize] never
    succeeds, whatever the options, the world and the schedule: its last
    step is the clone that is refused. *)
Theorem Initialize_never_succeeds o sched w :
  is_ok (Initialize H (mkBuilder (Wrap H) o) sched w).1 = false.
Proof.
  unfold Initialize. do 6 (apply bind_never_ok; intros _ ?).
  by rewrite CreateJail_zfs.
Qed.

End zfs.

End pipeline.

(** ** The host of the examples *)

#[export] Instance ref_host_zfs m dec : ZfsHost (ref_host m dec).
Proof. by intros args f p. Qed.

#[export] Instance ref_host_wf m dec : HostWf (ref_host m dec).
Proof.
  intros name args f p Hf. simpl. unfold ref_proc, zfs_proc.
  by repeat case_bool_decide.
Qed.

Lemma pipeline_world_wf : world_wf pipeline_world.
Proof.
  split_and!; simpl.
  - intros p [x [<- _]%lookup_singleton_Some]. by vm_compute.
  - intros p [->%elem_of_singleton| ->%elem_of_singleton]%elem_of_union; by vm_compute.
  - intros p [x [<- _]%lookup_singleton_Some]. by vm_compute.
Qed.

(** ** Examples *)


Lemma Initialize_stops_at_witness :
  Initialize host0 pipeline_builder sched0 pipeline_world =
    (Err (ErrExit 1),
     (run_step host0 pipeline_builder sched0 SJail
        (run_steps host0 pipeline_builder sched0 steps_before_jail pipeline_world).2).2).
Proof.
  apply (Initialize_stops_at host0 pipeline_builder sched0 pipeline_world
           steps_before_jail SJail []
           (run_steps host0 pipeline_builder sched0 steps_before_jail pipeline_world).2
           (ErrExit 1)
           (run_step host0 pipeline_builder sched0 SJail
              (run_steps host0 pipeline_builder sched0 steps_before_jail pipeline_world).2).2);
    [done|apply run_eq; by vm_compute..].
Defined.

Lemma Initialize_wf_witness :
  world_wf (Initialize host0 pipeline_builder sched0 pipeline_world).2.
Proof. apply (Initialize_wf host0 opts0 sched0), pipeline_world_wf. Defined.

Lemma CreateJail_writes_witness :
  let b := mkBuilder (Wrap yes_host) opts0 in
  let w := mkWorld (mkFS {[jail_rc opts0 "web" := "sshd_enable=YES"]} {["/usr/jails/web/etc"]})
                   pool0 [] [] ∅ in
  CreateJail yes_host b "web" w =
    (Ok tt, set_fs (with_file (jail_rc opts0 "web") (hostname_line "web")
                              (fs (CloneBaseToJail b "web" w).2))
                   (CloneBaseToJail b "web" w).2) /\
  (has_dquote "web" = false ->
   rc_hostname <$> files (fs (CreateJail yes_host b "web" w).2) !! jail_rc opts0 "web"
     = Some (Some "web")).
Proof.
  apply (CreateJail_writes yes_host (mkBuilder (Wrap yes_host) opts0) "web");
    [apply run_eq|..]; by vm_compute.
Defined.

Lemma CreateJail_clone_error_witness :
  CreateJail host0 pipeline_builder "web" pipeline_world =
    (Err (ErrExit 1), (CloneBaseToJail pipeline_builder "web" pipeline_world).2).
Proof.
  apply (CreateJail_clone_error host0 pipeline_builder "web" pipeline_world).
  apply run_eq. by vm_compute.
Defined.

Lemma CreateJail_fails_witness :
  exists w', CreateJail host0 pipeline_builder "web" pipeline_world = (Err (ErrExit 1), w') /\
             pool w' = pool pipeline_world /\ fs w' = fs pipeline_world.
Proof. apply (CreateJail_fails host0 opts0 "web" pipeline_world). Defined.

Lemma Initialize_never_succeeds_witness :
  is_ok (Initialize host0 pipeline_builder sched0 pipeline_world).1 = false.
Proof. apply (Initialize_never_succeeds host0 opts0 sched0 pipeline_world). Defined.

(** A whole run on a fresh machine: every step but the last succeeds; the
    four commands ran; the release is fetched, extracted and snapshotted;
    the resolver file of the tree is empty; no jail exists. *)
Example Initialize_example :
  let r := Initialize host0 pipeline_builder sched0 pipeline_world in
  r.1 = Err (ErrExit 1) /\
  commands (trace r.2) = pipeline_commands opts0 /\
  files (fs r.2) !! (full_path opts0 +:+ "/bin/sh") = Some "#!" /\
  files (fs r.2) !! tree_resolv opts0 = Some "" /\
  bool_decide (release_snapshot opts0 ∈ snapshots (pool r.2)) = true /\
  bool_decide ("zroot/jails/base" ∈ datasets (pool r.2)) = false.
Proof. by vm_compute. Qed.
