(* ===== verification/Events.v ===== *)
(** * Events: the trace of a run, step by step

  Every interaction of the program with the outside is an event of the
  trace: a process started ([EvExec]), a request sent ([EvGet]), an
  archive handed to the extractor ([EvExtract]).  [emits P m] says that
  [m] adds to the trace only events that pass [P], whatever it returns;
  the rules below prove it for a computation built from the operations of
  [Host].  Each step of [Initialize] of [src/build.go] (lines 216-236) has
  its own events ([step_event]): the requests belong to the fetcher, the
  extractions to the extractor, each command to the step that starts it.
  So the events of a run are those of the steps that ran, step after
  step ([Initialize_events]): no request is sent once an extraction has
  begun, although the requests themselves come in the order the schedule
  gives them. *)

From stdpp Require Import base gmap strings list sorting.
From S2P Require Import Prelude.
From S2P Require Import Host.
From S2P Require Import HostFacts.
From S2P Require Import Trace.
From S2P Require Import Options.
From S2P Require Import Zfs.
From S2P Require Import Config.
From S2P Require Import Extract.
From S2P Require Import Fetch.
From S2P Require Import FetchInv.
From S2P Require Import FetchRun.
From S2P Require Import Pipeline.

(** [m] adds to the trace only events that pass [P], on success and on
    failure. *)
Definition emits {A} (P : event -> Prop) (m : M World A) : Prop :=
  forall w, exists evs, trace (m w).2 = trace w ++ evs /\ Forall P evs.

(** The command a step of the pipeline starts, if it starts one. *)
Definition step_command (o : Opts) (s : step_name) : option command :=
  match s with
  | SDataset => Some ("zfs", ["create"; "-p"; release_dataset o])
  | SPatch => Some ("env", update_args o)
  | SSnapshot => Some ("zfs", ["snapshot"; release_snapshot o])
  | SJail => Some ("zfs", ["clone"; "/" +:+ release_snapshot o; "/zroot/jails/base"])
  | SFetch | SExtract | SConfigure => None
  end.

(** Whether an event is one of step [s]: the command of the step with any
    outcome, a request for a package, the extraction of the cache file of
    a package into the tree of the release. *)
Definition step_event (o : Opts) (s : step_name) (e : event) : bool :=
  match e with
  | EvExec name args _ => bool_decide (step_command o s = Some (name, args))
  | EvGet url => bool_decide (s = SFetch) && bool_decide (url ∈ map (pkg_url o) basePackages)
  | EvExtract src dst =>
      bool_decide (s = SExtract) && bool_decide (src ∈ map (cache_file o) basePackages) &&
      bool_decide (dst = full_path o)
  end.

(** The place of a step in the pipeline. *)
Definition step_index (s : step_name) : nat :=
  match s with
  | SDataset => 0 | SFetch => 1 | SExtract => 2 | SPatch => 3
  | SConfigure => 4 | SSnapshot => 5 | SJail => 6
  end.

(** [e1] is an event of a step that is not behind the step of [e2]. *)
Definition before (o : Opts) (e1 e2 : event) : Prop :=
  exists s1 s2, step_event o s1 e1 = true /\ step_event o s2 e2 = true /\
                step_index s1 <= step_index s2.

(** The events of the steps [l], step after step. *)
Definition steps_events (o : Opts) (l : list step_name) (evss : list (list event)) : Prop :=
  Forall2 (fun s evs => Forall (fun e => step_event o s e = true) evs) l evss.

(** * Theorems *)

(** ** The rules of [emits] *)

Section emits.
Context {P : event -> Prop}.

Lemma emits_mono {A} (Q : event -> Prop) (m : M World A) :
  (forall e, Q e -> P e) -> emits Q m -> emits P m.
Proof.
  intros HQ Hm w. destruct (Hm w) as (evs & ? & ?). exists evs.
  split; [done|]. by eapply Forall_impl.
Qed.

(** A computation that keeps the trace emits nothing. *)
Lemma emits_keep {A} (m : M World A) :
  (forall t, preserves (fun w => trace w = t) m) -> emits P m.
Proof. intros Hm w. exists []. by rewrite app_nil_r, (Hm (trace w) w). Qed.

Lemma emits_bind {A B} (m : M World A) (k : A -> M World B) :
  emits P m -> (forall x, emits P (k x)) -> emits P (x <- m ;; k x).
Proof.
  intros Hm Hk w. destruct (Hm w) as (evs1 & Ht1 & H1). unfold bind.
  destruct (m w) as [[x|e] w1]; simpl in *; [|by eauto].
  destruct (Hk x w1) as (evs2 & Ht2 & H2). exists (evs1 ++ evs2).
  rewrite Ht2, Ht1, (assoc_L (++)). split; [done|]. by apply Forall_app.
Qed.

Lemma emits_forM {A} (f : A -> M World unit) l :
  (forall x, x ∈ l -> emits P (f x)) -> emits P (forM_ f l).
Proof.
  intros Hf. induction l as [|a l IH]; simpl;
    [by apply emits_keep; intros t; apply preserves_ret|].
  apply emits_bind; [apply Hf, elem_of_cons; auto|].
  intros _. apply IH. intros x Hx. apply Hf, elem_of_cons. auto.
Qed.

Lemma emits_defer {A} (c : M World unit) (m : M World A) :
  (forall t, preserves (fun w => trace w = t) c) -> emits P m -> emits P (defer c m).
Proof.
  intros Hc Hm w. destruct (Hm w) as (evs & Ht & Hall). exists evs.
  rewrite defer_run. simpl. by rewrite (Hc (trace (m w).2)).
Qed.

Lemma emits_log e : P e -> emits P (modify (log e)).
Proof. intros He w. exists [e]. split; [done|]. by constructor. Qed.

End emits.

(** The goals [emits P m] for a [m] built from the operations of [Host]:
    one rule per combinator, and a computation that is left over must
    keep the trace. *)
Ltac solve_emits :=
  repeat match goal with
  | |- emits _ (bind _ _) => apply emits_bind; [|intros ?]
  | |- emits _ (defer _ _) => apply emits_defer; [intros ?|]
  | |- emits _ (forM_ _ _) => apply emits_forM; intros ? ?
  | |- emits _ (match ?x with _ => _ end) => destruct x
  | |- emits _ (modify (log _)) => by apply emits_log
  | |- emits _ _ => solve [eauto with go]
  | |- emits _ _ => apply emits_keep; intros ?
  | |- preserves _ _ => solve_preserves
  end.

(** ** The operations that leave an event *)

Section operations.
Context (H : Host).

Lemma emits_exec_Run name args :
  emits (fun e => exists x, e = EvExec name args x) (exec.Run H name args).
Proof.
  intros w. unfold exec.Run. destruct (proc H name args _) as [out [f p]].
  destruct (p_started out); simpl; (eexists [_]; split; [done|]); constructor; eauto.
Qed.

Lemma emits_Output name args :
  emits (fun e => exists x, e = EvExec name args x) (call2 (Output (Wrap H) name args)).
Proof.
  intros w. destruct (emits_exec_Run name args w) as (evs & Ht & Hall). exists evs.
  split; [|done]. unfold call2. simpl. by destruct (exec.Run H name args w) as [[out|e] w'].
Qed.

Lemma emits_CombinedOutput name args :
  emits (fun e => exists x, e = EvExec name args x) (call2 (CombinedOutput (Wrap H) name args)).
Proof.
  intros w. destruct (emits_exec_Run name args w) as (evs & Ht & Hall). exists evs.
  split; [|done]. unfold call2. simpl. by destruct (exec.Run H name args w) as [[out|e] w'].
Qed.

Lemma emits_Do c url : emits (fun e => e = EvGet url) (http.Do H c url).
Proof.
  intros w. unfold http.Do. destruct (http_do H c url); simpl;
    (eexists [_]; split; [done|]); by constructor.
Qed.

Lemma emits_archiver_Open src dst :
  emits (fun e => e = EvExtract src dst) (archiver.Open H src dst).
Proof. unfold archiver.Open. solve_emits. Qed.

End operations.

(** ** The events of each step *)

Section steps.
Context (H : Host) (o : Opts).

Lemma step_command_event s name args x :
  step_command o s = Some (name, args) -> step_event o s (EvExec name args x) = true.
Proof. intros Hs. by apply bool_decide_eq_true. Qed.

(** A computation that starts the command of step [s] and nothing else
    emits events of [s]. *)
Lemma emits_command {A} s name args (m : M World A) :
  step_command o s = Some (name, args) ->
  emits (fun e => exists x, e = EvExec name args x) m ->
  emits (fun e => step_event o s e = true) m.
Proof. intros Hs. apply emits_mono. intros e [x ->]. by apply step_command_event. Qed.

(** The fetcher sends requests for packages and nothing else, under
    every schedule. *)
Lemma emits_DownloadBaseSystem sched :
  emits (fun e => step_event o SFetch e = true)
        (DownloadBaseSystem H (mkBuilder (Wrap H) o) sched).
Proof.
  intros w. destruct (DownloadBaseSystem_final H (mkBuilder (Wrap H) o) sched w)
    as (c & Hr & Hf & ->). simpl.
  pose proof (ensure_dir_trace o w) as Htr.
  destruct (ensure_dir o w) as [[[]|e] w1] eqn:He; simpl in Htr.
  - destruct (finished_trace H _ w w1 c Hr Hf He) as (evs & -> & Hevs). exists evs.
    rewrite Htr. split; [done|]. rewrite Hevs. apply Forall_fmap, Forall_forall.
    intros p [_ [_ Hp]%list_elem_of_filter]%list_elem_of_filter.
    apply andb_true_iff. split; apply bool_decide_eq_true; [done|].
    apply list_elem_of_fmap. eauto.
  - rewrite (finished_failed H _ w c e w1) by done. simpl. exists []. by rewrite app_nil_r.
Qed.

Lemma run_step_emits sched s :
  emits (fun e => step_event o s e = true) (run_step H (mkBuilder (Wrap H) o) sched s).
Proof.
  destruct s; cbn [run_step].
  - unfold CreateZFSDataset.
    apply emits_bind; [by eapply (emits_command SDataset); [|apply emits_CombinedOutput]|].
    intros r. solve_emits.
  - apply emits_DownloadBaseSystem.
  - unfold ExtractBasePkgs. apply emits_forM. intros p Hp.
    eapply emits_mono; [|apply emits_archiver_Open]. intros e ->.
    repeat (apply andb_true_iff; split); apply bool_decide_eq_true; [done| |done].
    apply list_elem_of_fmap. eauto.
  - unfold UpdateBaseJail.
    apply emits_bind; [by eapply (emits_command SPatch); [|apply emits_exec_Run]|].
    intros r. solve_emits.
  - unfold SetBaseJailConf, SetResolvConf, os.Create, os.Write, os.Close. solve_emits.
  - unfold CreateZFSSnapshot.
    apply emits_bind; [by eapply (emits_command SSnapshot); [|apply emits_Output]|].
    intros r. solve_emits.
  - unfold CreateJail, CloneBaseToJail, os.Create, os.Write, os.Close.
    apply emits_bind; [|intros ?; solve_emits].
    apply emits_bind; [by eapply (emits_command SJail); [|apply emits_Output]|].
    intros r. solve_emits.
Qed.

End steps.

(** ** The events of a run *)

Section run.
Context (H : Host) (o : Opts).

(** The events of a run of the steps [l] are those of the steps that ran,
    the failing one included, step after step. *)
Lemma run_steps_events sched l w :
  exists done evss,
    done `prefix_of` l /\
    trace (run_steps H (mkBuilder (Wrap H) o) sched l w).2 = trace w ++ concat evss /\
    steps_events o done evss /\
    (is_ok (run_steps H (mkBuilder (Wrap H) o) sched l w).1 = true -> done = l).
Proof.
  revert w. induction l as [|s l IH]; intros w.
  { exists [], []. split_and!; [done|by rewrite app_nil_r|constructor|done]. }
  unfold run_steps. simpl. unfold bind.
  destruct (run_step_emits H o sched s w) as (evs & Ht & Hall).
  destruct (run_step _ _ _ s w) as [[[]|e] w1]; simpl in Ht.
  - destruct (IH w1) as (done & evss & Hp & Ht' & Hev & Hok). exists (s :: done), (evs :: evss).
    unfold run_steps in Ht', Hok.
    split_and!; [by apply prefix_cons| |by constructor|by intros ->%Hok].
    simpl. by rewrite Ht', Ht, (assoc_L (++)).
  - exists [s], [evs]. split_and!; [apply prefix_cons, prefix_nil| |by repeat constructor|done].
    simpl. by rewrite app_nil_r.
Qed.

Lemma step_names_sorted :
  StronglySorted (fun s1 s2 => step_index s1 < step_index s2) step_names.
Proof. apply (bool_decide_unpack _). by vm_compute. Qed.

Lemma steps_events_elem l evss e :
  steps_events o l evss -> e ∈ concat evss -> exists s, s ∈ l /\ step_event o s e = true.
Proof.
  induction 1 as [|s evs l evss Hs _ IH]; simpl; [by intros ?%elem_of_nil|].
  intros [He|He]%elem_of_app.
  - exists s. split; [by left|]. by apply (proj1 (Forall_forall _ _) Hs).
  - destruct (IH He) as (s' & ? & ?). exists s'. split; [by right|done].
Qed.

(** Events of one step are in order whatever their order. *)
Lemma step_events_sorted s evs :
  Forall (fun e => step_event o s e = true) evs -> StronglySorted (before o) evs.
Proof.
  induction 1 as [|e evs He Hall IH]; constructor; [done|].
  eapply Forall_impl; [done|]. intros e' He'. by exists s, s.
Qed.

(** The events of steps that come in the order of the pipeline are in
    the order of the pipeline. *)
Lemma steps_events_sorted l evss :
  StronglySorted (fun s1 s2 => step_index s1 < step_index s2) l ->
  steps_events o l evss -> StronglySorted (before o) (concat evss).
Proof.
  intros Hl Hev. induction Hev as [|s evs l evss Hs Hev IH]; simpl; [constructor|].
  apply StronglySorted_cons in Hl as [Hlt Hl].
  apply StronglySorted_app_2; [|by eapply step_events_sorted|by apply IH].
  intros e1 e2 H1 (s' & Hs' & H2)%(steps_events_elem l); [|done].
  exists s, s'. split_and!; [by apply (proj1 (Forall_forall _ _) Hs)|done|].
  apply (proj1 (Forall_forall _ _) Hlt) in Hs'. lia.
Qed.

(** In a trace in the order of the pipeline no request comes after an
    extraction. *)
Lemma sorted_no_request l1 src dst l2 :
  StronglySorted (before o) (l1 ++ EvExtract src dst :: l2) ->
  Forall (fun e => forall url, e <> EvGet url) l2.
Proof.
  intros [Hs _]%StronglySorted_app_1_r%StronglySorted_cons. eapply Forall_impl; [done|].
  intros e (s1 & s2 & H1 & H2 & Hle) url ->. unfold step_event in *.
  apply andb_true_iff in H1 as [[->%bool_decide_eq_true _]%andb_true_iff _].
  apply andb_true_iff in H2 as [->%bool_decide_eq_true _]. simpl in Hle. lia.
Qed.

(** C15: the events of [Initialize], under every schedule of the fetcher
    and on every host, are those of the steps that ran, step after step in
    the order of the pipeline: the command of the dataset, then requests
    for packages only, then extractions of cache files into the tree only,
    then the patcher, the snapshot and the clone, the events of the step
    that failed being the last; all seven steps when it succeeds.  So
    [g.Wait()] is a barrier: no request is sent once an extraction has
    begun, whatever the order of the requests themselves. *)
Theorem Initialize_events sched w :
  exists done evss,
    done `prefix_of` step_names /\
    trace (Initialize H (mkBuilder (Wrap H) o) sched w).2 = trace w ++ concat evss /\
    steps_events o done evss /\
    (is_ok (Initialize H (mkBuilder (Wrap H) o) sched w).1 = true -> done = step_names) /\
    StronglySorted (before o) (concat evss) /\
    (forall l1 src dst l2, concat evss = l1 ++ EvExtract src dst :: l2 ->
       Forall (fun e => forall url, e <> EvGet url) l2).
Proof.
  destruct (run_steps_events sched step_names w) as (done & evss & Hp & Ht & Hev & Hok).
  rewrite <-(Initialize_steps H _ sched w) in Ht, Hok. exists done, evss.
  assert (StronglySorted (before o) (concat evss)) as Hs.
  { apply (steps_events_sorted done); [|done]. destruct Hp as [rest Hp].
    pose proof step_names_sorted as Hn. rewrite Hp in Hn. by apply StronglySorted_app_1_l in Hn. }
  split_and!; [done..|]. intros l1 src dst l2 Heq. rewrite Heq in Hs. by eapply sorted_no_request.
Qed.

End run.

(** The run of the examples: one command, three requests in the order of
    the schedule, three extractions, then the patcher, the snapshot and
    the refused clone. *)
Example Initialize_events_example :
  map (fun e => filter (fun s => step_event opts0 s e = true) step_names)
      (trace (Initialize host0 pipeline_builder sched_last_first pipeline_world).2) =
  [[SDataset]; [SFetch]; [SFetch]; [SFetch]; [SExtract]; [SExtract]; [SExtract];
   [SPatch]; [SSnapshot]; [SJail]].
Proof. by vm_compute. Qed.
