(* ===== verification/Frame.v ===== *)
(** * Frame: where the program writes

  The methods of [src/build.go] write through the files they create:
  the cache files of the packages ([DownloadBaseSystem], line 84), the
  tree of the release ([ExtractBasePkgs], line 117, and [SetResolvConf],
  line 168) and the [rc.conf] of a jail ([CreateJail], line 243).  A file
  is [kept] in a world when it holds what it held and no descriptor that
  is open for writing is one of it; every operation of [Host] on another
  path keeps it kept, a write through a descriptor included, because the
  descriptor must be open.  So a run of [Initialize] leaves every file
  alone that lies outside those three places and that the programs it
  starts leave alone ([Initialize_writes_only]): in particular the
  resolver file and the time zone of the host, which the configurator
  only reads. *)

From stdpp Require Import base gmap gmultiset strings list.
From S2P Require Import Prelude.
From S2P Require Import Host.
From S2P Require Import HostFacts.
From S2P Require Import Handles.
From S2P Require Import Options.
From S2P Require Import Zfs.
From S2P Require Import Config.
From S2P Require Import Extract.
From S2P Require Import Fetch.
From S2P Require Import FetchInv.
From S2P Require Import FetchRun.
From S2P Require Import FetchRerun.
From S2P Require Import Pipeline.

(** A host none of whose programs touches the file [q]. *)
Class Untouched (H : Host) (q : string) : Prop :=
  untouched : forall name args s, files (proc H name args s).2.1 !! q = files s.1 !! q.

(** The file [q] is kept: it holds [v] ([None]: there is no such file)
    and no descriptor open for writing is a descriptor of [q]. *)
Definition kept (q : string) (v : option string) (w : World) : Prop :=
  files (fs w) !! q = v /\
  forall f, HFile f ∈ handles w -> f_writable f = true -> f_path f <> q.

(** The paths [Initialize] writes to: the cache files, what lies in the
    tree of the release, the [rc.conf] of the jail [base]. *)
Definition in_reach (o : Opts) (q : string) : bool :=
  bool_decide (q ∈ map (cache_file o) basePackages) ||
  has_prefix (tree o +:+ "/") q ||
  bool_decide (q = jail_rc o "base").

(** * Theorems *)

(** ** The operations of the host *)

Section kept.
Context (q : string) (v : option string).

Lemma kept_lift_fs {A} (c : M FS A) :
  preserves (fun f => files f !! q = v) c -> preserves (kept q v) (lift_fs c).
Proof. intros Hc w [Hf Hh]. rewrite lift_fs_run. split; [by apply Hc|done]. Qed.

Lemma kept_world (g : World -> World) :
  (forall w, fs (g w) = fs w) -> (forall w, handles (g w) ⊆ handles w) ->
  preserves (kept q v) (modify g).
Proof.
  intros Hfs Hh w [Hf Hw]. split; simpl; [by rewrite Hfs|].
  intros f Hin. apply Hw. by apply (gmultiset_elem_of_subseteq _ _ _ Hin), Hh.
Qed.

Lemma kept_log e : preserves (kept q v) (modify (log e)).
Proof. by apply kept_world. Qed.

Lemma kept_closed h : preserves (kept q v) (modify (closed h)).
Proof. apply kept_world; [done|]. intros w. simpl. multiset_solver. Qed.

Lemma kept_opened_body url : preserves (kept q v) (modify (opened (HBody url))).
Proof.
  intros w [Hf Hw]. split; [done|]. intros f [[=]%gmultiset_elem_of_singleton|Hin]%gmultiset_elem_of_disj_union.
  by apply Hw.
Qed.

(** A descriptor that is read-only or of another file may be opened. *)
Lemma kept_opened f :
  (f_writable f = true -> f_path f <> q) -> preserves (kept q v) (modify (opened (HFile f))).
Proof.
  intros Hq w [Hf Hw]. split; [done|].
  intros f' [[= ->]%gmultiset_elem_of_singleton|Hin]%gmultiset_elem_of_disj_union;
    [done|by apply Hw].
Qed.

Lemma kept_Println s : preserves (kept q v) (fmt.Println s).
Proof. by intros w. Qed.

Lemma kept_Exists p : preserves (kept q v) (utils.Exists p).
Proof. by intros w. Qed.

Lemma kept_Mkdir p : preserves (kept q v) (os.Mkdir p).
Proof.
  apply kept_lift_fs. intros f Hf. unfold fs_mkdir. by repeat case_match.
Qed.

Lemma kept_ret {A} (x : A) : preserves (kept q v) (ret x).
Proof. by intros w. Qed.

Lemma kept_Create p : p <> q -> preserves (kept q v) (os.Create p).
Proof.
  intros Hp w [Hf Hw]. rewrite os_Create_run. repeat case_match; try done.
  apply kept_opened; [done|]. split; [|done]. simpl. by rewrite lookup_insert_ne.
Qed.

(** A file opened for reading may be any file. *)
Lemma kept_Open p : preserves (kept q v) (os.Open p).
Proof.
  intros w Hw. unfold os.Open, bind. rewrite lift_fs_open_run.
  destruct (fs_exists p (fs w)); [|done]. simpl. by apply kept_opened.
Qed.

Lemma kept_Close f : preserves (kept q v) (os.Close f).
Proof. unfold os.Close. apply preserves_on_open, kept_closed. Qed.

Lemma kept_Read f : preserves (kept q v) (os.Read f).
Proof.
  unfold os.Read. apply preserves_on_open, kept_lift_fs. intros g Hg.
  unfold fs_read. by case_match.
Qed.

(** A write goes through a descriptor that is open: it is not one of
    [q]. *)
Lemma kept_Write H f data : preserves (kept q v) (os.Write H f data).
Proof.
  intros w [Hf Hw]. unfold os.Write, on_open. destruct (is_open _ _) eqn:Ho; [|done].
  apply bool_decide_eq_true in Ho. pose proof (Hw f Ho) as Hq. rewrite lift_fs_run.
  split; [|done]. simpl. unfold fs_write.
  destruct (f_writable f); simpl; [|done]. repeat case_match; simpl; try done.
  rewrite lookup_insert_ne; [done|]. by apply Hq.
Qed.

Lemma kept_BodyClose url : preserves (kept q v) (http.BodyClose url).
Proof. apply kept_closed. Qed.

Lemma kept_NewRequest H url : preserves (kept q v) (http.NewRequest H url).
Proof. unfold http.NewRequest. intros w Hw. by case_match. Qed.

Lemma kept_Do H c url : preserves (kept q v) (http.Do H c url).
Proof.
  intros w Hw. unfold http.Do. case_match; simpl; [by apply kept_log|].
  by apply kept_opened_body, kept_log.
Qed.

End kept.

#[export] Hint Resolve kept_log kept_closed kept_Println kept_Exists kept_Mkdir kept_Open
  kept_Close kept_Read kept_Write kept_BodyClose kept_NewRequest kept_Do kept_ret : go.
#[export] Hint Resolve kept_Create | 10 : go.

(** ** Copies, processes and archives *)

Section host.
Context (H : Host) (q : string) (v : option string).

Lemma kept_Copy dst src : preserves (kept q v) (io.Copy H dst src).
Proof. unfold io.Copy. solve_preserves. Qed.

(** A process of a host whose programs leave [q] alone. *)
Lemma kept_exec_Run `{!Untouched H q} name args : preserves (kept q v) (exec.Run H name args).
Proof.
  intros w [Hf Hw]. unfold exec.Run.
  pose proof (untouched name args (fs w, pool w)) as Hu.
  destruct (proc H name args _) as [out [f p]]. simpl in Hu.
  destruct (p_started out); [|by apply kept_log]. split; [|done]. simpl. by rewrite Hu.
Qed.

Lemma kept_Output `{!Untouched H q} name args :
  preserves (kept q v) (call2 (Output (Wrap H) name args)).
Proof.
  intros w Hw. pose proof (kept_exec_Run name args w Hw) as Hr. unfold call2. simpl.
  by destruct (exec.Run H name args w) as [[out|e] w'].
Qed.

Lemma kept_CombinedOutput `{!Untouched H q} name args :
  preserves (kept q v) (call2 (CombinedOutput (Wrap H) name args)).
Proof.
  intros w Hw. pose proof (kept_exec_Run name args w Hw) as Hr. unfold call2. simpl.
  by destruct (exec.Run H name args w) as [[out|e] w'].
Qed.

Lemma fs_mkdir_all_keeps p : preserves (fun f => files f !! q = v) (fs_mkdir_all p).
Proof. intros f Hf. unfold fs_mkdir_all. by repeat case_match. Qed.

(** An entry of an archive is written below the destination. *)
Lemma fs_extract_entry_keeps bad dst e :
  has_prefix (dst +:+ "/") q = false ->
  preserves (fun f => files f !! q = v) (fs_extract_entry bad dst e).
Proof.
  intros Hq. destruct e as [rel|rel data]; simpl; [by apply fs_mkdir_all_keeps|].
  assert (dst +:+ "/" +:+ rel <> q) as Hne.
  { intros <-. by rewrite <-app_assoc_s, has_prefix_app in Hq. }
  apply preserves_bind; [case_match; [apply fs_mkdir_all_keeps|by intros ?]|].
  intros _ f1 Hf1. unfold bind, fs_create, fs_write, ret.
  repeat case_match; simplify_eq/=; rewrite ?lookup_insert_ne by done; done.
Qed.

Lemma kept_archiver_Open src dst :
  has_prefix (dst +:+ "/") q = false -> preserves (kept q v) (archiver.Open H src dst).
Proof.
  intros Hq. unfold archiver.Open. solve_preserves; apply kept_lift_fs.
  - intros f Hf. unfold fs_open. by case_match.
  - intros f Hf. unfold fs_read. by case_match.
  - apply preserves_forM. intros e. by apply fs_extract_entry_keeps.
Qed.

End host.

#[export] Hint Resolve kept_Copy kept_exec_Run kept_Output kept_CombinedOutput : go.

(** ** The methods *)

Section methods.
Context (H : Host) (q : string) (v : option string).

Lemma kept_ensure_dir o : preserves (kept q v) (ensure_dir o).
Proof. unfold ensure_dir. solve_preserves. Qed.

(** The fetcher writes the cache files, under every schedule. *)
Lemma kept_DownloadBaseSystem b sched :
  q ∉ map (cache_file (opts b)) basePackages ->
  preserves (kept q v) (DownloadBaseSystem H b sched).
Proof.
  intros Hq w Hw. pose proof (kept_ensure_dir (opts b) w Hw) as [Hf1 _]. destruct Hw as [Hf Hw].
  split; [|by rewrite DownloadBaseSystem_handles].
  destruct (ensure_dir (opts b) w) as [[[]|e] w1] eqn:He; simpl in Hf1.
  - destruct (DownloadBaseSystem_run H b sched w w1 He) as (r & w' & evs & -> & Hfs & _).
    cbn [snd]. rewrite Hfs. simpl. rewrite fetch_files_other; [done|].
    intros (p & -> & [_ Hp]%list_elem_of_filter)%list_elem_of_fmap.
    apply Hq, list_elem_of_fmap. eauto.
  - by rewrite (DownloadBaseSystem_mkdir_error H b sched w e w1 He).
Qed.

(** The extractor writes below the tree. *)
Lemma kept_ExtractBasePkgs b :
  has_prefix (full_path (opts b) +:+ "/") q = false -> preserves (kept q v) (ExtractBasePkgs H b).
Proof. intros Hq. unfold ExtractBasePkgs. apply preserves_forM. intros p. by apply kept_archiver_Open. Qed.

Lemma kept_UpdateBaseJail `{!Untouched H q} b : preserves (kept q v) (UpdateBaseJail H b).
Proof. unfold UpdateBaseJail. solve_preserves. Qed.

(** The configurator reads the files of the host and writes those of the
    tree. *)
Lemma kept_SetLocaltime b : tree_localtime (opts b) <> q -> preserves (kept q v) (SetLocaltime H b).
Proof.
  intros Hq. unfold SetLocaltime. rewrite tree_localtime_eq. solve_preserves.
Qed.

Lemma kept_SetResolvConf b ns :
  tree_resolv (opts b) <> q -> preserves (kept q v) (SetResolvConf H b ns).
Proof.
  intros Hq. unfold SetResolvConf. rewrite tree_resolv_eq. solve_preserves.
Qed.

Lemma kept_SetBaseJailConf b :
  tree_resolv (opts b) <> q -> preserves (kept q v) (SetBaseJailConf H b).
Proof. intros Hq. unfold SetBaseJailConf. pose proof (kept_SetResolvConf b (Some []) Hq). solve_preserves. Qed.

(** [ConfigureJailHostname] opens for reading: it can write nothing. *)
Lemma kept_ConfigureJailHostname b name : preserves (kept q v) (ConfigureJailHostname H b name).
Proof. unfold ConfigureJailHostname. solve_preserves. Qed.

Section untouched.
Context `{!Untouched H q} (o : Opts).

Lemma kept_zfs :
  preserves (kept q v) (CreateZFSDataset (mkBuilder (Wrap H) o)) /\
  preserves (kept q v) (CreateZFSSnapshot (mkBuilder (Wrap H) o)) /\
  preserves (kept q v) (CreateBaseJailDataset (mkBuilder (Wrap H) o)) /\
  forall name, preserves (kept q v) (CloneBaseToJail (mkBuilder (Wrap H) o) name).
Proof.
  unfold CreateZFSDataset, CreateZFSSnapshot, CreateBaseJailDataset, CloneBaseToJail.
  split_and!; intros; cbn [wrapper]; solve_preserves.
Qed.

Lemma kept_CreateJail name :
  jail_rc o name <> q -> preserves (kept q v) (CreateJail H (mkBuilder (Wrap H) o) name).
Proof.
  intros Hq. destruct kept_zfs as (_ & _ & _ & Hc). unfold CreateJail.
  solve_preserves.
Qed.

Lemma in_reach_false :
  in_reach o q = false ->
  (q ∉ map (cache_file o) basePackages) /\ has_prefix (tree o +:+ "/") q = false /\
  jail_rc o "base" <> q.
Proof.
  unfold in_reach. intros [[Hc%bool_decide_eq_false Ht]%orb_false_iff Hj%bool_decide_eq_false]%orb_false_iff.
  by split_and!.
Qed.

Lemma kept_run_step sched s :
  in_reach o q = false -> preserves (kept q v) (run_step H (mkBuilder (Wrap H) o) sched s).
Proof.
  intros (Hc & Ht & Hj)%in_reach_false. destruct kept_zfs as (Hd & Hs & _ & _).
  destruct s; cbn [run_step]; [done|by apply kept_DownloadBaseSystem|by apply kept_ExtractBasePkgs|
    apply kept_UpdateBaseJail| |done|by apply kept_CreateJail].
  apply kept_SetBaseJailConf. intros <-.
  assert (has_prefix (tree o +:+ "/") (tree_resolv o) = true) as Hp; [|cbn [opts] in Ht; congruence].
  apply has_prefix_spec. exists "etc/resolv.conf". unfold tree_resolv. by rewrite app_assoc_s.
Qed.

End untouched.
End methods.

(** ** The pipeline *)

Section frame.
Context (H : Host) (q : string) `{!Untouched H q} (o : Opts).

(** C16: [Initialize] writes only to the cache files of the packages,
    below the tree of the release and to the [rc.conf] of the jail
    [base].  A file outside these, which the programs of the host leave
    alone and of which the caller holds no descriptor open for writing,
    holds when [Initialize] returns what it held, or is still absent,
    under every schedule of the fetcher and whatever step the run stops
    at: running the pipeline never changes a file of the host, such as
    the resolver file the configurator reads.  [CreateJail] for any jail
    writes only to the [rc.conf] of that jail. *)
Theorem Initialize_writes_only sched w :
  in_reach o q = false ->
  (forall f, HFile f ∈ handles w -> f_writable f = true -> f_path f <> q) ->
  files (fs (Initialize H (mkBuilder (Wrap H) o) sched w).2) !! q = files (fs w) !! q /\
  (forall l, files (fs (run_steps H (mkBuilder (Wrap H) o) sched l w).2) !! q = files (fs w) !! q) /\
  (forall name, jail_rc o name <> q ->
     files (fs (CreateJail H (mkBuilder (Wrap H) o) name w).2) !! q = files (fs w) !! q).
Proof.
  intros Hr Hw. assert (kept q (files (fs w) !! q) w) as Hk by done.
  assert (forall l, preserves (kept q (files (fs w) !! q))
                      (run_steps H (mkBuilder (Wrap H) o) sched l)) as Hl.
  { intros l. apply preserves_forM. intros s. by apply kept_run_step. }
  split_and!.
  - rewrite (Initialize_steps H _ sched w). by apply Hl.
  - intros l. by apply Hl.
  - intros name Hn. by apply (kept_CreateJail H q _ o name Hn).
Qed.

End frame.

(** The programs of the reference host change the pool and no file. *)
#[export] Instance ref_host_untouched m dec q : Untouched (ref_host m dec) q.
Proof. intros name args s. unfold ref_host, ref_proc, zfs_proc. simpl. by repeat case_match. Qed.

Lemma Initialize_writes_only_witness :
  files (fs (Initialize host0 pipeline_builder sched0 pipeline_world).2) !! "/etc/resolv.conf" =
    files (fs pipeline_world) !! "/etc/resolv.conf" /\
  (forall l, files (fs (run_steps host0 pipeline_builder sched0 l pipeline_world).2)
               !! "/etc/resolv.conf" = files (fs pipeline_world) !! "/etc/resolv.conf") /\
  (forall name, jail_rc opts0 name <> "/etc/resolv.conf" ->
     files (fs (CreateJail host0 pipeline_builder name pipeline_world).2) !! "/etc/resolv.conf" =
       files (fs pipeline_world) !! "/etc/resolv.conf").
Proof.
  apply (Initialize_writes_only host0 "/etc/resolv.conf" opts0 sched0 pipeline_world).
  - by vm_compute.
  - intros f Hf. by apply gmultiset_not_elem_of_empty in Hf.
Defined.

(** The three places are written: the run of the examples leaves a cache
    file, a file of the tree and the resolver file of the tree that were
    not there. *)
Example Initialize_writes :
  let w' := (Initialize host0 pipeline_builder sched0 pipeline_world).2 in
  map (fun p => (in_reach opts0 p, files (fs pipeline_world) !! p, files (fs w') !! p))
      [cache_file opts0 "base.txz"; full_path opts0 +:+ "/bin/sh"; tree_resolv opts0] =
  [(true, None, Some "BASE"); (true, None, Some "#!"); (true, None, Some "")].
Proof. by vm_compute. Qed.
