(* ===== verification/Rerun.v ===== *)
(** * Rerun: the pipeline run again

  [Initialize] of [src/build.go] (lines 216-237) names the snapshot of a
  release [@p1] whenever it runs, and no step removes a snapshot.  On a
  host whose [zfs] is the reference and whose patcher leaves the pool
  alone, a run that starts where the snapshot exists stops before the
  jail: the steps before the snapshot keep it, and [zfs snapshot] refuses
  a name that is taken.  So the run after one that took the snapshot never
  comes to the clone.  More generally no step removes a dataset or a
  snapshot ([pool_le], [Initialize_no_rollback]): what a run made before
  it failed stays. *)

From stdpp Require Import base gmap strings list.
From S2P Require Import Prelude.
From S2P Require Import Host.
From S2P Require Import HostFacts.
From S2P Require Import Trace.
From S2P Require Import Options.
From S2P Require Import Zfs.
From S2P Require Import Config.
From S2P Require Import Extract.
From S2P Require Import Fetch.
From S2P Require Import FetchInv.
From S2P Require Import Pipeline.

(** A host whose program [env], the patcher run through it included,
    does not touch the pool. *)
Class EnvHost (H : Host) : Prop :=
  env_host : forall args f p, (proc H "env" args (f, p)).2.2 = p.

(** The steps before the snapshot. *)
Definition steps_before_snapshot : list step_name :=
  [SDataset; SFetch; SExtract; SPatch; SConfigure].

(** A pool that holds every dataset and every snapshot of another. *)
Definition pool_le (p q : Pool) : Prop :=
  datasets p ⊆ datasets q /\ snapshots p ⊆ snapshots q.

(** * Theorems *)

#[export] Instance pool_le_preorder : PreOrder pool_le.
Proof. split; [by intros p|]. intros p q r [? ?] [? ?]. split; set_solver. Qed.

(** The subcommands of the reference [zfs] that the program uses never
    remove a dataset or a snapshot. *)
Lemma zfs_run_grows args p : pool_le p (zfs_run args p).2.
Proof.
  unfold pool_le, zfs_run, zfs_create, zfs_create_p, zfs_snapshot, zfs_clone.
  repeat (case_match; simpl; try done); set_solver.
Qed.

Section snapshot.
Context (H : Host) `{!ZfsHost H} (o : Opts).

(** A snapshot step that succeeded took the snapshot. *)
Lemma CreateZFSSnapshot_taking w w1 :
  CreateZFSSnapshot (mkBuilder (Wrap H) o) w = (Ok tt, w1) ->
  release_snapshot o ∈ snapshots (pool w1).
Proof.
  rewrite (CreateZFSSnapshot_run H). intros [= Hr <-]. simpl.
  unfold zfs_snapshot in *. repeat case_match; simplify_eq/=; set_solver.
Qed.

(** The steps before the jail, when they succeed, leave the snapshot. *)
Lemma steps_before_jail_snapshot sched w w1 :
  run_steps H (mkBuilder (Wrap H) o) sched steps_before_jail w = (Ok tt, w1) ->
  release_snapshot o ∈ snapshots (pool w1).
Proof.
  unfold run_steps. rewrite (forM_app _ steps_before_snapshot [SSnapshot] w). unfold bind at 1.
  destruct (forM_ _ steps_before_snapshot w) as [[[]|e] w0]; [|done]. simpl. unfold bind.
  destruct (CreateZFSSnapshot _ w0) as [[[]|e] w2] eqn:Hs; [|done].
  intros [= <-]. by eapply CreateZFSSnapshot_taking.
Qed.

End snapshot.

Section rerun.
Context (H : Host) `{!ZfsHost H} `{!EnvHost H} (o : Opts).

Lemma UpdateBaseJail_pool b w : pool (UpdateBaseJail H b w).2 = pool w.
Proof.
  unfold UpdateBaseJail, bind, exec.Run.
  pose proof (env_host (update_args (opts b)) (fs w) (pool w)) as He.
  unfold update_args, full_path in He.
  destruct (proc H "env" _ _) as [out [f p]]. simpl in He. subst p.
  destruct (p_started out); simpl; [|done]. by destruct (exec.exit_error out).
Qed.

Lemma SetBaseJailConf_pool b w : pool (SetBaseJailConf H b w).2 = pool w.
Proof.
  assert (preserves (fun w' => pool w' = pool w) (SetBaseJailConf H b)) as Hp
    by (unfold SetBaseJailConf, SetResolvConf, os.Create, os.Write; solve_preserves).
  by apply Hp.
Qed.

Lemma ExtractBasePkgs_pool b w : pool (ExtractBasePkgs H b w).2 = pool w.
Proof.
  assert (preserves (fun w' => pool w' = pool w) (ExtractBasePkgs H b)) as Hp.
  { unfold ExtractBasePkgs. apply preserves_forM. intros p w' <-. apply archiver_Open_pool. }
  by apply Hp.
Qed.

(** No step removes a dataset or a snapshot. *)
Lemma run_step_grows sched st p :
  preserves (fun w => pool_le p (pool w)) (run_step H (mkBuilder (Wrap H) o) sched st).
Proof.
  intros w Hp. etrans; [done|]. destruct st; cbn [run_step].
  - rewrite (CreateZFSDataset_run H). simpl. rewrite <-zfs_run_create_p.
    apply zfs_run_grows.
  - by rewrite DownloadBaseSystem_pool.
  - by rewrite ExtractBasePkgs_pool.
  - by rewrite UpdateBaseJail_pool.
  - by rewrite SetBaseJailConf_pool.
  - rewrite (CreateZFSSnapshot_run H). apply zfs_run_grows.
  - rewrite (CreateJail_zfs H). apply zfs_run_grows.
Qed.

Lemma run_steps_grow sched l w :
  pool_le (pool w) (pool (run_steps H (mkBuilder (Wrap H) o) sched l w).2).
Proof.
  apply (preserves_forM (fun w' => pool_le (pool w) (pool w'))); [|done].
  intros st. apply run_step_grows.
Qed.

(** The snapshot step where the snapshot exists. *)
Lemma CreateZFSSnapshot_taken w :
  release_snapshot o ∈ snapshots (pool w) ->
  is_ok (CreateZFSSnapshot (mkBuilder (Wrap H) o) w).1 = false.
Proof.
  intros Hs. destruct (CreateZFSSnapshot _ w).1 as [[]|e] eqn:Hr; [|done].
  pose proof (CreateZFSSnapshot_run H o w) as Hrun. rewrite (surjective_pairing (CreateZFSSnapshot _ w)) in Hrun.
  apply (f_equal fst) in Hrun. simpl in Hrun. rewrite Hr in Hrun.
  unfold zfs_snapshot in Hrun. repeat case_match; simplify_eq/=; try done.
  by case_bool_decide.
Qed.

Lemma steps_before_snapshot_keep sched w :
  release_snapshot o ∈ snapshots (pool w) ->
  release_snapshot o ∈
    snapshots (pool (forM_ (run_step H (mkBuilder (Wrap H) o) sched) steps_before_snapshot w).2).
Proof.
  intros Hs. by apply (run_steps_grow sched steps_before_snapshot w).
Qed.

(** A run of [Initialize] that starts where the snapshot of the release
    exists fails before the jail, under every schedule of the fetcher: the
    steps before the snapshot keep it, the snapshot step is refused or
    never reached, and the clone is not attempted. *)
Lemma Initialize_rerun sched w :
  release_snapshot o ∈ snapshots (pool w) ->
  is_ok (run_steps H (mkBuilder (Wrap H) o) sched steps_before_jail w).1 = false /\
  Initialize H (mkBuilder (Wrap H) o) sched w =
    run_steps H (mkBuilder (Wrap H) o) sched steps_before_jail w.
Proof.
  intros Hs. pose proof (steps_before_snapshot_keep sched w Hs) as Hp.
  unfold run_steps.
  assert (is_ok (forM_ (run_step H (mkBuilder (Wrap H) o) sched) steps_before_jail w).1 = false)
    as Hfail.
  { rewrite (forM_app _ steps_before_snapshot [SSnapshot] w). unfold bind at 1.
    destruct (forM_ _ steps_before_snapshot w) as [[[]|e] w1]; [|done]. simpl in *.
    pose proof (CreateZFSSnapshot_taken w1 Hp) as Hsnap. unfold bind.
    by destruct (CreateZFSSnapshot _ w1) as [[[]|e] w2]. }
  split; [done|]. rewrite (Initialize_steps H _ sched w). unfold run_steps.
  rewrite (forM_app _ steps_before_jail [SJail] w). unfold bind at 1.
  by destruct (forM_ _ steps_before_jail w) as [[[]|e] w1].
Qed.


(** C20: [Initialize] cannot be run twice: when a run came to the jail
    step, every later run of it from the world it left, under any
    schedule of the fetcher, fails before the jail -- the snapshot [@p1]
    of the release is there, no step removes it, and the snapshot step
    refuses the name. *)
Theorem Initialize_twice sched sched' w w1 :
  run_steps H (mkBuilder (Wrap H) o) sched steps_before_jail w = (Ok tt, w1) ->
  let w' := (Initialize H (mkBuilder (Wrap H) o) sched w).2 in
  is_ok (run_steps H (mkBuilder (Wrap H) o) sched' steps_before_jail w').1 = false /\
  Initialize H (mkBuilder (Wrap H) o) sched' w' =
    run_steps H (mkBuilder (Wrap H) o) sched' steps_before_jail w'.
Proof.
  intros Hrun w'. apply Initialize_rerun. subst w'.
  rewrite (Initialize_steps H _ sched w). unfold run_steps in *.
  rewrite (forM_app _ steps_before_jail [SJail] w). unfold bind at 1. rewrite Hrun.
  apply (steps_before_jail_snapshot H o) in Hrun. simpl. unfold bind.
  rewrite (CreateJail_zfs H). cbn [snd zfs_world pool]. by rewrite zfs_clone_slash.
Qed.

End rerun.

#[export] Instance ref_host_env m dec : EnvHost (ref_host m dec).
Proof. by intros args f p. Qed.


Lemma Initialize_twice_witness :
  let w' := (Initialize host0 pipeline_builder sched0 pipeline_world).2 in
  is_ok (run_steps host0 pipeline_builder sched_last_first steps_before_jail w').1 = false /\
  Initialize host0 pipeline_builder sched_last_first w' =
    run_steps host0 pipeline_builder sched_last_first steps_before_jail w'.
Proof.
  apply (Initialize_twice host0 opts0 sched0 sched_last_first pipeline_world
           (run_steps host0 pipeline_builder sched0 steps_before_jail pipeline_world).2).
  apply run_eq. by vm_compute.
Defined.

(** The second run on the machine of the examples: the dataset is there,
    nothing is fetched, the archives are extracted and patched again, and
    the snapshot is refused. *)
Example Initialize_second_run :
  let w1 := (Initialize host0 pipeline_builder sched0 pipeline_world).2 in
  let r := Initialize host0 pipeline_builder sched0 w1 in
  r.1 = Err (ErrExit 1) /\
  drop (length (trace w1)) (trace r.2) =
    [EvExec "zfs" ["create"; "-p"; release_dataset opts0] (Some 0);
     extract_event opts0 "base.txz"; extract_event opts0 "lib32.txz";
     extract_event opts0 "ports.txz";
     EvExec "env" (update_args opts0) (Some 0);
     EvExec "zfs" ["snapshot"; release_snapshot opts0] (Some 1)].
Proof. by vm_compute. Qed.

