(* ===== verification/Outcome.v ===== *)
(** * Outcome: what a run of the pipeline leaves

  [Initialize] of [src/build.go] (lines 216-236) on a host whose [zfs] is
  the reference.  The steps compose as follows: the configuration step
  writes an empty resolver file into the tree, the snapshot step records
  the tree as it is then, and the jail step is refused before it touches
  anything.  So a run that comes to the jail step ends with an error and
  leaves the snapshot of a tree whose resolver file is empty, no jail, and
  no descriptor open. *)

From stdpp Require Import base gmap gmultiset strings list.
From S2P Require Import Prelude.
From S2P Require Import Host.
From S2P Require Import HostFacts.
From S2P Require Import Trace.
From S2P Require Import Handles.
From S2P Require Import Options.
From S2P Require Import Zfs.
From S2P Require Import Config.
From S2P Require Import Extract.
From S2P Require Import Fetch.
From S2P Require Import Pipeline.
From S2P Require Import Rerun.

(** The steps before the configuration of the tree. *)
Definition steps_before_configure : list step_name :=
  [SDataset; SFetch; SExtract; SPatch].

(** * Theorems *)

Section outcome.
Context (H : Host) `{!ZfsHost H} (o : Opts).

(** The snapshot step leaves the files alone. *)
Lemma CreateZFSSnapshot_fs w : fs (CreateZFSSnapshot (mkBuilder (Wrap H) o) w).2 = fs w.
Proof. by rewrite (CreateZFSSnapshot_run H). Qed.

(** The steps before the jail, when they succeed, leave an empty
    resolver file in the tree: the snapshot is taken of that tree. *)
Lemma steps_before_jail_resolv sched w w1 :
  run_steps H (mkBuilder (Wrap H) o) sched steps_before_jail w = (Ok tt, w1) ->
  files (fs w1) !! tree_resolv o = Some "".
Proof.
  unfold run_steps.
  rewrite (forM_app _ steps_before_configure [SConfigure; SSnapshot] w).
  intros ([] & w0 & _ & ([] & w2 & Hc & ([] & w3 & Hs & [= <-])%bind_inv_ok)%bind_inv_ok)%bind_inv_ok.
  apply (SetBaseJailConf_ok H) in Hc. cbn [run_step] in Hs.
  pose proof (CreateZFSSnapshot_fs w2) as Hfs. rewrite Hs in Hfs. simpl in Hfs.
  rewrite Hfs, Hc. apply lookup_insert_eq.
Qed.

(** C14: the steps of [Initialize] composed, on a host whose [zfs] is
    the reference: a run whose six steps before the jail succeed ends
    with the error of the clone, and leaves the world of those steps but
    for the event of the refused clone: the snapshot of the release is
    there, the resolver file of the tree it was taken of is empty, no
    dataset of a jail was made and no descriptor is left open. *)
Theorem Initialize_outcome sched w w1 :
  run_steps H (mkBuilder (Wrap H) o) sched steps_before_jail w = (Ok tt, w1) ->
  exists w',
    Initialize H (mkBuilder (Wrap H) o) sched w = (Err (ErrExit 1), w') /\
    fs w' = fs w1 /\ pool w' = pool w1 /\ stdout w' = stdout w1 /\
    trace w' = trace w1 ++
      [EvExec "zfs" ["clone"; "/" +:+ release_snapshot o; "/zroot/jails/base"] (Some 1)] /\
    release_snapshot o ∈ snapshots (pool w') /\
    files (fs w') !! tree_resolv o = Some "" /\
    handles w' = handles w.
Proof.
  intros Hrun. eexists. split.
  { rewrite (Initialize_steps H _ sched w). unfold run_steps in *.
    rewrite (forM_app _ steps_before_jail [SJail] w). unfold bind at 1. rewrite Hrun.
    simpl. unfold bind. by rewrite (CreateJail_zfs H). }
  pose proof (steps_before_jail_snapshot H o sched w w1 Hrun) as Hsnap.
  pose proof (steps_before_jail_resolv sched w w1 Hrun) as Hres.
  pose proof (balanced_run _ w (balanced_forM _ steps_before_jail
                (run_step_balanced H o sched))) as Hh.
  unfold run_steps in Hrun. rewrite Hrun in Hh.
  unfold zfs_world. rewrite zfs_clone_slash. by split_and!.
Qed.

End outcome.

Lemma Initialize_outcome_witness :
  exists w',
    Initialize host0 pipeline_builder sched0 pipeline_world = (Err (ErrExit 1), w') /\
    fs w' = fs (run_steps host0 pipeline_builder sched0 steps_before_jail pipeline_world).2 /\
    pool w' = pool (run_steps host0 pipeline_builder sched0 steps_before_jail pipeline_world).2 /\
    stdout w' = stdout (run_steps host0 pipeline_builder sched0 steps_before_jail pipeline_world).2 /\
    trace w' = trace (run_steps host0 pipeline_builder sched0 steps_before_jail pipeline_world).2 ++
      [EvExec "zfs" ["clone"; "/" +:+ release_snapshot opts0; "/zroot/jails/base"] (Some 1)] /\
    release_snapshot opts0 ∈ snapshots (pool w') /\
    files (fs w') !! tree_resolv opts0 = Some "" /\
    handles w' = handles pipeline_world.
Proof.
  apply (Initialize_outcome host0 opts0 sched0 pipeline_world).
  apply run_eq. by vm_compute.
Defined.
